(** * The DBML editing surface: reconciliation of an imported schema with the diagram

    Shallow embedding of the two editor components
    - [TableDBML]        (explicit "Apply Changes" button), and
    - [EditorTableDBML]  (changes applied automatically while typing),
    followed by the properties of their reconciliation and apply pipeline.

    Conventions of the embedding
    - JavaScript strings are [string]; numbers that are only carried around
      (coordinates, timestamps, line numbers) are [Z].
    - An optional array ([tables?], [relationships?]) is a plain list: every
      use in the source goes through [?.] or [|| []], so an absent array
      behaves as the empty one.
    - [new Map()] whose iteration order is observed is an insertion-ordered
      association list ([JsMap]); maps that are only looked up are [gmap].
    - Everything the components import from elsewhere (the DBML importer and
      exporter, the diagram store, [generateId], [Date.now], [JSON.parse])
      is a member of the class [Host].
    - State set with a [useState] setter and refs are fields of one record
      per component; a callback reads the record as it is when the callback
      is called.
    - The editor widget is a record of what the component reads from it
      and sets on it (text, cursor, selection, scroll offsets); what the
      widget does by itself is a member of the class [Monaco]. *)

From Stdlib Require Import ZArith String Ascii List Sorted Lia.
From stdpp Require Import base option list strings pretty gmap.

Local Open Scope string_scope.
Local Open Scope Z_scope.
Local Open Scope list_scope.

(* ===================================================================== *)
(** ** Domain objects (lib/domain) *)
(* ===================================================================== *)

(** Properties of an object that the components copy with [...spread] and
    never inspect. *)
Definition Props : Type := list (string * string).

Module DBField.
Record t : Type := make
  { id : string;
    name : string;
    rest : Props }.

(** [{ ...field, id: newId }] *)
Definition withId (newId : string) (field : t) : t :=
  {| id := newId; name := name field; rest := rest field |}.
End DBField.

Module DBIndex.
Record t : Type := make
  { id : string;
    name : string;
    rest : Props }.
End DBIndex.

Module DBTable.
Record t : Type := make
  { id : string;
    name : string;
    schema : option string;
    x : Z;
    y : Z;
    color : string;
    fields : list DBField.t;
    indexes : list DBIndex.t;
    rest : Props }.
End DBTable.

Inductive Cardinality : Type := one | many.

Module DBRelationship.
Record t : Type := make
  { id : string;
    name : string;
    sourceSchema : option string;
    sourceTableId : string;
    targetSchema : option string;
    targetTableId : string;
    sourceFieldId : string;
    targetFieldId : string;
    sourceCardinality : Cardinality;
    targetCardinality : Cardinality;
    createdAt : Z }.
End DBRelationship.

Inductive DatabaseType : Type :=
  | GENERIC | POSTGRESQL | MYSQL | SQL_SERVER | MARIADB | SQLITE
  | COCKROACHDB | OTHER_DATABASE (tag : string).

Module Diagram.
Record t : Type := make
  { id : string;
    databaseType : DatabaseType;
    tables : list DBTable.t;
    relationships : list DBRelationship.t }.

(** [{ ...diagram, tables, relationships }] *)
Definition withContent (ts : list DBTable.t) (rs : list DBRelationship.t)
    (d : t) : t :=
  {| id := id d; databaseType := databaseType d;
     tables := ts; relationships := rs |}.
End Diagram.

Inductive ImportFormat : Type := mysql | postgres | mssql.

Definition databaseTypeToImportFormat (type : DatabaseType) : ImportFormat :=
  match type with
  | SQL_SERVER => mssql
  | MYSQL | MARIADB => mysql
  | POSTGRESQL | COCKROACHDB | SQLITE => postgres
  | _ => postgres
  end.

(* ===================================================================== *)
(** ** JavaScript helpers *)
(* ===================================================================== *)

(** Truthiness of a string: only the empty string is falsy. *)
Definition truthy (s : string) : bool := negb (String.eqb s "").

(** Truthiness of [string | undefined]. *)
Definition truthyOpt (o : option string) : bool :=
  match o with
  | Some s => truthy s
  | None => false
  end.

(** [value || ''] for [value : string | undefined]. *)
Definition orEmpty (o : option string) : string :=
  match o with
  | Some s => s
  | None => ""
  end.

(** [new Map<string, V>()] with the iteration order of the language:
    entries are listed in the order their key was first set, and setting
    an existing key keeps its place. *)
Module JsMap.
Section WithValue.
Context {V : Type}.

Definition t : Type := list (string * V).

Definition empty : t := [].

Fixpoint set (k : string) (v : V) (m : t) : t :=
  match m with
  | [] => [(k, v)]
  | (k', v') :: m' =>
      if String.eqb k' k then (k', v) :: m' else (k', v') :: set k v m'
  end.

Fixpoint get (k : string) (m : t) : option V :=
  match m with
  | [] => None
  | (k', v') :: m' => if String.eqb k' k then Some v' else get k m'
  end.

Fixpoint delete (k : string) (m : t) : t :=
  match m with
  | [] => []
  | (k', v') :: m' =>
      if String.eqb k' k then m' else (k', v') :: delete k m'
  end.

Definition keys (m : t) : list string := map fst m.

Definition values (m : t) : list V := map snd m.
End WithValue.
Arguments t : clear implicits.
End JsMap.

(* ===================================================================== *)
(** ** Identity reconciliation of tables (both components, same code) *)
(* ===================================================================== *)

(** [`${table.schema || ''}.${table.name}`] *)
Definition tableKey (table : DBTable.t) : string :=
  orEmpty (DBTable.schema table) +:+ "." +:+ DBTable.name table.

(** [currentDiagram.tables?.forEach(table => currentTableMap.set(key, table))] *)
Definition currentTableMap (currentTables : list DBTable.t)
    : JsMap.t DBTable.t :=
  fold_left (fun m table => JsMap.set (tableKey table) table m)
            currentTables JsMap.empty.

(** [existingTable.fields.find(f => f.name === importedField.name)] *)
Definition findFieldByName (fieldName : string) (fields : list DBField.t)
    : option DBField.t :=
  List.find (fun f => String.eqb (DBField.name f) fieldName) fields.

(** The callback of [importedTable.fields.map(...)]. *)
Definition preserveFieldId (existingTable : DBTable.t)
    (importedField : DBField.t) : DBField.t :=
  match findFieldByName (DBField.name importedField)
                        (DBTable.fields existingTable) with
  | Some existingField =>
      DBField.withId (DBField.id existingField) importedField
  | None => importedField
  end.

(** [{ ...importedTable, id, x, y, color, fields: ... }] *)
Definition tableWithPreservedIds (existingTable importedTable : DBTable.t)
    : DBTable.t :=
  {| DBTable.id := DBTable.id existingTable;
     DBTable.name := DBTable.name importedTable;
     DBTable.schema := DBTable.schema importedTable;
     DBTable.x := DBTable.x existingTable;
     DBTable.y := DBTable.y existingTable;
     DBTable.color := DBTable.color existingTable;
     DBTable.fields :=
       map (preserveFieldId existingTable) (DBTable.fields importedTable);
     DBTable.indexes := DBTable.indexes importedTable;
     DBTable.rest := DBTable.rest importedTable |}.

(** The three mutable bindings the loop over the imported tables updates. *)
Record TableLoop : Type := mkTableLoop
  { remaining : JsMap.t DBTable.t;
    toAdd : list DBTable.t;
    toUpdate : list DBTable.t }.

(** The body of [importedDiagram.tables?.forEach(importedTable => ...)]. *)
Definition processImportedTable (st : TableLoop) (importedTable : DBTable.t)
    : TableLoop :=
  let key := tableKey importedTable in
  match JsMap.get key (remaining st) with
  | Some existingTable =>
      {| remaining := JsMap.delete key (remaining st);
         toAdd := toAdd st;
         toUpdate :=
           toUpdate st ++ [tableWithPreservedIds existingTable importedTable] |}
  | None =>
      {| remaining := remaining st;
         toAdd := toAdd st ++ [importedTable];
         toUpdate := toUpdate st |}
  end.

Record TableChanges : Type := mkTableChanges
  { tablesToAdd : list DBTable.t;
    tablesToUpdate : list DBTable.t;
    tablesToRemove : list DBTable.t }.

Definition reconcileTables (currentTables importedTables : list DBTable.t)
    : TableChanges :=
  let st :=
    fold_left processImportedTable importedTables
      {| remaining := currentTableMap currentTables;
         toAdd := []; toUpdate := [] |} in
  {| tablesToAdd := toAdd st;
     tablesToUpdate := toUpdate st;
     tablesToRemove := JsMap.values (remaining st) |}.

(* ===================================================================== *)
(** ** Relationship removal *)
(* ===================================================================== *)

(** [tables.find(t => t.id === tableId)] *)
Definition findTableById (tableId : string) (tables : list DBTable.t)
    : option DBTable.t :=
  List.find (fun t => String.eqb (DBTable.id t) tableId) tables.

(** [fields.find(f => f.id === fieldId)] *)
Definition findFieldById (fieldId : string) (fields : list DBField.t)
    : option DBField.t :=
  List.find (fun f => String.eqb (DBField.id f) fieldId) fields.

(** [tablesToRemove.some(table => table.id === rel.sourceTableId ||
    table.id === rel.targetTableId)] *)
Definition isConnectedToRemovedTable (removed : list DBTable.t)
    (rel : DBRelationship.t) : bool :=
  existsb
    (fun table =>
       String.eqb (DBTable.id table) (DBRelationship.sourceTableId rel)
       || String.eqb (DBTable.id table) (DBRelationship.targetTableId rel))
    removed.

(** [currentDiagram.tables?.find(t => t.id === tableId)?.fields || []] *)
Definition fieldsOfTable (tableId : string) (tables : list DBTable.t)
    : list DBField.t :=
  match findTableById tableId tables with
  | Some t => DBTable.fields t
  | None => []
  end.

(** [table.fields.some(field => field.name === fieldName)] *)
Definition fieldExists (fieldName : string) (table : DBTable.t) : bool :=
  existsb (fun field => String.eqb (DBField.name field) fieldName)
          (DBTable.fields table).

(** "Check if the specific fields involved in the relationship have changed
    in the updated tables": the part of the filter callback that starts at
    [const sourceTable = tablesToUpdate.find(...)] and runs to its
    [return false]. *)
Definition endpointFieldGone (currentTables updated : list DBTable.t)
    (rel : DBRelationship.t) : bool :=
  let sourceTable :=
    findTableById (DBRelationship.sourceTableId rel) updated in
  let targetTable :=
    findTableById (DBRelationship.targetTableId rel) updated in
  if bool_decide (is_Some sourceTable) || bool_decide (is_Some targetTable)
  then
    let sourceTableFields :=
      fieldsOfTable (DBRelationship.sourceTableId rel) currentTables in
    let targetTableFields :=
      fieldsOfTable (DBRelationship.targetTableId rel) currentTables in
    let sourceFieldName :=
      DBField.name <$>
        findFieldById (DBRelationship.sourceFieldId rel) sourceTableFields in
    let targetFieldName :=
      DBField.name <$>
        findFieldById (DBRelationship.targetFieldId rel) targetTableFields in
    if negb (truthyOpt sourceFieldName) || negb (truthyOpt targetFieldName)
    then true
    else if match sourceTable with
            | Some updatedSource =>
                negb (fieldExists (orEmpty sourceFieldName) updatedSource)
            | None => false
            end
    then true
    else match targetTable with
         | Some updatedTarget =>
             negb (fieldExists (orEmpty targetFieldName) updatedTarget)
         | None => false
         end
  else false.

(** [`${sourceTable}.${sourceField}:${targetTable}.${targetField}`] *)
Definition relationshipKey
    (sourceTable sourceField targetTable targetField : string) : string :=
  sourceTable +:+ "." +:+ sourceField +:+ ":" +:+
  targetTable +:+ "." +:+ targetField.

(** The names a relationship's four ids stand for in a list of tables:
    source table, source field, target table, target field. Both
    components resolve in this order, tables by id first, then the fields
    inside the tables found. *)
Definition endpointNames (tables : list DBTable.t) (rel : DBRelationship.t)
    : option (string * string * string * string) :=
  sourceTable ← findTableById (DBRelationship.sourceTableId rel) tables;
  targetTable ← findTableById (DBRelationship.targetTableId rel) tables;
  sourceField ← findFieldById (DBRelationship.sourceFieldId rel)
                              (DBTable.fields sourceTable);
  targetField ← findFieldById (DBRelationship.targetFieldId rel)
                              (DBTable.fields targetTable);
  Some (DBTable.name sourceTable, DBField.name sourceField,
        DBTable.name targetTable, DBField.name targetField).

(** [importedRelationshipMap] of [EditorTableDBML]: the callback of
    [importedDiagram.relationships?.forEach] sets the key and the reverse
    key of every imported relationship whose endpoints it can name. *)
Definition recordImportedRelationship (importedTables : list DBTable.t)
    (m : gmap string bool) (rel : DBRelationship.t) : gmap string bool :=
  match endpointNames importedTables rel with
  | Some (srcT, srcF, tgtT, tgtF) =>
      <[relationshipKey tgtT tgtF srcT srcF := true]>
        (<[relationshipKey srcT srcF tgtT tgtF := true]> m)
  | None => m
  end.

Definition importedRelationshipMap (imported : Diagram.t)
    : gmap string bool :=
  fold_left (recordImportedRelationship (Diagram.tables imported))
            (Diagram.relationships imported) ∅.

(** [map.has(key)] *)
Definition has (key : string) (m : gmap string bool) : bool :=
  bool_decide (is_Some (m !! key)).

(** "Check if this relationship exists in the imported DBML"
    ([EditorTableDBML] only). *)
Definition absentFromImport (currentTables : list DBTable.t)
    (importedKeys : gmap string bool) (rel : DBRelationship.t) : bool :=
  match endpointNames currentTables rel with
  | Some (srcT, srcF, tgtT, tgtF) =>
      negb (has (relationshipKey srcT srcF tgtT tgtF) importedKeys)
      && negb (has (relationshipKey tgtT tgtF srcT srcF) importedKeys)
  | None => false
  end.

(* ===================================================================== *)
(** ** The merged table list and the relationship addition pass *)
(* ===================================================================== *)

(** [updatedDiagram.tables] after its three assignments. *)
Definition updatedDiagramTables (currentTables : list DBTable.t)
    (ch : TableChanges) : list DBTable.t :=
  let kept :=
    List.filter
      (fun table =>
         negb (existsb
                 (fun t => String.eqb (DBTable.id t) (DBTable.id table))
                 (tablesToRemove ch)))
      currentTables in
  let refreshed :=
    map (fun table =>
           match findTableById (DBTable.id table) (tablesToUpdate ch) with
           | Some t => t
           | None => table
           end)
        kept in
  refreshed ++ tablesToAdd ch.

(** [updatedDiagram.tables?.forEach(table =>
       tableNameToCurrentId.set(table.name, table.id))] *)
Definition tableNameToCurrentId (tables : list DBTable.t)
    : gmap string string :=
  fold_left
    (fun m table => <[DBTable.name table := DBTable.id table]> m)
    tables ∅.

(** Everything the callback of [importedDiagram.relationships.map] has
    bound when it reaches "Check if this relationship already exists". *)
Record Endpoints : Type := mkEndpoints
  { importedSourceTable : DBTable.t;
    importedTargetTable : DBTable.t;
    importedSourceField : DBField.t;
    importedTargetField : DBField.t;
    currentSourceTableId : string;
    currentTargetTableId : string;
    currentSourceTable : DBTable.t;
    currentTargetTable : DBTable.t;
    currentSourceField : DBField.t;
    currentTargetField : DBField.t }.

(** [tableNameToCurrentId.get(name)] followed by the test
    [if (!currentSourceTableId || !currentTargetTableId) return null]:
    an id that is missing or the empty string ends the callback. *)
Definition currentIdOf (nameToId : gmap string string) (tableName : string)
    : option string :=
  tableId ← nameToId !! tableName;
  if truthy tableId then Some tableId else None.

(** The callback up to that point; [None] is every [return null]. *)
Definition resolveEndpoints (importedTables updated : list DBTable.t)
    (rel : DBRelationship.t) : option Endpoints :=
  let nameToId := tableNameToCurrentId updated in
  ist ← findTableById (DBRelationship.sourceTableId rel) importedTables;
  itt ← findTableById (DBRelationship.targetTableId rel) importedTables;
  isf ← findFieldById (DBRelationship.sourceFieldId rel) (DBTable.fields ist);
  itf ← findFieldById (DBRelationship.targetFieldId rel) (DBTable.fields itt);
  sid ← currentIdOf nameToId (DBTable.name ist);
  tid ← currentIdOf nameToId (DBTable.name itt);
  cst ← findTableById sid updated;
  ctt ← findTableById tid updated;
  csf ← findFieldByName (DBField.name isf) (DBTable.fields cst);
  ctf ← findFieldByName (DBField.name itf) (DBTable.fields ctt);
  Some {| importedSourceTable := ist; importedTargetTable := itt;
          importedSourceField := isf; importedTargetField := itf;
          currentSourceTableId := sid; currentTargetTableId := tid;
          currentSourceTable := cst; currentTargetTable := ctt;
          currentSourceField := csf; currentTargetField := ctf |}.

(** The predicate of [currentDiagram.relationships?.find(existingRel => ...)]. *)
Definition connects (sourceTableId sourceFieldId targetTableId
    targetFieldId : string) (existingRel : DBRelationship.t) : bool :=
  (String.eqb (DBRelationship.sourceTableId existingRel) sourceTableId
   && String.eqb (DBRelationship.targetTableId existingRel) targetTableId
   && String.eqb (DBRelationship.sourceFieldId existingRel) sourceFieldId
   && String.eqb (DBRelationship.targetFieldId existingRel) targetFieldId)
  || (String.eqb (DBRelationship.sourceTableId existingRel) targetTableId
      && String.eqb (DBRelationship.targetTableId existingRel) sourceTableId
      && String.eqb (DBRelationship.sourceFieldId existingRel) targetFieldId
      && String.eqb (DBRelationship.targetFieldId existingRel) sourceFieldId).

Definition existingRelationship (currentRelationships : list DBRelationship.t)
    (e : Endpoints) : option DBRelationship.t :=
  List.find
    (connects (currentSourceTableId e) (DBField.id (currentSourceField e))
              (currentTargetTableId e) (DBField.id (currentTargetField e)))
    currentRelationships.

(** The endpoints of a relationship that the callback goes on to create:
    resolution succeeded and no existing relationship connects them. *)
Definition endpointsToAdd (currentRelationships : list DBRelationship.t)
    (importedTables updated : list DBTable.t) (rel : DBRelationship.t)
    : option Endpoints :=
  e ← resolveEndpoints importedTables updated rel;
  match existingRelationship currentRelationships e with
  | Some _ => None
  | None => Some e
  end.

(** "Return properly mapped relationship" *)
Definition mappedRelationship (rel : DBRelationship.t) (e : Endpoints)
    (newId : string) (now : Z) : DBRelationship.t :=
  {| DBRelationship.id := newId;
     DBRelationship.sourceTableId := currentSourceTableId e;
     DBRelationship.targetTableId := currentTargetTableId e;
     DBRelationship.sourceFieldId := DBField.id (currentSourceField e);
     DBRelationship.targetFieldId := DBField.id (currentTargetField e);
     DBRelationship.sourceCardinality := DBRelationship.sourceCardinality rel;
     DBRelationship.targetCardinality := DBRelationship.targetCardinality rel;
     DBRelationship.sourceSchema :=
       Some (orEmpty (DBTable.schema (currentSourceTable e)));
     DBRelationship.targetSchema :=
       Some (orEmpty (DBTable.schema (currentTargetTable e)));
     DBRelationship.name :=
       DBTable.name (importedSourceTable e) +:+ "_" +:+
       DBField.name (importedSourceField e) +:+ "_" +:+
       DBTable.name (importedTargetTable e) +:+ "_" +:+
       DBField.name (importedTargetField e);
     DBRelationship.createdAt := now |}.

(* ===================================================================== *)
(** ** Values of the language, and the extraction of a parser diagnostic *)
(* ===================================================================== *)

(** What an evaluation ends in: a value, or a thrown exception. The
    handlers of the components only log what they catch, so the exception
    carries nothing. *)
Inductive Completion (A : Type) : Type :=
  | Normal (a : A)
  | Throw.
Arguments Normal {A} a.
Arguments Throw {A}.

#[global] Instance Completion_ret : MRet Completion := @Normal.
#[global] Instance Completion_bind : MBind Completion :=
  fun A B f c => match c with Normal a => f a | Throw => Throw end.

(** A value as [catch (e)] or [JSON.parse] hands it over. Objects list
    their own properties. *)
#[local] Unset Elimination Schemes.
Inductive JSValue : Type :=
  | JUndefined
  | JNull
  | JBool (b : bool)
  | JNum (n : Z)
  | JStr (s : string)
  | JArr (items : list JSValue)
  | JObj (props : list (string * JSValue)).
#[local] Set Elimination Schemes.

Definition truthyValue (v : JSValue) : bool :=
  match v with
  | JUndefined | JNull => false
  | JBool b => b
  | JNum n => negb (n =? 0)
  | JStr s => truthy s
  | JArr _ | JObj _ => true
  end.

Fixpoint ownProperty (key : string) (props : list (string * JSValue))
    : option JSValue :=
  match props with
  | [] => None
  | (k, v) :: props' => if String.eqb k key then Some v else ownProperty key props'
  end.

(** [value.key] for the keys read here ([diags], [message], [location],
    [start], [line], [column]): a TypeError on [undefined] and [null],
    the own property of an object, [undefined] on everything else. *)
Definition getProp (key : string) (v : JSValue) : Completion JSValue :=
  match v with
  | JUndefined | JNull => Throw
  | JObj props => Normal (default JUndefined (ownProperty key props))
  | JBool _ | JNum _ | JStr _ | JArr _ => Normal JUndefined
  end.

(** [value?.[0]] *)
Definition firstElement (v : JSValue) : JSValue :=
  match v with
  | JUndefined | JNull => JUndefined
  | JArr (item :: _) => item
  | JArr [] => JUndefined
  | JStr (String c _) => JStr (String c "")
  | JStr "" => JUndefined
  | JObj props => default JUndefined (ownProperty "0" props)
  | JBool _ | JNum _ => JUndefined
  end.

(** [error && typeof error === 'object' && 'diags' in error] *)
Definition isObjectWithDiags (error : JSValue) : bool :=
  match error with
  | JObj props => bool_decide (is_Some (ownProperty "diags" props))
  | _ => false
  end.

Record DBMLError : Type := mkDBMLError
  { message : JSValue;
    line : JSValue;
    column : JSValue }.

(** [{ message: diag.message, line: diag.location.start.line,
       column: diag.location.start.column }] *)
Definition errorOfDiagnostic (diag : JSValue) : Completion DBMLError :=
  msg ← getProp "message" diag;
  location ← getProp "location" diag;
  start ← getProp "start" location;
  ln ← getProp "line" start;
  location' ← getProp "location" diag;
  start' ← getProp "start" location';
  col ← getProp "column" start';
  mret {| message := msg; line := ln; column := col |}.

(** [if (parsed.diags?.[0]) { return {...} }], falling through to the
    final [return null] otherwise. *)
Definition errorOfPayload (parsed : JSValue) : Completion (option DBMLError) :=
  diags ← getProp "diags" parsed;
  if truthyValue (firstElement diags)
  then err ← errorOfDiagnostic (firstElement diags); mret (Some err)
  else mret None.

(* ===================================================================== *)
(** ** The editor widget (monaco-editor) *)
(* ===================================================================== *)

(** The text model of the editor widget, as far as the component calls
    it: lines and columns are numbered from 1, a line that does not exist
    cannot be asked for (the widget throws), and the largest column of a
    line is the one after its last character. *)
Module TextModel.
Record t : Type := make
  { lines : list string }.

Definition getLineCount (m : t) : Z := Z.of_nat (length (lines m)).

Definition getLineContent (m : t) (lineNumber : Z) : Completion string :=
  if (1 <=? lineNumber) && (lineNumber <=? getLineCount m)
  then match lines m !! Z.to_nat (lineNumber - 1) with
       | Some content => Normal content
       | None => Throw
       end
  else Throw.

Definition getLineMaxColumn (m : t) (lineNumber : Z) : Completion Z :=
  content ← getLineContent m lineNumber;
  mret (Z.of_nat (String.length content) + 1).
End TextModel.

Module Position.
Record t : Type := make
  { lineNumber : Z;
    column : Z }.
End Position.

Module Selection.
Record t : Type := make
  { startLineNumber : Z;
    startColumn : Z;
    endLineNumber : Z;
    endColumn : Z }.
End Selection.

(** The widget behind [editorRef.current], as the component reads it and
    sets it: the text of its model, [None] when [getModel()] is [null];
    what [getPosition()] and [getSelection()] return, [None] for [null];
    the scroll offsets; and whether it has the focus. The widget has one
    cursor: [setPosition] leaves an empty selection at the position, and
    [setSelection] leaves the position at the end of the selection. *)
Module Editor.
Record t : Type := make
  { model : option string;
    position : option Position.t;
    selection : option Selection.t;
    scrollTop : Z;
    scrollLeft : Z;
    hasFocus : bool }.

Definition withModel (text : option string) (e : t) : t :=
  make text (position e) (selection e) (scrollTop e) (scrollLeft e)
       (hasFocus e).

(** The cursor state of the widget becomes the given one. *)
Definition withCursor (p : Position.t) (sel : Selection.t) (e : t) : t :=
  make (model e) (Some p) (Some sel) (scrollTop e) (scrollLeft e)
       (hasFocus e).

(** [editor.setPosition(p)] *)
Definition setPosition (p : Position.t) (e : t) : t :=
  withCursor p
    (Selection.make (Position.lineNumber p) (Position.column p)
                    (Position.lineNumber p) (Position.column p))
    e.

(** [editor.setSelection(sel)] *)
Definition setSelection (sel : Selection.t) (e : t) : t :=
  withCursor
    (Position.make (Selection.endLineNumber sel) (Selection.endColumn sel))
    sel e.

(** [editor.setScrollTop(top)] and [editor.setScrollLeft(left)] *)
Definition setScrollTop (newScrollTop : Z) (e : t) : t :=
  make (model e) (position e) (selection e) newScrollTop (scrollLeft e)
       (hasFocus e).

Definition setScrollLeft (newScrollLeft : Z) (e : t) : t :=
  make (model e) (position e) (selection e) (scrollTop e) newScrollLeft
       (hasFocus e).

(** [editor.focus()] *)
Definition focus (e : t) : t :=
  make (model e) (position e) (selection e) (scrollTop e) (scrollLeft e)
       true.

(** A widget that has just been given a model: the cursor is at the
    start of the text. *)
Definition mounted (text : string) : t :=
  make (Some text) (Some (Position.make 1 1))
       (Some (Selection.make 1 1 1 1)) 0 0 false.
End Editor.

(** What the widget does by itself; its code is not among the sources. *)
Class Monaco : Type :=
  { (** the lines of the model of a text *)
    Monaco_lines : string -> list string;
    (** the widget after [pushEditOperations] has replaced its whole text
        by the given one: where that leaves the cursor, the selection and
        the scroll offsets *)
    Monaco_afterEdit : Editor.t -> string -> Editor.t;
    (** whether the widget calls the listeners of
        [onDidChangeCursorPosition] when a call takes it from the first
        state to the second *)
    Monaco_reportsCursor : Editor.t -> Editor.t -> bool;
    (** [getScrolledVisiblePosition(position)?.top], [None] when the
        widget returns [null] *)
    Monaco_visibleTop : Editor.t -> Position.t -> option Z;
    (** [getLayoutInfo().height] *)
    Monaco_height : Editor.t -> Z;
    (** the scroll offsets, top and left, after
        [revealPositionInCenterIfOutsideViewport(position)] *)
    Monaco_revealed : Editor.t -> Position.t -> Z * Z }.

(** What the components of the side panel call and the class [Host] does
    not have. *)
Class Lib : Type :=
  { (** [text.toLowerCase()] *)
    String_toLowerCase : string -> string;
    (** [shouldShowTablesBySchemaFilter(table, filteredSchemas)] *)
    shouldShowTablesBySchemaFilter :
      DBTable.t -> option (list string) -> bool }.

(* ===================================================================== *)
(** ** The host: everything the components call but do not define *)
(* ===================================================================== *)

(** The mutations of the diagram store ([useChartDB]). The producer
    handed to [updateTablesState] is [() => tablesToUpdate]; the call
    records the list it returns. *)
Inductive StoreCall : Type :=
  | removeTables (ids : list string)
  | removeRelationships (ids : list string)
  | updateTablesState (tables : list DBTable.t)
  | addTables (tables : list DBTable.t)
  | addRelationships (relationships : list DBRelationship.t).

(** Notifications, by the message they carry. *)
Inductive Toast : Type :=
  | toastDBMLError (err : DBMLError)
      (** "DBML Error: Please fix the error before applying changes" *)
  | toastDBMLApplied (added updated removed : nat)
      (** "DBML Applied: n tables added, n tables updated, n tables removed" *)
  | toastChangesApplied
      (** "DBML Changes Applied" *)
  | toastApplyFailed
      (** "Error: Failed to apply DBML changes" *)
  | toastGenerateFailed
      (** "Error: Failed to generate DBML" *).

Class Host : Type :=
  { (** [importDBMLToDiagram(content)]; [None] when the promise rejects *)
    importDBMLToDiagram : string -> option Diagram.t;
    (** [exportBaseSQL(diagram, isDBMLFlow)] *)
    exportBaseSQL : Diagram.t -> bool -> string;
    (** [importer.import(script, format)]; [None] when it throws *)
    importer_import : string -> ImportFormat -> option string;
    (** [new Parser().parse(content, 'dbml')]: the value thrown, if any *)
    Parser_parse : string -> option JSValue;
    (** [JSON.parse(text)]; [None] when it throws *)
    JSON_parse : string -> option JSValue;
    (** the identifier [generateId()] returns on its n-th call *)
    generateId : nat -> string;
    (** the time [Date.now()] returns on its n-th call *)
    Date_now : nat -> Z;
    (** whether a call of a store mutation ends in an exception *)
    storeRejects : StoreCall -> bool;
    (** [name.replace(/\s/g, '_')] *)
    replaceWhitespace : string -> string;
    (** [content.trim()] *)
    String_trim : string -> string;
    (** the functions of the side panel and the editor widget *)
    Host_lib :: Lib;
    Host_monaco :: Monaco }.

(** [parseDBMLError]: the body runs inside [try], every exception ends in
    [return null]. *)
Definition parseDBMLError `{Host} (error : JSValue) : option DBMLError :=
  let body : Completion (option DBMLError) :=
    match error with
    | JStr text =>
        match JSON_parse text with
        | Some parsed => errorOfPayload parsed
        | None => Throw
        end
    | _ =>
        if isObjectWithDiags error then errorOfPayload error else mret None
    end in
  match body with
  | Normal result => result
  | Throw => None
  end.

(* ===================================================================== *)
(** ** Effects of a component: state, store calls, toasts, exceptions *)
(* ===================================================================== *)

Record World (S : Type) : Type := mkWorld
  { session : S;                    (** state and refs of the component *)
    storeCalls : list StoreCall;    (** store mutations issued, oldest first *)
    toasts : list Toast;            (** notifications shown, oldest first *)
    idsDrawn : nat;                 (** calls of [generateId] so far *)
    clockReads : nat                (** calls of [Date.now] so far *) }.
Arguments mkWorld {S}.
Arguments session {S}.
Arguments storeCalls {S}.
Arguments toasts {S}.
Arguments idsDrawn {S}.
Arguments clockReads {S}.

(** A computation of a component. What was done before an exception stays
    done: the world is threaded through [Throw] as well. *)
Definition M (S A : Type) : Type := World S -> Completion A * World S.

#[global] Instance M_ret {S} : MRet (M S) := fun A a w => (Normal a, w).
#[global] Instance M_bind {S} : MBind (M S) :=
  fun A B f m w =>
    match m w with
    | (Normal a, w') => f a w'
    | (Throw, w') => (Throw, w')
    end.

Section Effects.
Context `{Host} {S : Type}.

Definition getSession : M S S := fun w => (Normal (session w), w).

Definition modifySession (f : S -> S) : M S unit :=
  fun w =>
    (Normal tt,
     mkWorld (f (session w)) (storeCalls w) (toasts w)
             (idsDrawn w) (clockReads w)).

(** [await store.mutation(...)] *)
Definition callStore (c : StoreCall) : M S unit :=
  fun w =>
    let w' := mkWorld (session w) (storeCalls w ++ [c]) (toasts w)
                      (idsDrawn w) (clockReads w) in
    (if storeRejects c then Throw else Normal tt, w').

(** [toast({...})] *)
Definition toast (t : Toast) : M S unit :=
  fun w =>
    (Normal tt,
     mkWorld (session w) (storeCalls w) (toasts w ++ [t])
             (idsDrawn w) (clockReads w)).

(** [generateId()] *)
Definition freshId : M S string :=
  fun w =>
    (Normal (generateId (idsDrawn w)),
     mkWorld (session w) (storeCalls w) (toasts w)
             (Datatypes.S (idsDrawn w)) (clockReads w)).

(** [Date.now()] *)
Definition now : M S Z :=
  fun w =>
    (Normal (Date_now (clockReads w)),
     mkWorld (session w) (storeCalls w) (toasts w)
             (idsDrawn w) (Datatypes.S (clockReads w))).

(** A computation that touches nothing of the component. *)
Definition complete {A} (c : Completion A) : M S A := fun w => (c, w).

(** A host call that may throw. *)
Definition orThrow {A} (result : option A) : M S A :=
  fun w =>
    match result with
    | Some a => (Normal a, w)
    | None => (Throw, w)
    end.

(** [try { body } catch (e) { handler }] *)
Definition tryCatch {A} (body handler : M S A) : M S A :=
  fun w =>
    match body w with
    | (Normal a, w') => (Normal a, w')
    | (Throw, w') => handler w'
    end.

(** [try { body } finally { cleanup }] *)
Definition tryFinally {A} (body : M S A) (cleanup : M S unit) : M S A :=
  fun w =>
    match body w with
    | (outcome, w') =>
        match cleanup w' with
        | (Normal _, w'') => (outcome, w'')
        | (Throw, w'') => (Throw, w'')
        end
    end.

(** [if (operand.length > 0) { await call }] *)
Definition whenNonEmpty {A} (operand : list A) (c : StoreCall) : M S unit :=
  match operand with
  | [] => mret tt
  | _ :: _ => callStore c
  end.
End Effects.

(* ===================================================================== *)
(** ** The apply pipeline shared by the two components *)
(* ===================================================================== *)

(** What one run of the pipeline decided. *)
Record Applied : Type := mkApplied
  { changes : TableChanges;
    relationshipsToRemove : list DBRelationship.t;
    updatedTables : list DBTable.t;
    relationshipsToAdd : list DBRelationship.t }.

Section Pipeline.
Context `{Host} {S : Type}.

(** [importedDiagram.relationships.map(rel => ...).filter(rel => rel !== null)].
    [generateId()] and [Date.now()] are called, in this order, only for a
    relationship that is created. Over an empty list this is [[]], which
    is also what the guard [relationships.length > 0] leaves in place. *)
Fixpoint mapRelationships (currentRelationships : list DBRelationship.t)
    (importedTables updated : list DBTable.t)
    (rels : list DBRelationship.t) : M S (list DBRelationship.t) :=
  match rels with
  | [] => mret []
  | rel :: rels' =>
      mapped ←
        match endpointsToAdd currentRelationships importedTables updated rel with
        | Some e =>
            newId ← freshId;
            t ← now;
            mret (Some (mappedRelationship rel e newId t))
        | None => mret None
        end;
      others ← mapRelationships currentRelationships importedTables updated rels';
      mret (match mapped with
            | Some r => r :: others
            | None => others
            end)
  end.

(** From "Create table name to ID mapping for the current diagram" to
    "Add the new relationships". [removalRule] is the callback of
    [currentDiagram.relationships?.filter], the one place where the two
    components differ. The maps the source builds and never reads
    ([currentFieldMap], [importedFieldNameMap], [tableNameToId],
    [tableFieldMap], [tableNameToImportedId]) are left out. *)
Definition reconcileAndApply
    (removalRule : Diagram.t -> Diagram.t -> TableChanges ->
                   DBRelationship.t -> bool)
    (currentDiagram importedDiagram : Diagram.t) : M S Applied :=
  let ch := reconcileTables (Diagram.tables currentDiagram)
                            (Diagram.tables importedDiagram) in
  let toRemove :=
    List.filter (removalRule currentDiagram importedDiagram ch)
                (Diagram.relationships currentDiagram) in
  whenNonEmpty (tablesToRemove ch)
    (removeTables (map DBTable.id (tablesToRemove ch)));;
  whenNonEmpty toRemove
    (removeRelationships (map DBRelationship.id toRemove));;
  whenNonEmpty (tablesToUpdate ch) (updateTablesState (tablesToUpdate ch));;
  whenNonEmpty (tablesToAdd ch) (addTables (tablesToAdd ch));;
  let updated := updatedDiagramTables (Diagram.tables currentDiagram) ch in
  toAdd ← mapRelationships (Diagram.relationships currentDiagram)
                           (Diagram.tables importedDiagram) updated
                           (Diagram.relationships importedDiagram);
  whenNonEmpty toAdd (addRelationships toAdd);;
  mret {| changes := ch; relationshipsToRemove := toRemove;
          updatedTables := updated; relationshipsToAdd := toAdd |}.

(** The diagram handed to [exportBaseSQL] after the mutations: the merged
    tables, the relationships that were not removed, and the new ones. *)
Definition mergedDiagram (currentDiagram : Diagram.t) (a : Applied)
    : Diagram.t :=
  Diagram.withContent
    (updatedTables a)
    (List.filter
       (fun rel =>
          negb (existsb
                  (fun r => String.eqb (DBRelationship.id r)
                                       (DBRelationship.id rel))
                  (relationshipsToRemove a)))
       (Diagram.relationships currentDiagram)
     ++ relationshipsToAdd a)
    currentDiagram.

(** [await importer.import(exportBaseSQL({...}, true), format)] *)
Definition regenerateDBML (currentDiagram : Diagram.t) (a : Applied)
    : M S string :=
  orThrow
    (importer_import
       (exportBaseSQL (mergedDiagram currentDiagram a) true)
       (databaseTypeToImportFormat (Diagram.databaseType currentDiagram))).

(** [filteredDiagramWithoutSpaces] of [generateDBML]. *)
Definition tableWithoutSpaces (table : DBTable.t) : DBTable.t :=
  {| DBTable.id := DBTable.id table;
     DBTable.name := replaceWhitespace (DBTable.name table);
     DBTable.schema := DBTable.schema table;
     DBTable.x := DBTable.x table;
     DBTable.y := DBTable.y table;
     DBTable.color := DBTable.color table;
     DBTable.fields :=
       map (fun field =>
              {| DBField.id := DBField.id field;
                 DBField.name := replaceWhitespace (DBField.name field);
                 DBField.rest := DBField.rest field |})
           (DBTable.fields table);
     DBTable.indexes :=
       map (fun index =>
              {| DBIndex.id := DBIndex.id index;
                 DBIndex.name := replaceWhitespace (DBIndex.name index);
                 DBIndex.rest := DBIndex.rest index |})
           (DBTable.indexes table);
     DBTable.rest := DBTable.rest table |}.

Definition filteredDiagramWithoutSpaces (currentDiagram : Diagram.t)
    (filteredTables : list DBTable.t) : Diagram.t :=
  Diagram.withContent
    (map tableWithoutSpaces filteredTables)
    (List.filter
       (fun rel =>
          bool_decide (is_Some (findTableById
                                  (DBRelationship.sourceTableId rel)
                                  filteredTables))
          && bool_decide (is_Some (findTableById
                                     (DBRelationship.targetTableId rel)
                                     filteredTables)))
       (Diagram.relationships currentDiagram))
    currentDiagram.

(** [generateDBML]: the text the editor shows for the diagram. *)
Definition generateDBML (currentDiagram : Diagram.t)
    (filteredTables : list DBTable.t) : M S string :=
  let baseScript :=
    exportBaseSQL
      (filteredDiagramWithoutSpaces currentDiagram filteredTables) true in
  match importer_import baseScript
          (databaseTypeToImportFormat (Diagram.databaseType currentDiagram))
  with
  | Some text => mret text
  | None => toast toastGenerateFailed;; mret ""
  end.
End Pipeline.

(* ===================================================================== *)
(** ** [TableDBML]: changes are applied when the user asks for it *)
(* ===================================================================== *)

Module TableDBML.
Record State : Type := mkState
  { dbmlContent : string;
    dbmlError : option DBMLError;
    isDirty : bool }.

(** The callback of [currentDiagram.relationships?.filter(...)]. *)
Definition removalRule (currentDiagram importedDiagram : Diagram.t)
    (ch : TableChanges) (rel : DBRelationship.t) : bool :=
  if isConnectedToRemovedTable (tablesToRemove ch) rel then true
  else endpointFieldGone (Diagram.tables currentDiagram)
                         (tablesToUpdate ch) rel.

Section WithHost.
Context `{Host}.

Definition setIsDirty (b : bool) : M State unit :=
  modifySession (fun s => mkState (dbmlContent s) (dbmlError s) b).

Definition setDbmlContent (text : string) : M State unit :=
  modifySession (fun s => mkState text (dbmlError s) (isDirty s)).

Definition setDbmlError (err : option DBMLError) : M State unit :=
  modifySession (fun s => mkState (dbmlContent s) err (isDirty s)).

(** The callback that [validateDBML] runs 500ms after the last change:
    an empty or blank content clears the error, any other content is
    parsed, and what the parser throws goes through [parseDBMLError]. *)
Definition validateDBML (content : option string) : M State unit :=
  match content with
  | None => setDbmlError None
  | Some text =>
      if negb (truthy text) || negb (truthy (String_trim text))
      then setDbmlError None
      else match Parser_parse text with
           | None => setDbmlError None
           | Some thrown => setDbmlError (parseDBMLError thrown)
           end
  end.

Definition applyDBMLChanges (currentDiagram : Diagram.t) : M State unit :=
  s ← getSession;
  match dbmlError s with
  | Some err => toast (toastDBMLError err)
  | None =>
      tryCatch
        (importedDiagram ← orThrow (importDBMLToDiagram (dbmlContent s));
         a ← reconcileAndApply removalRule currentDiagram importedDiagram;
         setIsDirty false;;
         updatedDBML ← regenerateDBML currentDiagram a;
         setDbmlContent updatedDBML;;
         toast (toastDBMLApplied
                  (length (tablesToAdd (changes a)))
                  (length (tablesToUpdate (changes a)))
                  (length (tablesToRemove (changes a)))))
        (toast toastApplyFailed)
  end.
End WithHost.
End TableDBML.

(* ===================================================================== *)
(** ** [EditorTableDBML]: the cursor after a programmatic update *)
(* ===================================================================== *)

(** The loop of [commonSubstringLength]: [score] counts the positions,
    from the first on, at which the two strings have the same character,
    and stops at the first position where they differ or one of them
    ends. *)
Fixpoint leadingMatches (a b : string) : nat :=
  match a, b with
  | String x a', String y b' =>
      if Ascii.eqb x y then Datatypes.S (leadingMatches a' b') else 0%nat
  | _, _ => 0%nat
  end.

Definition commonSubstringLength `{Lib} (a b : string) : nat :=
  leadingMatches (String_toLowerCase a) (String_toLowerCase b).

Section Cursor.
Context `{Host} `{Lib}.

(** The body of [for (let i = startLine; i <= endLine; i++)]; the pair is
    [(bestMatch, bestLine)]. *)
Definition considerLine (cursorLineContent : string) (m : TextModel.t)
    (best : nat * Z) (i : Z) : Completion (nat * Z) :=
  lineContent ← TextModel.getLineContent m i;
  let similarity := commonSubstringLength cursorLineContent lineContent in
  mret (if (fst best <? similarity)%nat then (similarity, i) else best).

Fixpoint searchLines (cursorLineContent : string) (m : TextModel.t)
    (candidates : list Z) (best : nat * Z) : Completion (nat * Z) :=
  match candidates with
  | [] => mret best
  | i :: candidates' =>
      best' ← considerLine cursorLineContent m best i;
      searchLines cursorLineContent m candidates' best'
  end.

(** "Find the best line to position cursor based on content similarity":
    from [let bestLine = Math.min(...)] to the end of the loop.
    [cursorLineContent] is the line the cursor was on before the text was
    replaced, [None] for [null]. *)
Definition bestLineFor (currentPosition : Position.t)
    (cursorLineContent : option string) (m : TextModel.t) : Completion Z :=
  let newLineCount := TextModel.getLineCount m in
  let bestLine := Z.min (Position.lineNumber currentPosition) newLineCount in
  match cursorLineContent with
  | Some content =>
      if truthy content && (0 <? String.length (String_trim content))%nat
      then
        let startLine := Z.max 1 (bestLine - 5) in
        let endLine := Z.min newLineCount (bestLine + 5) in
        best ← searchLines content m
                 (seqZ startLine (endLine - startLine + 1))
                 (0%nat, bestLine);
        mret (snd best)
      else mret bestLine
  | None => mret bestLine
  end.

(** "Restore view state and cursor position", in the branch where the
    editor had a view state and a position, [currentPosition]: the
    position handed to [editor.setPosition], [None] when the test
    [bestLine > 0 && bestColumn > 0] fails and the cursor is left alone. *)
Definition restoredPosition (currentPosition : Position.t)
    (cursorLineContent : option string) (m : TextModel.t)
    : Completion (option Position.t) :=
  bestLine ← bestLineFor currentPosition cursorLineContent m;
  lineMaxColumn ← TextModel.getLineMaxColumn m bestLine;
  let bestColumn := Z.min (Position.column currentPosition) lineMaxColumn in
  if (0 <? bestLine) && (0 <? bestColumn)
  then mret (Some (Position.make bestLine bestColumn))
  else mret None.

(** [new monaco.Selection(...)] with its four clamped arguments. *)
Definition adjustedSelection (currentSelection : Selection.t)
    (m : TextModel.t) : Completion Selection.t :=
  let newLineCount := TextModel.getLineCount m in
  let startLine :=
    Z.min (Selection.startLineNumber currentSelection) newLineCount in
  startMax ← TextModel.getLineMaxColumn m startLine;
  let endLine :=
    Z.min (Selection.endLineNumber currentSelection) newLineCount in
  endMax ← TextModel.getLineMaxColumn m endLine;
  mret (Selection.make
          startLine
          (Z.min (Selection.startColumn currentSelection) startMax)
          endLine
          (Z.min (Selection.endColumn currentSelection) endMax)).

(** "Restore selection if applicable", once the cursor has been put
    back: the selection handed to [editor.setSelection], [None] when
    there is none to restore or the restoration throws, which the [catch]
    around it swallows. *)
Definition restoredSelection (currentSelection : option Selection.t)
    (m : TextModel.t) : option Selection.t :=
  match currentSelection with
  | Some sel =>
      if negb (Selection.startLineNumber sel =? Selection.endLineNumber sel)
         || negb (Selection.startColumn sel =? Selection.endColumn sel)
      then match adjustedSelection sel m with
           | Normal adjusted => Some adjusted
           | Throw => None
           end
      else None
  | None => None
  end.
End Cursor.

(* ===================================================================== *)
(** ** [EditorTableDBML]: changes are applied while the user types *)
(* ===================================================================== *)

Module EditorTableDBML.
Record State : Type := mkState
  { dbmlContent : string;
    dbmlError : option DBMLError;
    isApplying : bool;
    originalDbmlContent : string;
    editorRef : option Editor.t;
    skipContentChangeRef : bool;
    changesInProgressRef : bool;
    lastValidContentRef : string;
    userHasEditedRef : bool;
    lastUpdateTimeRef : Z;
    toastTimeoutRef : option Toast }.

Definition setDbmlContent' (v : string) (s : State) : State :=
  mkState v (dbmlError s) (isApplying s) (originalDbmlContent s)
          (editorRef s) (skipContentChangeRef s) (changesInProgressRef s)
          (lastValidContentRef s) (userHasEditedRef s)
          (lastUpdateTimeRef s) (toastTimeoutRef s).

Definition setDbmlError' (v : option DBMLError) (s : State) : State :=
  mkState (dbmlContent s) v (isApplying s) (originalDbmlContent s)
          (editorRef s) (skipContentChangeRef s) (changesInProgressRef s)
          (lastValidContentRef s) (userHasEditedRef s)
          (lastUpdateTimeRef s) (toastTimeoutRef s).

Definition setIsApplying' (v : bool) (s : State) : State :=
  mkState (dbmlContent s) (dbmlError s) v (originalDbmlContent s)
          (editorRef s) (skipContentChangeRef s) (changesInProgressRef s)
          (lastValidContentRef s) (userHasEditedRef s)
          (lastUpdateTimeRef s) (toastTimeoutRef s).

Definition setOriginalDbmlContent' (v : string) (s : State) : State :=
  mkState (dbmlContent s) (dbmlError s) (isApplying s) v
          (editorRef s) (skipContentChangeRef s) (changesInProgressRef s)
          (lastValidContentRef s) (userHasEditedRef s)
          (lastUpdateTimeRef s) (toastTimeoutRef s).

Definition setEditor' (v : option Editor.t) (s : State) : State :=
  mkState (dbmlContent s) (dbmlError s) (isApplying s)
          (originalDbmlContent s) v (skipContentChangeRef s)
          (changesInProgressRef s) (lastValidContentRef s)
          (userHasEditedRef s) (lastUpdateTimeRef s) (toastTimeoutRef s).

Definition setSkipContentChange' (v : bool) (s : State) : State :=
  mkState (dbmlContent s) (dbmlError s) (isApplying s)
          (originalDbmlContent s) (editorRef s) v
          (changesInProgressRef s) (lastValidContentRef s)
          (userHasEditedRef s) (lastUpdateTimeRef s) (toastTimeoutRef s).

Definition setChangesInProgress' (v : bool) (s : State) : State :=
  mkState (dbmlContent s) (dbmlError s) (isApplying s)
          (originalDbmlContent s) (editorRef s) (skipContentChangeRef s)
          v (lastValidContentRef s)
          (userHasEditedRef s) (lastUpdateTimeRef s) (toastTimeoutRef s).

Definition setLastValidContent' (v : string) (s : State) : State :=
  mkState (dbmlContent s) (dbmlError s) (isApplying s)
          (originalDbmlContent s) (editorRef s) (skipContentChangeRef s)
          (changesInProgressRef s) v
          (userHasEditedRef s) (lastUpdateTimeRef s) (toastTimeoutRef s).

Definition setUserHasEdited' (v : bool) (s : State) : State :=
  mkState (dbmlContent s) (dbmlError s) (isApplying s)
          (originalDbmlContent s) (editorRef s) (skipContentChangeRef s)
          (changesInProgressRef s) (lastValidContentRef s)
          v (lastUpdateTimeRef s) (toastTimeoutRef s).

Definition setLastUpdateTime' (v : Z) (s : State) : State :=
  mkState (dbmlContent s) (dbmlError s) (isApplying s)
          (originalDbmlContent s) (editorRef s) (skipContentChangeRef s)
          (changesInProgressRef s) (lastValidContentRef s)
          (userHasEditedRef s) v (toastTimeoutRef s).

Definition setToastTimeout' (v : option Toast) (s : State) : State :=
  mkState (dbmlContent s) (dbmlError s) (isApplying s)
          (originalDbmlContent s) (editorRef s) (skipContentChangeRef s)
          (changesInProgressRef s) (lastValidContentRef s)
          (userHasEditedRef s) (lastUpdateTimeRef s) v.

(** The text the editor shows: [editorRef.current?.getModel()?.getValue()]. *)
Definition editorText (s : State) : option string :=
  editorRef s ≫= Editor.model.

(** The callback of [currentDiagram.relationships?.filter(...)]. *)
Definition removalRule (currentDiagram importedDiagram : Diagram.t)
    (ch : TableChanges) (rel : DBRelationship.t) : bool :=
  if isConnectedToRemovedTable (tablesToRemove ch) rel then true
  else if absentFromImport (Diagram.tables currentDiagram)
                           (importedRelationshipMap importedDiagram) rel
  then true
  else endpointFieldGone (Diagram.tables currentDiagram)
                         (tablesToUpdate ch) rel.

(** What the user does in the editor, as the listeners registered in
    [handleEditorDidMount] see it. *)
Inductive EditorEvent : Type :=
  | Typed (text : string)
      (** the model content changed to [text] *)
  | CursorMoved (position : Position.t) (selection : Selection.t)
      (** the cursor went to [position], with [selection] selected *).

Section WithHost.
Context `{Host}.

(** [userHasEditedRef.current && Date.now() - lastUpdateTimeRef.current
    < window]: the clock is read only when the left operand holds. *)
Definition editedWithin (window : Z) : M State bool :=
  s ← getSession;
  if userHasEditedRef s
  then t ← now; mret (bool_decide (t - lastUpdateTimeRef s < window))
  else mret false.

(** The listeners that [handleEditorDidMount] registers on the widget. *)
Definition onDidChangeCursorPosition : M State unit :=
  t ← now;
  modifySession (setLastUpdateTime' t).

Definition onDidChangeModelContent : M State unit :=
  s ← getSession;
  if skipContentChangeRef s then mret tt
  else
    t ← now;
    modifySession (setLastUpdateTime' t);;
    modifySession (setUserHasEdited' true).

(** The model of the widget for a text: [getLineCount], [getLineContent]
    and [getLineMaxColumn] are those of its lines. *)
Definition textModel (text : string) : TextModel.t :=
  TextModel.make (Monaco_lines text).

(** A call of the component that takes the widget from [before] to
    [after] and may move its cursor: the listeners of the cursor run
    inside the call, when the widget reports a change. *)
Definition widgetCall (before after : Editor.t) : M State unit :=
  modifySession (setEditor' (Some after));;
  if Monaco_reportsCursor before after then onDidChangeCursorPosition
  else mret tt.

(** [cursorLineNumber ? model.getLineContent(cursorLineNumber) : null],
    on the text the widget has before the update. *)
Definition cursorLineContentOf (currentContent : string)
    (currentPosition : option Position.t) : Completion (option string) :=
  match currentPosition with
  | Some p =>
      if Position.lineNumber p =? 0 then mret None
      else
        content ← TextModel.getLineContent (textModel currentContent)
                                           (Position.lineNumber p);
        mret (Some content)
  | None => mret None
  end.

(** [model.pushEditOperations([], [{ range: model.getFullModelRange(),
    text: newContent }], () => null)]: the text of the widget is the new
    one, the rest is as the widget leaves it. *)
Definition pushEditOperations (newContent : string) (editor : Editor.t)
    : Editor.t :=
  Editor.withModel (Some newContent) (Monaco_afterEdit editor newContent).

(** From "Restore the scroll position to avoid jumps" to
    [editor.focus()]. *)
Definition restoreScroll (scrollTop scrollLeft : Z) (position : Position.t)
    (editor : Editor.t) : Editor.t :=
  let scrolled :=
    Editor.setScrollLeft scrollLeft (Editor.setScrollTop scrollTop editor) in
  let outside :=
    match Monaco_visibleTop scrolled position with
    | Some top => (top <? 0) || (Monaco_height scrolled <? top)
    | None => true
    end in
  Editor.focus
    (if outside
     then
       let '(revealedTop, revealedLeft) :=
         Monaco_revealed scrolled position in
       Editor.setScrollLeft revealedLeft
         (Editor.setScrollTop revealedTop scrolled)
     else scrolled).

(** "Restore view state and cursor position": [saved] is the widget
    before the update, [edited] the widget after its text was replaced.
    [saveViewState()] is [null] only for a widget without a model, which
    the function has left by then, and [shouldSaveCursor] is [true] at the
    one place the function is called from: the branch is taken whenever
    the widget had a position. *)
Definition restoreView (saved edited : Editor.t)
    (cursorLineContent : option string) (newContent : string)
    : M State unit :=
  match Editor.position saved return M State unit with
  | Some currentPosition =>
      target ← complete (restoredPosition currentPosition cursorLineContent
                                          (textModel newContent));
      match target return M State unit with
      | Some position =>
          let placed := Editor.setPosition position edited in
          widgetCall edited placed;;
          selected ←
            match restoredSelection (Editor.selection saved)
                                    (textModel newContent)
                  return M State Editor.t with
            | Some adjusted =>
                let selected := Editor.setSelection adjusted placed in
                widgetCall placed selected;;
                mret selected
            | None => mret placed
            end;
          modifySession
            (setEditor'
               (Some (restoreScroll (Editor.scrollTop saved)
                                    (Editor.scrollLeft saved)
                                    position selected)))
      | None => mret tt
      end
  | None => mret tt
  end.

(** [updateEditorContent(newContent)]. When the text is replaced the
    widget calls the listeners of [onDidChangeModelContent], which find
    [skipContentChangeRef] set, as does [handleDBMLChange]. *)
Definition updateEditorContent (newContent : string) : M State unit :=
  s ← getSession;
  match editorRef s return M State unit with
  | None => mret tt
  | Some editor =>
      match Editor.model editor return M State unit with
      | None => mret tt
      | Some currentContent =>
          typing ← editedWithin 500;
          if (typing : bool) then mret tt
          else if String.eqb currentContent newContent then mret tt
          else
            modifySession (setSkipContentChange' true);;
            tryFinally
              (cursorLineContent ←
                 complete (cursorLineContentOf currentContent
                                               (Editor.position editor));
               let edited := pushEditOperations newContent editor in
               modifySession (setEditor' (Some edited));;
               onDidChangeModelContent;;
               (if Monaco_reportsCursor editor edited
                then onDidChangeCursorPosition
                else mret tt);;
               modifySession (setDbmlContent' newContent);;
               restoreView editor edited cursorLineContent newContent)
              (modifySession (setSkipContentChange' false))
      end
  end.

(** [showToast]: errors at once, every other toast after 300ms, a newer
    one replacing the one that still waits. *)
Definition showToast (t : Toast) (destructive : bool) : M State unit :=
  if destructive then toast t
  else modifySession (setToastTimeout' (Some t)).

(** [validateDBML]: whether the content may be applied. *)
Definition validateDBML (content : option string) : M State bool :=
  match content with
  | None => modifySession (setDbmlError' None);; mret true
  | Some text =>
      if negb (truthy text) || negb (truthy (String_trim text))
      then modifySession (setDbmlError' None);; mret true
      else match Parser_parse text with
           | None =>
               modifySession (setDbmlError' None);;
               modifySession (setLastValidContent' text);;
               mret true
           | Some thrown =>
               modifySession (setDbmlError' (parseDBMLError thrown));;
               mret false
           end
  end.

(** From "Don't update the editor content if the user is actively
    editing" to the assignment of [lastValidContentRef.current]. *)
Definition recordRegenerated (wasUserEditing : bool)
    (updatedDBML : string) : M State unit :=
  if wasUserEditing
  then
    modifySession (setOriginalDbmlContent' updatedDBML);;
    modifySession (setLastValidContent' updatedDBML)
  else
    updateEditorContent updatedDBML;;
    modifySession (setOriginalDbmlContent' updatedDBML);;
    modifySession (setLastValidContent' updatedDBML).

Definition changesCount (a : Applied) : nat :=
  (length (tablesToAdd (changes a))
   + length (tablesToRemove (changes a))
   + length (tablesToUpdate (changes a))
   + length (relationshipsToAdd a)
   + length (relationshipsToRemove a))%nat.

Definition applyDBMLChanges (currentDiagram : Diagram.t)
    (content : string) : M State unit :=
  s ← getSession;
  if bool_decide (is_Some (dbmlError s))
     || changesInProgressRef s || isApplying s
  then mret tt
  else if String.eqb content (originalDbmlContent s) then mret tt
  else
    wasUserEditing ← editedWithin 2000;
    modifySession (setIsApplying' true);;
    modifySession (setChangesInProgress' true);;
    tryFinally
      (tryCatch
         (importedDiagram ← orThrow (importDBMLToDiagram content);
          a ← reconcileAndApply removalRule currentDiagram importedDiagram;
          updatedDBML ← regenerateDBML currentDiagram a;
          recordRegenerated wasUserEditing updatedDBML;;
          if (0 <? changesCount a)%nat
          then showToast toastChangesApplied false
          else mret tt)
         (showToast toastApplyFailed true))
      (modifySession (setIsApplying' false);;
       modifySession (setChangesInProgress' false)).

(** What the user does in the widget: the widget changes, then it calls
    the listener. *)
Definition handleEditorEvent (ev : EditorEvent) : M State unit :=
  match ev with
  | Typed text =>
      modifySession
        (fun s =>
           setEditor'
             (Some (match editorRef s with
                    | Some editor => Editor.withModel (Some text) editor
                    | None => Editor.mounted text
                    end)) s);;
      onDidChangeModelContent
  | CursorMoved position selection =>
      modifySession
        (fun s =>
           setEditor' (Editor.withCursor position selection <$> editorRef s)
                      s);;
      onDidChangeCursorPosition
  end.

Fixpoint handleEditorEvents (evs : list EditorEvent) : M State unit :=
  match evs with
  | [] => mret tt
  | ev :: evs' => handleEditorEvent ev;; handleEditorEvents evs'
  end.
End WithHost.
End EditorTableDBML.

(* ===================================================================== *)
(** ** Vocabulary of the specification *)
(* ===================================================================== *)

(** [ef] is the first field of [fields] with the given name. *)
Definition firstNamed (fieldName : string) (fields : list DBField.t)
    (ef : DBField.t) : Prop :=
  exists before after,
    fields = before ++ ef :: after
    /\ DBField.name ef = fieldName
    /\ forall f, In f before -> DBField.name f <> fieldName.

(** The field [g] stands for the imported field [f] in a table updated
    from [existing]: same content, and the id of the existing field of that
    name when there is one, its own id otherwise. *)
Definition fieldKeepsId (existing : DBTable.t) (f g : DBField.t) : Prop :=
  DBField.name g = DBField.name f
  /\ DBField.rest g = DBField.rest f
  /\ (forall ef, firstNamed (DBField.name f) (DBTable.fields existing) ef ->
        DBField.id g = DBField.id ef)
  /\ ((forall ef, In ef (DBTable.fields existing) ->
         DBField.name ef <> DBField.name f) ->
      DBField.id g = DBField.id f).

(** The table [u] is [imported] put in the place of [existing]: identity
    and layout of the existing table, content of the imported one. *)
Definition keepsIdentity (existing imported u : DBTable.t) : Prop :=
  DBTable.id u = DBTable.id existing
  /\ DBTable.x u = DBTable.x existing
  /\ DBTable.y u = DBTable.y existing
  /\ DBTable.color u = DBTable.color existing
  /\ DBTable.name u = DBTable.name imported
  /\ DBTable.schema u = DBTable.schema imported
  /\ DBTable.indexes u = DBTable.indexes imported
  /\ DBTable.rest u = DBTable.rest imported
  /\ Forall2 (fieldKeepsId existing)
             (DBTable.fields imported) (DBTable.fields u).

(** Table keys are pairwise distinct (the uniqueness invariant of the data
    model, for the composed key the components look tables up by). *)
Definition uniqueKeys (tables : list DBTable.t) : Prop :=
  List.NoDup (map tableKey tables).

(** The pair that the key of a table is composed of: its schema, the
    empty string when it has none, and its name. *)
Definition schemaAndName (table : DBTable.t) : string * string :=
  (orEmpty (DBTable.schema table), DBTable.name table).

(** The number of [.] in a string. *)
Fixpoint dots (s : string) : nat :=
  match s with
  | EmptyString => 0
  | String c s' => ((if Ascii.eqb c "."%char then 1 else 0) + dots s')%nat
  end.

(** The relationship [r] connects the given endpoints, in this direction
    or the other. *)
Definition connectsEndpoints (r : DBRelationship.t)
    (sourceTableId sourceFieldId targetTableId targetFieldId : string) : Prop :=
  (DBRelationship.sourceTableId r = sourceTableId
   /\ DBRelationship.sourceFieldId r = sourceFieldId
   /\ DBRelationship.targetTableId r = targetTableId
   /\ DBRelationship.targetFieldId r = targetFieldId)
  \/ (DBRelationship.sourceTableId r = targetTableId
      /\ DBRelationship.sourceFieldId r = targetFieldId
      /\ DBRelationship.targetTableId r = sourceTableId
      /\ DBRelationship.targetFieldId r = sourceFieldId).

(** The number of characters of [s] that are [.] or [:], the separators
    of the composed keys. *)
Definition isSeparator (c : ascii) : bool :=
  Ascii.eqb c "."%char || Ascii.eqb c ":"%char.

Fixpoint separators (s : string) : nat :=
  match s with
  | EmptyString => 0
  | String c s' => ((if isSeparator c then 1 else 0) + separators s')%nat
  end.

(** None of the four names contains a separator. *)
Definition separatorFree (n : string * string * string * string) : Prop :=
  let '(a, b, c, d) := n in
  separators a = 0%nat /\ separators b = 0%nat
  /\ separators c = 0%nat /\ separators d = 0%nat.

(** Two relationships, each given by the names of its source table, source
    field, target table and target field, are matched by the component when
    the key of one, read in either direction, is the key of the other, read
    in either direction. *)
Definition matchedByNames (n m : string * string * string * string) : Prop :=
  let '(a, b, c, d) := n in
  let '(a', b', c', d') := m in
  relationshipKey a b c d = relationshipKey a' b' c' d'
  \/ relationshipKey c d a b = relationshipKey a' b' c' d'
  \/ relationshipKey a b c d = relationshipKey c' d' a' b'
  \/ relationshipKey c d a b = relationshipKey c' d' a' b'.

(** The imported table a relationship names as an endpoint, and the table
    of the merged list that this name leads to. *)
Definition importedTableOf (importedTables : list DBTable.t)
    (tableId : string) (t : DBTable.t) : Prop :=
  findTableById tableId importedTables = Some t.

Definition currentTableOf (updated : list DBTable.t) (tableName : string)
    (t : DBTable.t) : Prop :=
  exists tableId,
    tableNameToCurrentId updated !! tableName = Some tableId
    /\ findTableById tableId updated = Some t.

(** The endpoint of an imported relationship that names a table and a
    field resolves to the table [t] of the merged list: the name leads to
    [t], whose id is not the empty string, and [t] has a field of that
    name. *)
Definition endpointResolves (updated : list DBTable.t)
    (tableName fieldName : string) (t : DBTable.t) : Prop :=
  currentTableOf updated tableName t
  /\ DBTable.id t <> ""
  /\ exists f, In f (DBTable.fields t) /\ DBField.name f = fieldName.

(** The ways in which the endpoints of an imported relationship fail to
    resolve: a table or a field that is not in the imported schema, or
    whose name is not in the merged table list. *)
Inductive ResolutionFails (importedTables updated : list DBTable.t)
    (rel : DBRelationship.t) : Prop :=
  | noImportedSourceTable :
      (forall t, In t importedTables ->
         DBTable.id t <> DBRelationship.sourceTableId rel) ->
      ResolutionFails importedTables updated rel
  | noImportedTargetTable :
      (forall t, In t importedTables ->
         DBTable.id t <> DBRelationship.targetTableId rel) ->
      ResolutionFails importedTables updated rel
  | noImportedSourceField (ist : DBTable.t) :
      importedTableOf importedTables (DBRelationship.sourceTableId rel) ist ->
      (forall f, In f (DBTable.fields ist) ->
         DBField.id f <> DBRelationship.sourceFieldId rel) ->
      ResolutionFails importedTables updated rel
  | noImportedTargetField (itt : DBTable.t) :
      importedTableOf importedTables (DBRelationship.targetTableId rel) itt ->
      (forall f, In f (DBTable.fields itt) ->
         DBField.id f <> DBRelationship.targetFieldId rel) ->
      ResolutionFails importedTables updated rel
  | noCurrentSourceTable (ist : DBTable.t) :
      importedTableOf importedTables (DBRelationship.sourceTableId rel) ist ->
      (forall t, In t updated -> DBTable.name t <> DBTable.name ist) ->
      ResolutionFails importedTables updated rel
  | noCurrentTargetTable (itt : DBTable.t) :
      importedTableOf importedTables (DBRelationship.targetTableId rel) itt ->
      (forall t, In t updated -> DBTable.name t <> DBTable.name itt) ->
      ResolutionFails importedTables updated rel
  | noCurrentSourceField (ist cst : DBTable.t) (isf : DBField.t) :
      importedTableOf importedTables (DBRelationship.sourceTableId rel) ist ->
      findFieldById (DBRelationship.sourceFieldId rel) (DBTable.fields ist)
        = Some isf ->
      currentTableOf updated (DBTable.name ist) cst ->
      (forall f, In f (DBTable.fields cst) ->
         DBField.name f <> DBField.name isf) ->
      ResolutionFails importedTables updated rel
  | noCurrentTargetField (itt ctt : DBTable.t) (itf : DBField.t) :
      importedTableOf importedTables (DBRelationship.targetTableId rel) itt ->
      findFieldById (DBRelationship.targetFieldId rel) (DBTable.fields itt)
        = Some itf ->
      currentTableOf updated (DBTable.name itt) ctt ->
      (forall f, In f (DBTable.fields ctt) ->
         DBField.name f <> DBField.name itf) ->
      ResolutionFails importedTables updated rel.

(** The position of a store mutation in the pipeline. *)
Definition stepNumber (c : StoreCall) : nat :=
  match c with
  | removeTables _ => 1
  | removeRelationships _ => 2
  | updateTablesState _ => 3
  | addTables _ => 4
  | addRelationships _ => 5
  end.

(** The operand of a store mutation is the empty list. *)
Definition emptyOperand (c : StoreCall) : bool :=
  match c with
  | removeTables ids | removeRelationships ids =>
      match ids with [] => true | _ => false end
  | updateTablesState tables | addTables tables =>
      match tables with [] => true | _ => false end
  | addRelationships rels =>
      match rels with [] => true | _ => false end
  end.

(** A step of the pipeline as a list of calls: none for an empty operand. *)
Definition step {A} (operand : list A) (c : StoreCall) : list StoreCall :=
  match operand with
  | [] => []
  | _ :: _ => [c]
  end.

(** The world after further store calls. *)
Definition withCalls {S} (w : World S) (calls : list StoreCall) : World S :=
  mkWorld (session w) (storeCalls w ++ calls) (toasts w)
          (idsDrawn w) (clockReads w).

(** The calls a run makes when every one of them is accepted. *)
Definition pipelineCalls (a : Applied) : list StoreCall :=
  step (tablesToRemove (changes a))
       (removeTables (map DBTable.id (tablesToRemove (changes a))))
  ++ step (relationshipsToRemove a)
          (removeRelationships
             (map DBRelationship.id (relationshipsToRemove a)))
  ++ step (tablesToUpdate (changes a))
          (updateTablesState (tablesToUpdate (changes a)))
  ++ step (tablesToAdd (changes a)) (addTables (tablesToAdd (changes a)))
  ++ step (relationshipsToAdd a) (addRelationships (relationshipsToAdd a)).

(** The store calls made between two worlds are steps of the pipeline in
    their order, each at most once, none with an empty operand. *)
Definition orderedCalls {S} (w w' : World S) : Prop :=
  exists tr,
    storeCalls w' = storeCalls w ++ tr
    /\ StronglySorted lt (map stepNumber tr)
    /\ Forall (fun c => emptyOperand c = false) tr.

(** Between two worlds the pipeline ran for the given diagrams: the store
    calls made are the first steps of the plan [a] that the reconciliation
    yields, and all of its steps unless the store rejected a call. *)
Definition ranPipeline `{Host} {S}
    (rule : Diagram.t -> Diagram.t -> TableChanges -> DBRelationship.t -> bool)
    (currentDiagram importedDiagram : Diagram.t) (w w' : World S) : Prop :=
  exists a tr rest,
    storeCalls w' = storeCalls w ++ tr
    /\ tr ++ rest = pipelineCalls a
    /\ changes a = reconcileTables (Diagram.tables currentDiagram)
                                   (Diagram.tables importedDiagram)
    /\ relationshipsToRemove a
       = List.filter (rule currentDiagram importedDiagram (changes a))
                     (Diagram.relationships currentDiagram)
    /\ updatedTables a
       = updatedDiagramTables (Diagram.tables currentDiagram) (changes a)
    /\ (exists w1 w2 : World S,
          mapRelationships (Diagram.relationships currentDiagram)
                           (Diagram.tables importedDiagram)
                           (updatedTables a)
                           (Diagram.relationships importedDiagram) w1
          = (Normal (relationshipsToAdd a), w2))
    /\ (rest = [] \/ exists c, In c tr /\ storeRejects c = true).

(** The guards of [EditorTableDBML.applyDBMLChanges] let the run proceed:
    no parse error, no run in progress, and a content other than the
    baseline. *)
Definition proceeds (content : string) (s : EditorTableDBML.State) : bool :=
  negb (bool_decide (is_Some (EditorTableDBML.dbmlError s))
        || EditorTableDBML.changesInProgressRef s
        || EditorTableDBML.isApplying s)
  && negb (String.eqb content (EditorTableDBML.originalDbmlContent s)).

(** A computation that makes no store call. *)
Definition keepsCalls {S A} (m : M S A) : Prop :=
  forall w, storeCalls (snd (m w)) = storeCalls w.

(** The object [v] has the own property [key] with value [x]. *)
Definition hasProperty (v : JSValue) (key : string) (x : JSValue) : Prop :=
  exists props, v = JObj props /\ ownProperty key props = Some x.

(** [d] is the first element of the array [payload.diags]. *)
Definition firstDiagnostic (payload d : JSValue) : Prop :=
  exists others, hasProperty payload "diags" (JArr (d :: others)).

(** The diagnostic [d] carries the message [msg] and starts at line [ln],
    column [col]. *)
Definition diagnosticAt (d msg ln col : JSValue) : Prop :=
  hasProperty d "message" msg
  /\ exists location start,
       hasProperty d "location" location
       /\ hasProperty location "start" start
       /\ hasProperty start "line" ln
       /\ hasProperty start "column" col.

(** The value the extraction starts from: the payload itself, or what
    [JSON.parse] makes of it when it is a string. *)
Definition payloadRoot `{Host} (error root : JSValue) : Prop :=
  match error with
  | JStr text => JSON_parse text = Some root
  | _ => root = error
  end.

(** [{ ...table, indexes }] *)
Definition withIndexes (indexes : list DBIndex.t) (table : DBTable.t)
    : DBTable.t :=
  {| DBTable.id := DBTable.id table;
     DBTable.name := DBTable.name table;
     DBTable.schema := DBTable.schema table;
     DBTable.x := DBTable.x table;
     DBTable.y := DBTable.y table;
     DBTable.color := DBTable.color table;
     DBTable.fields := DBTable.fields table;
     DBTable.indexes := indexes;
     DBTable.rest := DBTable.rest table |}.

(** Modelled from the spec: the DBML importer and exporter
    ([importDBMLToDiagram], [exportBaseSQL], [importer.import]) are not
    among the sources. The specification describes the imported schema as
    "structurally identical to Diagram's tables/relationships but with
    freshly generated, diagram-unaware identities": what the importer reads
    in the text exported for a diagram has the content of the diagram's
    tables, fields and indexes under other ids, no layout, and
    relationships between the same named endpoints, in one direction or the
    other. *)
Definition sameField (f g : DBField.t) : Prop :=
  DBField.name f = DBField.name g /\ DBField.rest f = DBField.rest g.

Definition sameIndex (i j : DBIndex.t) : Prop :=
  DBIndex.name i = DBIndex.name j /\ DBIndex.rest i = DBIndex.rest j.

Definition sameTable (e t : DBTable.t) : Prop :=
  DBTable.name e = DBTable.name t
  /\ DBTable.schema e = DBTable.schema t
  /\ DBTable.rest e = DBTable.rest t
  /\ Forall2 sameField (DBTable.fields e) (DBTable.fields t)
  /\ Forall2 sameIndex (DBTable.indexes e) (DBTable.indexes t).

Definition reverseNames (n : string * string * string * string)
    : string * string * string * string :=
  let '(a, b, c, d) := n in (c, d, a, b).

Definition sameRelationship (exported imported : Diagram.t)
    (r q : DBRelationship.t) : Prop :=
  exists n m,
    endpointNames (Diagram.tables exported) r = Some n
    /\ endpointNames (Diagram.tables imported) q = Some m
    /\ (m = n \/ m = reverseNames n).

(** Modelled from the spec: the importer is not among the sources; this
    is the imported schema "structurally identical to Diagram's
    tables/relationships but with freshly generated identities" of the
    specification, for the tables and the relationships of a diagram. *)
Definition sameShape (exported imported : Diagram.t) : Prop :=
  Forall2 sameTable (Diagram.tables exported) (Diagram.tables imported)
  /\ Forall2 (sameRelationship exported imported)
             (Diagram.relationships exported)
             (Diagram.relationships imported).

(** Modelled from the spec: the exporter and the importer are not among
    the sources. [imported] is what the importer reads in the text that
    [generateDBML] produces for the whole of [currentDiagram]: the schema
    of the diagram as [generateDBML] hands it to the exporter, names
    normalised, under fresh identities. *)
Definition roundTrip `{Host} (currentDiagram imported : Diagram.t) : Prop :=
  sameShape
    (@filteredDiagramWithoutSpaces _ currentDiagram
       (Diagram.tables currentDiagram))
    imported.

(** The invariants of the data model: tables are identified by their id,
    by their key and, for the relationship pass, by their name; fields by
    their name within the table; and a relationship connects two named
    fields of tables of the diagram. *)
Definition wellFormedDiagram (d : Diagram.t) : Prop :=
  List.NoDup (map DBTable.id (Diagram.tables d))
  /\ uniqueKeys (Diagram.tables d)
  /\ List.NoDup (map DBTable.name (Diagram.tables d))
  /\ (forall t, In t (Diagram.tables d) ->
        List.NoDup (map DBField.name (DBTable.fields t)))
  /\ (forall r, In r (Diagram.relationships d) ->
        exists a b c d',
          endpointNames (Diagram.tables d) r = Some (a, b, c, d')
          /\ b <> "" /\ d' <> "").

(** The export leaves the names of the diagram as they are: none of them
    contains whitespace. *)
Definition namesWithoutSpaces `{Host} (d : Diagram.t) : Prop :=
  forall t, In t (Diagram.tables d) -> @tableWithoutSpaces _ t = t.

(** The update [u] replaces the table [e] by itself: everything as it
    was, but for the indexes, which are the imported ones, equal to the
    table's up to their ids. *)
Definition unchangedButIndexes (e u : DBTable.t) : Prop :=
  u = withIndexes (DBTable.indexes u) e
  /\ Forall2 sameIndex (DBTable.indexes e) (DBTable.indexes u).

(* ===================================================================== *)
(** ** A small diagram and an edit of it, for the examples *)
(* ===================================================================== *)

Module Sample.
Definition field (i n : string) : DBField.t := DBField.make i n [].

(** [Users(id, name)] at (10, 20), colour [#fff]. *)
Definition users : DBTable.t :=
  DBTable.make "t-users" "Users" None 10 20 "#fff"
    [field "f-users-id" "id"; field "f-users-name" "name"] [] [].

(** [Orders(id, user_id)] *)
Definition orders : DBTable.t :=
  DBTable.make "t-orders" "Orders" None 300 20 "#0af"
    [field "f-orders-id" "id"; field "f-orders-user" "user_id"] [] [].

(** [Orders.user_id > Users.id] *)
Definition ordersUser : DBRelationship.t :=
  DBRelationship.make "r-orders-user" "Orders_user_id_Users_id"
    None "t-orders" None "t-users" "f-orders-user" "f-users-id"
    many one 1700000000000.

Definition diagram : Diagram.t :=
  Diagram.make "d1" POSTGRESQL [users; orders] [ordersUser].

(** The importer's reading of the text after the user added a column
    [email] to [Users], renamed [Orders] to [Purchases] and kept the
    reference: fresh ids everywhere, no layout. *)
Definition importedUsers : DBTable.t :=
  DBTable.make "i-1" "Users" (Some "") 0 0 ""
    [field "i-2" "id"; field "i-3" "name"; field "i-4" "email"] [] [].

Definition importedPurchases : DBTable.t :=
  DBTable.make "i-5" "Purchases" (Some "") 0 0 ""
    [field "i-6" "id"; field "i-7" "user_id"] [] [].

Definition importedRef : DBRelationship.t :=
  DBRelationship.make "i-8" "" None "i-5" None "i-1" "i-7" "i-2"
    many one 0.

Definition edited : Diagram.t :=
  Diagram.make "i-0" POSTGRESQL [importedUsers; importedPurchases]
    [importedRef].

(** The importer's reading of the text generated for [diagram], not
    edited: the same tables and reference under fresh ids. *)
Definition reimportedUsers : DBTable.t :=
  DBTable.make "j-1" "Users" None 0 0 ""
    [field "j-2" "id"; field "j-3" "name"] [] [].

Definition reimportedOrders : DBTable.t :=
  DBTable.make "j-4" "Orders" None 0 0 ""
    [field "j-5" "id"; field "j-6" "user_id"] [] [].

Definition reimportedRef : DBRelationship.t :=
  DBRelationship.make "j-7" "" None "j-4" None "j-1" "j-6" "j-2"
    many one 0.

Definition reimported : Diagram.t :=
  Diagram.make "j-0" POSTGRESQL [reimportedUsers; reimportedOrders]
    [reimportedRef].

(** The text generated for [diagram] with the reference deleted: both
    tables intact, no relationship. *)
Definition withoutRef : Diagram.t :=
  Diagram.make "j-0" POSTGRESQL [reimportedUsers; reimportedOrders] [].

(** A reference whose source field the imported schema does not have. *)
Definition danglingRef : DBRelationship.t :=
  DBRelationship.make "i-9" "" None "i-5" None "i-1" "i-404" "i-2"
    many one 0.

(** Two tables named [Users], in the schemas [crm] and [shop], and an
    imported reference from [Orders.user_id] to the [Users] of [crm]. *)
Definition crmUsers : DBTable.t :=
  DBTable.make "t-crm-users" "Users" (Some "crm") 0 0 "#fff"
    [field "f-crm-id" "id"] [] [].

Definition shopUsers : DBTable.t :=
  DBTable.make "t-shop-users" "Users" (Some "shop") 0 200 "#fff"
    [field "f-shop-id" "id"] [] [].

Definition importedCrmUsers : DBTable.t :=
  DBTable.make "k-1" "Users" (Some "crm") 0 0 "" [field "k-2" "id"] [] [].

Definition importedShopUsers : DBTable.t :=
  DBTable.make "k-3" "Users" (Some "shop") 0 0 "" [field "k-4" "id"] [] [].

Definition importedOrders : DBTable.t :=
  DBTable.make "k-5" "Orders" None 0 0 ""
    [field "k-6" "id"; field "k-7" "user_id"] [] [].

Definition refToCrm : DBRelationship.t :=
  DBRelationship.make "k-8" "" None "k-5" None "k-1" "k-7" "k-2"
    many one 0.

(** A second table with the key of [users]. *)
Definition usersCopy : DBTable.t :=
  DBTable.make "t-users-2" "Users" None 10 220 "#fff"
    [field "f-users2-id" "id"] [] [].

(** Two tables whose schema and name differ and compose the same key,
    [a.b.c]. *)
Definition dottedCurrent : DBTable.t :=
  DBTable.make "t-dotted" "c" (Some "a.b") 40 40 "#fff"
    [field "f-dotted-id" "id"] [] [].

Definition dottedImported : DBTable.t :=
  DBTable.make "n-1" "b.c" (Some "a") 0 0 "" [field "n-2" "id"] [] [].

(** A diagram with a relationship from the field [b.c] of the table [a]
    to [T.f], and an imported schema that has both tables unchanged and,
    instead of that relationship, one from the field [c] of a table [a.b]
    to [T.f]. *)
Definition tableA : DBTable.t :=
  DBTable.make "t-a" "a" None 0 0 "#fff" [field "f-a-bc" "b.c"] [] [].

Definition tableT : DBTable.t :=
  DBTable.make "t-T" "T" None 300 0 "#fff" [field "f-T-f" "f"] [] [].

Definition dottedRef : DBRelationship.t :=
  DBRelationship.make "r-dotted" "a_b.c_T_f"
    None "t-a" None "t-T" "f-a-bc" "f-T-f" many one 1700000000000.

Definition dottedDiagram : Diagram.t :=
  Diagram.make "d3" POSTGRESQL [tableA; tableT] [dottedRef].

Definition importedA : DBTable.t :=
  DBTable.make "m-1" "a" None 0 0 "" [field "m-2" "b.c"] [] [].

Definition importedT : DBTable.t :=
  DBTable.make "m-3" "T" None 0 0 "" [field "m-4" "f"] [] [].

Definition importedAB : DBTable.t :=
  DBTable.make "m-5" "a.b" None 0 0 "" [field "m-6" "c"] [] [].

Definition importedDottedRef : DBRelationship.t :=
  DBRelationship.make "m-7" "" None "m-5" None "m-3" "m-6" "m-4" many one 0.

Definition dottedEdited : Diagram.t :=
  Diagram.make "m-0" POSTGRESQL [importedA; importedT; importedAB]
    [importedDottedRef].

(** The text generated for [diagram] with the reference moved from
    [Orders.user_id] to [Orders.id]: both tables intact. *)
Definition rewiredRef : DBRelationship.t :=
  DBRelationship.make "j-7" "" None "j-4" None "j-1" "j-5" "j-2"
    many one 0.

Definition rewired : Diagram.t :=
  Diagram.make "j-0" POSTGRESQL [reimportedUsers; reimportedOrders]
    [rewiredRef].

(** What the parser throws for a missing brace on line 3, column 7. *)
Definition diagnostic : JSValue :=
  JObj [("message", JStr "Expect an opening brace");
        ("location",
         JObj [("start", JObj [("line", JNum 3); ("column", JNum 7)]);
               ("end", JObj [("line", JNum 3); ("column", JNum 8)])])].

Definition parserFailure : JSValue :=
  JObj [("diags", JArr [diagnostic])].

(** States of the two components, and an error of the parser. *)
Definition tableDBMLState : TableDBML.State :=
  TableDBML.mkState "Table Users { ... } // edited" None true.

Definition parseError : DBMLError :=
  {| message := JStr "Expect an opening brace";
     line := JNum 3; column := JNum 7 |}.

Definition editorState : EditorTableDBML.State :=
  EditorTableDBML.mkState
    "Table Users { ... }" None false "Table Users { ... }"
    (Some (Editor.mounted "Table Users { ... }"))
    false false "Table Users { ... }" false 1700000000000 None.

Definition world {S} (s : S) : World S := mkWorld s [] [] 0 0.

(** Lower case on the letters of ASCII, and the lines of a text, cut at
    its line feeds. *)
Definition lowerChar (c : ascii) : ascii :=
  let n := N_of_ascii c in
  if (N.leb 65 n && N.leb n 90)%bool then ascii_of_N (n + 32) else c.

Fixpoint lower (s : string) : string :=
  match s with
  | EmptyString => EmptyString
  | String c s' => String (lowerChar c) (lower s')
  end.

Fixpoint linesOf (s : string) : list string :=
  match s with
  | EmptyString => [""]
  | String c s' =>
      if Ascii.eqb c "010"%char then "" :: linesOf s'
      else match linesOf s' with
           | line :: rest => String c line :: rest
           | [] => [String c ""]
           end
  end.

(** Every table is shown whatever the schema filter. *)
Definition lib : Lib :=
  {| String_toLowerCase := lower;
     shouldShowTablesBySchemaFilter := fun _ _ => true |}.

Definition samePosition (p q : option Position.t) : bool :=
  match p, q with
  | Some p, Some q =>
      (Position.lineNumber p =? Position.lineNumber q)
      && (Position.column p =? Position.column q)
  | None, None => true
  | _, _ => false
  end.

(** A widget that cuts its text at line feeds, puts the cursor at the
    start of a text that replaces the old one, reports the cursor when its
    position has changed, shows lines of 20 pixels in a viewport of 400,
    and scrolls a position it reveals to the middle of the viewport. *)
Definition monaco : Monaco :=
  {| Monaco_lines := linesOf;
     Monaco_afterEdit :=
       fun editor _ => Editor.setPosition (Position.make 1 1) editor;
     Monaco_reportsCursor :=
       fun before after =>
         negb (samePosition (Editor.position before) (Editor.position after));
     Monaco_visibleTop :=
       fun editor p =>
         Some (20 * (Position.lineNumber p - 1) - Editor.scrollTop editor);
     Monaco_height := fun _ => 400;
     Monaco_revealed :=
       fun editor p =>
         (Z.max 0 (20 * (Position.lineNumber p - 1) - 200),
          Editor.scrollLeft editor) |}.

(** A host that imports every text as [edited], accepts every store
    call, numbers the ids it generates and lets a millisecond pass
    between two readings of the clock. *)
Definition host : Host :=
  {| importDBMLToDiagram := fun _ => Some edited;
     exportBaseSQL := fun _ _ => "CREATE TABLE ...";
     importer_import := fun _ _ => Some "Table Users { ... }";
     Parser_parse := fun _ => None;
     JSON_parse := fun _ => None;
     generateId := fun n => "new-" +:+ pretty n;
     Date_now := fun n => 1700000000000 + Z.of_nat n;
     storeRejects := fun _ => false;
     replaceWhitespace := fun s => s;
     String_trim := fun s => s;
     Host_lib := lib;
     Host_monaco := monaco |}.
(** The same host, reading every text as [reimported]. *)
Definition roundTripHost : Host :=
  {| importDBMLToDiagram := fun _ => Some reimported;
     exportBaseSQL := fun _ _ => "CREATE TABLE ...";
     importer_import := fun _ _ => Some "Table Users { ... }";
     Parser_parse := fun _ => None;
     JSON_parse := fun _ => None;
     generateId := fun n => "new-" +:+ pretty n;
     Date_now := fun n => 1700000000000 + Z.of_nat n;
     storeRejects := fun _ => false;
     replaceWhitespace := fun s => s;
     String_trim := fun s => s;
     Host_lib := lib;
     Host_monaco := monaco |}.
(** [/\s/g] on the characters of ASCII, and a host that exports with it. *)
Definition isSpace (c : ascii) : bool :=
  let n := N_of_ascii c in
  (N.leb 9 n && N.leb n 13) || N.eqb n 32.

Fixpoint underscored (s : string) : string :=
  match s with
  | EmptyString => EmptyString
  | String c s' => String (if isSpace c then "_"%char else c) (underscored s')
  end.

(** A table whose name has a space in it, and the importer's reading of
    the text generated for it. *)
Definition orderItems : DBTable.t :=
  DBTable.make "t-items" "Order Items" None 0 400 "#fa0"
    [field "f-items-id" "id"] [] [].

Definition reimportedOrderItems : DBTable.t :=
  DBTable.make "j-8" "Order_Items" None 0 0 "" [field "j-9" "id"] [] [].

Definition spacedDiagram : Diagram.t :=
  Diagram.make "d2" POSTGRESQL [orderItems] [].

Definition reimportedSpaced : Diagram.t :=
  Diagram.make "j-0" POSTGRESQL [reimportedOrderItems] [].

Definition exportingHost : Host :=
  {| importDBMLToDiagram := fun _ => Some reimportedSpaced;
     exportBaseSQL := fun _ _ => "CREATE TABLE ...";
     importer_import := fun _ _ => Some "Table Order_Items { ... }";
     Parser_parse := fun _ => None;
     JSON_parse := fun _ => None;
     generateId := fun n => "new-" +:+ pretty n;
     Date_now := fun n => 1700000000000 + Z.of_nat n;
     storeRejects := fun _ => false;
     replaceWhitespace := underscored;
     String_trim := fun s => s;
     Host_lib := lib;
     Host_monaco := monaco |}.
End Sample.

(* ===================================================================== *)
(** * Further parts of the components *)
(* ===================================================================== *)

(** The parts of the three source files that the embedding above leaves
    out and that compute something: the timer of [showToast], the change
    handler of [EditorTableDBML], the effects of [TableDBML] that keep a
    draft in [localStorage], and the filter of [TablesSection]. *)

(* ===================================================================== *)
(** ** [EditorTableDBML]: the toast that waits *)
(* ===================================================================== *)

Section ToastTimer.
Context `{Host}.

(** The callback [showToast] hands to [setTimeout], run when the 300ms
    have passed and no newer toast has cleared the timer. *)
Definition toastTimeoutFires : M EditorTableDBML.State unit :=
  s ← getSession;
  match EditorTableDBML.toastTimeoutRef s return M EditorTableDBML.State unit
  with
  | Some t =>
      toast t;;
      modifySession (EditorTableDBML.setToastTimeout' None)
  | None => mret tt
  end.

(** Calls of [showToast] one after the other, within the 300ms. *)
Fixpoint showToasts (requests : list (Toast * bool))
    : M EditorTableDBML.State unit :=
  match requests with
  | [] => mret tt
  | (t, destructive) :: requests' =>
      EditorTableDBML.showToast t destructive;;
      showToasts requests'
  end.
End ToastTimer.

(* ===================================================================== *)
(** ** [EditorTableDBML]: the change handler *)
(* ===================================================================== *)

(** [handleDBMLChange] and the [applyDBMLChanges] it calls are closures
    of a render: the [dbmlContent], [dbmlError], [isApplying] and
    [originalDbmlContent] they read are those of that render,
    [rendered], also after a setter has been called; refs are read as
    they are. What [applyDBMLChanges] does once its guards have passed
    reads no state, only refs. *)
Module Change.
Section WithHost.
Context `{Host}.

(** [applyDBMLChanges] from "Remember if the user was actively editing"
    on. *)
Definition applyAfterGuards (currentDiagram : Diagram.t) (content : string)
    : M EditorTableDBML.State unit :=
  wasUserEditing ← EditorTableDBML.editedWithin 2000;
  modifySession (EditorTableDBML.setIsApplying' true);;
  modifySession (EditorTableDBML.setChangesInProgress' true);;
  tryFinally
    (tryCatch
       (importedDiagram ← orThrow (importDBMLToDiagram content);
        a ← reconcileAndApply EditorTableDBML.removalRule
              currentDiagram importedDiagram;
        updatedDBML ← regenerateDBML currentDiagram a;
        EditorTableDBML.recordRegenerated wasUserEditing updatedDBML;;
        if (0 <? EditorTableDBML.changesCount a)%nat
        then EditorTableDBML.showToast toastChangesApplied false
        else mret tt)
       (EditorTableDBML.showToast toastApplyFailed true))
    (modifySession (EditorTableDBML.setIsApplying' false);;
     modifySession (EditorTableDBML.setChangesInProgress' false)).

(** The [applyDBMLChanges] of the render [rendered]. *)
Definition applyDBMLChangesOf (rendered : EditorTableDBML.State)
    (currentDiagram : Diagram.t) (content : string)
    : M EditorTableDBML.State unit :=
  s ← getSession;
  if bool_decide (is_Some (EditorTableDBML.dbmlError rendered))
     || EditorTableDBML.changesInProgressRef s
     || EditorTableDBML.isApplying rendered
  then mret tt
  else if String.eqb content (EditorTableDBML.originalDbmlContent rendered)
  then mret tt
  else applyAfterGuards currentDiagram content.

(** The [handleDBMLChange] of the render [rendered]; [None] is
    [undefined]. *)
Definition handleDBMLChange (rendered : EditorTableDBML.State)
    (currentDiagram : Diagram.t) (value : option string)
    : M EditorTableDBML.State unit :=
  match value with
  | None => mret tt
  | Some text =>
      s ← getSession;
      if EditorTableDBML.skipContentChangeRef s then mret tt
      else if String.eqb text (EditorTableDBML.dbmlContent rendered)
      then mret tt
      else
        t ← now;
        modifySession (EditorTableDBML.setLastUpdateTime' t);;
        modifySession (EditorTableDBML.setUserHasEdited' true);;
        modifySession (EditorTableDBML.setDbmlContent' text);;
        isValid ← EditorTableDBML.validateDBML (Some text);
        if (isValid : bool)
           && negb (String.eqb text
                      (EditorTableDBML.originalDbmlContent rendered))
        then applyDBMLChangesOf rendered currentDiagram text
        else mret tt
  end.
End WithHost.
End Change.

(* ===================================================================== *)
(** ** [TableDBML]: the draft kept in [localStorage] *)
(* ===================================================================== *)

Module Draft.
(** [`chartdb_dbml_edit_${currentDiagram.id}`] *)
Definition dbmlStorageKey (currentDiagram : Diagram.t) : string :=
  "chartdb_dbml_edit_" +:+ Diagram.id currentDiagram.

(** The component with the storage of the browser. [state] is the state
    the next render will see: a setter called by an effect or a handler
    changes it. [recovered] counts the notifications "Recovered DBML
    Edits" shown. *)
Record Page : Type := mkPage
  { state : TableDBML.State;
    localStorage : gmap string string;
    recovered : nat }.

Definition withState (f : TableDBML.State -> TableDBML.State) (p : Page)
    : Page :=
  {| state := f (state p);
     localStorage := localStorage p;
     recovered := recovered p |}.

Definition setDbmlContent (text : string) : Page -> Page :=
  withState (fun s =>
    TableDBML.mkState text (TableDBML.dbmlError s) (TableDBML.isDirty s)).

Definition setIsDirty (b : bool) : Page -> Page :=
  withState (fun s =>
    TableDBML.mkState (TableDBML.dbmlContent s) (TableDBML.dbmlError s) b).

Definition setDbmlError (err : option DBMLError) : Page -> Page :=
  withState (fun s =>
    TableDBML.mkState (TableDBML.dbmlContent s) err (TableDBML.isDirty s)).

(** [localStorage.removeItem(key)] *)
Definition removeItem (key : string) (p : Page) : Page :=
  {| state := state p;
     localStorage := delete key (localStorage p);
     recovered := recovered p |}.

(** [localStorage.setItem(key, value)] *)
Definition setItem (key value : string) (p : Page) : Page :=
  {| state := state p;
     localStorage := <[key := value]> (localStorage p);
     recovered := recovered p |}.

(** The effects of the component. An effect belongs to a render: the
    [isDirty] and [dbmlContent] it reads are those of that render,
    [rendered], whatever the effects before it have set in the
    meantime. [generated] is the value of [generateDBML]. *)

(** "Load content from localStorage or generate new DBML on first
    render" *)
Definition loadDraft (key generated : string) (p : Page) : Page :=
  match localStorage p !! key with
  | Some savedContent =>
      if truthy savedContent
      then
        let p' := setIsDirty true (setDbmlContent savedContent p) in
        {| state := state p';
           localStorage := localStorage p';
           recovered := Datatypes.S (recovered p') |}
      else setDbmlContent generated p
  | None => setDbmlContent generated p
  end.

(** "Update the editor content when the diagram changes, but only if not
    dirty" *)
Definition regenerateWhenClean (rendered : TableDBML.State)
    (key generated : string) (p : Page) : Page :=
  if negb (TableDBML.isDirty rendered)
  then removeItem key (setDbmlContent generated p)
  else p.

(** "Auto-save to localStorage when content changes" *)
Definition autoSave (rendered : TableDBML.State) (key : string) (p : Page)
    : Page :=
  if TableDBML.isDirty rendered && truthy (TableDBML.dbmlContent rendered)
  then setItem key (TableDBML.dbmlContent rendered) p
  else p.

(** "Clean up localStorage when changes are applied or discarded" *)
Definition cleanUp (rendered : TableDBML.State) (key : string) (p : Page)
    : Page :=
  if negb (TableDBML.isDirty rendered) then removeItem key p else p.

(** [handleDiscardChanges] *)
Definition handleDiscardChanges (key generated : string) (p : Page) : Page :=
  removeItem key
    (setDbmlError None (setIsDirty false (setDbmlContent generated p))).

(** A page that has just been opened: the initial values of the three
    [useState], over the storage the browser kept. *)
Definition opened (storage : gmap string string) : Page :=
  {| state := TableDBML.mkState "" None false;
     localStorage := storage;
     recovered := 0 |}.

(** The effects after the first render: all four, in the order of the
    source, each on the state of that render. *)
Definition afterFirstRender (key generated : string) (p : Page) : Page :=
  let rendered := state p in
  cleanUp rendered key
    (autoSave rendered key
       (regenerateWhenClean rendered key generated
          (loadDraft key generated p))).

(** The effects after a later render of the same diagram, in which
    [isDirty] has changed: the three that depend on it. *)
Definition afterRender (key generated : string) (p : Page) : Page :=
  let rendered := state p in
  cleanUp rendered key
    (autoSave rendered key
       (regenerateWhenClean rendered key generated p)).
End Draft.

(* ===================================================================== *)
(** ** [TablesSection]: the tables handed to the two components *)
(* ===================================================================== *)

Module TablesSection.
Section WithLib.
Context `{Host} `{Lib}.

(** [text.includes(part)] *)
Definition includes (text part : string) : bool :=
  bool_decide (is_Some (String.index 0 part text)).

(** [!filterText?.trim?.() ||
     table.name.toLowerCase().includes(filterText.toLowerCase())] *)
Definition filterTableName (filterText : string) (table : DBTable.t)
    : bool :=
  negb (truthy (String_trim filterText))
  || includes (String_toLowerCase (DBTable.name table))
              (String_toLowerCase filterText).

Definition filterSchema (filteredSchemas : option (list string))
    (table : DBTable.t) : bool :=
  shouldShowTablesBySchemaFilter table filteredSchemas.

(** [tables.filter(filterSchema).filter(filterTableName)] *)
Definition filteredTables (tables : list DBTable.t) (filterText : string)
    (filteredSchemas : option (list string)) : list DBTable.t :=
  List.filter (filterTableName filterText)
    (List.filter (filterSchema filteredSchemas) tables).
End WithLib.
End TablesSection.

(* ===================================================================== *)
(** ** Vocabulary of the further properties *)
(* ===================================================================== *)

(** The imported schema still has the endpoint of a relationship: a table
    with the key of [table] that has a field named as [field]. *)
Definition endpointSurvives (importedTables : list DBTable.t)
    (table : DBTable.t) (field : DBField.t) : Prop :=
  exists t f,
    In t importedTables /\ tableKey t = tableKey table
    /\ In f (DBTable.fields t) /\ DBField.name f = DBField.name field.

(** An end of a relationship is a field of a table of the list. *)
Definition endpointIn (tables : list DBTable.t) (tableId fieldId : string)
    : Prop :=
  exists table field,
    In table tables /\ DBTable.id table = tableId
    /\ In field (DBTable.fields table) /\ DBField.id field = fieldId.

(** Both ends of the relationship are fields of tables of the list. *)
Definition refersInto (tables : list DBTable.t) (r : DBRelationship.t)
    : Prop :=
  endpointIn tables (DBRelationship.sourceTableId r)
             (DBRelationship.sourceFieldId r)
  /\ endpointIn tables (DBRelationship.targetTableId r)
                (DBRelationship.targetFieldId r).

(** The world with the state changed, and with one more toast shown. *)
Definition withSession {S} (f : S -> S) (w : World S) : World S :=
  mkWorld (f (session w)) (storeCalls w) (toasts w)
          (idsDrawn w) (clockReads w).

Definition withToast {S} (t : Toast) (w : World S) : World S :=
  mkWorld (session w) (storeCalls w) (toasts w ++ [t])
          (idsDrawn w) (clockReads w).

(** The state of [EditorTableDBML] when a run enters its [try]: both
    flags up; and when it leaves through [finally]: both flags down. *)
Definition locked (s : EditorTableDBML.State) : EditorTableDBML.State :=
  EditorTableDBML.setChangesInProgress' true
    (EditorTableDBML.setIsApplying' true s).

Definition released (s : EditorTableDBML.State) : EditorTableDBML.State :=
  EditorTableDBML.setChangesInProgress' false
    (EditorTableDBML.setIsApplying' false s).

(** The text the exporter and the importer make of the merged diagram. *)
Definition regeneratedText `{Host} (currentDiagram : Diagram.t) (a : Applied)
    : option string :=
  importer_import
    (exportBaseSQL (mergedDiagram currentDiagram a) true)
    (databaseTypeToImportFormat (Diagram.databaseType currentDiagram)).

(** Of the toasts requested one after the other, those shown at once;
    and the one that waits in the end: the last request that is not an
    error, or the one that waited before. *)
Definition shownAtOnce (requests : list (Toast * bool)) : list Toast :=
  map fst (List.filter snd requests).

Definition waitingAfter (requests : list (Toast * bool))
    (waiting : option Toast) : option Toast :=
  fold_left
    (fun (pending : option Toast) (request : Toast * bool) =>
       if snd request then pending else Some (fst request))
    requests waiting.

(** The similarity of line [i] of a model with the line the cursor was
    on; 0 for a line the model does not have. *)
Definition similarityAt `{Lib} (cursorLineContent : string)
    (m : TextModel.t) (i : Z) : nat :=
  match TextModel.getLineContent m i with
  | Normal content => commonSubstringLength cursorLineContent content
  | Throw => 0%nat
  end.

(** The line of the new text at the height of the cursor: the line the
    cursor was on, or the last line when the text has become shorter. *)
Definition lineAtCursor (currentPosition : Position.t) (m : TextModel.t)
    : Z :=
  Z.min (Position.lineNumber currentPosition) (TextModel.getLineCount m).

(** A line of the model at most five lines away from there. *)
Definition nearCursor (currentPosition : Position.t) (m : TextModel.t)
    (i : Z) : Prop :=
  1 <= i <= TextModel.getLineCount m
  /\ lineAtCursor currentPosition m - 5 <= i
     <= lineAtCursor currentPosition m + 5.

(** A position of the model: a line it has, and a column from the first
    to the one after the last character of the line. *)
Definition positionIn (m : TextModel.t) (line col : Z) : Prop :=
  1 <= line <= TextModel.getLineCount m
  /\ exists maxColumn,
       TextModel.getLineMaxColumn m line = Normal maxColumn
       /\ 1 <= col <= maxColumn.

(** What a programmatic update of the editor leaves alone in the state
    of [EditorTableDBML]: everything but the widget, [dbmlContent],
    [skipContentChangeRef] and [lastUpdateTimeRef]. *)
Definition sameButEditor (s s' : EditorTableDBML.State) : Prop :=
  EditorTableDBML.dbmlError s' = EditorTableDBML.dbmlError s
  /\ EditorTableDBML.isApplying s' = EditorTableDBML.isApplying s
  /\ EditorTableDBML.originalDbmlContent s'
     = EditorTableDBML.originalDbmlContent s
  /\ EditorTableDBML.changesInProgressRef s'
     = EditorTableDBML.changesInProgressRef s
  /\ EditorTableDBML.lastValidContentRef s'
     = EditorTableDBML.lastValidContentRef s
  /\ EditorTableDBML.userHasEditedRef s'
     = EditorTableDBML.userHasEditedRef s
  /\ EditorTableDBML.toastTimeoutRef s' = EditorTableDBML.toastTimeoutRef s.

(** The cursor of the widget is on a line of its text, when the widget
    has a text and a position at all. *)
Definition cursorOnALine `{Host} (s : EditorTableDBML.State) : Prop :=
  forall editor text p,
    EditorTableDBML.editorRef s = Some editor ->
    Editor.model editor = Some text ->
    Editor.position editor = Some p ->
    1 <= Position.lineNumber p
      <= TextModel.getLineCount (EditorTableDBML.textModel text).

(** The plan of a run of the pipeline that starts when [generateId] has
    been called [ids] times and the clock has been read [reads] times:
    the reconciliation of the tables, the relationships the component's
    rule removes, the merged tables, and the relationships the addition
    pass creates. *)
Definition plannedChanges `{Host}
    (rule : Diagram.t -> Diagram.t -> TableChanges -> DBRelationship.t -> bool)
    (currentDiagram importedDiagram : Diagram.t) (ids reads : nat)
    : Applied :=
  let ch := reconcileTables (Diagram.tables currentDiagram)
                            (Diagram.tables importedDiagram) in
  let updated := updatedDiagramTables (Diagram.tables currentDiagram) ch in
  {| changes := ch;
     relationshipsToRemove :=
       List.filter (rule currentDiagram importedDiagram ch)
                   (Diagram.relationships currentDiagram);
     updatedTables := updated;
     relationshipsToAdd :=
       match fst (mapRelationships (S := unit)
                    (Diagram.relationships currentDiagram)
                    (Diagram.tables importedDiagram) updated
                    (Diagram.relationships importedDiagram)
                    (mkWorld tt [] [] ids reads)) with
       | Normal created => created
       | Throw => []
       end |}.

(** The plans of the runs of the two components that start in a world:
    [TableDBML] starts the pipeline at once, [EditorTableDBML] after it
    has judged the user's activity, for which it reads the clock when the
    user has edited. *)
Definition planOfTableDBML `{Host} (currentDiagram importedDiagram : Diagram.t)
    (w : World TableDBML.State) : Applied :=
  plannedChanges TableDBML.removalRule currentDiagram importedDiagram
                 (idsDrawn w) (clockReads w).

Definition planOfEditorTableDBML `{Host}
    (currentDiagram importedDiagram : Diagram.t)
    (w : World EditorTableDBML.State) : Applied :=
  plannedChanges EditorTableDBML.removalRule currentDiagram importedDiagram
                 (idsDrawn w)
                 (clockReads w
                  + if EditorTableDBML.userHasEditedRef (session w)
                    then 1 else 0)%nat.

(** The text passes [validateDBML]: it is empty or blank, or the parser
    accepts it. *)
Definition passesValidation `{Host} (text : string) : Prop :=
  truthy text = false \/ truthy (String_trim text) = false
  \/ Parser_parse text = None.

(* ===================================================================== *)
(** ** Further examples *)
(* ===================================================================== *)

Module Scenario.
(** The library of the sample host. *)
Definition lib : Lib := Sample.lib.

(** The text of the editor after the diagram gained a table in front of
    [Orders]; the cursor was on the line of [user_id], then line 4, with
    a selection that ran to the end of the old text. *)
Definition regenerated : TextModel.t :=
  TextModel.make
    [ "Table Users {"; "  id int"; "  name text"; "}"; "";
      "Table Orders {"; "  id int"; "  user_id int"; "}" ].

Definition cursor : Position.t := Position.make 4 11.

Definition selection : Selection.t := Selection.make 3 1 12 40.

(** A host whose importer rejects every text. *)
Definition rejectingHost : Host :=
  {| importDBMLToDiagram := fun _ => None;
     exportBaseSQL := fun _ _ => "CREATE TABLE ...";
     importer_import := fun _ _ => Some "Table Users { ... }";
     Parser_parse := fun _ => None;
     JSON_parse := fun _ => None;
     generateId := fun n => "new-" +:+ pretty n;
     Date_now := fun n => 1700000000000 + Z.of_nat n;
     storeRejects := fun _ => false;
     replaceWhitespace := fun s => s;
     String_trim := fun s => s;
     Host_lib := Sample.lib;
     Host_monaco := Sample.monaco |}.

(** A host whose parser fails on every text with something that is not a
    diagnostic. *)
Definition crashingParserHost : Host :=
  {| importDBMLToDiagram := fun _ => Some Sample.edited;
     exportBaseSQL := fun _ _ => "CREATE TABLE ...";
     importer_import := fun _ _ => Some "Table Users { ... }";
     Parser_parse := fun _ => Some (JStr "out of memory");
     JSON_parse := fun _ => None;
     generateId := fun n => "new-" +:+ pretty n;
     Date_now := fun n => 1700000000000 + Z.of_nat n;
     storeRejects := fun _ => false;
     replaceWhitespace := fun s => s;
     String_trim := fun s => s;
     Host_lib := Sample.lib;
     Host_monaco := Sample.monaco |}.

(** A host that writes a diagram as the names of its tables and reads
    every such text back; and one that cannot read back a text that names
    [Purchases]. Both import what the user typed as [Sample.edited]. *)
Definition tableNames (d : Diagram.t) : string :=
  String.concat "," (map DBTable.name (Diagram.tables d)).

Definition namingHost : Host :=
  {| importDBMLToDiagram := fun _ => Some Sample.edited;
     exportBaseSQL := fun d _ => tableNames d;
     importer_import := fun script _ => Some ("Tables " +:+ script);
     Parser_parse := fun _ => None;
     JSON_parse := fun _ => None;
     generateId := fun n => "new-" +:+ pretty n;
     Date_now := fun n => 1700000000000 + Z.of_nat n;
     storeRejects := fun _ => false;
     replaceWhitespace := fun s => s;
     String_trim := fun s => s;
     Host_lib := Sample.lib;
     Host_monaco := Sample.monaco |}.

Definition pickyHost : Host :=
  {| importDBMLToDiagram := fun _ => Some Sample.edited;
     exportBaseSQL := fun d _ => tableNames d;
     importer_import :=
       fun script _ =>
         if String.eqb script "Users,Purchases" then None
         else Some ("Tables " +:+ script);
     Parser_parse := fun _ => None;
     JSON_parse := fun _ => None;
     generateId := fun n => "new-" +:+ pretty n;
     Date_now := fun n => 1700000000000 + Z.of_nat n;
     storeRejects := fun _ => false;
     replaceWhitespace := fun s => s;
     String_trim := fun s => s;
     Host_lib := Sample.lib;
     Host_monaco := Sample.monaco |}.

(** What the importer reads in the text generated for [Users] alone. *)
Definition onlyUsers : Diagram.t :=
  Diagram.make "j-0" POSTGRESQL [Sample.reimportedUsers] [].

(** The pipeline of [TableDBML] on the sample diagram and the text
    generated for it, and the plan it ends with. *)
Definition roundTripRun : Completion Applied * World unit :=
  @reconcileAndApply Sample.roundTripHost unit TableDBML.removalRule
    Sample.diagram Sample.reimported (Sample.world tt).

Definition roundTripPlan : Applied :=
  match fst roundTripRun with
  | Normal a => a
  | Throw => mkApplied (mkTableChanges [] [] []) [] [] []
  end.

(** The editor after the parser has rejected what the user typed. *)
Definition editorWithError : EditorTableDBML.State :=
  EditorTableDBML.setDbmlError' (Some Sample.parseError) Sample.editorState.
End Scenario.

(* ===================================================================== *)
(** * Properties *)
(* ===================================================================== *)

(** ** The insertion-ordered map *)

Section JsMapFacts.
Context {V : Type}.
Implicit Types (m : JsMap.t V) (k : string) (v : V).

Lemma JsMap_get_In m k v :
  JsMap.get k m = Some v -> In (k, v) m.
Proof.
  induction m as [|[k' v'] m IH]; simpl; [discriminate|].
  destruct (String.eqb_spec k' k) as [->|Hne].
  - intros [= ->]. now left.
  - intros Hg. right. now apply IH.
Qed.

Lemma JsMap_In_get m k v :
  List.NoDup (JsMap.keys m) -> In (k, v) m -> JsMap.get k m = Some v.
Proof.
  induction m as [|[k' v'] m IH]; simpl; [intros _ []|].
  intros Hnd [Heq|Hin].
  - injection Heq as -> ->. now rewrite String.eqb_refl.
  - apply List.NoDup_cons_iff in Hnd as [Hnotin Hnd].
    destruct (String.eqb_spec k' k) as [->|Hne].
    + exfalso. apply Hnotin. apply in_map_iff. now exists (k, v).
    + now apply IH.
Qed.

Lemma JsMap_get_None m k :
  JsMap.get k m = None <-> ~ In k (JsMap.keys m).
Proof.
  induction m as [|[k' v'] m IH]; simpl.
  - split; [intros _ []|reflexivity].
  - destruct (String.eqb_spec k' k) as [->|Hne].
    + split; [discriminate|]. intros Hn. exfalso. apply Hn. now left.
    + rewrite IH. split.
      * intros Hn [Heq|Hin]; [now apply Hne|now apply Hn].
      * intros Hn Hin. apply Hn. now right.
Qed.

(** Setting a key that is not there appends the entry. *)
Lemma JsMap_set_fresh m k v :
  ~ In k (JsMap.keys m) -> JsMap.set k v m = m ++ [(k, v)].
Proof.
  induction m as [|[k' v'] m IH]; simpl; [reflexivity|].
  intros Hn. destruct (String.eqb_spec k' k) as [->|Hne].
  - exfalso. apply Hn. now left.
  - f_equal. apply IH. intros Hin. apply Hn. now right.
Qed.

(** Deleting a key keeps the other entries, in order. *)
Lemma JsMap_delete_filter m k :
  List.NoDup (JsMap.keys m) ->
  JsMap.delete k m = List.filter (fun kv => negb (String.eqb (fst kv) k)) m.
Proof.
  induction m as [|[k' v'] m IH]; simpl; [reflexivity|].
  intros Hnd. apply List.NoDup_cons_iff in Hnd as [Hnotin Hnd].
  destruct (String.eqb_spec k' k) as [->|Hne]; simpl.
  - symmetry. apply forallb_filter_id. apply forallb_forall.
    intros [k2 v2] Hin. simpl.
    destruct (String.eqb_spec k2 k) as [->|]; [|reflexivity].
    exfalso. apply Hnotin. apply in_map_iff. now exists (k, v2).
  - f_equal. now apply IH.
Qed.

Lemma JsMap_delete_absent m k :
  ~ In k (JsMap.keys m) -> JsMap.delete k m = m.
Proof.
  induction m as [|[k' v'] m IH]; simpl; [reflexivity|].
  intros Hn. destruct (String.eqb_spec k' k) as [->|Hne].
  - exfalso. apply Hn. now left.
  - f_equal. apply IH. intros Hin. apply Hn. now right.
Qed.
End JsMapFacts.

Section JsMapMoreFacts.
Context {V : Type}.
Implicit Types (m : JsMap.t V) (k : string) (v : V).

Lemma JsMap_get_delete_ne m k k' :
  k' <> k -> JsMap.get k' (JsMap.delete k m) = JsMap.get k' m.
Proof.
  intros Hne. induction m as [|[k2 v2] m IH]; simpl; [reflexivity|].
  destruct (String.eqb_spec k2 k) as [->|Hk].
  - destruct (String.eqb_spec k k') as [->|]; [now elim Hne|reflexivity].
  - simpl. now rewrite IH.
Qed.

Lemma JsMap_keys_filter_NoDup m (p : string * V -> bool) :
  List.NoDup (JsMap.keys m) -> List.NoDup (JsMap.keys (List.filter p m)).
Proof.
  unfold JsMap.keys.
  induction m as [|kv m IH]; simpl; [intros; constructor|].
  intros Hnd. apply List.NoDup_cons_iff in Hnd as [Hnotin Hnd].
  destruct (p kv); simpl; [|now apply IH].
  constructor; [|now apply IH].
  intros Hin. apply Hnotin.
  apply in_map_iff in Hin as [kv' [Hk Hin]].
  apply filter_In in Hin as [Hin _].
  apply in_map_iff. now exists kv'.
Qed.
End JsMapMoreFacts.

(** ** Identity reconciliation of tables *)

(** With distinct keys, [currentTableMap] lists the tables in their order,
    each under its key. *)
Lemma currentTableMap_app (acc : JsMap.t DBTable.t) (tables : list DBTable.t) :
  List.NoDup (JsMap.keys acc ++ map tableKey tables) ->
  fold_left (fun m table => JsMap.set (tableKey table) table m) tables acc
  = acc ++ map (fun t => (tableKey t, t)) tables.
Proof.
  revert acc. induction tables as [|t tables IH]; intros acc Hnd; simpl.
  - now rewrite app_nil_r.
  - assert (Hfresh : ~ In (tableKey t) (JsMap.keys acc)).
    { apply NoDup_remove_2 in Hnd. intros Hin. apply Hnd.
      apply in_or_app. now left. }
    rewrite (JsMap_set_fresh _ _ _ Hfresh).
    rewrite IH.
    + now rewrite <- app_assoc.
    + unfold JsMap.keys in *. rewrite map_app. simpl.
      now rewrite <- app_assoc.
Qed.

Lemma currentTableMap_unique (tables : list DBTable.t) :
  uniqueKeys tables ->
  currentTableMap tables = map (fun t => (tableKey t, t)) tables.
Proof.
  intros Hnd. unfold currentTableMap.
  now rewrite currentTableMap_app.
Qed.

Lemma currentTableMap_get (tables : list DBTable.t) (k : string)
    (e : DBTable.t) :
  uniqueKeys tables ->
  JsMap.get k (currentTableMap tables) = Some e
  <-> In e tables /\ tableKey e = k.
Proof.
  intros Hnd. rewrite (currentTableMap_unique _ Hnd).
  assert (Hkeys : JsMap.keys (map (fun t => (tableKey t, t)) tables)
                  = map tableKey tables).
  { unfold JsMap.keys. rewrite map_map. reflexivity. }
  split.
  - intros Hg. apply JsMap_get_In in Hg.
    apply in_map_iff in Hg as [t [[= <- <-] Hin]]. now split.
  - intros [Hin <-]. apply JsMap_In_get.
    + now rewrite Hkeys.
    + apply in_map_iff. now exists e.
Qed.

Lemma flat_map_ext_In {A B} (f g : A -> list B) (l : list A) :
  (forall a, In a l -> f a = g a) -> flat_map f l = flat_map g l.
Proof.
  induction l as [|a l IH]; simpl; [reflexivity|].
  intros Hfg. rewrite (Hfg a) by now left.
  f_equal. apply IH. intros b Hb. apply Hfg. now right.
Qed.

Lemma filter_ext_In' {A} (f g : A -> bool) (l : list A) :
  (forall a, In a l -> f a = g a) -> List.filter f l = List.filter g l.
Proof.
  induction l as [|a l IH]; simpl; [reflexivity|].
  intros Hfg. rewrite (Hfg a) by now left.
  rewrite IH; [reflexivity|]. intros b Hb. apply Hfg. now right.
Qed.

Lemma filter_filter {A} (f g : A -> bool) (l : list A) :
  List.filter f (List.filter g l) = List.filter (fun a => g a && f a) l.
Proof.
  induction l as [|a l IH]; simpl; [reflexivity|].
  destruct (g a); simpl; [destruct (f a)|]; now rewrite IH.
Qed.

(** The loop over the imported tables, when their keys are distinct: every
    imported table is looked up in the map the loop started from. *)
Lemma tableLoop_spec (imported : list DBTable.t) (st : TableLoop) :
  List.NoDup (JsMap.keys (remaining st)) ->
  uniqueKeys imported ->
  let st' := fold_left processImportedTable imported st in
  remaining st'
  = List.filter
      (fun kv => negb (existsb (String.eqb (fst kv)) (map tableKey imported)))
      (remaining st)
  /\ toUpdate st'
     = toUpdate st
       ++ flat_map
            (fun t =>
               match JsMap.get (tableKey t) (remaining st) with
               | Some e => [tableWithPreservedIds e t]
               | None => []
               end)
            imported
  /\ toAdd st'
     = toAdd st
       ++ List.filter
            (fun t =>
               match JsMap.get (tableKey t) (remaining st) with
               | Some _ => false
               | None => true
               end)
            imported.
Proof.
  unfold uniqueKeys.
  revert st. induction imported as [|a imported IH]; intros st Hmap Hnd; simpl.
  - repeat split; try now rewrite app_nil_r.
    symmetry. apply forallb_filter_id. now apply forallb_forall.
  - apply List.NoDup_cons_iff in Hnd as [Hfresh Hnd].
    assert (Hother : forall t, In t imported -> tableKey t <> tableKey a).
    { intros t Hin Heq. apply Hfresh. rewrite <- Heq.
      now apply in_map. }
    assert (Hrem : remaining (processImportedTable st a)
                   = List.filter
                       (fun kv => negb (String.eqb (fst kv) (tableKey a)))
                       (remaining st)).
    { unfold processImportedTable.
      destruct (JsMap.get (tableKey a) (remaining st)) eqn:Hget; simpl.
      - now apply JsMap_delete_filter.
      - rewrite <- (JsMap_delete_absent (remaining st) (tableKey a)) at 1.
        + now apply JsMap_delete_filter.
        + now apply JsMap_get_None. }
    assert (Hget' : forall t, In t imported ->
              JsMap.get (tableKey t) (remaining (processImportedTable st a))
              = JsMap.get (tableKey t) (remaining st)).
    { intros t Hin. unfold processImportedTable.
      destruct (JsMap.get (tableKey a) (remaining st)); simpl; [|reflexivity].
      apply JsMap_get_delete_ne. now apply Hother. }
    destruct (IH (processImportedTable st a)) as (IHr & IHu & IHa).
    { rewrite Hrem. now apply JsMap_keys_filter_NoDup. }
    { exact Hnd. }
    rewrite IHr, IHu, IHa. clear IHr IHu IHa.
    rewrite (flat_map_ext_In _ _ _
               (fun t Hin => f_equal
                  (fun o => match o with
                            | Some e => [tableWithPreservedIds e t]
                            | None => []
                            end) (Hget' t Hin))).
    rewrite (filter_ext_In' _ _ _
               (fun t Hin => f_equal
                  (fun o => match o with
                            | Some _ => false
                            | None => true
                            end) (Hget' t Hin))).
    rewrite Hrem, filter_filter.
    repeat split.
    + apply filter_ext_In'. intros [k v] _. simpl.
      rewrite String.eqb_sym. now destruct (String.eqb (tableKey a) k).
    + unfold processImportedTable.
      destruct (JsMap.get (tableKey a) (remaining st)); simpl;
        now rewrite <- ?app_assoc.
    + unfold processImportedTable.
      destruct (JsMap.get (tableKey a) (remaining st)); simpl;
        now rewrite <- ?app_assoc.
Qed.

Lemma findFieldByName_firstNamed (n : string) (fields : list DBField.t)
    (ef : DBField.t) :
  firstNamed n fields ef -> findFieldByName n fields = Some ef.
Proof.
  intros (before & after & -> & Hname & Hbefore).
  unfold findFieldByName.
  induction before as [|b before IH]; simpl.
  - rewrite Hname, String.eqb_refl. reflexivity.
  - destruct (String.eqb_spec (DBField.name b) n) as [Heq|_].
    + exfalso. apply (Hbefore b); [now left|exact Heq].
    + apply IH. intros f Hf. apply Hbefore. now right.
Qed.

Lemma findFieldByName_Some (n : string) (fields : list DBField.t)
    (ef : DBField.t) :
  findFieldByName n fields = Some ef -> firstNamed n fields ef.
Proof.
  unfold findFieldByName.
  induction fields as [|b fields IH]; simpl; [discriminate|].
  destruct (String.eqb_spec (DBField.name b) n) as [Heq|Hne].
  - intros [= ->]. exists [], fields. repeat split; [exact Heq|intros f []].
  - intros Hf. destruct (IH Hf) as (before & after & -> & Hname & Hbefore).
    exists (b :: before), after. repeat split; [exact Hname|].
    intros f [<-|Hin]; [exact Hne|now apply Hbefore].
Qed.

Lemma findFieldByName_None (n : string) (fields : list DBField.t) :
  findFieldByName n fields = None <->
  forall f, In f fields -> DBField.name f <> n.
Proof.
  unfold findFieldByName. split.
  - intros Hnone f Hin Heq.
    pose proof (find_none _ _ Hnone f Hin) as Hf. simpl in Hf.
    rewrite Heq, String.eqb_refl in Hf. discriminate.
  - intros Hall. induction fields as [|b fields IH]; simpl; [reflexivity|].
    destruct (String.eqb_spec (DBField.name b) n) as [Heq|_].
    + exfalso. apply (Hall b); [now left|exact Heq].
    + apply IH. intros f Hf. apply Hall. now right.
Qed.

Lemma preserveFieldId_keeps (existing : DBTable.t) (f : DBField.t) :
  fieldKeepsId existing f (preserveFieldId existing f).
Proof.
  unfold fieldKeepsId, preserveFieldId.
  destruct (findFieldByName (DBField.name f) (DBTable.fields existing))
    as [ef0|] eqn:Hfind; simpl.
  - repeat split.
    + intros ef Hfirst. apply findFieldByName_firstNamed in Hfirst.
      congruence.
    + intros Hnone. exfalso.
      apply findFieldByName_Some in Hfind
        as (before & after & Hsplit & Hname & _).
      apply (Hnone ef0); [|exact Hname].
      rewrite Hsplit. apply in_or_app. right. now left.
  - repeat split.
    intros ef Hfirst. apply findFieldByName_firstNamed in Hfirst.
    congruence.
Qed.

Lemma tableWithPreservedIds_keeps (existing imported : DBTable.t) :
  keepsIdentity existing imported (tableWithPreservedIds existing imported).
Proof.
  unfold keepsIdentity, tableWithPreservedIds. simpl.
  repeat split.
  induction (DBTable.fields imported) as [|f fs IH]; simpl; constructor.
  - apply preserveFieldId_keeps.
  - exact IH.
Qed.

(** The three lists of the reconciliation, when the keys are distinct on
    both sides. *)
Lemma reconcileTables_spec (current imported : list DBTable.t) :
  uniqueKeys current -> uniqueKeys imported ->
  tablesToUpdate (reconcileTables current imported)
  = flat_map
      (fun t =>
         match JsMap.get (tableKey t) (currentTableMap current) with
         | Some e => [tableWithPreservedIds e t]
         | None => []
         end)
      imported
  /\ tablesToAdd (reconcileTables current imported)
     = List.filter
         (fun t =>
            match JsMap.get (tableKey t) (currentTableMap current) with
            | Some _ => false
            | None => true
            end)
         imported
  /\ tablesToRemove (reconcileTables current imported)
     = List.filter
         (fun e =>
            negb (existsb (String.eqb (tableKey e)) (map tableKey imported)))
         current.
Proof.
  intros Hcur Himp. unfold reconcileTables. cbn [tablesToUpdate tablesToAdd tablesToRemove].
  destruct (tableLoop_spec imported
              {| remaining := currentTableMap current;
                 toAdd := []; toUpdate := [] |}) as (Hr & Hu & Ha).
  { cbn [remaining]. rewrite (currentTableMap_unique _ Hcur).
    unfold JsMap.keys. rewrite map_map. exact Hcur. }
  { exact Himp. }
  cbn [remaining toAdd toUpdate] in *.
  rewrite Hr, Hu, Ha. repeat split.
  rewrite (currentTableMap_unique _ Hcur). unfold JsMap.values.
  clear. induction current as [|e current IH]; simpl; [reflexivity|].
  destruct (existsb (String.eqb (tableKey e)) (map tableKey imported));
    simpl; now rewrite IH.
Qed.

Ltac split_ands := repeat match goal with |- _ /\ _ => split end.

Ltac distinct_strings :=
  repeat (constructor; [cbv; intuition discriminate|]); constructor.

(** ** The key of a table and the pair it is composed of *)

Lemma dots_append (s1 s2 : string) :
  dots (s1 +:+ s2) = (dots s1 + dots s2)%nat.
Proof. induction s1 as [|c s1 IH]; simpl; [reflexivity|]. rewrite IH. lia. Qed.

(** A string is cut in one way only at its first [.]. *)
Lemma split_at_dot (a a' r r' : string) :
  dots a = 0%nat -> dots a' = 0%nat ->
  a +:+ String "."%char r = a' +:+ String "."%char r' -> a = a' /\ r = r'.
Proof.
  revert a'.
  induction a as [|c a IH]; intros [|c' a'] Ha Ha' Heq; simpl in *.
  - injection Heq as ->. auto.
  - injection Heq as <- _. discriminate.
  - injection Heq as -> _. discriminate.
  - injection Heq as -> Heq.
    destruct (Ascii.eqb c' "."%char); [discriminate|].
    destruct (IH a' Ha Ha' Heq) as [-> ->]. auto.
Qed.

(** The key stands for the pair of schema and name whenever neither
    contains a [.]. *)
Lemma tableKey_schemaAndName (e t : DBTable.t) :
  dots (orEmpty (DBTable.schema e)) = 0%nat ->
  dots (DBTable.name e) = 0%nat ->
  tableKey t = tableKey e <-> schemaAndName t = schemaAndName e.
Proof.
  intros Hs Hn. unfold schemaAndName, tableKey. split.
  - intros Hkey.
    pose proof (f_equal dots Hkey) as Hcount.
    rewrite !dots_append in Hcount. simpl in Hcount.
    apply split_at_dot in Hkey as [-> ->]; [reflexivity|lia|exact Hs].
  - intros [= -> ->]. reflexivity.
Qed.

(** C1, as the code has it. Table reconciliation matches tables by their
    key, the string composed of schema and name, which stands for the pair
    of schema and name whenever neither contains a [.]. When the keys are
    pairwise distinct among the current tables and among the imported
    tables:
    - an imported table whose key is the key of a current table yields an
      entry of [tablesToUpdate] with the id, x, y and color of that current
      table and the content of the imported table, in which a field named
      like an existing field has the existing field's id and any other field
      its own, freshly generated id; and [tablesToUpdate] has no other
      entries;
    - [tablesToAdd] holds, unchanged, exactly the imported tables whose key
      is the key of no current table;
    - [tablesToRemove] holds exactly the current tables whose key is the key
      of no imported table. *)
Theorem reconcileTables_matches_by_key (current imported : list DBTable.t) :
  uniqueKeys current -> uniqueKeys imported ->
  let r := reconcileTables current imported in
  (forall t e, In t imported -> In e current -> tableKey t = tableKey e ->
     exists u, In u (tablesToUpdate r) /\ keepsIdentity e t u)
  /\ (forall u, In u (tablesToUpdate r) ->
        exists t e, In t imported /\ In e current
                    /\ tableKey t = tableKey e /\ keepsIdentity e t u)
  /\ (forall t, In t (tablesToAdd r) <->
        In t imported /\ forall e, In e current -> tableKey e <> tableKey t)
  /\ (forall c, In c (tablesToRemove r) <->
        In c current /\ forall t, In t imported -> tableKey t <> tableKey c)
  /\ (forall e t,
        dots (orEmpty (DBTable.schema e)) = 0%nat ->
        dots (DBTable.name e) = 0%nat ->
        tableKey t = tableKey e <-> schemaAndName t = schemaAndName e).
Proof.
  intros Hcur Himp r.
  destruct (reconcileTables_spec current imported Hcur Himp) as (Hu & Ha & Hr).
  fold r in Hu, Ha, Hr. rewrite Hu, Ha, Hr. clear Hu Ha Hr r.
  split_ands.
  - intros t e Ht He Hkey.
    exists (tableWithPreservedIds e t). split.
    + apply in_flat_map. exists t. split; [exact Ht|].
      assert (Hg : JsMap.get (tableKey t) (currentTableMap current) = Some e)
        by (apply currentTableMap_get; auto).
      rewrite Hg. now left.
    + apply tableWithPreservedIds_keeps.
  - intros u Hin. apply in_flat_map in Hin as (t & Ht & Hin).
    destruct (JsMap.get (tableKey t) (currentTableMap current)) as [e|] eqn:Hg;
      [|destruct Hin].
    destruct Hin as [<-|[]].
    apply currentTableMap_get in Hg as [He Hkey]; [|exact Hcur].
    exists t, e. repeat split; auto.
    apply tableWithPreservedIds_keeps.
  - intros t. split.
    + intros H. apply filter_In in H as [Ht Hnone]. split; [exact Ht|].
      intros e He Hkey.
      assert (Hg : JsMap.get (tableKey t) (currentTableMap current) = Some e)
        by (apply currentTableMap_get; auto).
      rewrite Hg in Hnone. discriminate.
    + intros [Ht Hnone]. apply filter_In. split; [exact Ht|].
      destruct (JsMap.get (tableKey t) (currentTableMap current))
        as [e|] eqn:Hg; [|reflexivity].
      apply currentTableMap_get in Hg as [He Hkey]; [|exact Hcur].
      exfalso. now apply (Hnone e).
  - intros c. split.
    + intros H. apply filter_In in H as [Hc Hnone]. split; [exact Hc|].
      intros t Ht Hkey. apply negb_true_iff in Hnone.
      assert (Hex : existsb (String.eqb (tableKey c)) (map tableKey imported)
                    = true).
      { apply existsb_exists. exists (tableKey t). split.
        - now apply in_map.
        - rewrite Hkey. apply String.eqb_refl. }
      congruence.
    + intros [Hc Hnone]. apply filter_In. split; [exact Hc|].
      apply negb_true_iff.
      destruct (existsb (String.eqb (tableKey c)) (map tableKey imported))
        eqn:Hex; [|reflexivity].
      apply existsb_exists in Hex as (k & Hk & Heq).
      apply in_map_iff in Hk as (t & <- & Ht).
      apply String.eqb_eq in Heq. exfalso. now apply (Hnone t).
  - intros e t. apply tableKey_schemaAndName.
Qed.

Lemma reconcileTables_matches_by_key_witness :
  uniqueKeys (Diagram.tables Sample.diagram)
  /\ uniqueKeys (Diagram.tables Sample.edited)
  /\ (forall c,
        In c (tablesToRemove
                (reconcileTables (Diagram.tables Sample.diagram)
                                 (Diagram.tables Sample.edited)))
        <-> In c (Diagram.tables Sample.diagram)
            /\ forall t, In t (Diagram.tables Sample.edited) ->
                         tableKey t <> tableKey c)
  /\ (tableKey Sample.importedUsers = tableKey Sample.users
      <-> schemaAndName Sample.importedUsers = schemaAndName Sample.users).
Proof.
  assert (H1 : uniqueKeys (Diagram.tables Sample.diagram))
    by (unfold uniqueKeys; distinct_strings).
  assert (H2 : uniqueKeys (Diagram.tables Sample.edited))
    by (unfold uniqueKeys; distinct_strings).
  split; [exact H1|]. split; [exact H2|].
  destruct (reconcileTables_matches_by_key _ _ H1 H2)
    as (_ & _ & _ & Hremoved & Hpair).
  split; [exact Hremoved|]. apply Hpair; reflexivity.
Defined.

(** C1 as the specification has it, for every diagram and schema and
    with the pair of schema and name for the key, fails in three ways.
    The imported table [b.c] of schema [a] has the pair of no current
    table, and is not added: it updates the table [c] of schema [a.b],
    whose key it shares. Of two current tables with one key and no
    imported table of that key, only the later one is removed. And of an
    imported table listed twice, the match of the first one consumes the
    key: there is one update, and the second one is added although its
    key is the key of a current table. *)
Lemma reconcileTables_claim_fails_beyond_unique_keys :
  ((forall e, In e [Sample.dottedCurrent] ->
      schemaAndName e <> schemaAndName Sample.dottedImported)
   /\ ~ In Sample.dottedImported
          (tablesToAdd
             (reconcileTables [Sample.dottedCurrent] [Sample.dottedImported]))
   /\ tablesToUpdate
        (reconcileTables [Sample.dottedCurrent] [Sample.dottedImported])
      = [tableWithPreservedIds Sample.dottedCurrent Sample.dottedImported])
  /\ (In Sample.users [Sample.users; Sample.usersCopy]
      /\ ~ In Sample.users
             (tablesToRemove
                (reconcileTables [Sample.users; Sample.usersCopy] [])))
  /\ (tableKey Sample.importedUsers = tableKey Sample.users
      /\ tablesToAdd
           (reconcileTables [Sample.users]
              [Sample.importedUsers; Sample.importedUsers])
         = [Sample.importedUsers]
      /\ length
           (tablesToUpdate
              (reconcileTables [Sample.users]
                 [Sample.importedUsers; Sample.importedUsers]))
         = 1%nat).
Proof.
  split_ands.
  - intros e [<-|[]]. discriminate.
  - intros [].
  - reflexivity.
  - now left.
  - intros [H|[]]. discriminate.
  - reflexivity.
  - reflexivity.
  - reflexivity.
Qed.

(** The identity-preservation scenario of the specification: [Users] keeps
    its id, position and colour, [id] and [name] keep their field ids,
    [email] comes with the importer's id; the renamed table is removed and
    added anew. *)
Example reconcileTables_sample :
  reconcileTables (Diagram.tables Sample.diagram) (Diagram.tables Sample.edited)
  = {| tablesToAdd := [Sample.importedPurchases];
       tablesToUpdate :=
         [DBTable.make "t-users" "Users" (Some "") 10 20 "#fff"
            [Sample.field "f-users-id" "id";
             Sample.field "f-users-name" "name";
             Sample.field "i-4" "email"] [] []];
       tablesToRemove := [Sample.orders] |}.
Proof. reflexivity. Qed.

(** ** The name-to-id map of the addition pass *)

Lemma tableNameToCurrentId_step (tables : list DBTable.t)
    (m : gmap string string) (n : string) :
  (forall a, In a tables -> DBTable.name a <> n) ->
  fold_left (fun m table => <[DBTable.name table := DBTable.id table]> m)
            tables m !! n
  = m !! n.
Proof.
  revert m. induction tables as [|t tables IH]; intros m Hall; simpl.
  - reflexivity.
  - rewrite IH by (intros a Ha; apply Hall; now right).
    apply lookup_insert_ne. apply Hall. now left.
Qed.

(** The last table of a name decides what the name resolves to. *)
Lemma tableNameToCurrentId_last (before after : list DBTable.t)
    (t : DBTable.t) :
  (forall a, In a after -> DBTable.name a <> DBTable.name t) ->
  tableNameToCurrentId (before ++ t :: after) !! DBTable.name t
  = Some (DBTable.id t).
Proof.
  intros Hafter. unfold tableNameToCurrentId.
  rewrite fold_left_app. simpl.
  rewrite tableNameToCurrentId_step by exact Hafter.
  apply lookup_insert_eq.
Qed.

Lemma tableNameToCurrentId_None (tables : list DBTable.t) (n : string) :
  (forall a, In a tables -> DBTable.name a <> n) ->
  tableNameToCurrentId tables !! n = None.
Proof.
  intros Hall. unfold tableNameToCurrentId.
  rewrite tableNameToCurrentId_step by exact Hall.
  apply lookup_empty.
Qed.

Lemma last_named (tables : list DBTable.t) (n : string) :
  (forall a, In a tables -> DBTable.name a <> n)
  \/ exists before t after,
       tables = before ++ t :: after /\ DBTable.name t = n
       /\ forall a, In a after -> DBTable.name a <> n.
Proof.
  induction tables as [|t tables IH].
  - left. intros a [].
  - destruct IH as [Hnone|(before & t' & after & -> & Hname & Hafter)].
    + destruct (String.eqb_spec (DBTable.name t) n) as [Heq|Hne].
      * right. exists [], t, tables. auto.
      * left. intros a [<-|Ha]; auto.
    + right. exists (t :: before), t', after. auto.
Qed.

Lemma tableNameToCurrentId_Some (tables : list DBTable.t) (n i : string) :
  tableNameToCurrentId tables !! n = Some i ->
  exists before t after,
    tables = before ++ t :: after /\ DBTable.name t = n /\ DBTable.id t = i
    /\ forall a, In a after -> DBTable.name a <> n.
Proof.
  intros Hlook.
  destruct (last_named tables n)
    as [Hnone|(before & t & after & -> & Hname & Hafter)].
  - rewrite tableNameToCurrentId_None in Hlook by exact Hnone. discriminate.
  - exists before, t, after. repeat split; auto.
    subst n. rewrite tableNameToCurrentId_last in Hlook by exact Hafter.
    congruence.
Qed.

(** ** The relationship addition pass *)

Lemma truthy_nonempty (s : string) : s <> "" -> truthy s = true.
Proof.
  intros Hne. unfold truthy. apply negb_true_iff.
  now destruct (String.eqb_spec s "").
Qed.

Lemma findTableById_Some (i : string) (tables : list DBTable.t)
    (t : DBTable.t) :
  findTableById i tables = Some t -> In t tables /\ DBTable.id t = i.
Proof.
  intros Hf. apply find_some in Hf as [Hin Heq].
  apply String.eqb_eq in Heq. auto.
Qed.

Lemma findFieldById_Some (i : string) (fields : list DBField.t)
    (f : DBField.t) :
  findFieldById i fields = Some f -> In f fields /\ DBField.id f = i.
Proof.
  intros Hf. apply find_some in Hf as [Hin Heq].
  apply String.eqb_eq in Heq. auto.
Qed.

Lemma currentIdOf_Some (m : gmap string string) (n i : string) :
  currentIdOf m n = Some i <-> m !! n = Some i /\ truthy i = true.
Proof.
  unfold currentIdOf. destruct (m !! n) as [j|]; simpl.
  - destruct (truthy j) eqn:Hj; split.
    + intros [= <-]. auto.
    + intros [[= <-] _]. reflexivity.
    + discriminate.
    + intros [[= <-] Ht]. congruence.
  - split; [discriminate|]. intros [? _]. discriminate.
Qed.

(** What a successful resolution has found. *)
Lemma resolveEndpoints_Some (importedTables updated : list DBTable.t)
    (rel : DBRelationship.t) (e : Endpoints) :
  resolveEndpoints importedTables updated rel = Some e ->
  findTableById (DBRelationship.sourceTableId rel) importedTables
    = Some (importedSourceTable e)
  /\ findTableById (DBRelationship.targetTableId rel) importedTables
     = Some (importedTargetTable e)
  /\ findFieldById (DBRelationship.sourceFieldId rel)
                   (DBTable.fields (importedSourceTable e))
     = Some (importedSourceField e)
  /\ findFieldById (DBRelationship.targetFieldId rel)
                   (DBTable.fields (importedTargetTable e))
     = Some (importedTargetField e)
  /\ currentIdOf (tableNameToCurrentId updated)
                 (DBTable.name (importedSourceTable e))
     = Some (currentSourceTableId e)
  /\ currentIdOf (tableNameToCurrentId updated)
                 (DBTable.name (importedTargetTable e))
     = Some (currentTargetTableId e)
  /\ findTableById (currentSourceTableId e) updated
     = Some (currentSourceTable e)
  /\ findTableById (currentTargetTableId e) updated
     = Some (currentTargetTable e)
  /\ findFieldByName (DBField.name (importedSourceField e))
                     (DBTable.fields (currentSourceTable e))
     = Some (currentSourceField e)
  /\ findFieldByName (DBField.name (importedTargetField e))
                     (DBTable.fields (currentTargetTable e))
     = Some (currentTargetField e).
Proof.
  unfold resolveEndpoints. intros Hres.
  destruct (findTableById (DBRelationship.sourceTableId rel) importedTables)
    as [ist|] eqn:Hq1; [|discriminate].
  destruct (findTableById (DBRelationship.targetTableId rel) importedTables)
    as [itt|] eqn:Hq2; [|discriminate].
  simpl in Hres.
  destruct (findFieldById (DBRelationship.sourceFieldId rel) (DBTable.fields ist))
    as [isf|] eqn:Hq3; [|discriminate].
  destruct (findFieldById (DBRelationship.targetFieldId rel) (DBTable.fields itt))
    as [itf|] eqn:Hq4; [|discriminate].
  simpl in Hres.
  destruct (currentIdOf (tableNameToCurrentId updated) (DBTable.name ist))
    as [sid|] eqn:Hq5; [|discriminate].
  destruct (currentIdOf (tableNameToCurrentId updated) (DBTable.name itt))
    as [tid|] eqn:Hq6; [|discriminate].
  simpl in Hres.
  destruct (findTableById sid updated) as [cst|] eqn:Hq7; [|discriminate].
  destruct (findTableById tid updated) as [ctt|] eqn:Hq8; [|discriminate].
  simpl in Hres.
  destruct (findFieldByName (DBField.name isf) (DBTable.fields cst))
    as [csf|] eqn:Hcsf; [|discriminate].
  destruct (findFieldByName (DBField.name itf) (DBTable.fields ctt))
    as [ctf|] eqn:Hctf; [|discriminate].
  simpl in Hres. injection Hres as <-. simpl.
  repeat split; (assumption || reflexivity).
Qed.

(** An endpoint that resolves is found by the lookups of the pass. *)
Lemma endpointResolves_lookups (updated : list DBTable.t)
    (tableName fieldName : string) (t : DBTable.t) :
  endpointResolves updated tableName fieldName t ->
  currentIdOf (tableNameToCurrentId updated) tableName = Some (DBTable.id t)
  /\ findTableById (DBTable.id t) updated = Some t
  /\ exists f, findFieldByName fieldName (DBTable.fields t) = Some f.
Proof.
  intros ((tableId & Hmap & Hfind) & Hid & f & Hf & Hname).
  destruct (findTableById_Some _ _ _ Hfind) as [_ <-].
  split; [|split; [exact Hfind|]].
  - apply currentIdOf_Some. split; [exact Hmap|now apply truthy_nonempty].
  - destruct (findFieldByName fieldName (DBTable.fields t)) as [g|] eqn:Hg;
      [eauto|].
    exfalso.
    exact (proj1 (findFieldByName_None fieldName (DBTable.fields t))
             Hg f Hf Hname).
Qed.

(** When its tables and fields are in the imported schema and both
    endpoints resolve, the relationship resolves, to the tables the
    endpoints resolve to. *)
Lemma resolveEndpoints_resolves (importedTables updated : list DBTable.t)
    (rel : DBRelationship.t) (ist itt : DBTable.t) (isf itf : DBField.t)
    (cst ctt : DBTable.t) :
  importedTableOf importedTables (DBRelationship.sourceTableId rel) ist ->
  importedTableOf importedTables (DBRelationship.targetTableId rel) itt ->
  findFieldById (DBRelationship.sourceFieldId rel) (DBTable.fields ist)
  = Some isf ->
  findFieldById (DBRelationship.targetFieldId rel) (DBTable.fields itt)
  = Some itf ->
  endpointResolves updated (DBTable.name ist) (DBField.name isf) cst ->
  endpointResolves updated (DBTable.name itt) (DBField.name itf) ctt ->
  exists e,
    resolveEndpoints importedTables updated rel = Some e
    /\ importedSourceTable e = ist /\ importedTargetTable e = itt
    /\ currentSourceTable e = cst /\ currentTargetTable e = ctt
    /\ currentSourceTableId e = DBTable.id cst
    /\ currentTargetTableId e = DBTable.id ctt.
Proof.
  unfold importedTableOf. intros Hist Hitt Hisf Hitf Hsrc Htgt.
  apply endpointResolves_lookups in Hsrc as (Hsid & Hcst & csf & Hcsf).
  apply endpointResolves_lookups in Htgt as (Htid & Hctt & ctf & Hctf).
  unfold resolveEndpoints.
  rewrite Hist, Hitt. simpl. rewrite Hisf, Hitf. simpl.
  rewrite Hsid, Htid. simpl. rewrite Hcst, Hctt. simpl.
  rewrite Hcsf, Hctf. simpl.
  eexists. split; [reflexivity|]. simpl. repeat split.
Qed.

Lemma endpointsToAdd_Some (currentRelationships : list DBRelationship.t)
    (importedTables updated : list DBTable.t) (rel : DBRelationship.t)
    (e : Endpoints) :
  endpointsToAdd currentRelationships importedTables updated rel = Some e ->
  resolveEndpoints importedTables updated rel = Some e
  /\ existingRelationship currentRelationships e = None.
Proof.
  unfold endpointsToAdd.
  destruct (resolveEndpoints importedTables updated rel) as [e'|];
    [|discriminate]. simpl.
  destruct (existingRelationship currentRelationships e') eqn:Hex;
    [discriminate|]. intros [= <-]. auto.
Qed.

Section AdditionPass.
Context `{Host} {S : Type}.
Variables (currentRelationships : list DBRelationship.t)
          (importedTables updated : list DBTable.t).

#[local] Abbreviation run :=
  (@mapRelationships _ S currentRelationships importedTables updated).

(** The pass always completes, touches neither the component's state nor
    the store nor the toasts, and creates relationships only from
    imported relationships that resolve and are not there yet. *)
Lemma mapRelationships_total (rels : list DBRelationship.t) (w : World S) :
  exists out w',
    run rels w = (Normal out, w')
    /\ session w' = session w
    /\ storeCalls w' = storeCalls w
    /\ toasts w' = toasts w
    /\ forall r, In r out ->
         exists rel e newId t,
           In rel rels
           /\ endpointsToAdd currentRelationships importedTables updated rel
              = Some e
           /\ r = mappedRelationship rel e newId t.
Proof.
  revert w. induction rels as [|rel rels IH]; intros w.
  - exists [], w. repeat split. intros r [].
  - cbn [mapRelationships]. unfold mbind, M_bind.
    destruct (endpointsToAdd currentRelationships importedTables updated rel)
      as [e|] eqn:He.
    + unfold freshId, now, mret, M_ret. cbn.
      match goal with
      | |- context [run rels ?w1] =>
          destruct (IH w1) as (out & w' & Hrun & Hs & Hc & Ht & Hout);
          rewrite Hrun
      end.
      eexists _, w'. repeat split; try assumption.
      intros r [<-|Hin].
      * exists rel, e. eexists _, _. repeat split; [now left|exact He].
      * destruct (Hout r Hin) as (rel' & e' & i & t & Hin' & He' & ->).
        exists rel', e', i, t. repeat split; [now right|exact He'].
    + unfold mret, M_ret. cbn.
      destruct (IH w) as (out & w' & Hrun & Hs & Hc & Ht & Hout).
      rewrite Hrun.
      exists out, w'. repeat split; try assumption.
      intros r Hin.
      destruct (Hout r Hin) as (rel' & e' & i & t & Hin' & He' & ->).
      exists rel', e', i, t. repeat split; [now right|exact He'].
Qed.

(** An imported relationship that yields no endpoints to add leaves no
    trace in the pass: same result, same ids and clock readings for the
    others. *)
Lemma mapRelationships_skip (before after : list DBRelationship.t)
    (rel : DBRelationship.t) (w : World S) :
  endpointsToAdd currentRelationships importedTables updated rel = None ->
  run (before ++ rel :: after) w = run (before ++ after) w.
Proof.
  intros Hnone. revert w.
  induction before as [|b before IH]; intros w.
  - cbn [app mapRelationships]. rewrite Hnone.
    unfold mbind, M_bind, mret, M_ret.
    destruct (run after w) as [[out|] w']; reflexivity.
  - cbn [app mapRelationships]. unfold mbind, M_bind.
    match goal with
    | |- (match ?first w with _ => _ end) = _ =>
        destruct (first w) as [[mapped|] w1]; [|reflexivity]
    end.
    now rewrite IH.
Qed.

Lemma mapRelationships_nil_if_none (rels : list DBRelationship.t)
    (w : World S) :
  (forall rel, In rel rels ->
     endpointsToAdd currentRelationships importedTables updated rel = None) ->
  run rels w = (Normal [], w).
Proof.
  revert w. induction rels as [|rel rels IH]; intros w Hall.
  - reflexivity.
  - cbn [mapRelationships]. rewrite Hall by now left.
    unfold mbind, M_bind, mret, M_ret.
    rewrite IH by (intros r Hr; apply Hall; now right).
    reflexivity.
Qed.
End AdditionPass.

(** C10. The addition pass resolves endpoint tables through a map keyed by
    the table name alone. When the merged table list holds two tables of
    one name, whatever their schemas, the later one overwrites the earlier
    one in the map (the last table of the name wins), so every endpoint of
    that name resolves to the id of the later table, and so does the
    relationship created from it, whichever schema the imported table of
    the relationship is in. And the relationship does resolve: when its
    tables and fields are in the imported schema and each endpoint leads,
    by the name of its table, to a table of the merged list that has an id
    and a field of the endpoint's name, the pass finds its endpoints, and
    an endpoint of that name is on the table with the id of the later
    table. *)
Theorem tableNameToCurrentId_later_table_wins
    (updated before between after : list DBTable.t)
    (earlier later : DBTable.t) :
  updated = before ++ earlier :: between ++ later :: after ->
  DBTable.name earlier = DBTable.name later ->
  (forall a, In a after -> DBTable.name a <> DBTable.name later) ->
  tableNameToCurrentId updated !! DBTable.name later = Some (DBTable.id later)
  /\ (forall importedTables rel e,
       resolveEndpoints importedTables updated rel = Some e ->
       (DBTable.name (importedSourceTable e) = DBTable.name later ->
          currentSourceTableId e = DBTable.id later
          /\ forall newId t,
               DBRelationship.sourceTableId (mappedRelationship rel e newId t)
               = DBTable.id later)
       /\ (DBTable.name (importedTargetTable e) = DBTable.name later ->
             currentTargetTableId e = DBTable.id later
             /\ forall newId t,
                  DBRelationship.targetTableId (mappedRelationship rel e newId t)
                  = DBTable.id later))
  /\ (forall importedTables rel ist itt isf itf cst ctt,
       importedTableOf importedTables (DBRelationship.sourceTableId rel) ist ->
       importedTableOf importedTables (DBRelationship.targetTableId rel) itt ->
       findFieldById (DBRelationship.sourceFieldId rel) (DBTable.fields ist)
       = Some isf ->
       findFieldById (DBRelationship.targetFieldId rel) (DBTable.fields itt)
       = Some itf ->
       endpointResolves updated (DBTable.name ist) (DBField.name isf) cst ->
       endpointResolves updated (DBTable.name itt) (DBField.name itf) ctt ->
       exists e,
         resolveEndpoints importedTables updated rel = Some e
         /\ importedSourceTable e = ist /\ importedTargetTable e = itt
         /\ currentSourceTable e = cst /\ currentTargetTable e = ctt
         /\ (DBTable.name ist = DBTable.name later ->
               currentSourceTableId e = DBTable.id later
               /\ DBTable.id cst = DBTable.id later)
         /\ (DBTable.name itt = DBTable.name later ->
               currentTargetTableId e = DBTable.id later
               /\ DBTable.id ctt = DBTable.id later)).
Proof.
  intros -> Hname Hafter.
  assert (Hlook : tableNameToCurrentId
                    (before ++ earlier :: between ++ later :: after)
                  !! DBTable.name later = Some (DBTable.id later)).
  { replace (before ++ earlier :: between ++ later :: after)
      with ((before ++ earlier :: between) ++ later :: after)
      by (rewrite <- app_assoc; reflexivity).
    now apply tableNameToCurrentId_last. }
  assert (Hids : forall importedTables rel e,
            resolveEndpoints importedTables
              (before ++ earlier :: between ++ later :: after) rel = Some e ->
            (DBTable.name (importedSourceTable e) = DBTable.name later ->
               currentSourceTableId e = DBTable.id later)
            /\ (DBTable.name (importedTargetTable e) = DBTable.name later ->
                  currentTargetTableId e = DBTable.id later)).
  { intros importedTables rel e Hres.
    apply resolveEndpoints_Some in Hres
      as (_ & _ & _ & _ & Hsid & Htid & _).
    apply currentIdOf_Some in Hsid as [Hsid _].
    apply currentIdOf_Some in Htid as [Htid _].
    split; intros Hn; rewrite Hn in *; congruence. }
  split; [exact Hlook|]. split.
  - intros importedTables rel e Hres.
    destruct (Hids _ _ _ Hres) as [Hs Ht].
    split; intros Hn; simpl; split; try intros _ _; auto.
  - intros importedTables rel ist itt isf itf cst ctt
           Hist Hitt Hisf Hitf Hsrc Htgt.
    destruct (resolveEndpoints_resolves _ _ _ _ _ _ _ _ _
                Hist Hitt Hisf Hitf Hsrc Htgt)
      as (e & Hres & His & Hit & Hcs & Hct & Hsid & Htid).
    exists e. destruct (Hids _ _ _ Hres) as [Hs Ht].
    rewrite His in Hs. rewrite Hit in Ht.
    repeat (split; [assumption|]).
    split; intros Hn; split; auto; [rewrite <- Hsid|rewrite <- Htid]; auto.
Qed.

Lemma tableNameToCurrentId_later_table_wins_witness :
  tableNameToCurrentId [Sample.crmUsers; Sample.shopUsers; Sample.orders]
    !! "Users"
  = Some "t-shop-users"
  /\ exists e,
       resolveEndpoints
         [Sample.importedCrmUsers; Sample.importedShopUsers;
          Sample.importedOrders]
         [Sample.crmUsers; Sample.shopUsers; Sample.orders]
         Sample.refToCrm
       = Some e
       /\ DBTable.schema (importedTargetTable e) = Some "crm"
       /\ currentTargetTableId e = "t-shop-users"
       /\ currentTargetTable e = Sample.shopUsers.
Proof.
  destruct (tableNameToCurrentId_later_table_wins
              [Sample.crmUsers; Sample.shopUsers; Sample.orders] [] []
              [Sample.orders] Sample.crmUsers Sample.shopUsers)
    as (Hmap & _ & Hresolves).
  - reflexivity.
  - reflexivity.
  - intros a [<-|[]]. discriminate.
  - split; [exact Hmap|].
    destruct (Hresolves
                [Sample.importedCrmUsers; Sample.importedShopUsers;
                 Sample.importedOrders]
                Sample.refToCrm
                Sample.importedOrders Sample.importedCrmUsers
                (Sample.field "k-7" "user_id") (Sample.field "k-2" "id")
                Sample.orders Sample.shopUsers)
      as (e & Hres & _ & Hit & _ & Hct & _ & Htid).
    + reflexivity.
    + reflexivity.
    + reflexivity.
    + reflexivity.
    + split; [exists "t-orders"; split; vm_compute; reflexivity|].
      split; [discriminate|].
      exists (Sample.field "f-orders-user" "user_id").
      split; [right; left; reflexivity|reflexivity].
    + split; [exists "t-shop-users"; split; vm_compute; reflexivity|].
      split; [discriminate|].
      exists (Sample.field "f-shop-id" "id").
      split; [left; reflexivity|reflexivity].
    + exists e. split; [exact Hres|]. split; [now rewrite Hit|].
      split; [exact (proj1 (Htid eq_refl))|exact Hct].
Defined.

(** The reference to [crm.Users] is attached to [shop.Users]. *)
Example resolveEndpoints_ignores_schema :
  currentTargetTableId
    <$> resolveEndpoints
          [Sample.importedCrmUsers; Sample.importedShopUsers;
           Sample.importedOrders]
          [Sample.crmUsers; Sample.shopUsers; Sample.orders]
          Sample.refToCrm
  = Some "t-shop-users".
Proof. vm_compute. reflexivity. Qed.

Lemma connects_true (r : DBRelationship.t) (st sf tt tf : string) :
  connects st sf tt tf r = true <-> connectsEndpoints r st sf tt tf.
Proof.
  unfold connects, connectsEndpoints.
  rewrite orb_true_iff, !andb_true_iff, !String.eqb_eq. tauto.
Qed.

(** C6. An imported relationship whose endpoints resolve to tables and
    fields that a relationship of the current diagram already connects, in
    this direction or the other, is not created: the callback returns
    [null] for it, and the pass produces what it produces without it. *)
Theorem existing_relationship_is_not_added {host : Host} {S : Type}
    (currentRelationships : list DBRelationship.t)
    (importedTables updated : list DBTable.t)
    (rel existing : DBRelationship.t) (e : Endpoints) :
  resolveEndpoints importedTables updated rel = Some e ->
  In existing currentRelationships ->
  connectsEndpoints existing
    (currentSourceTableId e) (DBField.id (currentSourceField e))
    (currentTargetTableId e) (DBField.id (currentTargetField e)) ->
  endpointsToAdd currentRelationships importedTables updated rel = None
  /\ forall (before after : list DBRelationship.t) (w : World S),
       mapRelationships currentRelationships importedTables updated
                        (before ++ rel :: after) w
       = mapRelationships currentRelationships importedTables updated
                          (before ++ after) w.
Proof.
  intros Hres Hin Hconn.
  assert (Hnone : endpointsToAdd currentRelationships importedTables updated rel
                  = None).
  { unfold endpointsToAdd. rewrite Hres. simpl.
    destruct (existingRelationship currentRelationships e) eqn:Hex;
      [reflexivity|].
    unfold existingRelationship in Hex.
    pose proof (find_none _ _ Hex existing Hin) as Hno.
    apply connects_true in Hconn. congruence. }
  split; [exact Hnone|].
  intros before after w. now apply mapRelationships_skip.
Qed.

Lemma existing_relationship_is_not_added_witness :
  endpointsToAdd
    (Diagram.relationships Sample.diagram)
    (Diagram.tables Sample.reimported)
    (updatedDiagramTables
       (Diagram.tables Sample.diagram)
       (reconcileTables (Diagram.tables Sample.diagram)
                        (Diagram.tables Sample.reimported)))
    Sample.reimportedRef
  = None.
Proof.
  refine (proj1 (existing_relationship_is_not_added
                   (host := Sample.host) (S := unit)
                   _ _ _ _ Sample.ordersUser _ _ _ _)).
  - vm_compute. reflexivity.
  - left. reflexivity.
  - left. repeat split.
Defined.

(** ** The apply pipeline *)

Lemma pipelineCalls_ordered (a : Applied) :
  StronglySorted lt (map stepNumber (pipelineCalls a))
  /\ Forall (fun c => emptyOperand c = false) (pipelineCalls a).
Proof.
  unfold pipelineCalls.
  destruct (tablesToRemove (changes a)), (relationshipsToRemove a),
    (tablesToUpdate (changes a)), (tablesToAdd (changes a)),
    (relationshipsToAdd a); simpl;
    (split; [repeat (constructor; [|repeat constructor; lia])
            |repeat constructor]); constructor.
Qed.

Lemma StronglySorted_prefix {A} (R : A -> A -> Prop) (l1 l2 : list A) :
  StronglySorted R (l1 ++ l2) -> StronglySorted R l1.
Proof.
  induction l1 as [|a l1 IH]; simpl; [constructor|].
  intros Hs. apply StronglySorted_inv in Hs as [Hs Hall].
  constructor; [now apply IH|].
  apply List.Forall_app in Hall. tauto.
Qed.

Section PipelineFacts.
Context {host : Host} {S : Type}.

Lemma withCalls_nil (w : World S) : withCalls w [] = w.
Proof. destruct w. unfold withCalls. simpl. now rewrite app_nil_r. Qed.

Lemma withCalls_app (w : World S) (c1 c2 : list StoreCall) :
  withCalls (withCalls w c1) c2 = withCalls w (c1 ++ c2).
Proof. unfold withCalls. simpl. now rewrite app_assoc. Qed.

(** A guarded store call followed by the rest of the run. *)
Lemma bind_whenNonEmpty {A B} (operand : list A) (c : StoreCall)
    (k : M S B) (w : World S) :
  (whenNonEmpty operand c;; k) w
  = if existsb storeRejects (step operand c)
    then (Throw, withCalls w (step operand c))
    else k (withCalls w (step operand c)).
Proof.
  unfold mbind, M_bind. destruct operand as [|x operand]; simpl.
  - now rewrite withCalls_nil.
  - unfold callStore. fold (withCalls w [c]).
    destruct (storeRejects c); reflexivity.
Qed.

(** One run of the pipeline: the calls it makes are an initial segment
    of the five steps of some plan, the whole of it when the run
    completes, and cut after a rejected call otherwise. *)
Lemma reconcileAndApply_run
    (rule : Diagram.t -> Diagram.t -> TableChanges -> DBRelationship.t -> bool)
    (currentDiagram importedDiagram : Diagram.t) (w : World S) :
  exists res w' a tr rest,
    reconcileAndApply rule currentDiagram importedDiagram w = (res, w')
    /\ session w' = session w
    /\ toasts w' = toasts w
    /\ storeCalls w' = storeCalls w ++ tr
    /\ tr ++ rest = pipelineCalls a
    /\ changes a = reconcileTables (Diagram.tables currentDiagram)
                                   (Diagram.tables importedDiagram)
    /\ relationshipsToRemove a
       = List.filter (rule currentDiagram importedDiagram (changes a))
                     (Diagram.relationships currentDiagram)
    /\ updatedTables a
       = updatedDiagramTables (Diagram.tables currentDiagram) (changes a)
    /\ (exists w1 w2 : World S,
          mapRelationships (Diagram.relationships currentDiagram)
                           (Diagram.tables importedDiagram)
                           (updatedTables a)
                           (Diagram.relationships importedDiagram) w1
          = (Normal (relationshipsToAdd a), w2))
    /\ match res with
       | Normal a' =>
           a' = a /\ rest = []
           /\ Forall (fun c => storeRejects c = false) tr
       | Throw => exists c, In c tr /\ storeRejects c = true
       end.
Proof.
  unfold reconcileAndApply.
  set (ch := reconcileTables _ _).
  set (toRemove := List.filter _ _).
  set (updated := updatedDiagramTables _ _).
  pose (c1 := step (tablesToRemove ch)
                (removeTables (map DBTable.id (tablesToRemove ch)))).
  pose (c2 := step toRemove
                (removeRelationships (map DBRelationship.id toRemove))).
  pose (c3 := step (tablesToUpdate ch) (updateTablesState (tablesToUpdate ch))).
  pose (c4 := step (tablesToAdd ch) (addTables (tablesToAdd ch))).
  assert (Hrejected : forall cs, existsb storeRejects cs = true ->
            exists c, In c cs /\ storeRejects c = true).
  { intros cs Hex. apply existsb_exists in Hex. exact Hex. }
  assert (Haccepted : forall cs, existsb storeRejects cs = false ->
            Forall (fun c => storeRejects c = false) cs).
  { intros cs Hex. apply List.Forall_forall. intros c Hc.
    destruct (storeRejects c) eqn:Hr; [|reflexivity].
    assert (existsb storeRejects cs = true)
      by (apply existsb_exists; eauto). congruence. }
  (* what the addition pass would return after the first four steps *)
  destruct (mapRelationships_total
              (Diagram.relationships currentDiagram)
              (Diagram.tables importedDiagram) updated
              (Diagram.relationships importedDiagram)
              (withCalls w (c1 ++ c2 ++ c3 ++ c4)))
    as (toAdd & w2 & Hmap & Hs2 & Hc2 & Ht2 & _).
  pose (a := {| changes := ch; relationshipsToRemove := toRemove;
                updatedTables := updated; relationshipsToAdd := toAdd |}).
  pose (c5 := step toAdd (addRelationships toAdd)).
  assert (Hplan : pipelineCalls a = c1 ++ c2 ++ c3 ++ c4 ++ c5) by reflexivity.
  assert (Hadd : exists w1 w2' : World S,
            mapRelationships (Diagram.relationships currentDiagram)
              (Diagram.tables importedDiagram) (updatedTables a)
              (Diagram.relationships importedDiagram) w1
            = (Normal (relationshipsToAdd a), w2')) by eauto.
  assert (Hlast : forall pre cs, existsb storeRejects cs = true ->
            exists c, In c (pre ++ cs) /\ storeRejects c = true).
  { intros pre cs Hex. apply Hrejected in Hex as (c & Hc & Hr).
    exists c. split; [apply in_or_app; now right|exact Hr]. }
  rewrite bind_whenNonEmpty. fold c1.
  destruct (existsb storeRejects c1) eqn:H1.
  { exists Throw, (withCalls w c1), a, c1, (c2 ++ c3 ++ c4 ++ c5).
    split_ands; auto. }
  rewrite bind_whenNonEmpty. fold c2. rewrite withCalls_app.
  destruct (existsb storeRejects c2) eqn:H2.
  { exists Throw, (withCalls w (c1 ++ c2)), a, (c1 ++ c2), (c3 ++ c4 ++ c5).
    split_ands; auto. now rewrite <- app_assoc. }
  rewrite bind_whenNonEmpty. fold c3. rewrite withCalls_app.
  destruct (existsb storeRejects c3) eqn:H3.
  { exists Throw, (withCalls w ((c1 ++ c2) ++ c3)), a,
      ((c1 ++ c2) ++ c3), (c4 ++ c5).
    split_ands; auto. now rewrite <- !app_assoc. }
  rewrite bind_whenNonEmpty. fold c4. rewrite withCalls_app.
  destruct (existsb storeRejects c4) eqn:H4.
  { exists Throw, (withCalls w (((c1 ++ c2) ++ c3) ++ c4)), a,
      (((c1 ++ c2) ++ c3) ++ c4), c5.
    split_ands; auto. now rewrite <- !app_assoc. }
  replace (((c1 ++ c2) ++ c3) ++ c4) with (c1 ++ c2 ++ c3 ++ c4)
    by now rewrite <- !app_assoc.
  unfold mbind at 1, M_bind at 1. rewrite Hmap.
  rewrite bind_whenNonEmpty. fold c5.
  assert (Hw2 : storeCalls (withCalls w2 c5)
                = storeCalls w ++ (c1 ++ c2 ++ c3 ++ c4) ++ c5).
  { simpl. rewrite Hc2. simpl. now rewrite <- !app_assoc. }
  destruct (existsb storeRejects c5) eqn:H5.
  { exists Throw, (withCalls w2 c5), a, ((c1 ++ c2 ++ c3 ++ c4) ++ c5), [].
    split_ands; auto.
    now rewrite app_nil_r, <- !app_assoc. }
  exists (Normal a), (withCalls w2 c5), a, ((c1 ++ c2 ++ c3 ++ c4) ++ c5), [].
  split_ands; auto.
  - now rewrite app_nil_r, <- !app_assoc.
  - repeat (apply List.Forall_app; split); auto.
Qed.
End PipelineFacts.

Lemma firstNamed_In (n : string) (fields : list DBField.t) (f : DBField.t) :
  firstNamed n fields f -> In f fields /\ DBField.name f = n.
Proof.
  intros (before & after & -> & Hname & _). split; [|exact Hname].
  apply in_or_app. right. now left.
Qed.

(** C7. An imported relationship one of whose endpoints does not resolve
    (a table or a field that is not found in the imported schema, or whose
    name is not found in the merged table list) is skipped silently: the
    callback returns [null] for it, the pass produces what it produces
    without it, the pass itself always completes, and a run of the pipeline
    ends in an exception only when the store rejected one of its calls. *)
Theorem unresolved_relationship_is_skipped {host : Host} {S : Type}
    (currentRelationships : list DBRelationship.t)
    (importedTables updated : list DBTable.t) (rel : DBRelationship.t) :
  ResolutionFails importedTables updated rel ->
  endpointsToAdd currentRelationships importedTables updated rel = None
  /\ (forall (before after : list DBRelationship.t) (w : World S),
        mapRelationships currentRelationships importedTables updated
                         (before ++ rel :: after) w
        = mapRelationships currentRelationships importedTables updated
                           (before ++ after) w)
  /\ (forall (rels : list DBRelationship.t) (w : World S),
        exists out w',
          mapRelationships currentRelationships importedTables updated rels w
          = (Normal out, w'))
  /\ (forall rule currentDiagram importedDiagram (w : World S),
        fst (reconcileAndApply rule currentDiagram importedDiagram w) = Throw ->
        exists c,
          In c (storeCalls
                  (snd (reconcileAndApply rule currentDiagram importedDiagram w)))
          /\ storeRejects c = true).
Proof.
  intros Hfails.
  assert (Hres : resolveEndpoints importedTables updated rel = None).
  { destruct (resolveEndpoints importedTables updated rel) as [e|] eqn:Hres;
      [exfalso|reflexivity].
    apply resolveEndpoints_Some in Hres
      as (Hist & Hitt & Hisf & Hitf & Hsid & Htid & Hcst & Hctt & Hcsf & Hctf).
    apply currentIdOf_Some in Hsid as [Hsid _].
    apply currentIdOf_Some in Htid as [Htid _].
    destruct Hfails
      as [Hno|Hno|ist Hfound Hno|itt Hfound Hno
         |ist Hfound Hno|itt Hfound Hno
         |ist cst isf Hfound Hfield (i & Hlook & Hcur) Hno
         |itt ctt itf Hfound Hfield (i & Hlook & Hcur) Hno];
      unfold importedTableOf in *.
    - apply findTableById_Some in Hist as [Hin Hid]. now apply (Hno _ Hin).
    - apply findTableById_Some in Hitt as [Hin Hid]. now apply (Hno _ Hin).
    - assert (ist = importedSourceTable e) as -> by congruence.
      apply findFieldById_Some in Hisf as [Hin Hid]. now apply (Hno _ Hin).
    - assert (itt = importedTargetTable e) as -> by congruence.
      apply findFieldById_Some in Hitf as [Hin Hid]. now apply (Hno _ Hin).
    - assert (ist = importedSourceTable e) as -> by congruence.
      apply tableNameToCurrentId_Some in Hsid
        as (b & t & a & -> & Hname & _).
      apply (Hno t); [apply in_or_app; right; now left|exact Hname].
    - assert (itt = importedTargetTable e) as -> by congruence.
      apply tableNameToCurrentId_Some in Htid
        as (b & t & a & -> & Hname & _).
      apply (Hno t); [apply in_or_app; right; now left|exact Hname].
    - assert (ist = importedSourceTable e) as -> by congruence.
      assert (isf = importedSourceField e) as -> by congruence.
      assert (i = currentSourceTableId e) as -> by congruence.
      assert (cst = currentSourceTable e) as -> by congruence.
      apply findFieldByName_Some, firstNamed_In in Hcsf as [Hin Hname].
      now apply (Hno _ Hin).
    - assert (itt = importedTargetTable e) as -> by congruence.
      assert (itf = importedTargetField e) as -> by congruence.
      assert (i = currentTargetTableId e) as -> by congruence.
      assert (ctt = currentTargetTable e) as -> by congruence.
      apply findFieldByName_Some, firstNamed_In in Hctf as [Hin Hname].
      now apply (Hno _ Hin). }
  assert (Hnone : endpointsToAdd currentRelationships importedTables updated rel
                  = None).
  { unfold endpointsToAdd. now rewrite Hres. }
  split_ands.
  - exact Hnone.
  - intros before after w. now apply mapRelationships_skip.
  - intros rels w.
    destruct (mapRelationships_total currentRelationships importedTables
                updated rels w) as (out & w' & Hrun & _).
    eauto.
  - intros rule currentDiagram importedDiagram w Hthrow.
    destruct (reconcileAndApply_run rule currentDiagram importedDiagram w)
      as (res & w' & a & tr & rest & Hrun & _ & _ & Hcalls & _ & _ & _ & _ & _
          & Hres').
    rewrite Hrun in *. simpl in *. subst res.
    destruct Hres' as (c & Hc & Hr). exists c. split; [|exact Hr].
    rewrite Hcalls. apply in_or_app. now right.
Qed.

Lemma unresolved_relationship_is_skipped_witness :
  endpointsToAdd
    (Diagram.relationships Sample.diagram)
    (Diagram.tables Sample.edited)
    (updatedDiagramTables
       (Diagram.tables Sample.diagram)
       (reconcileTables (Diagram.tables Sample.diagram)
                        (Diagram.tables Sample.edited)))
    Sample.danglingRef
  = None.
Proof.
  refine (proj1 (unresolved_relationship_is_skipped
                   (host := Sample.host) (S := unit) _ _ _ _ _)).
  apply noImportedSourceField with (ist := Sample.importedPurchases).
  - reflexivity.
  - simpl. intros f [<-|[<-|[]]]; discriminate.
Defined.

(** ** Relationship removal in [EditorTableDBML] *)

Lemma has_true (k : string) (m : gmap string bool) :
  has k m = true <-> is_Some (m !! k).
Proof. unfold has. apply bool_decide_eq_true. Qed.

(** A key is in [importedRelationshipMap] exactly when it is the key, in
    one direction or the other, of an imported relationship whose endpoints
    have names. *)
Lemma recordImportedRelationship_fold (importedTables : list DBTable.t)
    (rels : list DBRelationship.t) (m : gmap string bool) (k : string) :
  is_Some (fold_left (recordImportedRelationship importedTables) rels m !! k)
  <-> is_Some (m !! k)
      \/ exists q a b c d,
           In q rels
           /\ endpointNames importedTables q = Some (a, b, c, d)
           /\ (k = relationshipKey a b c d \/ k = relationshipKey c d a b).
Proof.
  revert m. induction rels as [|q rels IH]; intros m; simpl.
  - split; [auto|]. intros [Hm|(q & a & b & c & d & [] & _)]. exact Hm.
  - rewrite IH. unfold recordImportedRelationship at 1.
    destruct (endpointNames importedTables q) as [[[[a b] c] d]|] eqn:Hq.
    + split.
      * intros [Hm|(q' & a' & b' & c' & d' & Hin & Hn & Hk)].
        -- destruct (decide (relationshipKey c d a b = k)) as [<-|Hne1].
           { right. exists q, a, b, c, d. auto. }
           rewrite lookup_insert_ne in Hm by exact Hne1.
           destruct (decide (relationshipKey a b c d = k)) as [<-|Hne2].
           { right. exists q, a, b, c, d. auto. }
           rewrite lookup_insert_ne in Hm by exact Hne2. now left.
        -- right. exists q', a', b', c', d'. auto.
      * intros [Hm|(q' & a' & b' & c' & d' & [<-|Hin] & Hn & Hk)].
        -- left.
           destruct (decide (relationshipKey c d a b = k)) as [<-|Hne1];
             [rewrite lookup_insert_eq; eauto|].
           rewrite lookup_insert_ne by exact Hne1.
           destruct (decide (relationshipKey a b c d = k)) as [<-|Hne2];
             [rewrite lookup_insert_eq; eauto|].
           now rewrite lookup_insert_ne by exact Hne2.
        -- left. rewrite Hq in Hn. injection Hn as <- <- <- <-.
           destruct Hk as [->| ->].
           ++ destruct (decide (relationshipKey c d a b
                                = relationshipKey a b c d)) as [Heq|Hne1].
              ** rewrite Heq, lookup_insert_eq. eauto.
              ** rewrite lookup_insert_ne by exact Hne1.
                 rewrite lookup_insert_eq. eauto.
           ++ rewrite lookup_insert_eq. eauto.
        -- right. exists q', a', b', c', d'. auto.
    + split.
      * intros [Hm|(q' & a' & b' & c' & d' & Hin & Hn & Hk)]; [now left|].
        right. exists q', a', b', c', d'. auto.
      * intros [Hm|(q' & a' & b' & c' & d' & [<-|Hin] & Hn & Hk)];
          [now left|congruence|].
        right. exists q', a', b', c', d'. auto.
Qed.

Lemma importedRelationshipMap_has (imported : Diagram.t) (k : string) :
  has k (importedRelationshipMap imported) = true
  <-> exists q a b c d,
        In q (Diagram.relationships imported)
        /\ endpointNames (Diagram.tables imported) q = Some (a, b, c, d)
        /\ (k = relationshipKey a b c d \/ k = relationshipKey c d a b).
Proof.
  rewrite has_true. unfold importedRelationshipMap.
  rewrite recordImportedRelationship_fold. rewrite lookup_empty.
  split; [|auto]. intros [[x Hx]|Hex]; [discriminate|exact Hex].
Qed.

(** ** Composed keys and the names they are composed of *)

Lemma separators_append (s1 s2 : string) :
  separators (s1 +:+ s2) = (separators s1 + separators s2)%nat.
Proof. induction s1 as [|c s1 IH]; simpl; [reflexivity|]. rewrite IH. lia. Qed.

(** A string is cut in one way only at its first separator. *)
Lemma split_at_separator (x : ascii) (a a' r r' : string) :
  isSeparator x = true ->
  separators a = 0%nat -> separators a' = 0%nat ->
  a +:+ String x r = a' +:+ String x r' -> a = a' /\ r = r'.
Proof.
  intros Hx. revert a'.
  induction a as [|c a IH]; intros [|c' a'] Ha Ha' Heq; simpl in *.
  - injection Heq as ->. auto.
  - injection Heq as <- _. rewrite Hx in Ha'. discriminate.
  - injection Heq as -> _. rewrite Hx in Ha. discriminate.
  - injection Heq as -> Heq.
    destruct (isSeparator c'); [discriminate|].
    destruct (IH a' Ha Ha' Heq) as [-> ->]. auto.
Qed.

Lemma relationshipKey_separators (a b c d : string) :
  separators (relationshipKey a b c d)
  = (3 + separators a + separators b + separators c + separators d)%nat.
Proof.
  unfold relationshipKey. rewrite !separators_append. simpl. lia.
Qed.

(** The key determines the four names when these contain no separator. *)
Lemma relationshipKey_injective (a b c d a' b' c' d' : string) :
  separatorFree (a, b, c, d) ->
  relationshipKey a' b' c' d' = relationshipKey a b c d ->
  (a', b', c', d') = (a, b, c, d).
Proof.
  intros (Ha & Hb & Hc & Hd) Hkey.
  pose proof (f_equal separators Hkey) as Hcount.
  rewrite !relationshipKey_separators in Hcount.
  assert (Ha' : separators a' = 0%nat) by lia.
  assert (Hb' : separators b' = 0%nat) by lia.
  assert (Hc' : separators c' = 0%nat) by lia.
  assert (Hd' : separators d' = 0%nat) by lia.
  unfold relationshipKey in Hkey.
  apply (split_at_separator "."%char) in Hkey as [-> Hkey]; auto.
  apply (split_at_separator ":"%char) in Hkey as [-> Hkey]; auto.
  apply (split_at_separator "."%char) in Hkey as [-> ->]; auto.
Qed.

(** On names without separators, the match on keys is the match on the
    four names, read in either direction. *)
Lemma matchedByNames_iff (m n : string * string * string * string) :
  separatorFree n ->
  matchedByNames m n <-> m = n \/ m = reverseNames n.
Proof.
  destruct m as [[[a' b'] c'] d'], n as [[[a b] c] d].
  intros Hfree.
  assert (Hfree' : separatorFree (c, d, a, b)) by (simpl in *; tauto).
  unfold matchedByNames, reverseNames. split.
  - intros [H|[H|[H|H]]].
    + left. now apply relationshipKey_injective.
    + right. apply relationshipKey_injective in H; [|exact Hfree].
      congruence.
    + right. now apply relationshipKey_injective.
    + left. apply relationshipKey_injective in H; [|exact Hfree'].
      congruence.
  - intros [H|H]; injection H as -> -> -> ->; auto.
Qed.

(** ** The removal set *)

(** A relationship whose key, in both directions, is the key of no
    imported relationship passes the removal rule, whatever the
    reconciliation of the tables. *)
Lemma removalRule_unmatched (currentDiagram importedDiagram : Diagram.t)
    (rel : DBRelationship.t) (names : string * string * string * string) :
  endpointNames (Diagram.tables currentDiagram) rel = Some names ->
  (forall q importedNames,
     In q (Diagram.relationships importedDiagram) ->
     endpointNames (Diagram.tables importedDiagram) q = Some importedNames ->
     ~ matchedByNames importedNames names) ->
  forall ch,
    EditorTableDBML.removalRule currentDiagram importedDiagram ch rel = true.
Proof.
  intros Hnames Hunmatched ch.
  destruct names as [[[srcT srcF] tgtT] tgtF].
  unfold EditorTableDBML.removalRule.
  destruct (isConnectedToRemovedTable (tablesToRemove ch) rel);
    [reflexivity|].
  unfold absentFromImport. rewrite Hnames.
  destruct (has (relationshipKey srcT srcF tgtT tgtF)
                (importedRelationshipMap importedDiagram)) eqn:Hk1.
  { exfalso. apply importedRelationshipMap_has in Hk1
      as (q & a & b & c & d & Hq & Hn & Hk).
    apply (Hunmatched q (a, b, c, d) Hq Hn). simpl.
    destruct Hk as [Hk|Hk]; rewrite <- Hk; auto. }
  destruct (has (relationshipKey tgtT tgtF srcT srcF)
                (importedRelationshipMap importedDiagram)) eqn:Hk2.
  { exfalso. apply importedRelationshipMap_has in Hk2
      as (q & a & b & c & d & Hq & Hn & Hk).
    apply (Hunmatched q (a, b, c, d) Hq Hn). simpl.
    destruct Hk as [Hk|Hk]; rewrite <- Hk; auto. }
  reflexivity.
Qed.

(** What passes the rule is in the removal set of every run that gets to
    the end of the pipeline. *)
Lemma removalRule_run {host : Host} {S : Type}
    (rule : Diagram.t -> Diagram.t -> TableChanges -> DBRelationship.t -> bool)
    (currentDiagram importedDiagram : Diagram.t) (rel : DBRelationship.t) :
  In rel (Diagram.relationships currentDiagram) ->
  (forall ch, rule currentDiagram importedDiagram ch rel = true) ->
  forall (w w' : World S) (a : Applied),
    reconcileAndApply rule currentDiagram importedDiagram w = (Normal a, w') ->
    In rel (relationshipsToRemove a).
Proof.
  intros Hin Hrule w w' a Hrun.
  destruct (reconcileAndApply_run rule currentDiagram importedDiagram w)
    as (res & w1 & a1 & tr & rest & Hrun1 & _ & _ & _ & _ & _ & Hrem & _ & _
        & Hres).
  rewrite Hrun in Hrun1. injection Hrun1 as <- <-.
  destruct Hres as (-> & _). rewrite Hrem. apply filter_In. auto.
Qed.




(** Deleting the reference from the text, with both tables intact, removes
    the relationship in [EditorTableDBML] and keeps it in [TableDBML]. *)
Example reference_deleted_from_text :
  List.filter
    (EditorTableDBML.removalRule Sample.diagram Sample.withoutRef
       (reconcileTables (Diagram.tables Sample.diagram)
                        (Diagram.tables Sample.withoutRef)))
    (Diagram.relationships Sample.diagram)
  = [Sample.ordersUser]
  /\ List.filter
       (TableDBML.removalRule Sample.diagram Sample.withoutRef
          (reconcileTables (Diagram.tables Sample.diagram)
                           (Diagram.tables Sample.withoutRef)))
       (Diagram.relationships Sample.diagram)
     = [].
Proof. split; vm_compute; reflexivity. Qed.

(** ** Runs of [applyDBMLChanges] *)

Lemma ranPipeline_ordered {host : Host} {S : Type}
    (rule : Diagram.t -> Diagram.t -> TableChanges -> DBRelationship.t -> bool)
    (currentDiagram importedDiagram : Diagram.t) (w w' : World S) :
  ranPipeline rule currentDiagram importedDiagram w w' -> orderedCalls w w'.
Proof.
  intros (a & tr & rest & Hcalls & Hplan & _).
  exists tr. split; [exact Hcalls|].
  destruct (pipelineCalls_ordered a) as [Hsorted Hnonempty].
  rewrite <- Hplan in Hsorted, Hnonempty. split.
  - rewrite map_app in Hsorted. now apply StronglySorted_prefix in Hsorted.
  - apply List.Forall_app in Hnonempty. tauto.
Qed.

Lemma orderedCalls_none {S : Type} (w w' : World S) :
  storeCalls w' = storeCalls w -> orderedCalls w w'.
Proof.
  intros Heq. exists []. rewrite app_nil_r.
  split; [exact Heq|]. split; constructor.
Qed.

Lemma reconcileAndApply_ranPipeline {host : Host} {S : Type}
    (rule : Diagram.t -> Diagram.t -> TableChanges -> DBRelationship.t -> bool)
    (currentDiagram importedDiagram : Diagram.t) (w : World S) :
  ranPipeline rule currentDiagram importedDiagram w
    (snd (reconcileAndApply rule currentDiagram importedDiagram w)).
Proof.
  destruct (reconcileAndApply_run rule currentDiagram importedDiagram w)
    as (res & w' & a & tr & rest & Hrun & _ & _ & Hcalls & Hplan & Hch & Hrem
        & Hupd & Hadd & Hres).
  rewrite Hrun. simpl.
  exists a, tr, rest. split_ands; auto.
  destruct res as [a'|]; [left; tauto|right; exact Hres].
Qed.

Section Runs.
Context {host : Host}.

(** What a run of [TableDBML.applyDBMLChanges] does to the store. *)
Lemma TableDBML_applyDBMLChanges_calls (currentDiagram : Diagram.t)
    (w : World TableDBML.State) :
  storeCalls (snd (TableDBML.applyDBMLChanges currentDiagram w))
  = match TableDBML.dbmlError (session w),
          importDBMLToDiagram (TableDBML.dbmlContent (session w)) with
    | None, Some importedDiagram =>
        storeCalls
          (snd (reconcileAndApply TableDBML.removalRule
                  currentDiagram importedDiagram w))
    | _, _ => storeCalls w
    end.
Proof.
  unfold TableDBML.applyDBMLChanges.
  unfold mbind at 1, M_bind at 1, getSession.
  destruct (TableDBML.dbmlError (session w)) as [err|]; [reflexivity|].
  unfold tryCatch, mbind, M_bind, orThrow.
  destruct (importDBMLToDiagram (TableDBML.dbmlContent (session w)))
    as [importedDiagram|]; [|reflexivity].
  destruct (reconcileAndApply TableDBML.removalRule currentDiagram
              importedDiagram w) as [[a|] w1]; [|reflexivity].
  unfold TableDBML.setIsDirty, TableDBML.setDbmlContent, regenerateDBML,
    modifySession, orThrow, toast. simpl.
  destruct (importer_import _ _); reflexivity.
Qed.

Section Frame.
Context {S : Type}.

Lemma keepsCalls_ret {A} (a : A) : keepsCalls (mret a : M S A).
Proof. intros w. reflexivity. Qed.

Lemma keepsCalls_bind {A B} (m : M S A) (k : A -> M S B) :
  keepsCalls m -> (forall a, keepsCalls (k a)) -> keepsCalls (m ≫= k).
Proof.
  intros Hm Hk w. unfold mbind, M_bind.
  specialize (Hm w). destruct (m w) as [[a|] w1]; simpl in *.
  - now rewrite Hk.
  - exact Hm.
Qed.

Lemma keepsCalls_tryCatch {A} (body handler : M S A) :
  keepsCalls body -> keepsCalls handler -> keepsCalls (tryCatch body handler).
Proof.
  intros Hb Hh w. unfold tryCatch.
  specialize (Hb w). destruct (body w) as [[a|] w1]; simpl in *.
  - exact Hb.
  - now rewrite Hh.
Qed.

Lemma keepsCalls_tryFinally {A} (body : M S A) (cleanup : M S unit) :
  keepsCalls body -> keepsCalls cleanup -> keepsCalls (tryFinally body cleanup).
Proof.
  intros Hb Hc w. unfold tryFinally.
  specialize (Hb w). destruct (body w) as [res w1]; simpl in *.
  specialize (Hc w1). destruct (cleanup w1) as [[u|] w2]; simpl in *;
    congruence.
Qed.

Lemma keepsCalls_modifySession (f : S -> S) : keepsCalls (modifySession f).
Proof. intros w. reflexivity. Qed.

Lemma keepsCalls_getSession : keepsCalls (@getSession S).
Proof. intros w. reflexivity. Qed.

Lemma keepsCalls_toast (t : Toast) : keepsCalls (@toast S t).
Proof. intros w. reflexivity. Qed.

Lemma keepsCalls_now : keepsCalls (@now host S).
Proof. intros w. reflexivity. Qed.

Lemma keepsCalls_orThrow {A} (o : option A) : keepsCalls (@orThrow S A o).
Proof. intros w. destruct o; reflexivity. Qed.

Lemma keepsCalls_complete {A} (c : Completion A) :
  keepsCalls (@complete S A c).
Proof. intros w. reflexivity. Qed.

Lemma keepsCalls_regenerateDBML (currentDiagram : Diagram.t) (a : Applied) :
  keepsCalls (@regenerateDBML host S currentDiagram a).
Proof. apply keepsCalls_orThrow. Qed.
End Frame.

Create HintDb frame.

#[local] Hint Resolve keepsCalls_ret keepsCalls_bind keepsCalls_tryCatch
  keepsCalls_tryFinally keepsCalls_modifySession keepsCalls_getSession
  keepsCalls_toast keepsCalls_now keepsCalls_orThrow keepsCalls_complete
  keepsCalls_regenerateDBML : frame.

Lemma keepsCalls_editedWithin (window : Z) :
  keepsCalls (EditorTableDBML.editedWithin window).
Proof.
  unfold EditorTableDBML.editedWithin.
  apply keepsCalls_bind; [auto with frame|]. intros s.
  destruct (EditorTableDBML.userHasEditedRef s); auto with frame.
Qed.

Lemma keepsCalls_onDidChangeCursorPosition :
  keepsCalls EditorTableDBML.onDidChangeCursorPosition.
Proof. unfold EditorTableDBML.onDidChangeCursorPosition. auto with frame. Qed.

Lemma keepsCalls_onDidChangeModelContent :
  keepsCalls EditorTableDBML.onDidChangeModelContent.
Proof.
  unfold EditorTableDBML.onDidChangeModelContent.
  apply keepsCalls_bind; [auto with frame|]. intros s.
  destruct (EditorTableDBML.skipContentChangeRef s); auto 6 with frame.
Qed.

Lemma keepsCalls_widgetCall (before after : Editor.t) :
  keepsCalls (EditorTableDBML.widgetCall before after).
Proof.
  unfold EditorTableDBML.widgetCall.
  apply keepsCalls_bind; [auto with frame|]. intros _.
  destruct (Monaco_reportsCursor before after);
    [apply keepsCalls_onDidChangeCursorPosition|auto with frame].
Qed.

Lemma keepsCalls_restoreView (saved edited : Editor.t)
    (cursorLineContent : option string) (newContent : string) :
  keepsCalls (EditorTableDBML.restoreView saved edited cursorLineContent
                                          newContent).
Proof.
  unfold EditorTableDBML.restoreView.
  destruct (Editor.position saved) as [currentPosition|]; [|auto with frame].
  apply keepsCalls_bind; [auto with frame|]. intros [position|];
    [|auto with frame].
  apply keepsCalls_bind; [apply keepsCalls_widgetCall|]. intros _.
  apply keepsCalls_bind; [|auto with frame].
  destruct (restoredSelection _ _); [|auto with frame].
  apply keepsCalls_bind; [apply keepsCalls_widgetCall|auto with frame].
Qed.

Lemma keepsCalls_updateEditorContent (newContent : string) :
  keepsCalls (EditorTableDBML.updateEditorContent newContent).
Proof.
  unfold EditorTableDBML.updateEditorContent.
  apply keepsCalls_bind; [auto with frame|]. intros s.
  destruct (EditorTableDBML.editorRef s) as [editor|]; [|auto with frame].
  destruct (Editor.model editor) as [text|]; [|auto with frame].
  apply keepsCalls_bind; [apply keepsCalls_editedWithin|]. intros typing.
  destruct typing; [auto with frame|].
  destruct (String.eqb text newContent); [auto with frame|].
  apply keepsCalls_bind; [auto with frame|]. intros _.
  apply keepsCalls_tryFinally; [|auto with frame].
  apply keepsCalls_bind; [auto with frame|]. intros cursorLineContent.
  apply keepsCalls_bind; [auto with frame|]. intros _.
  apply keepsCalls_bind; [apply keepsCalls_onDidChangeModelContent|].
  intros _.
  apply keepsCalls_bind.
  { destruct (Monaco_reportsCursor _ _);
      [apply keepsCalls_onDidChangeCursorPosition|auto with frame]. }
  intros _.
  apply keepsCalls_bind; [auto with frame|]. intros _.
  apply keepsCalls_restoreView.
Qed.

Lemma keepsCalls_showToast (t : Toast) (destructive : bool) :
  keepsCalls (EditorTableDBML.showToast t destructive).
Proof.
  unfold EditorTableDBML.showToast. destruct destructive; auto with frame.
Qed.

Lemma keepsCalls_recordRegenerated (wasUserEditing : bool) (text : string) :
  keepsCalls (EditorTableDBML.recordRegenerated wasUserEditing text).
Proof.
  unfold EditorTableDBML.recordRegenerated.
  destruct wasUserEditing; [auto with frame|].
  apply keepsCalls_bind; [apply keepsCalls_updateEditorContent|].
  auto with frame.
Qed.

Lemma editedWithin_normal (window : Z) (w : World EditorTableDBML.State) :
  exists b w0,
    EditorTableDBML.editedWithin window w = (Normal b, w0)
    /\ session w0 = session w
    /\ storeCalls w0 = storeCalls w
    /\ toasts w0 = toasts w
    /\ (EditorTableDBML.userHasEditedRef (session w) = true ->
        b = bool_decide (Date_now (clockReads w)
                         - EditorTableDBML.lastUpdateTimeRef (session w)
                         < window)).
Proof.
  unfold EditorTableDBML.editedWithin, mbind, M_bind, getSession.
  destruct (EditorTableDBML.userHasEditedRef (session w)); simpl.
  - eexists _, _. split_ands; reflexivity.
  - exists false, w. split_ands; auto. discriminate.
Qed.

(** What a run of [EditorTableDBML.applyDBMLChanges] does to the store:
    nothing unless the guards pass and the import succeeds, and then what
    the pipeline does, started from a world with the same store calls. *)
Lemma EditorTableDBML_applyDBMLChanges_calls (currentDiagram : Diagram.t)
    (content : string) (w : World EditorTableDBML.State) :
  exists w1 : World EditorTableDBML.State,
    storeCalls w1 = storeCalls w
    /\ storeCalls
         (snd (EditorTableDBML.applyDBMLChanges currentDiagram content w))
       = match proceeds content (session w), importDBMLToDiagram content with
         | true, Some importedDiagram =>
             storeCalls
               (snd (reconcileAndApply EditorTableDBML.removalRule
                       currentDiagram importedDiagram w1))
         | _, _ => storeCalls w
         end.
Proof.
  unfold EditorTableDBML.applyDBMLChanges, proceeds.
  unfold mbind at 1, M_bind at 1, getSession.
  destruct (bool_decide (is_Some (EditorTableDBML.dbmlError (session w)))
            || EditorTableDBML.changesInProgressRef (session w)
            || EditorTableDBML.isApplying (session w));
    [exists w; split; reflexivity|].
  destruct (String.eqb content
              (EditorTableDBML.originalDbmlContent (session w)));
    [exists w; split; reflexivity|].
  cbn [negb andb].
  unfold mbind at 1, M_bind at 1.
  destruct (editedWithin_normal 2000 w)
    as (wasUserEditing & w0 & Hedited & _ & Hpre & _).
  rewrite Hedited.
  unfold mbind at 1, M_bind at 1, modifySession at 1.
  unfold mbind at 1, M_bind at 1, modifySession at 1.
  match goal with
  | |- context [tryFinally _ _ ?w1] =>
      exists w1; split; [exact Hpre|]; set (wStart := w1)
  end.
  assert (HwStart : storeCalls wStart = storeCalls w) by exact Hpre.
  clearbody wStart.
  match goal with
  | |- context [tryFinally ?body ?cleanup wStart] =>
      assert (Hcleanup : keepsCalls cleanup) by auto with frame;
      set (fin := cleanup) in *
  end.
  unfold tryFinally, tryCatch.
  unfold mbind at 1, M_bind at 1, orThrow at 1.
  destruct (importDBMLToDiagram content) as [importedDiagram|].
  2:{ pose proof (keepsCalls_showToast toastApplyFailed true wStart) as Hh.
      destruct (EditorTableDBML.showToast toastApplyFailed true wStart)
        as [res w2]. simpl in Hh.
      pose proof (Hcleanup w2) as Hf. destruct (fin w2) as [[u|] w3];
        simpl in *; congruence. }
  unfold mbind at 1, M_bind at 1.
  destruct (reconcileAndApply EditorTableDBML.removalRule currentDiagram
              importedDiagram wStart) as [[a|] w2]; simpl.
  - match goal with
    | |- context [(regenerateDBML currentDiagram a ≫= ?k) w2] =>
        assert (Hrest : keepsCalls (regenerateDBML currentDiagram a ≫= k))
    end.
    { apply keepsCalls_bind; [auto with frame|]. intros text.
      apply keepsCalls_bind; [apply keepsCalls_recordRegenerated|].
      intros _. destruct (0 <? EditorTableDBML.changesCount a)%nat;
        first [apply keepsCalls_showToast|auto with frame]. }
    specialize (Hrest w2).
    match goal with
    | |- context [(regenerateDBML currentDiagram a ≫= ?k) w2] =>
        destruct ((regenerateDBML currentDiagram a ≫= k) w2) as [[u|] w3]
    end; simpl in Hrest.
    + pose proof (Hcleanup w3) as Hf. destruct (fin w3) as [[v|] w4];
        simpl in *; congruence.
    + pose proof (keepsCalls_showToast toastApplyFailed true w3) as Hh.
      destruct (EditorTableDBML.showToast toastApplyFailed true w3)
        as [res w4]. simpl in Hh.
      pose proof (Hcleanup w4) as Hf. destruct (fin w4) as [[v|] w5];
        simpl in *; congruence.
  - pose proof (keepsCalls_showToast toastApplyFailed true w2) as Hh.
    destruct (EditorTableDBML.showToast toastApplyFailed true w2)
      as [res w3]. simpl in Hh.
    pose proof (Hcleanup w3) as Hf. destruct (fin w3) as [[v|] w4];
      simpl in *; congruence.
Qed.

Lemma ranPipeline_same_calls {S : Type}
    (rule : Diagram.t -> Diagram.t -> TableChanges -> DBRelationship.t -> bool)
    (currentDiagram importedDiagram : Diagram.t) (w1 w1' w2 w2' : World S) :
  storeCalls w2 = storeCalls w1 -> storeCalls w2' = storeCalls w1' ->
  ranPipeline rule currentDiagram importedDiagram w1 w1' ->
  ranPipeline rule currentDiagram importedDiagram w2 w2'.
Proof.
  intros H1 H2 (a & tr & rest & Hcalls & Hrest).
  exists a, tr, rest. split; [congruence|exact Hrest].
Qed.

(** C4. Every run of [applyDBMLChanges], in either component, calls the
    store in the order remove tables, remove relationships, update tables,
    add tables, add relationships, each step at most once and never with an
    empty operand. A run that passes the guards and imports the text makes
    exactly the calls of the reconciliation's plan, one for each step with
    a non-empty operand, up to the end or to the first call the store
    rejects; every other run makes no store call. *)
Theorem store_mutations_in_pipeline_order :
  (forall currentDiagram (w : World TableDBML.State),
     let w' := snd (TableDBML.applyDBMLChanges currentDiagram w) in
     orderedCalls w w'
     /\ (forall importedDiagram,
           TableDBML.dbmlError (session w) = None ->
           importDBMLToDiagram (TableDBML.dbmlContent (session w))
             = Some importedDiagram ->
           ranPipeline TableDBML.removalRule currentDiagram importedDiagram
                       w w'))
  /\ (forall currentDiagram content (w : World EditorTableDBML.State),
        let w' := snd (EditorTableDBML.applyDBMLChanges
                         currentDiagram content w) in
        orderedCalls w w'
        /\ (forall importedDiagram,
              proceeds content (session w) = true ->
              importDBMLToDiagram content = Some importedDiagram ->
              ranPipeline EditorTableDBML.removalRule
                          currentDiagram importedDiagram w w')).
Proof.
  split.
  - intros currentDiagram w w'.
    pose proof (TableDBML_applyDBMLChanges_calls currentDiagram w) as Hcalls.
    fold w' in Hcalls.
    assert (Hran : forall importedDiagram,
              TableDBML.dbmlError (session w) = None ->
              importDBMLToDiagram (TableDBML.dbmlContent (session w))
                = Some importedDiagram ->
              ranPipeline TableDBML.removalRule currentDiagram importedDiagram
                          w w').
    { intros importedDiagram Herr Himp. rewrite Herr, Himp in Hcalls.
      eapply ranPipeline_same_calls;
        [reflexivity|exact Hcalls|apply reconcileAndApply_ranPipeline]. }
    split; [|exact Hran].
    destruct (TableDBML.dbmlError (session w)) eqn:Herr;
      [now apply orderedCalls_none|].
    destruct (importDBMLToDiagram (TableDBML.dbmlContent (session w)))
      as [importedDiagram|] eqn:Himp; [|now apply orderedCalls_none].
    eapply ranPipeline_ordered. now apply Hran.
  - intros currentDiagram content w w'.
    destruct (EditorTableDBML_applyDBMLChanges_calls currentDiagram content w)
      as (w1 & Hw1 & Hcalls).
    fold w' in Hcalls.
    assert (Hran : forall importedDiagram,
              proceeds content (session w) = true ->
              importDBMLToDiagram content = Some importedDiagram ->
              ranPipeline EditorTableDBML.removalRule
                          currentDiagram importedDiagram w w').
    { intros importedDiagram Hgo Himp. rewrite Hgo, Himp in Hcalls.
      eapply ranPipeline_same_calls;
        [symmetry; exact Hw1|exact Hcalls
        |apply reconcileAndApply_ranPipeline]. }
    split; [|exact Hran].
    destruct (proceeds content (session w)) eqn:Hgo;
      [|now apply orderedCalls_none].
    destruct (importDBMLToDiagram content) as [importedDiagram|] eqn:Himp;
      [|now apply orderedCalls_none].
    eapply ranPipeline_ordered. now apply Hran.
Qed.

End Runs.

(** The ordering scenario of the specification: one table removed
    ([Orders]), one updated ([Users]), one added ([Purchases]), one
    relationship removed with its table and one added. *)
Example apply_order_sample :
  storeCalls
    (snd (@TableDBML.applyDBMLChanges Sample.host Sample.diagram
            (Sample.world Sample.tableDBMLState)))
  = [ removeTables ["t-orders"];
      removeRelationships ["r-orders-user"];
      updateTablesState
        [DBTable.make "t-users" "Users" (Some "") 10 20 "#fff"
           [Sample.field "f-users-id" "id";
            Sample.field "f-users-name" "name";
            Sample.field "i-4" "email"] [] []];
      addTables [Sample.importedPurchases];
      addRelationships
        [DBRelationship.make "new-0" "Purchases_user_id_Users_id"
           (Some "") "i-5" (Some "") "t-users" "i-7" "f-users-id"
           many one 1700000000000] ].
Proof. vm_compute. reflexivity. Qed.

(** C5. While a parse error is present, [applyDBMLChanges] returns at once:
    no store call, no change of the component's state, no id drawn, no
    exception, and no notification of a failed apply. [EditorTableDBML]
    does nothing at all; [TableDBML] shows the toast that asks the user to
    fix the error. *)
Theorem apply_with_parse_error_is_noop {host : Host}
    (currentDiagram : Diagram.t) (content : string)
    (w : World TableDBML.State) (w' : World EditorTableDBML.State)
    (err err' : DBMLError) :
  TableDBML.dbmlError (session w) = Some err ->
  EditorTableDBML.dbmlError (session w') = Some err' ->
  TableDBML.applyDBMLChanges currentDiagram w
  = (Normal tt,
     mkWorld (session w) (storeCalls w) (toasts w ++ [toastDBMLError err])
             (idsDrawn w) (clockReads w))
  /\ EditorTableDBML.applyDBMLChanges currentDiagram content w'
     = (Normal tt, w').
Proof.
  intros Herr Herr'. split.
  - unfold TableDBML.applyDBMLChanges, mbind, M_bind, getSession.
    rewrite Herr. reflexivity.
  - unfold EditorTableDBML.applyDBMLChanges, mbind, M_bind, getSession.
    rewrite Herr'. reflexivity.
Qed.

Lemma apply_with_parse_error_is_noop_witness :
  @TableDBML.applyDBMLChanges Sample.host Sample.diagram
     (Sample.world (TableDBML.mkState "Table {" (Some Sample.parseError) true))
  = (Normal tt,
     mkWorld (TableDBML.mkState "Table {" (Some Sample.parseError) true)
             [] [toastDBMLError Sample.parseError] 0 0)
  /\ @EditorTableDBML.applyDBMLChanges Sample.host Sample.diagram "Table {"
       (Sample.world
          (EditorTableDBML.setDbmlError' (Some Sample.parseError)
             Sample.editorState))
     = (Normal tt,
        Sample.world
          (EditorTableDBML.setDbmlError' (Some Sample.parseError)
             Sample.editorState)).
Proof.
  apply (apply_with_parse_error_is_noop (host := Sample.host)
           Sample.diagram "Table {"
           (Sample.world
              (TableDBML.mkState "Table {" (Some Sample.parseError) true))
           (Sample.world
              (EditorTableDBML.setDbmlError' (Some Sample.parseError)
                 Sample.editorState))
           Sample.parseError Sample.parseError); reflexivity.
Defined.

(** ** The editor while an apply completes *)

Section EditorUpdate.
Context {host : Host}.

(** The check of the refs alone: when the user has edited and the clock is
    less than 500ms past [lastUpdateTimeRef], the editor keeps its text and
    the regenerated text becomes the baseline. *)
Lemma recordRegenerated_while_typing (wasUserEditing : bool)
    (updatedDBML : string) (w : World EditorTableDBML.State) :
  EditorTableDBML.userHasEditedRef (session w) = true ->
  Date_now (clockReads w) - EditorTableDBML.lastUpdateTimeRef (session w)
    < 500 ->
  exists w',
    EditorTableDBML.recordRegenerated wasUserEditing updatedDBML w
    = (Normal tt, w')
    /\ EditorTableDBML.editorText (session w')
       = EditorTableDBML.editorText (session w)
    /\ EditorTableDBML.dbmlContent (session w')
       = EditorTableDBML.dbmlContent (session w)
    /\ EditorTableDBML.originalDbmlContent (session w') = updatedDBML
    /\ EditorTableDBML.lastValidContentRef (session w') = updatedDBML.
Proof.
  intros Hedited Hrecent.
  unfold EditorTableDBML.recordRegenerated.
  destruct wasUserEditing.
  - eexists. split; [reflexivity|]. split_ands; reflexivity.
  - unfold EditorTableDBML.updateEditorContent.
    unfold mbind at 1, M_bind at 1.
    unfold mbind at 1, M_bind at 1, getSession at 1.
    destruct (EditorTableDBML.editorRef (session w)) as [editor|] eqn:Hed.
    2:{ eexists. split; [reflexivity|]. unfold EditorTableDBML.editorText.
        simpl. rewrite Hed. split_ands; reflexivity. }
    destruct (Editor.model editor) as [text|] eqn:Hmodel.
    2:{ eexists. split; [reflexivity|]. unfold EditorTableDBML.editorText.
        simpl. rewrite Hed. split_ands; reflexivity. }
    unfold mbind at 1, M_bind at 1.
    destruct (editedWithin_normal 500 w) as (b & w0 & Hrun & Hs & _ & _ & Hb).
    rewrite Hrun. rewrite (Hb Hedited).
    rewrite bool_decide_eq_true_2 by exact Hrecent.
    eexists. split; [reflexivity|]. unfold EditorTableDBML.editorText.
    simpl. rewrite Hs. split_ands; reflexivity.
Qed.

(** One editor event: the listener completes, leaves the skip flag alone,
    and, unless the flag is set, stamps [lastUpdateTimeRef] with the clock. *)
Lemma handleEditorEvent_run (ev : EditorTableDBML.EditorEvent)
    (w : World EditorTableDBML.State) :
  EditorTableDBML.skipContentChangeRef (session w) = false ->
  exists w',
    EditorTableDBML.handleEditorEvent ev w = (Normal tt, w')
    /\ EditorTableDBML.skipContentChangeRef (session w') = false
    /\ clockReads w' = Datatypes.S (clockReads w)
    /\ EditorTableDBML.lastUpdateTimeRef (session w')
       = Date_now (clockReads w)
    /\ EditorTableDBML.userHasEditedRef (session w')
       = match ev with
         | EditorTableDBML.Typed _ => true
         | EditorTableDBML.CursorMoved _ _ =>
             EditorTableDBML.userHasEditedRef (session w)
         end.
Proof.
  intros Hskip. destruct ev as [text|position selection].
  - unfold EditorTableDBML.handleEditorEvent,
      EditorTableDBML.onDidChangeModelContent, mbind, M_bind, modifySession,
      getSession. simpl. rewrite Hskip.
    eexists. split; [reflexivity|]. simpl. split_ands; auto.
  - eexists. split; [reflexivity|]. simpl. split_ands; auto.
Qed.

(** After a keystroke and any later events, the user has edited and
    [lastUpdateTimeRef] is not older than the keystroke, if the clock does
    not run backwards. *)
Lemma handleEditorEvents_after_keystroke
    (evs : list EditorTableDBML.EditorEvent)
    (w : World EditorTableDBML.State) (k : nat) :
  (forall i j, (i <= j)%nat -> Date_now i <= Date_now j) ->
  EditorTableDBML.skipContentChangeRef (session w) = false ->
  EditorTableDBML.userHasEditedRef (session w) = true ->
  (k <= clockReads w)%nat ->
  Date_now k <= EditorTableDBML.lastUpdateTimeRef (session w) ->
  exists w',
    EditorTableDBML.handleEditorEvents evs w = (Normal tt, w')
    /\ EditorTableDBML.userHasEditedRef (session w') = true
    /\ Date_now k <= EditorTableDBML.lastUpdateTimeRef (session w').
Proof.
  intros Hclock. revert w.
  induction evs as [|ev evs IH]; intros w Hskip Hedited Hk Hlast.
  - exists w. auto.
  - cbn [EditorTableDBML.handleEditorEvents]. unfold mbind, M_bind.
    destruct (handleEditorEvent_run ev w Hskip)
      as (w1 & Hrun & Hskip1 & Hreads & Hstamp & Hedited1).
    rewrite Hrun.
    apply IH; auto.
    + rewrite Hedited1. now destruct ev.
    + rewrite Hreads. lia.
    + rewrite Hstamp. now apply Hclock.
Qed.

Lemma handleEditorEvents_app (before after : list EditorTableDBML.EditorEvent)
    (w : World EditorTableDBML.State) :
  EditorTableDBML.skipContentChangeRef (session w) = false ->
  exists w1,
    EditorTableDBML.handleEditorEvents before w = (Normal tt, w1)
    /\ EditorTableDBML.skipContentChangeRef (session w1) = false
    /\ EditorTableDBML.handleEditorEvents (before ++ after) w
       = EditorTableDBML.handleEditorEvents after w1.
Proof.
  revert w. induction before as [|ev before IH]; intros w Hskip.
  - exists w. auto.
  - cbn [app EditorTableDBML.handleEditorEvents]. unfold mbind, M_bind.
    destruct (handleEditorEvent_run ev w Hskip) as (w1 & Hrun & Hskip1 & _).
    rewrite Hrun. now apply IH.
Qed.

End EditorUpdate.


(** ** Extraction of the parser's diagnostic *)

Lemma getProp_hasProperty (v : JSValue) (key : string) (x : JSValue) :
  hasProperty v key x -> getProp key v = Normal x.
Proof. intros (props & -> & Hprop). simpl. now rewrite Hprop. Qed.

Lemma errorOfDiagnostic_at (d msg ln col : JSValue) :
  diagnosticAt d msg ln col ->
  errorOfDiagnostic d
  = Normal {| message := msg; line := ln; column := col |}.
Proof.
  intros (Hmsg & location & start & Hloc & Hstart & Hline & Hcol).
  unfold errorOfDiagnostic, mbind, Completion_bind.
  rewrite (getProp_hasProperty _ _ _ Hmsg), (getProp_hasProperty _ _ _ Hloc),
    (getProp_hasProperty _ _ _ Hstart), (getProp_hasProperty _ _ _ Hline),
    (getProp_hasProperty _ _ _ Hcol).
  reflexivity.
Qed.

Lemma errorOfPayload_first (payload d msg ln col : JSValue) :
  firstDiagnostic payload d -> diagnosticAt d msg ln col ->
  errorOfPayload payload
  = Normal (Some {| message := msg; line := ln; column := col |}).
Proof.
  intros (others & Hdiags) Hat.
  unfold errorOfPayload, mbind, Completion_bind.
  rewrite (getProp_hasProperty _ _ _ Hdiags). simpl.
  destruct Hat as (Hmsg & Hrest).
  assert (Htruthy : truthyValue d = true)
    by (destruct Hmsg as (props & -> & _); reflexivity).
  rewrite Htruthy.
  now rewrite (errorOfDiagnostic_at d msg ln col (conj Hmsg Hrest)).
Qed.

Lemma errorOfPayload_Some (root : JSValue) (err : DBMLError) :
  errorOfPayload root = Normal (Some err) ->
  exists diags,
    getProp "diags" root = Normal diags
    /\ truthyValue (firstElement diags) = true
    /\ errorOfDiagnostic (firstElement diags) = Normal err.
Proof.
  unfold errorOfPayload, mbind, Completion_bind.
  destruct (getProp "diags" root) as [diags|] eqn:Hdiags; [|discriminate].
  destruct (truthyValue (firstElement diags)) eqn:Htruthy;
    [|discriminate].
  destruct (errorOfDiagnostic (firstElement diags)) as [err'|] eqn:Herr;
    [|discriminate].
  unfold mret, Completion_ret. intros [= <-]. exists diags.
  split_ands; auto.
Qed.

(** C9. [parseDBMLError] returns the message, the start line and the start
    column of the first diagnostic, as the diagnostic has them (so 1-based
    when the parser's are), both for a structured payload carrying a
    [diags] list and for a string that [JSON.parse] turns into one. On
    every payload it returns, without raising: either [null], which carries
    no line and no column, or an error whose three components were read off
    the first element of the payload's [diags]. *)
Theorem parseDBMLError_first_diagnostic {host : Host}
    (payload d msg ln col : JSValue) :
  firstDiagnostic payload d ->
  diagnosticAt d msg ln col ->
  parseDBMLError payload
  = Some {| message := msg; line := ln; column := col |}
  /\ (forall text,
        JSON_parse text = Some payload ->
        parseDBMLError (JStr text)
        = Some {| message := msg; line := ln; column := col |})
  /\ (forall error,
        parseDBMLError error = None
        \/ exists root diags err,
             payloadRoot error root
             /\ getProp "diags" root = Normal diags
             /\ truthyValue (firstElement diags) = true
             /\ errorOfDiagnostic (firstElement diags) = Normal err
             /\ parseDBMLError error = Some err).
Proof.
  intros Hfirst Hat.
  pose proof (errorOfPayload_first payload d msg ln col Hfirst Hat) as Hpay.
  split_ands.
  - unfold parseDBMLError.
    destruct Hfirst as (others & props & -> & Hdiags).
    unfold isObjectWithDiags. rewrite Hdiags.
    rewrite bool_decide_eq_true_2 by eauto.
    now rewrite Hpay.
  - intros text Hparse. unfold parseDBMLError.
    now rewrite Hparse, Hpay.
  - intros error. unfold parseDBMLError.
    assert (Hroot : forall root,
              match errorOfPayload root with
              | Normal result => result
              | Throw => None
              end = None
              \/ exists diags err,
                   getProp "diags" root = Normal diags
                   /\ truthyValue (firstElement diags) = true
                   /\ errorOfDiagnostic (firstElement diags) = Normal err
                   /\ match errorOfPayload root with
                      | Normal result => result
                      | Throw => None
                      end = Some err).
    { intros root.
      destruct (errorOfPayload root) as [[err|]|] eqn:Herr; auto.
      right. apply errorOfPayload_Some in Herr as (diags & H1 & H2 & H3).
      exists diags, err. auto. }
    destruct error as [| |b|n|text|items|props]; auto.
    + destruct (JSON_parse text) as [root|] eqn:Hparse; [|now left].
      destruct (Hroot root) as [Hnone|(diags & err & H1 & H2 & H3 & H4)];
        [now left|].
      right. exists root, diags, err. simpl. auto.
    + destruct (isObjectWithDiags (JObj props)); [|now left].
      destruct (Hroot (JObj props))
        as [Hnone|(diags & err & H1 & H2 & H3 & H4)]; [now left|].
      right. exists (JObj props), diags, err. simpl. auto.
Qed.

Lemma parseDBMLError_first_diagnostic_witness :
  @parseDBMLError Sample.host Sample.parserFailure = Some Sample.parseError.
Proof.
  refine (proj1 (parseDBMLError_first_diagnostic (host := Sample.host)
                   Sample.parserFailure Sample.diagnostic
                   (JStr "Expect an opening brace") (JNum 3) (JNum 7) _ _)).
  - exists []. eexists. split; reflexivity.
  - split.
    + eexists. split; reflexivity.
    + eexists _, _. split_ands; eexists; split; reflexivity.
Defined.

(** Payloads the extraction gives up on: text that is not JSON, the JSON
    [null], a payload with an empty [diags], a diagnostic without a
    location. *)
Example parseDBMLError_unlocalized (host : Host) :
  JSON_parse "oops" = None ->
  JSON_parse "null" = Some JNull ->
  parseDBMLError (JStr "oops") = None
  /\ parseDBMLError (JStr "null") = None
  /\ parseDBMLError (JObj [("diags", JArr [])]) = None
  /\ parseDBMLError
       (JObj [("diags", JArr [JObj [("message", JStr "no location")]])])
     = None
  /\ parseDBMLError (JObj [("message", JStr "not a diagnostic")]) = None.
Proof.
  intros Hoops Hnull. unfold parseDBMLError. rewrite Hoops, Hnull.
  split_ands; reflexivity.
Qed.

(** ** Re-importing the text generated for the diagram *)

Lemma Forall2_In_l {A B} (R : A -> B -> Prop) (l1 : list A) (l2 : list B)
    (x : A) :
  Forall2 R l1 l2 -> In x l1 -> exists y, In y l2 /\ R x y.
Proof.
  induction 1 as [|a b l1 l2 Hab Hrest IH]; intros Hin; [destruct Hin|].
  destruct Hin as [<-|Hin].
  - exists b. split; [now left|exact Hab].
  - destruct (IH Hin) as (y & Hy & Hxy). exists y. split; [now right|exact Hxy].
Qed.

Lemma Forall2_In_r {A B} (R : A -> B -> Prop) (l1 : list A) (l2 : list B)
    (y : B) :
  Forall2 R l1 l2 -> In y l2 -> exists x, In x l1 /\ R x y.
Proof.
  induction 1 as [|a b l1 l2 Hab Hrest IH]; intros Hin; [destruct Hin|].
  destruct Hin as [<-|Hin].
  - exists a. split; [now left|exact Hab].
  - destruct (IH Hin) as (x & Hx & Hxy). exists x. split; [now right|exact Hxy].
Qed.

Lemma Forall2_with_In {A B} (R : A -> B -> Prop) (l1 : list A) (l2 : list B) :
  Forall2 R l1 l2 ->
  Forall2 (fun a b => R a b /\ In a l1 /\ In b l2) l1 l2.
Proof.
  induction 1 as [|a b l1 l2 Hab Hrest IH]; constructor.
  - split; [exact Hab|]. split; now left.
  - eapply Forall2_impl; [exact IH|].
    intros x y (Hxy & Hx & Hy). split; [exact Hxy|]. split; now right.
Qed.

Lemma Forall2_map_eq {A B C} (f : A -> C) (g : B -> C)
    (l1 : list A) (l2 : list B) :
  Forall2 (fun a b => f a = g b) l1 l2 -> map f l1 = map g l2.
Proof. induction 1; simpl; congruence. Qed.

Lemma Forall2_map_fun {A B} (f : A -> B) (l1 : list A) (l2 : list B) :
  Forall2 (fun a b => f a = b) l1 l2 -> map f l1 = l2.
Proof. induction 1; simpl; congruence. Qed.

Lemma filter_nil_iff {A} (f : A -> bool) (l : list A) :
  (forall a, In a l -> f a = false) -> List.filter f l = [].
Proof.
  induction l as [|a l IH]; simpl; [reflexivity|]. intros Hall.
  rewrite (Hall a) by now left. apply IH. intros b Hb. apply Hall. now right.
Qed.

Lemma filter_all {A} (f : A -> bool) (l : list A) :
  (forall a, In a l -> f a = true) -> List.filter f l = l.
Proof.
  induction l as [|a l IH]; simpl; [reflexivity|]. intros Hall.
  rewrite (Hall a) by now left. f_equal. apply IH.
  intros b Hb. apply Hall. now right.
Qed.

Lemma map_fixed {A} (f : A -> A) (l : list A) :
  (forall a, In a l -> f a = a) -> map f l = l.
Proof.
  induction l as [|a l IH]; simpl; [reflexivity|]. intros Hall.
  rewrite (Hall a) by now left. f_equal. apply IH.
  intros b Hb. apply Hall. now right.
Qed.

Lemma sameTable_key (e t : DBTable.t) :
  sameTable e t -> tableKey e = tableKey t.
Proof. intros (Hn & Hs & _). unfold tableKey. now rewrite Hn, Hs. Qed.

Lemma findFieldByName_unique (fields : list DBField.t) (f : DBField.t) :
  List.NoDup (map DBField.name fields) -> In f fields ->
  findFieldByName (DBField.name f) fields = Some f.
Proof.
  intros Hnd Hin. apply findFieldByName_firstNamed.
  apply in_split in Hin as (before & after & ->).
  exists before, after. split_ands; [reflexivity|reflexivity|].
  intros g Hg Heq. rewrite map_app in Hnd. simpl in Hnd.
  apply NoDup_remove_2 in Hnd. apply Hnd.
  apply in_or_app. left. rewrite <- Heq. now apply in_map.
Qed.

Lemma findTableById_unique (tables : list DBTable.t) (t : DBTable.t) :
  List.NoDup (map DBTable.id tables) -> In t tables ->
  findTableById (DBTable.id t) tables = Some t.
Proof.
  intros Hnd Hin. unfold findTableById.
  induction tables as [|a tables IH]; [destruct Hin|]. simpl.
  apply List.NoDup_cons_iff in Hnd as [Hfresh Hnd].
  destruct Hin as [->|Hin]; [now rewrite String.eqb_refl|].
  destruct (String.eqb_spec (DBTable.id a) (DBTable.id t)) as [Heq|_].
  - exfalso. apply Hfresh. rewrite Heq. now apply in_map.
  - now apply IH.
Qed.

(** A table re-imported unchanged is put back as it was, but for the ids of
    its indexes. *)
Lemma tableWithPreservedIds_same (e t : DBTable.t) :
  sameTable e t ->
  List.NoDup (map DBField.name (DBTable.fields e)) ->
  tableWithPreservedIds e t = withIndexes (DBTable.indexes t) e.
Proof.
  intros (Hn & Hs & Hr & Hfields & _) Hnd.
  unfold tableWithPreservedIds, withIndexes. rewrite <- Hn, <- Hs, <- Hr.
  f_equal.
  apply Forall2_with_In in Hfields.
  induction Hfields as [|f g fs gs (Hfg & Hf & _) _ IH]; simpl;
    [reflexivity|].
  f_equal; [|exact IH].
  unfold preserveFieldId. destruct Hfg as [Hname Hrest].
  rewrite <- Hname, (findFieldByName_unique _ f Hnd Hf).
  unfold DBField.withId. rewrite <- Hname, <- Hrest. now destruct f.
Qed.

Lemma unchangedButIndexes_fields (e u : DBTable.t) :
  unchangedButIndexes e u ->
  DBTable.id u = DBTable.id e /\ DBTable.name u = DBTable.name e
  /\ DBTable.fields u = DBTable.fields e.
Proof. intros [-> _]. simpl. auto. Qed.

Lemma updates_of_round_trip (all es ts : list DBTable.t) :
  uniqueKeys all ->
  Forall2 (fun e t => sameTable e t /\ In e all
                      /\ List.NoDup (map DBField.name (DBTable.fields e)))
          es ts ->
  Forall2 unchangedButIndexes es
    (flat_map
       (fun t =>
          match JsMap.get (tableKey t) (currentTableMap all) with
          | Some e => [tableWithPreservedIds e t]
          | None => []
          end)
       ts).
Proof.
  intros Hall. induction 1 as [|e t es ts (Hsame & Hin & Hnd) _ IH]; simpl;
    [constructor|].
  assert (Hget : JsMap.get (tableKey t) (currentTableMap all) = Some e).
  { apply currentTableMap_get; [exact Hall|].
    split; [exact Hin|now apply sameTable_key]. }
  rewrite Hget. simpl. constructor; [|exact IH].
  rewrite (tableWithPreservedIds_same e t Hsame Hnd).
  split; [reflexivity|]. simpl. apply Hsame.
Qed.

(** The reconciliation of a diagram with its own re-import. *)
Lemma reconcileTables_round_trip (es ts : list DBTable.t) :
  Forall2 sameTable es ts ->
  uniqueKeys es ->
  (forall e, In e es -> List.NoDup (map DBField.name (DBTable.fields e))) ->
  tablesToAdd (reconcileTables es ts) = []
  /\ tablesToRemove (reconcileTables es ts) = []
  /\ Forall2 unchangedButIndexes es (tablesToUpdate (reconcileTables es ts)).
Proof.
  intros Hsame Hkeys Hfields.
  assert (Hkeymap : map tableKey es = map tableKey ts).
  { apply Forall2_map_eq. eapply Forall2_impl; [exact Hsame|].
    intros e t. apply sameTable_key. }
  assert (Hkeys' : uniqueKeys ts) by (unfold uniqueKeys; now rewrite <- Hkeymap).
  destruct (reconcileTables_spec es ts Hkeys Hkeys') as (Hu & Ha & Hr).
  rewrite Hu, Ha, Hr. split_ands.
  - apply filter_nil_iff. intros t Ht.
    destruct (Forall2_In_r _ _ _ t Hsame Ht) as (e & He & Het).
    assert (Hget : JsMap.get (tableKey t) (currentTableMap es) = Some e).
    { apply currentTableMap_get; [exact Hkeys|].
      split; [exact He|now apply sameTable_key]. }
    now rewrite Hget.
  - apply filter_nil_iff. intros e He. apply negb_false_iff.
    apply existsb_exists. exists (tableKey e). split.
    + rewrite <- Hkeymap. now apply in_map.
    + apply String.eqb_refl.
  - apply updates_of_round_trip; [exact Hkeys|].
    eapply Forall2_impl; [exact (Forall2_with_In _ _ _ Hsame)|].
    intros e t (Het & He & _). split_ands; auto.
Qed.

(** The merged table list is then the list of updates. *)
Lemma updatedDiagramTables_round_trip (es us : list DBTable.t)
    (ch : TableChanges) :
  List.NoDup (map DBTable.id es) ->
  Forall2 unchangedButIndexes es us ->
  tablesToAdd ch = [] -> tablesToRemove ch = [] -> tablesToUpdate ch = us ->
  updatedDiagramTables es ch = us.
Proof.
  intros Hids Hsame Hadd Hrem Hupd.
  unfold updatedDiagramTables. rewrite Hadd, Hrem, Hupd, app_nil_r.
  rewrite filter_all by reflexivity.
  assert (Hidmap : map DBTable.id es = map DBTable.id us).
  { apply Forall2_map_eq. eapply Forall2_impl; [exact Hsame|].
    intros e u Hu. apply unchangedButIndexes_fields in Hu. symmetry. tauto. }
  assert (Hids' : List.NoDup (map DBTable.id us)) by now rewrite <- Hidmap.
  assert (Hlook : Forall2
            (fun e u =>
               match findTableById (DBTable.id e) us with
               | Some t => t
               | None => e
               end = u) es us).
  { eapply Forall2_impl; [exact (Forall2_with_In _ _ _ Hsame)|].
    intros e u (Heu & _ & Hu). simpl.
    apply unchangedButIndexes_fields in Heu as (Hid & _).
    rewrite <- Hid. now rewrite (findTableById_unique us u Hids' Hu). }
  now apply Forall2_map_fun.
Qed.

Lemma endpointNames_Some (tables : list DBTable.t) (rel : DBRelationship.t)
    (n : string * string * string * string) :
  endpointNames tables rel = Some n ->
  exists srcT tgtT srcF tgtF,
    findTableById (DBRelationship.sourceTableId rel) tables = Some srcT
    /\ findTableById (DBRelationship.targetTableId rel) tables = Some tgtT
    /\ findFieldById (DBRelationship.sourceFieldId rel) (DBTable.fields srcT)
       = Some srcF
    /\ findFieldById (DBRelationship.targetFieldId rel) (DBTable.fields tgtT)
       = Some tgtF
    /\ n = (DBTable.name srcT, DBField.name srcF,
            DBTable.name tgtT, DBField.name tgtF).
Proof.
  unfold endpointNames. intros Hn.
  destruct (findTableById (DBRelationship.sourceTableId rel) tables)
    as [srcT|] eqn:H1; [|discriminate].
  destruct (findTableById (DBRelationship.targetTableId rel) tables)
    as [tgtT|] eqn:H2; [|discriminate].
  simpl in Hn.
  destruct (findFieldById (DBRelationship.sourceFieldId rel) (DBTable.fields srcT))
    as [srcF|] eqn:H3; [|discriminate].
  destruct (findFieldById (DBRelationship.targetFieldId rel) (DBTable.fields tgtT))
    as [tgtF|] eqn:H4; [|discriminate].
  simpl in Hn. injection Hn as <-.
  exists srcT, tgtT, srcF, tgtF. split_ands; auto.
Qed.

Section RoundTrip.
Variables es us : list DBTable.t.
Hypothesis Hsame : Forall2 unchangedButIndexes es us.
Hypothesis Hnames : List.NoDup (map DBTable.name es).
Hypothesis Hfields :
  forall e, In e es -> List.NoDup (map DBField.name (DBTable.fields e)).

(** A table found by id in the diagram is found by the same id among the
    updates, with the same name and fields. *)
Lemma findTableById_update (i : string) (e : DBTable.t) :
  findTableById i es = Some e ->
  exists u,
    findTableById i us = Some u
    /\ DBTable.name u = DBTable.name e
    /\ DBTable.fields u = DBTable.fields e.
Proof.
  unfold findTableById. clear Hnames Hfields.
  induction Hsame as [|e0 u0 es' us' Hu Hrest IH]; simpl; [discriminate|].
  apply unchangedButIndexes_fields in Hu as (Hid & Hname & Hf).
  rewrite Hid.
  destruct (String.eqb (DBTable.id e0) i).
  - intros [= <-]. exists u0. auto.
  - exact (IH Hrest).
Qed.

(** The name of a table of the diagram leads to its id. *)
Lemma tableNameToCurrentId_update (e : DBTable.t) :
  In e es ->
  tableNameToCurrentId us !! DBTable.name e = Some (DBTable.id e).
Proof.
  intros He.
  destruct (Forall2_In_l _ _ _ e Hsame He) as (u & Hu & Heu).
  apply unchangedButIndexes_fields in Heu as (Hid & Hname & _).
  assert (Hnames' : List.NoDup (map DBTable.name us)).
  { replace (map DBTable.name us) with (map DBTable.name es); [exact Hnames|].
    apply Forall2_map_eq. eapply Forall2_impl; [exact Hsame|].
    intros a b Hab. apply unchangedButIndexes_fields in Hab. symmetry. tauto. }
  apply in_split in Hu as (before & after & ->).
  rewrite <- Hname, <- Hid. apply tableNameToCurrentId_last.
  intros a Ha Heq. rewrite map_app in Hnames'. simpl in Hnames'.
  apply NoDup_remove_2 in Hnames'. apply Hnames'.
  apply in_or_app. right. rewrite <- Heq. now apply in_map.
Qed.

(** An endpoint of a relationship of the diagram, looked up among the
    updates by the names of its table and field, is itself. *)
Lemma endpoint_resolves_to_itself (i j : string) (e cst : DBTable.t)
    (f : DBField.t) (tableId : string) :
  findTableById i es = Some e ->
  findFieldById j (DBTable.fields e) = Some f ->
  currentIdOf (tableNameToCurrentId us) (DBTable.name e) = Some tableId ->
  findTableById tableId us = Some cst ->
  tableId = i
  /\ findFieldByName (DBField.name f) (DBTable.fields cst) = Some f
  /\ DBField.id f = j.
Proof.
  intros He Hf Hid Hcst.
  apply findTableById_Some in He as He'. destruct He' as [Hin Heid].
  apply currentIdOf_Some in Hid as [Hid _].
  rewrite (tableNameToCurrentId_update e Hin) in Hid.
  assert (tableId = i) as -> by congruence.
  destruct (findTableById_update i e He) as (u & Hu & _ & Hfs).
  assert (cst = u) as -> by congruence.
  apply findFieldById_Some in Hf as [Hfin Hfid].
  rewrite Hfs. split_ands; auto.
  now apply findFieldByName_unique; [apply Hfields|].
Qed.
End RoundTrip.

Lemma fieldExists_In (f : DBField.t) (t : DBTable.t) :
  In f (DBTable.fields t) -> fieldExists (DBField.name f) t = true.
Proof.
  intros Hin. unfold fieldExists. apply existsb_exists.
  exists f. split; [exact Hin|apply String.eqb_refl].
Qed.

Section RoundTripRelationships.
Variables es ts us : list DBTable.t.
Variables rs qs : list DBRelationship.t.
Hypothesis Hsame : Forall2 unchangedButIndexes es us.
Hypothesis Hnames : List.NoDup (map DBTable.name es).
Hypothesis Hfields :
  forall e, In e es -> List.NoDup (map DBField.name (DBTable.fields e)).

(** A relationship between named fields of the diagram keeps both fields
    when the tables are put back unchanged. *)
Lemma endpointFieldGone_round_trip (r : DBRelationship.t) (a b c d : string) :
  endpointNames es r = Some (a, b, c, d) -> b <> "" -> d <> "" ->
  endpointFieldGone es us r = false.
Proof.
  intros Hn Hb Hd.
  apply endpointNames_Some in Hn
    as (srcT & tgtT & srcF & tgtF & H1 & H2 & H3 & H4 & Heq).
  injection Heq as -> -> -> ->.
  destruct (findTableById_update es us Hsame _ _ H1) as (us1 & Hu1 & _ & Hf1).
  destruct (findTableById_update es us Hsame _ _ H2) as (us2 & Hu2 & _ & Hf2).
  unfold endpointFieldGone, fieldsOfTable.
  rewrite Hu1, Hu2, H1, H2, H3, H4. simpl.
  rewrite (truthy_nonempty _ Hb), (truthy_nonempty _ Hd). simpl.
  apply findFieldById_Some in H3 as [Hin3 _].
  apply findFieldById_Some in H4 as [Hin4 _].
  rewrite <- Hf1 in Hin3. rewrite <- Hf2 in Hin4.
  rewrite (fieldExists_In _ _ Hin3), (fieldExists_In _ _ Hin4).
  reflexivity.
Qed.

(** An imported relationship between the named endpoints of a relationship
    of the diagram, in either direction, resolves to that relationship's
    own tables and fields and is therefore not added. *)
Lemma endpointsToAdd_round_trip (r q : DBRelationship.t)
    (n m : string * string * string * string) :
  In r rs ->
  endpointNames es r = Some n ->
  endpointNames ts q = Some m ->
  m = n \/ m = reverseNames n ->
  endpointsToAdd rs ts us q = None.
Proof.
  intros Hr Hn Hm Hdir.
  destruct (endpointsToAdd rs ts us q) as [e|] eqn:Hadd; [|reflexivity].
  exfalso.
  apply endpointsToAdd_Some in Hadd as [Hres Hnone].
  apply resolveEndpoints_Some in Hres
    as (Hist & Hitt & Hisf & Hitf & Hsid & Htid & Hcst & Hctt & Hcsf & Hctf).
  apply endpointNames_Some in Hn
    as (srcT & tgtT & srcF & tgtF & H1 & H2 & H3 & H4 & ->).
  apply endpointNames_Some in Hm
    as (ist & itt & isf & itf & I1 & I2 & I3 & I4 & ->).
  assert (ist = importedSourceTable e) as -> by congruence.
  assert (itt = importedTargetTable e) as -> by congruence.
  assert (isf = importedSourceField e) as -> by congruence.
  assert (itf = importedTargetField e) as -> by congruence.
  unfold existingRelationship in Hnone.
  pose proof (find_none _ _ Hnone r Hr) as Hno.
  assert (Hyes : connects (currentSourceTableId e)
                   (DBField.id (currentSourceField e))
                   (currentTargetTableId e)
                   (DBField.id (currentTargetField e)) r = true);
    [|congruence].
  apply connects_true. unfold connectsEndpoints.
  destruct Hdir as [Heq|Heq]; simpl in Heq; injection Heq as E1 E2 E3 E4.
  - rewrite E1 in Hsid. rewrite E2 in Hcsf.
    rewrite E3 in Htid. rewrite E4 in Hctf.
    destruct (endpoint_resolves_to_itself es us Hsame Hnames Hfields
                _ _ _ _ _ _ H1 H3 Hsid Hcst) as (S1 & S2 & S3).
    destruct (endpoint_resolves_to_itself es us Hsame Hnames Hfields
                _ _ _ _ _ _ H2 H4 Htid Hctt) as (T1 & T2 & T3).
    left. split_ands; congruence.
  - rewrite E1 in Hsid. rewrite E2 in Hcsf.
    rewrite E3 in Htid. rewrite E4 in Hctf.
    destruct (endpoint_resolves_to_itself es us Hsame Hnames Hfields
                _ _ _ _ _ _ H2 H4 Hsid Hcst) as (S1 & S2 & S3).
    destruct (endpoint_resolves_to_itself es us Hsame Hnames Hfields
                _ _ _ _ _ _ H1 H3 Htid Hctt) as (T1 & T2 & T3).
    right. split_ands; congruence.
Qed.
End RoundTripRelationships.

(** An imported relationship between the same named endpoints keeps a
    relationship of the diagram out of [EditorTableDBML]'s removal set. *)
Lemma absentFromImport_round_trip (currentTables : list DBTable.t)
    (imported : Diagram.t) (r q : DBRelationship.t)
    (n m : string * string * string * string) :
  In q (Diagram.relationships imported) ->
  endpointNames currentTables r = Some n ->
  endpointNames (Diagram.tables imported) q = Some m ->
  m = n \/ m = reverseNames n ->
  absentFromImport currentTables (importedRelationshipMap imported) r = false.
Proof.
  intros Hq Hn Hm Hdir. unfold absentFromImport. rewrite Hn.
  destruct n as [[[a b] c] d]. destruct m as [[[a' b'] c'] d'].
  assert (Hhas : has (relationshipKey a b c d)
                     (importedRelationshipMap imported) = true).
  { apply importedRelationshipMap_has. exists q, a', b', c', d'.
    split_ands; auto.
    destruct Hdir as [Heq|Heq]; simpl in Heq; injection Heq as -> -> -> ->;
      auto. }
  now rewrite Hhas.
Qed.

(** A run of the pipeline whose plan is the update of the tables alone. *)
Lemma reconcileAndApply_updates_only {host : Host} {S : Type}
    (rule : Diagram.t -> Diagram.t -> TableChanges -> DBRelationship.t -> bool)
    (currentDiagram imported : Diagram.t) (w : World S) :
  let ch := reconcileTables (Diagram.tables currentDiagram)
                            (Diagram.tables imported) in
  tablesToAdd ch = [] -> tablesToRemove ch = [] ->
  List.filter (rule currentDiagram imported ch)
              (Diagram.relationships currentDiagram) = [] ->
  (forall w1 : World S,
     mapRelationships (Diagram.relationships currentDiagram)
                      (Diagram.tables imported)
                      (updatedDiagramTables (Diagram.tables currentDiagram) ch)
                      (Diagram.relationships imported) w1
     = (Normal [], w1)) ->
  storeCalls (snd (reconcileAndApply rule currentDiagram imported w))
  = storeCalls w
    ++ step (tablesToUpdate ch) (updateTablesState (tablesToUpdate ch)).
Proof.
  intros ch Hadd Hrem Hrels Hmap.
  destruct (reconcileAndApply_run rule currentDiagram imported w)
    as (res & w' & a & tr & rest & Hrun & _ & _ & Hcalls & Hplan & Hch & Hrm
        & Hupd & (w1 & w2 & Hto) & Hres).
  rewrite Hrun. cbn [snd]. rewrite Hcalls. f_equal.
  fold ch in Hch. clearbody ch.
  rewrite Hupd, Hch, Hmap in Hto. injection Hto as Hnil _.
  unfold pipelineCalls in Hplan.
  rewrite Hrm, Hch, Hrels, Hadd, Hrem, <- Hnil in Hplan. simpl in Hplan.
  rewrite app_nil_r in Hplan.
  assert (Hrest : rest = [] \/ exists c, In c tr /\ storeRejects c = true).
  { destruct res; [left; tauto|right; exact Hres]. }
  destruct (tablesToUpdate ch) as [|u us'] eqn:Hus; simpl in *.
  - now destruct tr.
  - destruct tr as [|c tr].
    + destruct Hrest as [->|(c & [] & _)]. discriminate.
    + injection Hplan as <- Htr. apply app_eq_nil in Htr as [-> _].
      reflexivity.
Qed.

Lemma round_trip_exported {host : Host} (currentDiagram : Diagram.t) :
  wellFormedDiagram currentDiagram ->
  namesWithoutSpaces currentDiagram ->
  filteredDiagramWithoutSpaces currentDiagram (Diagram.tables currentDiagram)
  = Diagram.withContent (Diagram.tables currentDiagram)
                        (Diagram.relationships currentDiagram)
                        currentDiagram.
Proof.
  intros (_ & _ & _ & _ & Hrels) Hnames.
  unfold filteredDiagramWithoutSpaces. f_equal.
  - now apply map_fixed.
  - apply filter_all. intros r Hr.
    destruct (Hrels r Hr) as (a & b & c & d & Hn & _).
    apply endpointNames_Some in Hn as (srcT & tgtT & _ & _ & H1 & H2 & _).
    rewrite H1, H2. rewrite !bool_decide_eq_true_2 by eauto. reflexivity.
Qed.


Lemma sample_roundTrip :
  @roundTrip Sample.roundTripHost Sample.diagram Sample.reimported.
Proof.
  split.
  - repeat constructor.
  - constructor; [|constructor].
    exists ("Orders", "user_id", "Users", "id"),
           ("Orders", "user_id", "Users", "id").
    split_ands; [reflexivity|reflexivity|now left].
Qed.

Lemma sample_wellFormed : wellFormedDiagram Sample.diagram.
Proof.
  unfold wellFormedDiagram, uniqueKeys. split_ands.
  - distinct_strings.
  - distinct_strings.
  - distinct_strings.
  - intros t [<-|[<-|[]]]; distinct_strings.
  - intros r [<-|[]]. exists "Orders", "user_id", "Users", "id".
    split_ands; [reflexivity|discriminate|discriminate].
Qed.



(** ** Names that do not survive the round trip *)

(** A name with whitespace does not survive the round trip: the export
    writes [Order_Items], and the re-import removes [Order Items] and adds
    [Order_Items]. *)
Example round_trip_renames_spaced_table :
  @roundTrip Sample.exportingHost Sample.spacedDiagram Sample.reimportedSpaced
  /\ reconcileTables (Diagram.tables Sample.spacedDiagram)
                     (Diagram.tables Sample.reimportedSpaced)
     = {| tablesToAdd := [Sample.reimportedOrderItems];
          tablesToUpdate := [];
          tablesToRemove := [Sample.orderItems] |}.
Proof.
  split; [|reflexivity].
  split; repeat constructor.
Qed.

(* ===================================================================== *)
(** * Further properties of the components *)
(* ===================================================================== *)

(* --------------------------------------------------------------------- *)
(** ** The reconciliation without assumptions on the keys *)
(* --------------------------------------------------------------------- *)

Section JsMapEntries.
Context {V : Type}.
Implicit Types (m : JsMap.t V) (k : string) (v : V).

Lemma JsMap_set_entries (P : string * V -> Prop) m k v :
  (forall kv, In kv m -> P kv) -> P (k, v) ->
  forall kv, In kv (JsMap.set k v m) -> P kv.
Proof.
  intros Hm Hkv. induction m as [|[k' v'] m IH]; simpl.
  - intros kv [<-|[]]. exact Hkv.
  - destruct (String.eqb k' k) eqn:Hk; intros kv [<-|Hin].
    + apply String.eqb_eq in Hk. now subst k'.
    + apply Hm. now right.
    + apply Hm. now left.
    + apply IH; [|exact Hin]. intros kv' Hin'. apply Hm. now right.
Qed.

Lemma JsMap_set_length m k v :
  (length (JsMap.set k v m) <= Datatypes.S (length m))%nat.
Proof.
  induction m as [|[k' v'] m IH]; simpl; [lia|].
  destruct (String.eqb k' k); simpl; lia.
Qed.

Lemma JsMap_delete_In m k kv : In kv (JsMap.delete k m) -> In kv m.
Proof.
  induction m as [|[k' v'] m IH]; simpl; [tauto|].
  destruct (String.eqb k' k); simpl; [tauto|].
  intros [<-|Hin]; [now left|right; now apply IH].
Qed.

Lemma JsMap_delete_length m k v :
  JsMap.get k m = Some v ->
  Datatypes.S (length (JsMap.delete k m)) = length m.
Proof.
  induction m as [|[k' v'] m IH]; simpl; [discriminate|].
  destruct (String.eqb k' k); simpl; [reflexivity|].
  intros Hget. now rewrite IH.
Qed.
End JsMapEntries.

(** Every entry of the map of the current tables is a current table under
    its key, and there are no more entries than tables. *)
Lemma currentTableMap_entries (currentTables : list DBTable.t) :
  (forall kv, In kv (currentTableMap currentTables) ->
     In (snd kv) currentTables /\ tableKey (snd kv) = fst kv)
  /\ (length (currentTableMap currentTables) <= length currentTables)%nat.
Proof.
  unfold currentTableMap.
  assert (Hgen : forall tables (acc : JsMap.t DBTable.t) (seen : list DBTable.t),
            (forall kv, In kv acc ->
               In (snd kv) seen /\ tableKey (snd kv) = fst kv) ->
            (length acc <= length seen)%nat ->
            let m := fold_left
                       (fun m table => JsMap.set (tableKey table) table m)
                       tables acc in
            (forall kv, In kv m ->
               In (snd kv) (seen ++ tables) /\ tableKey (snd kv) = fst kv)
            /\ (length m <= length (seen ++ tables))%nat).
  { induction tables as [|t tables IH]; intros acc seen Hacc Hlen; simpl.
    - rewrite app_nil_r. now split.
    - specialize (IH (JsMap.set (tableKey t) t acc) (seen ++ [t])).
      rewrite <- app_assoc in IH. simpl in IH. apply IH.
      + apply JsMap_set_entries.
        * intros kv Hin. destruct (Hacc kv Hin) as [Hs Hk].
          split; [|exact Hk]. apply in_or_app. now left.
        * simpl. split; [|reflexivity]. apply in_or_app. right. now left.
      + pose proof (JsMap_set_length acc (tableKey t) t).
        rewrite length_app. simpl. lia. }
  apply (Hgen currentTables JsMap.empty []); simpl; [tauto|lia].
Qed.

(** The loop over the imported tables, whatever the keys: every imported
    table goes to exactly one of the two lists, and an update takes one
    entry out of the map. *)
Lemma tableLoop_counts (imported : list DBTable.t) (st : TableLoop) :
  let st' := fold_left processImportedTable imported st in
  (length (toAdd st') + length (toUpdate st')
   = length (toAdd st) + length (toUpdate st) + length imported)%nat
  /\ (length (toUpdate st') + length (remaining st')
      = length (toUpdate st) + length (remaining st))%nat
  /\ (forall t, In t (toAdd st') -> In t (toAdd st) \/ In t imported)
  /\ (forall u, In u (toUpdate st') ->
        In u (toUpdate st)
        \/ exists e t, In (tableKey t, e) (remaining st) /\ In t imported
                       /\ u = tableWithPreservedIds e t)
  /\ (forall kv, In kv (remaining st') -> In kv (remaining st)).
Proof.
  revert st. induction imported as [|a imported IH]; intros st; simpl.
  - split_ands; auto; lia.
  - destruct (IH (processImportedTable st a)) as (Hn & Hm & Ha & Hu & Hr).
    clear IH. unfold processImportedTable in *.
    destruct (JsMap.get (tableKey a) (remaining st)) as [e|] eqn:Hget;
      cbn [toAdd toUpdate remaining] in *.
    + pose proof (JsMap_delete_length _ _ _ Hget) as Hlen.
      rewrite length_app in Hn, Hm. simpl in Hn, Hm.
      split_ands; try lia.
      * intros t Hin. destruct (Ha t Hin); auto.
      * intros u Hin. destruct (Hu u Hin) as [Hold|(e' & t & He & Ht & ->)].
        -- apply in_app_or in Hold as [Hold|[<-|[]]]; [now left|].
           right. exists e, a. split_ands; auto.
           now apply JsMap_get_In.
        -- right. exists e', t. split_ands; auto.
           now apply JsMap_delete_In in He.
      * intros kv Hin. apply Hr in Hin. now apply JsMap_delete_In in Hin.
    + rewrite length_app in Hn. simpl in Hn.
      split_ands; try lia.
      * intros t Hin. destruct (Ha t Hin) as [Hold|Hnew]; auto.
        apply in_app_or in Hold as [Hold|[<-|[]]]; auto.
      * intros u Hin. destruct (Hu u Hin) as [Hold|(e' & t & He & Ht & ->)];
          [now left|].
        right. exists e', t. auto.
      * exact Hr.
Qed.

(** X1. Whatever the keys of the tables, also repeated ones: every
    imported table is either added or turned into exactly one update, an
    update puts an imported table in the place of a current table of the
    same key, a removed table is a current table, and updates and removals
    together are at most the current tables. *)
Theorem reconcileTables_splits_imported (current imported : list DBTable.t) :
  let r := reconcileTables current imported in
  (length (tablesToAdd r) + length (tablesToUpdate r) = length imported)%nat
  /\ (length (tablesToUpdate r) + length (tablesToRemove r)
      <= length current)%nat
  /\ (forall t, In t (tablesToAdd r) -> In t imported)
  /\ (forall u, In u (tablesToUpdate r) ->
        exists e t, In e current /\ In t imported
                    /\ tableKey e = tableKey t
                    /\ u = tableWithPreservedIds e t)
  /\ (forall c, In c (tablesToRemove r) -> In c current).
Proof.
  unfold reconcileTables. cbn [tablesToAdd tablesToUpdate tablesToRemove].
  destruct (tableLoop_counts imported
              {| remaining := currentTableMap current;
                 toAdd := []; toUpdate := [] |}) as (Hn & Hm & Ha & Hu & Hr).
  destruct (currentTableMap_entries current) as [Hentries Hlen].
  cbn [toAdd toUpdate remaining] in *. simpl in Hn, Hm.
  unfold JsMap.values. rewrite length_map.
  split_ands.
  - lia.
  - lia.
  - intros t Hin. destruct (Ha t Hin) as [[]|Hin']. exact Hin'.
  - intros u Hin. destruct (Hu u Hin) as [[]|(e & t & He & Ht & ->)].
    apply Hentries in He as [He Hk]. exists e, t. auto.
  - intros c Hin. apply in_map_iff in Hin as (kv & <- & Hin).
    apply Hr, Hentries in Hin. tauto.
Qed.

(* --------------------------------------------------------------------- *)
(** ** The merged table list when keys and ids identify the tables *)
(* --------------------------------------------------------------------- *)

Lemma NoDup_map_eq {A B} (f : A -> B) (l : list A) (x y : A) :
  List.NoDup (map f l) -> In x l -> In y l -> f x = f y -> x = y.
Proof.
  induction l as [|a l IH]; simpl; [tauto|].
  intros Hnd Hx Hy Hxy. apply List.NoDup_cons_iff in Hnd as [Hfresh Hnd].
  destruct Hx as [->|Hx], Hy as [->|Hy]; auto.
  - exfalso. apply Hfresh. rewrite Hxy. now apply in_map.
  - exfalso. apply Hfresh. rewrite <- Hxy. now apply in_map.
Qed.

Lemma NoDup_map_filter {A B} (f : A -> B) (p : A -> bool) (l : list A) :
  List.NoDup (map f l) -> List.NoDup (map f (List.filter p l)).
Proof.
  induction l as [|a l IH]; simpl; [auto|].
  intros Hnd. apply List.NoDup_cons_iff in Hnd as [Hfresh Hnd].
  destruct (p a); simpl; [|now apply IH].
  constructor; [|now apply IH].
  intros Hin. apply Hfresh. apply in_map_iff in Hin as (x & <- & Hx).
  apply filter_In in Hx as [Hx _]. now apply in_map.
Qed.

Lemma NoDup_append {A} (l k : list A) :
  List.NoDup l -> List.NoDup k -> (forall a, In a l -> ~ In a k) ->
  List.NoDup (l ++ k).
Proof.
  induction l as [|a l IH]; simpl; [auto|].
  intros Hl Hk Hdis. apply List.NoDup_cons_iff in Hl as [Hfresh Hl].
  constructor.
  - intros Hin. apply in_app_or in Hin as [Hin|Hin]; [now apply Hfresh|].
    apply (Hdis a); [now left|exact Hin].
  - apply IH; [exact Hl|exact Hk|]. intros b Hb. apply Hdis. now right.
Qed.

Lemma existsb_key (k : string) (tables : list DBTable.t) :
  existsb (String.eqb k) (map tableKey tables) = true
  <-> exists t, In t tables /\ tableKey t = k.
Proof.
  rewrite existsb_exists. split.
  - intros (k' & Hin & Heq). apply String.eqb_eq in Heq. subst k'.
    apply in_map_iff in Hin as (t & Ht & Hin). now exists t.
  - intros (t & Hin & <-). exists (tableKey t).
    split; [now apply in_map|apply String.eqb_refl].
Qed.

Lemma findTableById_None (i : string) (tables : list DBTable.t) :
  findTableById i tables = None <->
  forall t, In t tables -> DBTable.id t <> i.
Proof.
  unfold findTableById. split.
  - intros Hnone t Hin Heq.
    pose proof (find_none _ _ Hnone t Hin) as Hne. simpl in Hne.
    rewrite Heq, String.eqb_refl in Hne. discriminate.
  - intros Hall. induction tables as [|a tables IH]; simpl; [reflexivity|].
    destruct (String.eqb_spec (DBTable.id a) i) as [Heq|_].
    + exfalso. apply (Hall a); [now left|exact Heq].
    + apply IH. intros t Hin. apply Hall. now right.
Qed.

Lemma preserveFieldId_name (existing : DBTable.t) (f : DBField.t) :
  DBField.name (preserveFieldId existing f) = DBField.name f.
Proof.
  unfold preserveFieldId.
  now destruct (findFieldByName (DBField.name f) (DBTable.fields existing)).
Qed.

Lemma tableWithPreservedIds_key (e t : DBTable.t) :
  tableKey (tableWithPreservedIds e t) = tableKey t.
Proof. reflexivity. Qed.

Section Reconciled.
Variables current imported : list DBTable.t.
Hypothesis Hcur : uniqueKeys current.
Hypothesis Himp : uniqueKeys imported.
Hypothesis Hids : List.NoDup (map DBTable.id current).

#[local] Abbreviation plan := (reconcileTables current imported).

Lemma updated_iff (u : DBTable.t) :
  In u (tablesToUpdate plan) <->
  exists e t, In e current /\ In t imported /\ tableKey t = tableKey e
              /\ u = tableWithPreservedIds e t.
Proof.
  destruct (reconcileTables_spec current imported Hcur Himp) as (-> & _ & _).
  rewrite in_flat_map. split.
  - intros (t & Ht & Hu).
    destruct (JsMap.get (tableKey t) (currentTableMap current)) as [e|] eqn:Hget;
      [|destruct Hu].
    destruct Hu as [<-|[]].
    apply currentTableMap_get in Hget as [He Hk]; [|exact Hcur].
    exists e, t. auto.
  - intros (e & t & He & Ht & Hk & ->). exists t. split; [exact Ht|].
    assert (Hget : JsMap.get (tableKey t) (currentTableMap current) = Some e).
    { apply currentTableMap_get; auto. }
    rewrite Hget. now left.
Qed.

Lemma added_iff (t : DBTable.t) :
  In t (tablesToAdd plan) <->
  In t imported /\ forall e, In e current -> tableKey e <> tableKey t.
Proof.
  destruct (reconcileTables_spec current imported Hcur Himp) as (_ & -> & _).
  rewrite filter_In. split; intros [Ht Hk]; (split; [exact Ht|]).
  - intros e He Heq.
    assert (Hget : JsMap.get (tableKey t) (currentTableMap current) = Some e).
    { apply currentTableMap_get; auto. }
    now rewrite Hget in Hk.
  - destruct (JsMap.get (tableKey t) (currentTableMap current)) as [e|] eqn:Hget;
      [|reflexivity].
    apply currentTableMap_get in Hget as [He Heq]; [|exact Hcur].
    now destruct (Hk e He).
Qed.

Lemma removed_iff (c : DBTable.t) :
  In c (tablesToRemove plan) <->
  In c current /\ forall t, In t imported -> tableKey t <> tableKey c.
Proof.
  destruct (reconcileTables_spec current imported Hcur Himp) as (_ & _ & ->).
  rewrite filter_In, negb_true_iff. split; intros [Hc Hk]; (split; [exact Hc|]).
  - intros t Ht Heq.
    assert (Hex : existsb (String.eqb (tableKey c)) (map tableKey imported)
                  = true).
    { apply existsb_key. now exists t. }
    congruence.
  - destruct (existsb (String.eqb (tableKey c)) (map tableKey imported))
      eqn:Hex; [|reflexivity].
    apply existsb_key in Hex as (t & Ht & Heq). now destruct (Hk t Ht).
Qed.

(** The update of a current table is found by the table's id. *)
Lemma findTableById_updated (e t : DBTable.t) :
  In e current -> In t imported -> tableKey t = tableKey e ->
  findTableById (DBTable.id e) (tablesToUpdate plan)
  = Some (tableWithPreservedIds e t).
Proof.
  intros He Ht Hk.
  destruct (findTableById (DBTable.id e) (tablesToUpdate plan)) as [u|] eqn:Hfind.
  - apply findTableById_Some in Hfind as [Hu Hid].
    apply updated_iff in Hu as (e' & t' & He' & Ht' & Hk' & ->).
    simpl in Hid.
    assert (e' = e) as -> by (eapply NoDup_map_eq; eauto).
    assert (t' = t) as ->.
    { eapply (NoDup_map_eq tableKey); eauto. congruence. }
    reflexivity.
  - exfalso. rewrite findTableById_None in Hfind.
    apply (Hfind (tableWithPreservedIds e t)); [|reflexivity].
    apply updated_iff. exists e, t. auto.
Qed.

Lemma findTableById_not_updated (e : DBTable.t) :
  In e current ->
  (forall t, In t imported -> tableKey t <> tableKey e) ->
  findTableById (DBTable.id e) (tablesToUpdate plan) = None.
Proof.
  intros He Hno. apply findTableById_None. intros u Hu Hid.
  apply updated_iff in Hu as (e' & t' & He' & Ht' & Hk' & ->).
  simpl in Hid.
  assert (e' = e) as -> by (eapply NoDup_map_eq; eauto).
  now apply (Hno t').
Qed.

(** A current table stays in the merged list when its key is imported. *)
Lemma kept_iff (e : DBTable.t) :
  In e current ->
  negb (existsb (fun t => String.eqb (DBTable.id t) (DBTable.id e))
                (tablesToRemove plan))
  = existsb (String.eqb (tableKey e)) (map tableKey imported).
Proof.
  intros He.
  destruct (existsb (String.eqb (tableKey e)) (map tableKey imported)) eqn:Hex.
  - apply negb_true_iff.
    destruct (existsb _ (tablesToRemove plan)) eqn:Hrem; [|reflexivity].
    apply existsb_exists in Hrem as (c & Hc & Hid).
    apply String.eqb_eq in Hid. apply removed_iff in Hc as [Hc Hno].
    assert (c = e) as -> by (eapply NoDup_map_eq; eauto).
    apply existsb_key in Hex as (t & Ht & Hk). now destruct (Hno t Ht).
  - apply negb_false_iff, existsb_exists. exists e.
    split; [|apply String.eqb_refl].
    apply removed_iff. split; [exact He|].
    intros t Ht Hk.
    assert (existsb (String.eqb (tableKey e)) (map tableKey imported) = true).
    { apply existsb_key. now exists t. }
    congruence.
Qed.

(** The merged list: the current tables whose key is imported, each
    replaced by its update, followed by the tables added. *)
Lemma merged_iff (u : DBTable.t) :
  In u (updatedDiagramTables current plan) <->
  (exists e t, In e current /\ In t imported /\ tableKey t = tableKey e
               /\ u = tableWithPreservedIds e t)
  \/ (In u imported /\ forall e, In e current -> tableKey e <> tableKey u).
Proof.
  unfold updatedDiagramTables. rewrite in_app_iff, added_iff, in_map_iff.
  split.
  - intros [(e & <- & He)|Hadd]; [left|now right].
    apply filter_In in He as [He Hkept]. rewrite (kept_iff e He) in Hkept.
    apply existsb_key in Hkept as (t & Ht & Hk).
    exists e, t. rewrite (findTableById_updated e t He Ht Hk). auto.
  - intros [(e & t & He & Ht & Hk & ->)|Hadd]; [left|now right].
    exists e. rewrite (findTableById_updated e t He Ht Hk).
    split; [reflexivity|]. apply filter_In. split; [exact He|].
    rewrite (kept_iff e He). apply existsb_key. now exists t.
Qed.

Lemma merged_keys :
  map tableKey (updatedDiagramTables current plan)
  = map tableKey
      (List.filter
         (fun e => existsb (String.eqb (tableKey e)) (map tableKey imported))
         current)
    ++ map tableKey (tablesToAdd plan).
Proof.
  unfold updatedDiagramTables. rewrite map_app. f_equal.
  rewrite (filter_ext_In' _
             (fun e => existsb (String.eqb (tableKey e))
                               (map tableKey imported)) current kept_iff).
  rewrite map_map. apply map_ext_in. intros e He.
  apply filter_In in He as [He Hkept].
  apply existsb_key in Hkept as (t & Ht & Hk).
  rewrite (findTableById_updated e t He Ht Hk). simpl. exact Hk.
Qed.
End Reconciled.

(** X2. When keys identify the tables on both sides and ids identify the
    current tables, the merged table list is the imported schema: it has
    the keys of the imported tables, each once, and each of its tables is
    an imported table that is new, or an imported table in the place of
    the current table of its key. *)
Theorem merged_tables_are_the_imported_ones
    (current imported : list DBTable.t) :
  uniqueKeys current -> uniqueKeys imported ->
  List.NoDup (map DBTable.id current) ->
  let merged :=
    updatedDiagramTables current (reconcileTables current imported) in
  uniqueKeys merged
  /\ (forall k, In k (map tableKey merged) <-> In k (map tableKey imported))
  /\ (forall u, In u merged <->
        (exists e t, In e current /\ In t imported
                     /\ tableKey t = tableKey e
                     /\ u = tableWithPreservedIds e t)
        \/ (In u imported
            /\ forall e, In e current -> tableKey e <> tableKey u)).
Proof.
  intros Hcur Himp Hids merged.
  pose proof (merged_iff current imported Hcur Himp Hids) as Hin.
  split_ands; [| |exact Hin].
  - unfold uniqueKeys, merged.
    rewrite (merged_keys current imported Hcur Himp Hids).
    apply NoDup_append.
    + now apply NoDup_map_filter.
    + destruct (reconcileTables_spec current imported Hcur Himp)
        as (_ & -> & _).
      now apply NoDup_map_filter.
    + intros k Hkept Hadd.
      apply in_map_iff in Hkept as (e & <- & He).
      apply filter_In in He as [He _].
      apply in_map_iff in Hadd as (t & Hk & Ht).
      apply (added_iff current imported Hcur Himp) in Ht as [_ Hno].
      now apply (Hno e He).
  - intros k. rewrite !in_map_iff. split.
    + intros (u & <- & Hu). apply Hin in Hu
        as [(e & t & He & Ht & Hk & ->)|[Hu _]].
      * exists t. auto.
      * exists u. auto.
    + intros (t & <- & Ht).
      destruct (JsMap.get (tableKey t) (currentTableMap current))
        as [e|] eqn:Hget.
      * apply currentTableMap_get in Hget as [He Hk]; [|exact Hcur].
        exists (tableWithPreservedIds e t). split; [reflexivity|].
        apply Hin. left. exists e, t. auto.
      * exists t. split; [reflexivity|]. apply Hin. right.
        split; [exact Ht|]. intros e He Hk.
        assert (Hsome : JsMap.get (tableKey t) (currentTableMap current)
                        = Some e) by (apply currentTableMap_get; auto).
        congruence.
Qed.

Lemma merged_tables_are_the_imported_ones_witness :
  uniqueKeys
    (updatedDiagramTables (Diagram.tables Sample.diagram)
       (reconcileTables (Diagram.tables Sample.diagram)
                        (Diagram.tables Sample.edited))).
Proof.
  apply (merged_tables_are_the_imported_ones
           (Diagram.tables Sample.diagram) (Diagram.tables Sample.edited)).
  - unfold uniqueKeys. vm_compute. distinct_strings.
  - unfold uniqueKeys. vm_compute. distinct_strings.
  - vm_compute. distinct_strings.
Defined.

(* --------------------------------------------------------------------- *)
(** ** Which relationships [TableDBML] removes *)
(* --------------------------------------------------------------------- *)

Lemma fieldExists_updated (n : string) (e t : DBTable.t) :
  fieldExists n (tableWithPreservedIds e t) = true
  <-> exists f, In f (DBTable.fields t) /\ DBField.name f = n.
Proof.
  unfold fieldExists. rewrite existsb_exists. simpl. split.
  - intros (g & Hg & Hn). apply in_map_iff in Hg as (f & <- & Hf).
    rewrite preserveFieldId_name in Hn. apply String.eqb_eq in Hn.
    now exists f.
  - intros (f & Hf & <-). exists (preserveFieldId e f).
    split; [now apply in_map|].
    rewrite preserveFieldId_name. apply String.eqb_refl.
Qed.

Lemma isConnectedToRemovedTable_true (removed : list DBTable.t)
    (rel : DBRelationship.t) :
  isConnectedToRemovedTable removed rel = true
  <-> exists c, In c removed
                /\ (DBTable.id c = DBRelationship.sourceTableId rel
                    \/ DBTable.id c = DBRelationship.targetTableId rel).
Proof.
  unfold isConnectedToRemovedTable. rewrite existsb_exists.
  split; intros (c & Hc & Hid); exists c; (split; [exact Hc|]).
  - apply orb_true_iff in Hid as [Hid|Hid]; apply String.eqb_eq in Hid; auto.
  - apply orb_true_iff. destruct Hid as [->| ->]; rewrite String.eqb_refl; auto.
Qed.

(** The filter callback of [TableDBML] on a relationship between two
    named fields of current tables. *)
Lemma TableDBML_removalRule_false
    (currentDiagram importedDiagram : Diagram.t) (rel : DBRelationship.t)
    (sourceTable targetTable : DBTable.t) (sourceField targetField : DBField.t) :
  uniqueKeys (Diagram.tables currentDiagram) ->
  uniqueKeys (Diagram.tables importedDiagram) ->
  List.NoDup (map DBTable.id (Diagram.tables currentDiagram)) ->
  findTableById (DBRelationship.sourceTableId rel)
                (Diagram.tables currentDiagram) = Some sourceTable ->
  findTableById (DBRelationship.targetTableId rel)
                (Diagram.tables currentDiagram) = Some targetTable ->
  findFieldById (DBRelationship.sourceFieldId rel)
                (DBTable.fields sourceTable) = Some sourceField ->
  findFieldById (DBRelationship.targetFieldId rel)
                (DBTable.fields targetTable) = Some targetField ->
  DBField.name sourceField <> "" ->
  DBField.name targetField <> "" ->
  TableDBML.removalRule currentDiagram importedDiagram
    (reconcileTables (Diagram.tables currentDiagram)
                     (Diagram.tables importedDiagram)) rel
  = false
  <-> endpointSurvives (Diagram.tables importedDiagram)
                       sourceTable sourceField
      /\ endpointSurvives (Diagram.tables importedDiagram)
                          targetTable targetField.
Proof.
  set (current := Diagram.tables currentDiagram).
  set (imported := Diagram.tables importedDiagram).
  intros Hcur Himp Hids Hst Htt Hsf Htf Hsn Htn.
  pose proof (findTableById_Some _ _ _ Hst) as [Hsin Hsid].
  pose proof (findTableById_Some _ _ _ Htt) as [Htin Htid].
  unfold TableDBML.removalRule. fold current imported.
  destruct (isConnectedToRemovedTable
              (tablesToRemove (reconcileTables current imported)) rel)
    eqn:Hconn.
  - split; [discriminate|]. intros [Hs Ht]. exfalso.
    apply isConnectedToRemovedTable_true in Hconn as (c & Hc & Hid).
    apply (removed_iff current imported Hcur Himp) in Hc as [Hc Hno].
    destruct Hid as [Hid|Hid].
    + assert (c = sourceTable) as ->
        by (eapply (NoDup_map_eq DBTable.id); eauto; congruence).
      destruct Hs as (t & _ & Hin & Hk & _). now apply (Hno t).
    + assert (c = targetTable) as ->
        by (eapply (NoDup_map_eq DBTable.id); eauto; congruence).
      destruct Ht as (t & _ & Hin & Hk & _). now apply (Hno t).
  - assert (Hmatched : forall e,
              In e current ->
              (DBTable.id e = DBRelationship.sourceTableId rel
               \/ DBTable.id e = DBRelationship.targetTableId rel) ->
              exists t, In t imported /\ tableKey t = tableKey e).
    { intros e He Hid.
      destruct (existsb (String.eqb (tableKey e)) (map tableKey imported))
        eqn:Hex; [now apply existsb_key in Hex|].
      exfalso.
      assert (Htrue : isConnectedToRemovedTable
                        (tablesToRemove (reconcileTables current imported))
                        rel = true).
      { apply isConnectedToRemovedTable_true. exists e.
        split; [|exact Hid].
        apply (removed_iff current imported Hcur Himp).
        split; [exact He|]. intros t Ht Hk.
        assert (existsb (String.eqb (tableKey e)) (map tableKey imported)
                = true) by (apply existsb_key; now exists t).
        congruence. }
      congruence. }
    destruct (Hmatched sourceTable Hsin (or_introl Hsid)) as (ts & Hts & Hks).
    destruct (Hmatched targetTable Htin (or_intror Htid)) as (tt' & Htt' & Hkt).
    unfold endpointFieldGone, fieldsOfTable. fold current.
    pose proof (findTableById_updated current imported Hcur Himp Hids
                  sourceTable ts Hsin Hts Hks) as Hus.
    pose proof (findTableById_updated current imported Hcur Himp Hids
                  targetTable tt' Htin Htt' Hkt) as Hut.
    rewrite Hsid in Hus. rewrite Htid in Hut.
    rewrite Hus, Hut, Hst, Htt, Hsf, Htf. simpl.
    rewrite (truthy_nonempty _ Hsn), (truthy_nonempty _ Htn). simpl.
    assert (Hend : forall table field t,
              In t imported -> tableKey t = tableKey table ->
              (fieldExists (DBField.name field)
                           (tableWithPreservedIds table t) = true
               <-> endpointSurvives imported table field)).
    { intros table field t Ht Hk. rewrite fieldExists_updated. split.
      - intros (f & Hf & Hn). exists t, f. auto.
      - intros (t' & f & Ht' & Hk' & Hf & Hn).
        assert (t' = t) as ->
          by (eapply (NoDup_map_eq tableKey); eauto; congruence).
        now exists f. }
    rewrite <- (Hend sourceTable sourceField ts Hts Hks).
    rewrite <- (Hend targetTable targetField tt' Htt' Hkt).
    destruct (fieldExists (DBField.name sourceField)
                          (tableWithPreservedIds sourceTable ts));
      destruct (fieldExists (DBField.name targetField)
                            (tableWithPreservedIds targetTable tt'));
      simpl; intuition discriminate.
Qed.

(** X3. For a relationship between two named fields of current tables,
    when keys and ids identify the tables: [TableDBML] keeps the
    relationship exactly when the imported schema still has both
    endpoints, that is, for each end a table with the key of the current
    table that has a field of the same name. *)
Theorem relationship_is_kept_iff_endpoints_survive
    (currentDiagram importedDiagram : Diagram.t) (rel : DBRelationship.t)
    (sourceTable targetTable : DBTable.t) (sourceField targetField : DBField.t) :
  uniqueKeys (Diagram.tables currentDiagram) ->
  uniqueKeys (Diagram.tables importedDiagram) ->
  List.NoDup (map DBTable.id (Diagram.tables currentDiagram)) ->
  findTableById (DBRelationship.sourceTableId rel)
                (Diagram.tables currentDiagram) = Some sourceTable ->
  findTableById (DBRelationship.targetTableId rel)
                (Diagram.tables currentDiagram) = Some targetTable ->
  findFieldById (DBRelationship.sourceFieldId rel)
                (DBTable.fields sourceTable) = Some sourceField ->
  findFieldById (DBRelationship.targetFieldId rel)
                (DBTable.fields targetTable) = Some targetField ->
  DBField.name sourceField <> "" ->
  DBField.name targetField <> "" ->
  TableDBML.removalRule currentDiagram importedDiagram
    (reconcileTables (Diagram.tables currentDiagram)
                     (Diagram.tables importedDiagram)) rel
  = false
  <-> endpointSurvives (Diagram.tables importedDiagram)
                       sourceTable sourceField
      /\ endpointSurvives (Diagram.tables importedDiagram)
                          targetTable targetField.
Proof. apply TableDBML_removalRule_false. Qed.

Lemma relationship_is_kept_iff_endpoints_survive_witness :
  TableDBML.removalRule Sample.diagram Sample.withoutRef
    (reconcileTables (Diagram.tables Sample.diagram)
                     (Diagram.tables Sample.withoutRef))
    Sample.ordersUser
  = false
  <-> endpointSurvives (Diagram.tables Sample.withoutRef)
        Sample.orders (Sample.field "f-orders-user" "user_id")
      /\ endpointSurvives (Diagram.tables Sample.withoutRef)
           Sample.users (Sample.field "f-users-id" "id").
Proof.
  apply (relationship_is_kept_iff_endpoints_survive
           Sample.diagram Sample.withoutRef Sample.ordersUser
           Sample.orders Sample.users
           (Sample.field "f-orders-user" "user_id")
           (Sample.field "f-users-id" "id")).
  - unfold uniqueKeys. vm_compute. distinct_strings.
  - unfold uniqueKeys. vm_compute. distinct_strings.
  - vm_compute. distinct_strings.
  - reflexivity.
  - reflexivity.
  - reflexivity.
  - reflexivity.
  - discriminate.
  - discriminate.
Defined.

(* --------------------------------------------------------------------- *)
(** ** The relationships the addition pass creates *)
(* --------------------------------------------------------------------- *)

Lemma endpointsToAdd_refersInto (currentRelationships : list DBRelationship.t)
    (importedTables updated : list DBTable.t) (rel : DBRelationship.t)
    (e : Endpoints) (newId : string) (t : Z) :
  endpointsToAdd currentRelationships importedTables updated rel = Some e ->
  refersInto updated (mappedRelationship rel e newId t).
Proof.
  intros Hadd. apply endpointsToAdd_Some in Hadd as [Hres _].
  apply resolveEndpoints_Some in Hres
    as (_ & _ & _ & _ & _ & _ & Hcst & Hctt & Hcsf & Hctf).
  apply findTableById_Some in Hcst as [Hcst Hsid].
  apply findTableById_Some in Hctt as [Hctt Htid].
  apply findFieldByName_Some, firstNamed_In in Hcsf as [Hcsf _].
  apply findFieldByName_Some, firstNamed_In in Hctf as [Hctf _].
  split; simpl.
  - exists (currentSourceTable e), (currentSourceField e). auto.
  - exists (currentTargetTable e), (currentTargetField e). auto.
Qed.

Lemma NoDup_map_injective {A B} (f : A -> B) (l : list A) :
  (forall x y, f x = f y -> x = y) -> List.NoDup l -> List.NoDup (map f l).
Proof.
  intros Hinj. induction 1 as [|a l Hfresh Hnd IH]; simpl; constructor.
  - intros Hin. apply in_map_iff in Hin as (x & Hx & Hin).
    apply Hinj in Hx. now subst x.
  - exact IH.
Qed.

Section Created.
Context {host : Host} {S : Type}.
Variables (currentRelationships : list DBRelationship.t)
          (importedTables updated : list DBTable.t).

#[local] Abbreviation creates :=
  (@mapRelationships host S currentRelationships importedTables updated).

(** The pass, relationship by relationship: what it returns, and what it
    draws from [generateId] and from the clock. *)
Lemma mapRelationships_cons (rel : DBRelationship.t)
    (rels : list DBRelationship.t) (w : World S) :
  creates (rel :: rels) w
  = match endpointsToAdd currentRelationships importedTables updated rel with
    | Some e =>
        let w1 := mkWorld (session w) (storeCalls w) (toasts w)
                          (Datatypes.S (idsDrawn w))
                          (Datatypes.S (clockReads w)) in
        match creates rels w1 with
        | (Normal others, w') =>
            (Normal (mappedRelationship rel e (generateId (idsDrawn w))
                                        (Date_now (clockReads w)) :: others),
             w')
        | (Throw, w') => (Throw, w')
        end
    | None => creates rels w
    end.
Proof.
  simpl. unfold mbind, M_bind, mret, M_ret.
  destruct (endpointsToAdd currentRelationships importedTables updated rel);
    simpl.
  - now destruct (mapRelationships _ _ _ rels _) as [[others|] w'].
  - now destruct (mapRelationships _ _ _ rels w) as [[others|] w'].
Qed.

Lemma mapRelationships_draws (rels : list DBRelationship.t) (w : World S) :
  exists out w',
    creates rels w = (Normal out, w')
    /\ session w' = session w
    /\ storeCalls w' = storeCalls w
    /\ toasts w' = toasts w
    /\ idsDrawn w' = (idsDrawn w + length out)%nat
    /\ clockReads w' = (clockReads w + length out)%nat
    /\ map DBRelationship.id out
       = map generateId (seq (idsDrawn w) (length out))
    /\ map DBRelationship.createdAt out
       = map Date_now (seq (clockReads w) (length out))
    /\ length out
       = length (List.filter
                   (fun rel =>
                      bool_decide
                        (is_Some (endpointsToAdd currentRelationships
                                    importedTables updated rel)))
                   rels)
    /\ Forall (refersInto updated) out.
Proof.
  revert w. induction rels as [|rel rels IH]; intros w.
  - exists [], w. simpl. split_ands; auto; lia.
  - rewrite mapRelationships_cons.
    destruct (endpointsToAdd currentRelationships importedTables updated rel)
      as [e|] eqn:Hadd; simpl.
    + destruct (IH (mkWorld (session w) (storeCalls w) (toasts w)
                            (Datatypes.S (idsDrawn w))
                            (Datatypes.S (clockReads w))))
        as (out & w' & -> & Hs & Hc & Ht & Hi & Hk & Hids & Hat & Hlen & Hall).
      simpl in *.
      eexists _, w'. split; [reflexivity|].
      split_ands; auto; simpl; try lia.
      * now rewrite Hids.
      * now rewrite Hat.
      * rewrite Hadd. simpl. now rewrite Hlen.
      * constructor; [|exact Hall].
        now apply (endpointsToAdd_refersInto currentRelationships importedTables).
    + destruct (IH w)
        as (out & w' & -> & Hs & Hc & Ht & Hi & Hk & Hids & Hat & Hlen & Hall).
      exists out, w'. split_ands; auto.
      simpl. rewrite Hadd. simpl. exact Hlen.
Qed.
End Created.

(** The addition pass reads nothing of the world but the numbers of ids
    drawn and of clock readings. *)
Lemma mapRelationships_draws_only {host : Host} {S S' : Type}
    (currentRelationships : list DBRelationship.t)
    (importedTables updated : list DBTable.t)
    (rels : list DBRelationship.t) (w : World S) (v : World S') :
  idsDrawn v = idsDrawn w -> clockReads v = clockReads w ->
  fst (mapRelationships currentRelationships importedTables updated rels v)
  = fst (mapRelationships currentRelationships importedTables updated rels w).
Proof.
  revert w v. induction rels as [|rel rels IH]; intros w v Hi Hk.
  - reflexivity.
  - rewrite !mapRelationships_cons.
    destruct (endpointsToAdd currentRelationships importedTables updated rel)
      as [e|]; [|now apply IH].
    cbv zeta.
    match goal with
    | |- fst (match ?x with _ => _ end) = fst (match ?y with _ => _ end) =>
        assert (Hrest : fst x = fst y) by (apply IH; simpl; congruence);
        destruct x as [[o1|] v'], y as [[o2|] w']; simpl in *;
        try discriminate; try reflexivity
    end.
    injection Hrest as ->. now rewrite Hi, Hk.
Qed.

Lemma existsb_accepted {host : Host} (calls : list StoreCall) :
  (forall c, storeRejects c = false) -> existsb storeRejects calls = false.
Proof.
  intros Haccepts. induction calls as [|c calls IH]; simpl; [reflexivity|].
  now rewrite Haccepts.
Qed.

(** When the store accepts every call, the pipeline carries out the plan
    of the world it starts in, the whole of it. *)
Lemma reconcileAndApply_accepted {host : Host} {S : Type}
    (rule : Diagram.t -> Diagram.t -> TableChanges -> DBRelationship.t -> bool)
    (currentDiagram importedDiagram : Diagram.t) (w : World S) :
  (forall c, storeRejects c = false) ->
  exists w',
    reconcileAndApply rule currentDiagram importedDiagram w
    = (Normal (plannedChanges rule currentDiagram importedDiagram
                              (idsDrawn w) (clockReads w)), w')
    /\ session w' = session w
    /\ toasts w' = toasts w
    /\ storeCalls w'
       = storeCalls w
         ++ pipelineCalls (plannedChanges rule currentDiagram importedDiagram
                                          (idsDrawn w) (clockReads w)).
Proof.
  intros Haccepts.
  destruct (reconcileAndApply_run rule currentDiagram importedDiagram w)
    as (res & w' & a & tr & rest & Hrun & Hs & Ht & Hc & Hsplit & Hch & Hrem
        & Hupd & _ & Hres).
  destruct res as [a'|].
  2:{ destruct Hres as (c & _ & Hc'). rewrite Haccepts in Hc'. discriminate. }
  destruct Hres as (-> & -> & _). rewrite app_nil_r in Hsplit. subst tr.
  assert (Hplan : a = plannedChanges rule currentDiagram importedDiagram
                        (idsDrawn w) (clockReads w)).
  { destruct a as [ch toRemove updated toAdd]. simpl in *.
    unfold plannedChanges. subst ch toRemove updated. f_equal.
    revert Hrun. unfold reconcileAndApply.
    rewrite !bind_whenNonEmpty, !existsb_accepted by exact Haccepts.
    unfold mbind at 1, M_bind at 1.
    match goal with
    | |- context [mapRelationships ?cr ?imp ?upd ?rels ?w1] =>
        pose proof (mapRelationships_draws_only cr imp upd rels
                      (mkWorld tt [] [] (idsDrawn w) (clockReads w)) w1
                      eq_refl eq_refl) as Hsame;
        destruct (mapRelationships cr imp upd rels w1) as [[created|] w2]
    end; [|discriminate].
    rewrite bind_whenNonEmpty, existsb_accepted by exact Haccepts.
    unfold mret, M_ret. intros [= <- _]. simpl in Hsame.
    now rewrite <- Hsame. }
  subst a. exists w'. auto.
Qed.

(** X4. The addition pass always completes, and every relationship it
    creates connects a field of a table of the merged list to a field of a
    table of the merged list; so does every relationship a completed run
    of the pipeline hands to [addRelationships]. *)
Theorem created_relationships_refer_into_merged_tables {host : Host}
    {S : Type} :
  (forall (currentRelationships : list DBRelationship.t)
          (importedTables updated : list DBTable.t)
          (rels : list DBRelationship.t) (w : World S),
     exists out w',
       mapRelationships currentRelationships importedTables updated rels w
       = (Normal out, w')
       /\ Forall (refersInto updated) out)
  /\ (forall rule (currentDiagram importedDiagram : Diagram.t)
             (w w' : World S) (a : Applied),
        reconcileAndApply rule currentDiagram importedDiagram w
        = (Normal a, w') ->
        updatedTables a
        = updatedDiagramTables
            (Diagram.tables currentDiagram)
            (reconcileTables (Diagram.tables currentDiagram)
                             (Diagram.tables importedDiagram))
        /\ Forall (refersInto (updatedTables a)) (relationshipsToAdd a)).
Proof.
  split.
  - intros cr imported updated rels w.
    destruct (mapRelationships_draws cr imported updated rels w)
      as (out & w' & Hrun & _ & _ & _ & _ & _ & _ & _ & _ & Hall).
    now exists out, w'.
  - intros rule cur imp w w' a Hrun.
    destruct (reconcileAndApply_run rule cur imp w)
      as (res & w0 & a0 & tr & rest & Hrun0 & _ & _ & _ & _ & Hch & _ & Hupd
          & (w1 & w2 & Hmap) & Hres).
    rewrite Hrun in Hrun0. injection Hrun0 as <- <-.
    destruct Hres as (<- & _ & _).
    split; [now rewrite Hupd, Hch|].
    destruct (mapRelationships_draws
                (Diagram.relationships cur) (Diagram.tables imp)
                (updatedTables a) (Diagram.relationships imp) w1)
      as (out & w3 & Hrun3 & _ & _ & _ & _ & _ & _ & _ & _ & Hall).
    rewrite Hmap in Hrun3. now injection Hrun3 as -> _.
Qed.

(** X5. The relationships created carry the identifiers [generateId]
    returned for them, one call each, in the order of the imported
    relationships, and the times the clock returned, one reading each:
    they are pairwise distinct when [generateId] never repeats itself. No
    more relationships are created than were imported. *)
Theorem created_relationships_have_fresh_ids {host : Host} {S : Type}
    (currentRelationships : list DBRelationship.t)
    (importedTables updated : list DBTable.t)
    (rels : list DBRelationship.t) (w : World S) :
  exists out w',
    mapRelationships currentRelationships importedTables updated rels w
    = (Normal out, w')
    /\ map DBRelationship.id out
       = map generateId (seq (idsDrawn w) (length out))
    /\ map DBRelationship.createdAt out
       = map Date_now (seq (clockReads w) (length out))
    /\ idsDrawn w' = (idsDrawn w + length out)%nat
    /\ clockReads w' = (clockReads w + length out)%nat
    /\ (length out <= length rels)%nat
    /\ ((forall i j, generateId i = generateId j -> i = j) ->
        List.NoDup (map DBRelationship.id out)).
Proof.
  destruct (mapRelationships_draws currentRelationships importedTables
              updated rels w)
    as (out & w' & Hrun & _ & _ & _ & Hi & Hk & Hids & Hat & Hlen & _).
  exists out, w'. split_ands; auto.
  - rewrite Hlen. apply List.filter_length_le.
  - intros Hinj. rewrite Hids.
    apply NoDup_map_injective; [exact Hinj|apply List.seq_NoDup].
Qed.

(** The pass over a list is the pass over its first part followed by the
    pass over the rest. *)
Lemma mapRelationships_app {host : Host} {S : Type}
    (currentRelationships : list DBRelationship.t)
    (importedTables updated : list DBTable.t)
    (l1 l2 : list DBRelationship.t) (w w1 w2 : World S)
    (o1 o2 : list DBRelationship.t) :
  mapRelationships currentRelationships importedTables updated l1 w
  = (Normal o1, w1) ->
  mapRelationships currentRelationships importedTables updated l2 w1
  = (Normal o2, w2) ->
  mapRelationships currentRelationships importedTables updated (l1 ++ l2) w
  = (Normal (o1 ++ o2), w2).
Proof.
  revert w o1. induction l1 as [|rel l1 IH]; intros w o1 H1 H2.
  - simpl in H1. injection H1 as <- <-. exact H2.
  - rewrite <- app_comm_cons. rewrite mapRelationships_cons in *.
    destruct (endpointsToAdd currentRelationships importedTables updated rel)
      as [e|].
    + cbv zeta in *.
      destruct (mapRelationships currentRelationships importedTables updated
                  l1 _) as [[others|] w'] eqn:Hrest; [|discriminate].
      injection H1 as <- <-.
      now rewrite (IH _ _ Hrest H2).
    + now apply IH.
Qed.

(** X6. The pass compares a reference with the relationships of the
    diagram, not with the references before it: a reference that the
    imported schema lists twice, anywhere among its references, and that is
    created at all, is created twice, each time with the identifier and the
    time drawn at its place in the list. The two identifiers differ when
    [generateId] never repeats itself. *)
Theorem repeated_reference_is_created_twice {host : Host} {S : Type}
    (currentRelationships : list DBRelationship.t)
    (importedTables updated : list DBTable.t)
    (before between after : list DBRelationship.t)
    (rel : DBRelationship.t) (e : Endpoints) (w : World S) :
  endpointsToAdd currentRelationships importedTables updated rel = Some e ->
  exists o1 o2 o3,
    let creates := mapRelationships currentRelationships importedTables
                                    updated in
    let later n t := mkWorld (session w) (storeCalls w) (toasts w) n t in
    let n1 := (idsDrawn w + length o1)%nat in
    let t1 := (clockReads w + length o1)%nat in
    let n2 := Datatypes.S (n1 + length o2) in
    let t2 := Datatypes.S (t1 + length o2) in
    let first := mappedRelationship rel e (generateId n1) (Date_now t1) in
    let second := mappedRelationship rel e (generateId n2) (Date_now t2) in
    fst (creates before w) = Normal o1
    /\ fst (creates between (later (Datatypes.S n1) (Datatypes.S t1)))
       = Normal o2
    /\ fst (creates after (later (Datatypes.S n2) (Datatypes.S t2)))
       = Normal o3
    /\ fst (creates (before ++ rel :: between ++ rel :: after) w)
       = Normal (o1 ++ first :: o2 ++ second :: o3)
    /\ DBRelationship.id first = generateId n1
    /\ DBRelationship.id second = generateId n2
    /\ ((forall i j, generateId i = generateId j -> i = j) ->
        DBRelationship.id first <> DBRelationship.id second).
Proof.
  intros Hadd.
  destruct (mapRelationships_draws currentRelationships importedTables
              updated before w)
    as (o1 & w1 & Hrun1 & Hs1 & Hc1 & Ht1 & Hi1 & Hk1 & _).
  pose (later := fun n t =>
                   mkWorld (session w) (storeCalls w) (toasts w) n t).
  pose (wa := later (Datatypes.S (idsDrawn w + length o1))
                    (Datatypes.S (clockReads w + length o1))).
  destruct (mapRelationships_draws currentRelationships importedTables
              updated between wa)
    as (o2 & w2 & Hrun2 & Hs2 & Hc2 & Ht2 & Hi2 & Hk2 & _).
  pose (wb := later
                (Datatypes.S (Datatypes.S (idsDrawn w + length o1 + length o2)))
                (Datatypes.S
                   (Datatypes.S (clockReads w + length o1 + length o2)))).
  destruct (mapRelationships_draws currentRelationships importedTables
              updated after wb)
    as (o3 & w3 & Hrun3 & _).
  exists o1, o2, o3. cbv zeta. fold later. fold wa. fold wb.
  rewrite Hrun1, Hrun2, Hrun3. cbn [fst].
  assert (Hw1 : mkWorld (session w1) (storeCalls w1) (toasts w1)
                        (Datatypes.S (idsDrawn w1))
                        (Datatypes.S (clockReads w1)) = wa).
  { unfold wa, later. now rewrite Hs1, Hc1, Ht1, Hi1, Hk1. }
  assert (Hw2 : mkWorld (session w2) (storeCalls w2) (toasts w2)
                        (Datatypes.S (idsDrawn w2))
                        (Datatypes.S (clockReads w2)) = wb).
  { unfold wb, later. rewrite Hs2, Hc2, Ht2, Hi2, Hk2. simpl.
    f_equal; lia. }
  assert (Hsecond :
            mapRelationships currentRelationships importedTables updated
              (rel :: after) w2
            = (Normal (mappedRelationship rel e (generateId (idsDrawn w2))
                                          (Date_now (clockReads w2)) :: o3),
               w3)).
  { rewrite mapRelationships_cons, Hadd. cbv zeta. now rewrite Hw2, Hrun3. }
  assert (Htail :
            mapRelationships currentRelationships importedTables updated
              (rel :: between ++ rel :: after) w1
            = (Normal (mappedRelationship rel e (generateId (idsDrawn w1))
                                          (Date_now (clockReads w1))
                       :: o2
                          ++ mappedRelationship rel e
                               (generateId (idsDrawn w2))
                               (Date_now (clockReads w2)) :: o3),
               w3)).
  { rewrite mapRelationships_cons, Hadd. cbv zeta. rewrite Hw1.
    now rewrite (mapRelationships_app _ _ _ _ _ _ _ _ _ _ Hrun2 Hsecond). }
  rewrite (mapRelationships_app _ _ _ _ _ _ _ _ _ _ Hrun1 Htail). cbn [fst].
  rewrite Hi1, Hk1, Hi2, Hk2. simpl.
  split_ands; try reflexivity.
  intros Hinj Heq. apply Hinj in Heq. lia.
Qed.

Lemma repeated_reference_is_created_twice_witness :
  map DBRelationship.id
    (match
       fst (@mapRelationships Sample.host unit
              (Diagram.relationships Sample.diagram)
              (Diagram.tables Sample.edited)
              (updatedDiagramTables
                 (Diagram.tables Sample.diagram)
                 (reconcileTables (Diagram.tables Sample.diagram)
                                  (Diagram.tables Sample.edited)))
              [Sample.refToCrm; Sample.importedRef; Sample.refToCrm;
               Sample.importedRef]
              (Sample.world tt))
     with
     | Normal out => out
     | Throw => []
     end)
  = ["new-0"; "new-1"].
Proof.
  destruct (repeated_reference_is_created_twice (host := Sample.host)
              (Diagram.relationships Sample.diagram)
              (Diagram.tables Sample.edited)
              (updatedDiagramTables
                 (Diagram.tables Sample.diagram)
                 (reconcileTables (Diagram.tables Sample.diagram)
                                  (Diagram.tables Sample.edited)))
              [Sample.refToCrm] [Sample.refToCrm] []
              Sample.importedRef
              (mkEndpoints
                 Sample.importedPurchases Sample.importedUsers
                 (Sample.field "i-7" "user_id") (Sample.field "i-2" "id")
                 "i-5" "t-users"
                 Sample.importedPurchases
                 (DBTable.make "t-users" "Users" (Some "") 10 20 "#fff"
                    [Sample.field "f-users-id" "id";
                     Sample.field "f-users-name" "name";
                     Sample.field "i-4" "email"] [] [])
                 (Sample.field "i-7" "user_id")
                 (Sample.field "f-users-id" "id"))
              (Sample.world tt))
    as (o1 & o2 & o3 & H1 & H2 & H3 & Hrun & _).
  - vm_compute. reflexivity.
  - cbv zeta in *.
    assert (Ho1 : o1 = []) by (vm_compute in H1; congruence).
    subst o1.
    assert (Ho2 : o2 = []) by (vm_compute in H2; congruence).
    subst o2.
    assert (Ho3 : o3 = []) by (vm_compute in H3; congruence).
    subst o3.
    change ([Sample.refToCrm; Sample.importedRef; Sample.refToCrm;
             Sample.importedRef])
      with ([Sample.refToCrm]
              ++ Sample.importedRef
                 :: [Sample.refToCrm] ++ Sample.importedRef :: []).
    rewrite Hrun. reflexivity.
Defined.

(* --------------------------------------------------------------------- *)
(** ** The outcomes of a run of [TableDBML.applyDBMLChanges] *)
(* --------------------------------------------------------------------- *)

(** X7. A run of [TableDBML.applyDBMLChanges] never ends in an exception
    and shows exactly one toast, which tells the outcome: the parse error
    that blocks the run, with nothing else changed; the failure, with the
    text of the editor as the user left it; or the numbers of tables
    added, updated and removed by the reconciliation of the imported text,
    with the dirty flag cleared. The parse error of the state is never
    changed by a run. *)
Theorem TableDBML_apply_shows_its_outcome {host : Host}
    (currentDiagram : Diagram.t) (w : World TableDBML.State) :
  exists t w',
    TableDBML.applyDBMLChanges currentDiagram w = (Normal tt, w')
    /\ toasts w' = toasts w ++ [t]
    /\ TableDBML.dbmlError (session w') = TableDBML.dbmlError (session w)
    /\ match t with
       | toastDBMLError err =>
           TableDBML.dbmlError (session w) = Some err
           /\ session w' = session w
           /\ storeCalls w' = storeCalls w
       | toastApplyFailed =>
           TableDBML.dbmlError (session w) = None
           /\ TableDBML.dbmlContent (session w')
              = TableDBML.dbmlContent (session w)
       | toastDBMLApplied added updated removed =>
           exists importedDiagram,
             importDBMLToDiagram (TableDBML.dbmlContent (session w))
             = Some importedDiagram
             /\ (let ch := reconcileTables (Diagram.tables currentDiagram)
                                           (Diagram.tables importedDiagram) in
                 added = length (tablesToAdd ch)
                 /\ updated = length (tablesToUpdate ch)
                 /\ removed = length (tablesToRemove ch))
             /\ TableDBML.isDirty (session w') = false
       | toastChangesApplied | toastGenerateFailed => False
       end.
Proof.
  unfold TableDBML.applyDBMLChanges.
  unfold mbind at 1, M_bind at 1, getSession.
  destruct (TableDBML.dbmlError (session w)) as [err|] eqn:Herr.
  { eexists _, _. split; [reflexivity|]. simpl. auto. }
  unfold tryCatch, mbind, M_bind, orThrow.
  destruct (importDBMLToDiagram (TableDBML.dbmlContent (session w)))
    as [importedDiagram|] eqn:Himport.
  2:{ eexists _, _. split; [reflexivity|]. simpl. auto. }
  destruct (reconcileAndApply_run TableDBML.removalRule currentDiagram
              importedDiagram w)
    as (res & w1 & a & tr & rest & Hrun & Hs & Ht & _ & _ & Hch & _ & _ & _
        & Hres).
  rewrite Hrun. destruct res as [a'|].
  2:{ eexists _, _. split; [reflexivity|]. simpl.
      rewrite Hs, Ht, Herr. auto. }
  destruct Hres as (-> & _ & _).
  unfold TableDBML.setIsDirty, TableDBML.setDbmlContent, regenerateDBML,
    modifySession, orThrow, toast. simpl.
  destruct (importer_import _ _) as [text|].
  - eexists _, _. split; [reflexivity|]. simpl.
    rewrite Hs, Ht, Herr. split_ands; auto.
    exists importedDiagram. rewrite Hch. auto.
  - eexists _, _. split; [reflexivity|]. simpl.
    rewrite Hs, Ht, Herr. auto.
Qed.

(** X8. When the store accepts every call and the diagram the run has
    merged cannot be turned back into text, a run of
    [TableDBML.applyDBMLChanges] has made every store call of its plan
    and cleared the dirty flag, and then reports a failure: when the run
    ends, the text of the editor is still the one the user typed. *)
Theorem TableDBML_failed_regeneration_follows_the_mutations {host : Host}
    (currentDiagram importedDiagram : Diagram.t)
    (w : World TableDBML.State) :
  TableDBML.dbmlError (session w) = None ->
  importDBMLToDiagram (TableDBML.dbmlContent (session w))
  = Some importedDiagram ->
  (forall c, storeRejects c = false) ->
  regeneratedText currentDiagram
    (planOfTableDBML currentDiagram importedDiagram w) = None ->
  exists w',
    TableDBML.applyDBMLChanges currentDiagram w = (Normal tt, w')
    /\ storeCalls w'
       = storeCalls w
         ++ pipelineCalls (planOfTableDBML currentDiagram importedDiagram w)
    /\ toasts w' = toasts w ++ [toastApplyFailed]
    /\ TableDBML.isDirty (session w') = false
    /\ TableDBML.dbmlContent (session w')
       = TableDBML.dbmlContent (session w)
    /\ TableDBML.dbmlError (session w') = None.
Proof.
  intros Herr Himport Haccepts Hmute.
  unfold TableDBML.applyDBMLChanges.
  unfold mbind at 1, M_bind at 1, getSession. rewrite Herr.
  unfold tryCatch, mbind, M_bind, orThrow. rewrite Himport.
  destruct (reconcileAndApply_accepted TableDBML.removalRule currentDiagram
              importedDiagram w Haccepts) as (w1 & Hrun & Hs & Ht & Hc).
  rewrite Hrun.
  unfold TableDBML.setIsDirty, TableDBML.setDbmlContent, regenerateDBML,
    modifySession, orThrow, toast. simpl.
  unfold regeneratedText, planOfTableDBML in Hmute. rewrite Hmute.
  eexists. split; [reflexivity|]. simpl.
  rewrite Hs, Ht, Hc. auto.
Qed.

Lemma TableDBML_failed_regeneration_follows_the_mutations_witness :
  exists w',
    @TableDBML.applyDBMLChanges Scenario.pickyHost Sample.diagram
      (Sample.world Sample.tableDBMLState)
    = (Normal tt, w')
    /\ storeCalls w'
       = [] ++ pipelineCalls
                 (@planOfTableDBML Scenario.pickyHost Sample.diagram
                    Sample.edited (Sample.world Sample.tableDBMLState))
    /\ toasts w' = [] ++ [toastApplyFailed]
    /\ TableDBML.isDirty (session w') = false
    /\ TableDBML.dbmlContent (session w') = "Table Users { ... } // edited"
    /\ TableDBML.dbmlError (session w') = None.
Proof.
  apply (@TableDBML_failed_regeneration_follows_the_mutations
           Scenario.pickyHost Sample.diagram Sample.edited
           (Sample.world Sample.tableDBMLState)).
  - reflexivity.
  - reflexivity.
  - reflexivity.
  - vm_compute. reflexivity.
Defined.

(** The importer of that host reads back the text of the diagram as it
    was, and the store calls of the run are those of the whole plan. *)
Example failed_regeneration_sample :
  @regeneratedText Scenario.pickyHost Sample.diagram
    (mkApplied (mkTableChanges [] [] []) []
               (Diagram.tables Sample.diagram) [])
  = Some "Tables Users,Orders"
  /\ map stepNumber
       (storeCalls
          (snd (@TableDBML.applyDBMLChanges Scenario.pickyHost Sample.diagram
                  (Sample.world Sample.tableDBMLState))))
     = [1; 2; 3; 4; 5]%nat.
Proof. split; vm_compute; reflexivity. Qed.

(* --------------------------------------------------------------------- *)
(** ** The cursor after a programmatic update *)
(* --------------------------------------------------------------------- *)

Lemma leadingMatches_prefix (a b : string) :
  exists p,
    String.length p = leadingMatches a b
    /\ String.prefix p a = true /\ String.prefix p b = true.
Proof.
  revert b. induction a as [|x a IH]; intros b.
  - exists "". now destruct b.
  - destruct b as [|y b]; [now exists ""|]. simpl.
    destruct (Ascii.eqb_spec x y) as [->|Hne]; [|now exists ""].
    destruct (IH b) as (p & Hlen & Ha & Hb).
    exists (String y p). simpl. rewrite Hlen.
    destruct (ascii_dec y y) as [_|Hyy]; [auto|now destruct Hyy].
Qed.

Lemma leadingMatches_longest (a b q : string) :
  String.prefix q a = true -> String.prefix q b = true ->
  (String.length q <= leadingMatches a b)%nat.
Proof.
  revert a b. induction q as [|z q IH]; intros a b; simpl; [lia|].
  destruct a as [|x a]; simpl; [discriminate|].
  destruct b as [|y b]; simpl; [discriminate|].
  destruct (ascii_dec z x) as [->|_]; [|discriminate].
  destruct (ascii_dec x y) as [->|_]; [|discriminate].
  intros Ha Hb. rewrite Ascii.eqb_refl.
  specialize (IH a b Ha Hb). lia.
Qed.

Lemma leadingMatches_sym (a b : string) :
  leadingMatches a b = leadingMatches b a.
Proof.
  revert b. induction a as [|x a IH]; intros [|y b]; simpl; auto.
  rewrite Ascii.eqb_sym. destruct (Ascii.eqb y x); [now rewrite IH|reflexivity].
Qed.

Lemma leadingMatches_refl (a : string) : leadingMatches a a = String.length a.
Proof.
  induction a as [|x a IH]; simpl; [reflexivity|].
  now rewrite Ascii.eqb_refl, IH.
Qed.

(** X16. [commonSubstringLength] is the length of the longest common
    prefix of the two strings in lower case, and of nothing else the
    strings may have in common: some prefix of both has this length, no
    common prefix is longer. It does not depend on the order of its
    arguments, and a string scores its whole length against itself. *)
Theorem commonSubstringLength_is_the_longest_common_prefix {lib : Lib}
    (a b : string) :
  (exists p,
     String.length p = commonSubstringLength a b
     /\ String.prefix p (String_toLowerCase a) = true
     /\ String.prefix p (String_toLowerCase b) = true)
  /\ (forall q,
        String.prefix q (String_toLowerCase a) = true ->
        String.prefix q (String_toLowerCase b) = true ->
        (String.length q <= commonSubstringLength a b)%nat)
  /\ commonSubstringLength a b = commonSubstringLength b a
  /\ commonSubstringLength a a = String.length (String_toLowerCase a).
Proof.
  unfold commonSubstringLength. split_ands.
  - apply leadingMatches_prefix.
  - apply leadingMatches_longest.
  - apply leadingMatches_sym.
  - apply leadingMatches_refl.
Qed.

Section CursorFacts.
Context {host : Host} {lib : Lib}.

Lemma getLineContent_in_range (m : TextModel.t) (i : Z) :
  1 <= i <= TextModel.getLineCount m ->
  exists content, TextModel.getLineContent m i = Normal content.
Proof.
  intros [Hlo Hhi]. unfold TextModel.getLineContent.
  apply Z.leb_le in Hlo as Hlo'. apply Z.leb_le in Hhi as Hhi'.
  rewrite Hlo', Hhi'. simpl.
  destruct (TextModel.lines m !! Z.to_nat (i - 1)) as [content|] eqn:Hline;
    [eauto|].
  apply lookup_ge_None in Hline. unfold TextModel.getLineCount in Hhi. lia.
Qed.

Lemma getLineMaxColumn_in_range (m : TextModel.t) (i : Z) :
  1 <= i <= TextModel.getLineCount m ->
  exists maxColumn,
    TextModel.getLineMaxColumn m i = Normal maxColumn /\ 1 <= maxColumn.
Proof.
  intros Hin. unfold TextModel.getLineMaxColumn.
  destruct (getLineContent_in_range m i Hin) as (content & ->).
  eexists. split; [reflexivity|]. lia.
Qed.

(** The loop over the candidate lines: the best match in the end is the
    largest similarity met, and the best line is the first candidate that
    has it, unless no candidate beat the match the loop started with. *)
Lemma searchLines_run (content : string) (m : TextModel.t)
    (candidates : list Z) (bestMatch : nat) (bestLine : Z) :
  (forall i, In i candidates -> 1 <= i <= TextModel.getLineCount m) ->
  exists bestMatch' bestLine',
    searchLines content m candidates (bestMatch, bestLine)
    = Normal (bestMatch', bestLine')
    /\ (bestMatch <= bestMatch')%nat
    /\ (forall i, In i candidates ->
          (similarityAt content m i <= bestMatch')%nat)
    /\ ((bestMatch' = bestMatch /\ bestLine' = bestLine)
        \/ ((bestMatch < bestMatch')%nat
            /\ similarityAt content m bestLine' = bestMatch'
            /\ exists before after,
                 candidates = before ++ bestLine' :: after
                 /\ forall i, In i before ->
                      (similarityAt content m i < bestMatch')%nat)).
Proof.
  revert bestMatch bestLine.
  induction candidates as [|i candidates IH]; intros bestMatch bestLine Hin.
  - exists bestMatch, bestLine. simpl. split_ands; auto. intros i [].
  - simpl. unfold considerLine.
    destruct (getLineContent_in_range m i (Hin i (or_introl eq_refl)))
      as (lineContent & Hline).
    assert (Hsim : similarityAt content m i
                   = commonSubstringLength content lineContent)
      by (unfold similarityAt; now rewrite Hline).
    rewrite Hline. simpl. rewrite <- Hsim.
    assert (Hrest : forall j, In j candidates ->
                      1 <= j <= TextModel.getLineCount m)
      by (intros j Hj; apply Hin; now right).
    destruct (Nat.ltb_spec bestMatch (similarityAt content m i)) as [Hlt|Hge].
    + destruct (IH (similarityAt content m i) i Hrest)
        as (bm & bl & -> & Hle & Hall & Hcase).
      exists bm, bl. split_ands; auto; [lia| |].
      * intros j [<-|Hj]; [lia|now apply Hall].
      * right. destruct Hcase
          as [[-> ->]|(Hlt' & Hbl & before & after & -> & Hbefore)].
        -- split_ands; auto. exists [], candidates. split; [reflexivity|].
           intros j [].
        -- split_ands; auto; [lia|].
           exists (i :: before), after. split; [reflexivity|].
           intros j [<-|Hj]; [lia|now apply Hbefore].
    + destruct (IH bestMatch bestLine Hrest)
        as (bm & bl & -> & Hle & Hall & Hcase).
      exists bm, bl. split_ands; auto.
      * intros j [<-|Hj]; [lia|now apply Hall].
      * destruct Hcase
          as [[-> ->]|(Hlt' & Hbl & before & after & -> & Hbefore)];
          [now left|right].
        split_ands; auto.
        exists (i :: before), after. split; [reflexivity|].
        intros j [<-|Hj]; [lia|now apply Hbefore].
Qed.

Lemma seqZ_split_before (from len x : Z) (before after : list Z) :
  seqZ from len = before ++ x :: after ->
  forall i, from <= i < x -> In i before.
Proof.
  intros Hsplit i [Hlo Hhi].
  assert (Hx : seqZ from len !! length before = Some x).
  { rewrite Hsplit. rewrite lookup_app_r by lia.
    now rewrite Nat.sub_diag. }
  apply lookup_seqZ in Hx as [-> Hlen].
  assert (Hi : seqZ from len !! Z.to_nat (i - from) = Some i).
  { apply lookup_seqZ. split; lia. }
  rewrite Hsplit, lookup_app_l in Hi by lia.
  apply list_elem_of_lookup_2 in Hi. now apply list_elem_of_In.
Qed.

Lemma In_seqZ (from len i : Z) :
  In i (seqZ from len) <-> from <= i < from + len.
Proof. rewrite <- list_elem_of_In. apply elem_of_seqZ. Qed.

(** [bestLineFor] on a text that has lines, for a cursor on a line. *)
Lemma bestLineFor_run (currentPosition : Position.t)
    (cursorLineContent : option string) (m : TextModel.t) :
  1 <= Position.lineNumber currentPosition ->
  1 <= TextModel.getLineCount m ->
  exists bestLine,
    bestLineFor currentPosition cursorLineContent m = Normal bestLine
    /\ nearCursor currentPosition m bestLine
    /\ forall content,
         cursorLineContent = Some content ->
         truthy content = true ->
         (0 < String.length (String_trim content))%nat ->
         (forall i, nearCursor currentPosition m i ->
            (similarityAt content m i
             <= similarityAt content m bestLine)%nat)
         /\ (forall i, nearCursor currentPosition m i -> i < bestLine ->
               (0 < similarityAt content m bestLine)%nat ->
               (similarityAt content m i
                < similarityAt content m bestLine)%nat)
         /\ (similarityAt content m bestLine = 0%nat ->
             bestLine = lineAtCursor currentPosition m).
Proof.
  intros Hline Hcount. unfold bestLineFor.
  fold (lineAtCursor currentPosition m).
  set (base := lineAtCursor currentPosition m).
  assert (Hbase : 1 <= base <= TextModel.getLineCount m)
    by (unfold base, lineAtCursor; lia).
  assert (Hnear : nearCursor currentPosition m base)
    by (unfold nearCursor; fold base; lia).
  destruct cursorLineContent as [content|].
  2:{ exists base. split_ands; auto. discriminate. }
  destruct (truthy content && (0 <? String.length (String_trim content))%nat)
    eqn:Hblank.
  2:{ exists base. split_ands; auto. intros c [= <-] Ht Hl.
      rewrite Ht in Hblank. apply Nat.ltb_lt in Hl.
      rewrite Hl in Hblank. discriminate. }
  set (startLine := Z.max 1 (base - 5)).
  set (endLine := Z.min (TextModel.getLineCount m) (base + 5)).
  assert (Hwindow : forall i,
            In i (seqZ startLine (endLine - startLine + 1))
            <-> nearCursor currentPosition m i).
  { intros i. rewrite In_seqZ. unfold nearCursor. fold base.
    unfold startLine, endLine. lia. }
  destruct (searchLines_run content m
              (seqZ startLine (endLine - startLine + 1)) 0 base)
    as (bm & bl & -> & _ & Hall & Hcase).
  { intros i Hi. apply Hwindow in Hi. apply Hi. }
  exists bl. simpl. split; [reflexivity|].
  destruct Hcase as [[-> ->]|(Hpos & Hsim & before & after & Hsplit & Hfirst)].
  - assert (Hzero : similarityAt content m base = 0%nat).
    { specialize (Hall base (proj2 (Hwindow base) Hnear)). lia. }
    split; [exact Hnear|]. intros c [= <-] _ _. split_ands.
    + intros i Hi. apply Hwindow, Hall in Hi. lia.
    + intros i _ _ Hlt. lia.
    + reflexivity.
  - assert (Hbl : nearCursor currentPosition m bl).
    { apply Hwindow. rewrite Hsplit. apply in_or_app. right. now left. }
    split; [exact Hbl|]. intros c [= <-] _ _. split_ands.
    + intros i Hi. apply Hwindow, Hall in Hi. lia.
    + intros i Hi Hlt _. rewrite Hsim. apply Hfirst.
      apply (seqZ_split_before _ _ _ _ _ Hsplit).
      apply Hwindow, In_seqZ in Hi. lia.
    + lia.
Qed.


(** X18. When the line the cursor was on is not blank, the line the
    cursor is put on is, among the lines of the new text at most five
    lines from where it was, one that is most similar to it: the first
    of them, when any line is similar at all, and the line at the height
    of the cursor when none is. *)
Theorem cursor_follows_the_most_similar_line (currentPosition : Position.t)
    (content : string) (m : TextModel.t) :
  1 <= Position.lineNumber currentPosition ->
  TextModel.lines m <> [] ->
  truthy content = true ->
  (0 < String.length (String_trim content))%nat ->
  exists bestLine,
    bestLineFor currentPosition (Some content) m = Normal bestLine
    /\ nearCursor currentPosition m bestLine
    /\ (forall i, nearCursor currentPosition m i ->
          (similarityAt content m i <= similarityAt content m bestLine)%nat)
    /\ (forall i, nearCursor currentPosition m i -> i < bestLine ->
          (0 < similarityAt content m bestLine)%nat ->
          (similarityAt content m i < similarityAt content m bestLine)%nat)
    /\ (similarityAt content m bestLine = 0%nat ->
        bestLine = lineAtCursor currentPosition m).
Proof.
  intros Hline Hlines Htruthy Htrim.
  assert (Hcount : 1 <= TextModel.getLineCount m).
  { unfold TextModel.getLineCount. destruct (TextModel.lines m);
      [now destruct Hlines|simpl; lia]. }
  destruct (bestLineFor_run currentPosition (Some content) m Hline Hcount)
    as (bestLine & Hrun & Hnear & Hbest).
  destruct (Hbest content eq_refl Htruthy Htrim) as (Hmax & Hfirst & Hnone).
  exists bestLine. split_ands; auto.
Qed.
End CursorFacts.


Lemma cursor_follows_the_most_similar_line_witness :
  exists bestLine,
    @bestLineFor Sample.host Scenario.lib Scenario.cursor
      (Some "  user_id int") Scenario.regenerated
    = Normal bestLine
    /\ nearCursor Scenario.cursor Scenario.regenerated bestLine
    /\ (forall i, nearCursor Scenario.cursor Scenario.regenerated i ->
          (@similarityAt Scenario.lib "  user_id int" Scenario.regenerated i
           <= @similarityAt Scenario.lib "  user_id int" Scenario.regenerated
                bestLine)%nat)
    /\ (forall i, nearCursor Scenario.cursor Scenario.regenerated i ->
          i < bestLine ->
          (0 < @similarityAt Scenario.lib "  user_id int"
                 Scenario.regenerated bestLine)%nat ->
          (@similarityAt Scenario.lib "  user_id int" Scenario.regenerated i
           < @similarityAt Scenario.lib "  user_id int" Scenario.regenerated
               bestLine)%nat)
    /\ (@similarityAt Scenario.lib "  user_id int" Scenario.regenerated
          bestLine = 0%nat ->
        bestLine = lineAtCursor Scenario.cursor Scenario.regenerated).
Proof.
  apply (@cursor_follows_the_most_similar_line Sample.host Scenario.lib
           Scenario.cursor "  user_id int" Scenario.regenerated).
  - simpl. lia.
  - discriminate.
  - reflexivity.
  - simpl. lia.
Defined.

(** The cursor that was on the line of [user_id], line 4 of the old text,
    follows the line to where it is in the new text; a line of the same
    indentation nearer to the top wins over it when the text of the line
    itself is gone. *)
Example cursor_follows_its_line :
  @restoredPosition Sample.host Scenario.lib Scenario.cursor
    (Some "  user_id int") Scenario.regenerated
  = Normal (Some (Position.make 8 11))
  /\ @restoredPosition Sample.host Scenario.lib Scenario.cursor
       (Some "  email text") Scenario.regenerated
     = Normal (Some (Position.make 2 9)).
Proof. split; vm_compute; reflexivity. Qed.

Section SelectionFacts.
Context {host : Host} {lib : Lib}.

End SelectionFacts.


(** The selection from line 3 to the end of the old text ends on the
    last column of the last line of the new one. *)
Example selection_is_cut_to_the_text :
  restoredSelection (Some Scenario.selection) Scenario.regenerated
  = Some (Selection.make 3 1 9 2).
Proof. reflexivity. Qed.

(* --------------------------------------------------------------------- *)
(** ** [EditorTableDBML]: programmatic updates of the editor *)
(* --------------------------------------------------------------------- *)

Section EditorRuns.
Context {host : Host}.

Lemma editedWithin_run (window : Z) (w : World EditorTableDBML.State) :
  exists b w0,
    EditorTableDBML.editedWithin window w = (Normal b, w0)
    /\ session w0 = session w
    /\ storeCalls w0 = storeCalls w
    /\ toasts w0 = toasts w
    /\ idsDrawn w0 = idsDrawn w
    /\ clockReads w0
       = (clockReads w
          + if EditorTableDBML.userHasEditedRef (session w) then 1 else 0)%nat
    /\ (EditorTableDBML.userHasEditedRef (session w) = false -> b = false).
Proof.
  unfold EditorTableDBML.editedWithin, mbind, M_bind, getSession.
  destruct (EditorTableDBML.userHasEditedRef (session w)); simpl.
  - eexists _, _. split_ands; try reflexivity; try discriminate.
    simpl. lia.
  - exists false, w. split_ands; auto.
Qed.

Lemma sameButEditor_refl (s : EditorTableDBML.State) : sameButEditor s s.
Proof. unfold sameButEditor. split_ands; reflexivity. Qed.

Lemma sameButEditor_trans (s1 s2 s3 : EditorTableDBML.State) :
  sameButEditor s1 s2 -> sameButEditor s2 s3 -> sameButEditor s1 s3.
Proof.
  unfold sameButEditor.
  intros (A1 & A2 & A3 & A4 & A5 & A6 & A7) (B1 & B2 & B3 & B4 & B5 & B6 & B7).
  split_ands; congruence.
Qed.

Lemma restoreScroll_model (scrollTop scrollLeft : Z) (position : Position.t)
    (editor : Editor.t) :
  Editor.model (EditorTableDBML.restoreScroll scrollTop scrollLeft position
                                              editor)
  = Editor.model editor.
Proof.
  unfold EditorTableDBML.restoreScroll.
  destruct (match Monaco_visibleTop _ _ with Some _ => _ | None => _ end);
    [|reflexivity].
  now destruct (Monaco_revealed _ _).
Qed.

#[local] Opaque EditorTableDBML.restoreScroll.

(** The calls that move the cursor change the widget and the stamp of
    the last update, nothing else. *)
Lemma widgetCall_run (before after : Editor.t)
    (w : World EditorTableDBML.State) :
  exists w',
    EditorTableDBML.widgetCall before after w = (Normal tt, w')
    /\ storeCalls w' = storeCalls w
    /\ toasts w' = toasts w
    /\ idsDrawn w' = idsDrawn w
    /\ sameButEditor (session w) (session w')
    /\ EditorTableDBML.dbmlContent (session w')
       = EditorTableDBML.dbmlContent (session w)
    /\ EditorTableDBML.skipContentChangeRef (session w')
       = EditorTableDBML.skipContentChangeRef (session w)
    /\ EditorTableDBML.editorRef (session w') = Some after.
Proof.
  unfold EditorTableDBML.widgetCall,
    EditorTableDBML.onDidChangeCursorPosition, mbind, M_bind, modifySession,
    now, mret, M_ret.
  destruct (Monaco_reportsCursor before after); simpl;
    eexists; (split; [reflexivity|]); simpl; split_ands; auto;
    unfold sameButEditor; split_ands; reflexivity.
Qed.

Lemma restoreView_run (saved edited : Editor.t)
    (cursorLineContent : option string) (newContent : string)
    (w : World EditorTableDBML.State) :
  EditorTableDBML.editorText (session w) = Editor.model edited ->
  exists res w',
    EditorTableDBML.restoreView saved edited cursorLineContent newContent w
    = (res, w')
    /\ storeCalls w' = storeCalls w
    /\ toasts w' = toasts w
    /\ idsDrawn w' = idsDrawn w
    /\ sameButEditor (session w) (session w')
    /\ EditorTableDBML.dbmlContent (session w')
       = EditorTableDBML.dbmlContent (session w)
    /\ EditorTableDBML.skipContentChangeRef (session w')
       = EditorTableDBML.skipContentChangeRef (session w)
    /\ EditorTableDBML.editorText (session w') = Editor.model edited
    /\ (res = Throw ->
        exists currentPosition,
          Editor.position saved = Some currentPosition
          /\ restoredPosition currentPosition cursorLineContent
                              (EditorTableDBML.textModel newContent)
             = Throw).
Proof.
  intros Htext. unfold EditorTableDBML.restoreView.
  destruct (Editor.position saved) as [currentPosition|].
  2:{ exists (Normal tt), w. split_ands; auto using sameButEditor_refl.
      discriminate. }
  unfold mbind at 1, M_bind at 1, complete.
  destruct (restoredPosition currentPosition cursorLineContent
              (EditorTableDBML.textModel newContent))
    as [[position|]|] eqn:Hrestored.
  3:{ exists Throw, w. split_ands; auto using sameButEditor_refl. eauto. }
  2:{ exists (Normal tt), w. split_ands; auto using sameButEditor_refl.
      discriminate. }
  unfold mbind at 1, M_bind at 1.
  destruct (widgetCall_run edited (Editor.setPosition position edited) w)
    as (w1 & -> & Hc1 & Ht1 & Hi1 & Hs1 & Hd1 & Hk1 & He1).
  unfold mbind at 1, M_bind at 1.
  destruct (restoredSelection (Editor.selection saved)
              (EditorTableDBML.textModel newContent)) as [adjusted|].
  - unfold mbind at 1, M_bind at 1.
    destruct (widgetCall_run (Editor.setPosition position edited)
                (Editor.setSelection adjusted
                   (Editor.setPosition position edited)) w1)
      as (w2 & -> & Hc2 & Ht2 & Hi2 & Hs2 & Hd2 & Hk2 & He2).
    eexists _, _. split; [reflexivity|]. simpl.
    split_ands; try congruence; try discriminate.
    all: try (unfold EditorTableDBML.editorText; simpl;
              now rewrite restoreScroll_model).
    eapply sameButEditor_trans; [exact Hs1|].
    eapply sameButEditor_trans; [exact Hs2|].
    unfold sameButEditor. split_ands; reflexivity.
  - eexists _, _. split; [reflexivity|]. simpl.
    split_ands; try congruence; try discriminate.
    all: try (unfold EditorTableDBML.editorText; simpl;
              now rewrite restoreScroll_model).
    eapply sameButEditor_trans; [exact Hs1|].
    unfold sameButEditor. split_ands; reflexivity.
Qed.

(** A programmatic update of the editor: what it leaves alone, and the
    three ways it ends. *)
Lemma updateEditorContent_run (newContent : string)
    (w : World EditorTableDBML.State) :
  exists res w',
    EditorTableDBML.updateEditorContent newContent w = (res, w')
    /\ storeCalls w' = storeCalls w
    /\ toasts w' = toasts w
    /\ idsDrawn w' = idsDrawn w
    /\ sameButEditor (session w) (session w')
    /\ ((res = Normal tt /\ session w' = session w)
        \/ (res = Throw
            /\ session w'
               = EditorTableDBML.setSkipContentChange' false (session w)
            /\ exists editor text,
                 EditorTableDBML.editorRef (session w) = Some editor
                 /\ Editor.model editor = Some text
                 /\ EditorTableDBML.cursorLineContentOf
                      text (Editor.position editor) = Throw)
        \/ (EditorTableDBML.editorText (session w') = Some newContent
            /\ EditorTableDBML.dbmlContent (session w') = newContent
            /\ EditorTableDBML.skipContentChangeRef (session w') = false
            /\ (res = Throw ->
                exists editor text currentPosition cursorLineContent,
                  EditorTableDBML.editorRef (session w) = Some editor
                  /\ Editor.model editor = Some text
                  /\ Editor.position editor = Some currentPosition
                  /\ restoredPosition currentPosition cursorLineContent
                       (EditorTableDBML.textModel newContent)
                     = Throw)))
    /\ (res = Normal tt ->
        EditorTableDBML.userHasEditedRef (session w) = false ->
        is_Some (EditorTableDBML.editorText (session w)) ->
        EditorTableDBML.editorText (session w') = Some newContent).
Proof.
  unfold EditorTableDBML.updateEditorContent.
  unfold mbind at 1, M_bind at 1, getSession.
  destruct (EditorTableDBML.editorRef (session w)) as [editor|] eqn:Heditor.
  2:{ exists (Normal tt), w. split_ands; auto using sameButEditor_refl.
      intros _ _ [c Hc]. unfold EditorTableDBML.editorText in Hc.
      rewrite Heditor in Hc. discriminate. }
  destruct (Editor.model editor) as [currentContent|] eqn:Hmodel.
  2:{ exists (Normal tt), w. split_ands; auto using sameButEditor_refl.
      intros _ _ [c Hc]. unfold EditorTableDBML.editorText in Hc.
      rewrite Heditor in Hc. simpl in Hc. congruence. }
  unfold mbind at 1, M_bind at 1.
  destruct (editedWithin_run 500 w)
    as (typing & w0 & -> & Hs & Hc & Ht & Hi & _ & Hquiet).
  destruct typing.
  { exists (Normal tt), w0. rewrite Hs.
    split_ands; auto using sameButEditor_refl.
    intros _ Hnever. now apply Hquiet in Hnever. }
  destruct (String.eqb_spec currentContent newContent) as [->|Hne].
  { exists (Normal tt), w0. rewrite Hs.
    split_ands; auto using sameButEditor_refl.
    intros _ _ _. unfold EditorTableDBML.editorText. rewrite Heditor.
    simpl. exact Hmodel. }
  unfold mbind at 1, M_bind at 1, modifySession at 1.
  unfold tryFinally.
  unfold mbind at 1, M_bind at 1, complete at 1.
  destruct (EditorTableDBML.cursorLineContentOf currentContent
              (Editor.position editor)) as [cursorLineContent|] eqn:Hline.
  2:{ eexists _, _. split; [reflexivity|]. simpl. rewrite Hs, Hc, Ht, Hi.
      split_ands; auto.
      - unfold sameButEditor. split_ands; reflexivity.
      - right. left. split_ands; auto. exists editor, currentContent. auto.
      - discriminate. }
  cbv zeta.
  unfold mbind at 1, M_bind at 1, modifySession at 1.
  unfold mbind at 1, M_bind at 1, EditorTableDBML.onDidChangeModelContent,
    getSession.
  unfold mbind at 1, M_bind at 1. cbn [session EditorTableDBML.setEditor'
    EditorTableDBML.setSkipContentChange' EditorTableDBML.skipContentChangeRef].
  unfold mret at 1, M_ret at 1.
  unfold mbind at 1, M_bind at 1.
  set (edited := EditorTableDBML.pushEditOperations newContent editor).
  match goal with
  | |- context [(if Monaco_reportsCursor editor edited then _ else _) ?w1] =>
      assert (Hcursor : exists w2,
                (if Monaco_reportsCursor editor edited
                 then EditorTableDBML.onDidChangeCursorPosition
                 else mret tt) w1 = (Normal tt, w2)
                /\ storeCalls w2 = storeCalls w1
                /\ toasts w2 = toasts w1
                /\ idsDrawn w2 = idsDrawn w1
                /\ sameButEditor (session w1) (session w2)
                /\ EditorTableDBML.dbmlContent (session w2)
                   = EditorTableDBML.dbmlContent (session w1)
                /\ EditorTableDBML.skipContentChangeRef (session w2)
                   = EditorTableDBML.skipContentChangeRef (session w1)
                /\ EditorTableDBML.editorRef (session w2)
                   = EditorTableDBML.editorRef (session w1));
      [|set (wEdited := w1) in *]
  end.
  { destruct (Monaco_reportsCursor editor edited);
      eexists; (split; [reflexivity|]); simpl; split_ands; auto;
      unfold sameButEditor; split_ands; reflexivity. }
  destruct Hcursor as (w2 & -> & Hc2 & Ht2 & Hi2 & Hs2 & Hd2 & Hk2 & He2).
  unfold mbind at 1, M_bind at 1, modifySession at 1.
  match goal with
  | |- context [EditorTableDBML.restoreView _ _ _ _ ?w3] =>
      destruct (restoreView_run editor edited cursorLineContent newContent w3)
        as (res & w4 & -> & Hc4 & Ht4 & Hi4 & Hs4 & Hd4 & Hk4 & He4 & Hthrow)
  end.
  { unfold EditorTableDBML.editorText. simpl. now rewrite He2. }
  unfold modifySession. simpl.
  eexists _, _. split; [reflexivity|]. simpl.
  simpl in Hc4, Ht4, Hi4, Hc2, Ht2, Hi2.
  split_ands; try congruence.
  - destruct Hs2 as (A1 & A2 & A3 & A4 & A5 & A6 & A7).
    destruct Hs4 as (B1 & B2 & B3 & B4 & B5 & B6 & B7).
    simpl in *. rewrite <- Hs.
    unfold sameButEditor; simpl; split_ands; congruence.
  - right. right. split_ands.
    + unfold EditorTableDBML.editorText in *. simpl. exact He4.
    + simpl in Hd4. exact Hd4.
    + reflexivity.
    + intros ->. destruct (Hthrow eq_refl) as (p & Hp & Hr).
      exists editor, currentContent, p, cursorLineContent. auto.
  - intros _ _ _. unfold EditorTableDBML.editorText in *. simpl. exact He4.
Qed.

#[local] Transparent EditorTableDBML.restoreScroll.

Lemma lines_count (m : TextModel.t) :
  TextModel.lines m <> [] -> 1 <= TextModel.getLineCount m.
Proof.
  unfold TextModel.getLineCount.
  destruct (TextModel.lines m); [congruence|simpl; lia].
Qed.

Lemma cursorLineContentOf_completes (text : string)
    (position : option Position.t) :
  (forall p, position = Some p ->
     1 <= Position.lineNumber p
       <= TextModel.getLineCount (EditorTableDBML.textModel text)) ->
  exists content,
    EditorTableDBML.cursorLineContentOf text position = Normal content.
Proof.
  intros Hline. unfold EditorTableDBML.cursorLineContentOf.
  destruct position as [p|]; [|eauto].
  destruct (Position.lineNumber p =? 0); [eauto|].
  destruct (getLineContent_in_range _ _ (Hline p eq_refl)) as (content & ->).
  simpl. eauto.
Qed.

Lemma restoredPosition_completes {lib : Lib} (currentPosition : Position.t)
    (cursorLineContent : option string) (m : TextModel.t) :
  1 <= Position.lineNumber currentPosition ->
  TextModel.lines m <> [] ->
  exists restored,
    restoredPosition currentPosition cursorLineContent m = Normal restored.
Proof.
  intros Hline Hlines. apply lines_count in Hlines.
  unfold restoredPosition.
  destruct (bestLineFor_run currentPosition cursorLineContent m Hline Hlines)
    as (bestLine & -> & [Hin _] & _).
  destruct (getLineMaxColumn_in_range m bestLine Hin) as (maxColumn & Hmax & _).
  simpl. rewrite Hmax. simpl.
  destruct ((0 <? bestLine) && (0 <? Z.min _ maxColumn)); eauto.
Qed.

(** With the cursor on a line of the old text and a new text that has a
    line, the update does not end in an exception. *)
Lemma updateEditorContent_completes (newContent : string)
    (w : World EditorTableDBML.State) :
  cursorOnALine (session w) ->
  Monaco_lines newContent <> [] ->
  fst (EditorTableDBML.updateEditorContent newContent w) = Normal tt.
Proof.
  intros Hcursor Hlines.
  destruct (updateEditorContent_run newContent w)
    as (res & w' & Hrun & _ & _ & _ & _ & Hcase & _).
  rewrite Hrun. simpl. destruct res as [[]|]; [reflexivity|exfalso].
  destruct Hcase
    as [[Hres _]|[(_ & _ & editor & text & Hed & Hmodel & Hthrow)
                 |(_ & _ & _ & Hthrow)]].
  - discriminate.
  - destruct (cursorLineContentOf_completes text (Editor.position editor))
      as (content & Hcontent); [|congruence].
    intros p Hp. exact (Hcursor editor text p Hed Hmodel Hp).
  - destruct (Hthrow eq_refl)
      as (editor & text & p & c & Hed & Hmodel & Hp & Hrestored).
    destruct (restoredPosition_completes p c
                (EditorTableDBML.textModel newContent))
      as (restored & Hok); [|exact Hlines|congruence].
    apply (Hcursor editor text p Hed Hmodel Hp).
Qed.

Lemma cursorOnALine_editorRef (s s' : EditorTableDBML.State) :
  EditorTableDBML.editorRef s' = EditorTableDBML.editorRef s ->
  cursorOnALine s -> cursorOnALine s'.
Proof.
  intros Heq Hcursor editor text p Hed. apply Hcursor. congruence.
Qed.

(** X9. [updateEditorContent] makes no store call, shows no toast and
    leaves the baseline, the last valid content and the parse error as
    they are, whatever it ends in. It ends in one of three ways: with the
    state untouched; in an exception before the text was touched, when
    the line of the cursor cannot be read from the old text, with only
    the flag that silences the change listener lowered; or with the editor
    and [dbmlContent] both holding the new content and the flag down,
    which is also how an exception from putting the cursor back leaves
    it. With the cursor on a line of the old text and a new text that has
    a line there is no exception; then, when the user has not typed since
    the editor was mounted, an editor with a model ends up showing the
    new content. *)
Theorem updateEditorContent_replaces_or_leaves_alone
    (newContent : string) (w : World EditorTableDBML.State) :
  exists res w',
    EditorTableDBML.updateEditorContent newContent w = (res, w')
    /\ storeCalls w' = storeCalls w
    /\ toasts w' = toasts w
    /\ EditorTableDBML.originalDbmlContent (session w')
       = EditorTableDBML.originalDbmlContent (session w)
    /\ EditorTableDBML.lastValidContentRef (session w')
       = EditorTableDBML.lastValidContentRef (session w)
    /\ EditorTableDBML.dbmlError (session w')
       = EditorTableDBML.dbmlError (session w)
    /\ ((res = Normal tt /\ session w' = session w)
        \/ (res = Throw
            /\ session w'
               = EditorTableDBML.setSkipContentChange' false (session w)
            /\ ~ cursorOnALine (session w))
        \/ (EditorTableDBML.editorText (session w') = Some newContent
            /\ EditorTableDBML.dbmlContent (session w') = newContent
            /\ EditorTableDBML.skipContentChangeRef (session w') = false))
    /\ (cursorOnALine (session w) -> Monaco_lines newContent <> [] ->
        res = Normal tt
        /\ (EditorTableDBML.userHasEditedRef (session w) = false ->
            is_Some (EditorTableDBML.editorText (session w)) ->
            EditorTableDBML.editorText (session w') = Some newContent)).
Proof.
  pose proof (updateEditorContent_completes newContent w) as Hcompletes.
  destruct (updateEditorContent_run newContent w)
    as (res & w' & Hrun & Hc & Ht & _ & Hsame & Hcase & Hquiet).
  rewrite Hrun in Hcompletes. simpl in Hcompletes.
  destruct Hsame as (Herr & _ & Horig & _ & Hvalid & _).
  exists res, w'. do 6 (split; [assumption|]). split.
  - destruct Hcase
      as [Hcase|[(Hres & Hs & editor & text & Hed & Hmodel & Hthrow)
                |(Htext & Hcontent & Hskip & _)]].
    + now left.
    + right. left. split_ands; auto. intros Hcursor.
      destruct (cursorLineContentOf_completes text (Editor.position editor))
        as (content & Hok); [|congruence].
      intros p Hp. exact (Hcursor editor text p Hed Hmodel Hp).
    + right. right. auto.
  - intros Hcursor Hlines.
    assert (Hres : res = Normal tt) by auto.
    split; [exact Hres|]. now apply Hquiet.
Qed.
End EditorRuns.

(* --------------------------------------------------------------------- *)
(** ** The outcomes of a run of [EditorTableDBML.applyDBMLChanges] *)
(* --------------------------------------------------------------------- *)

Section EditorApply.
Context {host : Host}.

Lemma recordRegenerated_run (wasUserEditing : bool) (text : string)
    (w : World EditorTableDBML.State) :
  exists res w',
    EditorTableDBML.recordRegenerated wasUserEditing text w = (res, w')
    /\ storeCalls w' = storeCalls w
    /\ toasts w' = toasts w
    /\ idsDrawn w' = idsDrawn w
    /\ EditorTableDBML.dbmlError (session w')
       = EditorTableDBML.dbmlError (session w)
    /\ EditorTableDBML.isApplying (session w')
       = EditorTableDBML.isApplying (session w)
    /\ EditorTableDBML.changesInProgressRef (session w')
       = EditorTableDBML.changesInProgressRef (session w)
    /\ EditorTableDBML.toastTimeoutRef (session w')
       = EditorTableDBML.toastTimeoutRef (session w)
    /\ EditorTableDBML.userHasEditedRef (session w')
       = EditorTableDBML.userHasEditedRef (session w)
    /\ match res with
       | Normal _ =>
           EditorTableDBML.originalDbmlContent (session w') = text
           /\ EditorTableDBML.lastValidContentRef (session w') = text
           /\ (EditorTableDBML.editorText (session w')
               = EditorTableDBML.editorText (session w)
               \/ EditorTableDBML.editorText (session w') = Some text)
       | Throw =>
           wasUserEditing = false
           /\ fst (EditorTableDBML.updateEditorContent text w) = Throw
       end.
Proof.
  unfold EditorTableDBML.recordRegenerated. destruct wasUserEditing.
  - eexists _, _. split; [reflexivity|]. simpl. split_ands; auto.
  - unfold mbind at 1, M_bind at 1.
    destruct (updateEditorContent_run text w)
      as (res & w1 & Hrun & Hc & Ht & Hi & Hsame & Hcase & _).
    rewrite Hrun.
    destruct Hsame as (Herr & Happ & _ & Hprog & _ & Hed & Htimer).
    destruct res as [[]|].
    + eexists _, _. split; [reflexivity|]. simpl. split_ands; auto.
      destruct Hcase as [[_ Hs]|[(Hres & _)|(Htext & _)]];
        [left; now rewrite Hs|discriminate|now right].
    + exists Throw, w1. split_ands; auto.
Qed.

(** A run that the guards stop changes nothing. *)
Lemma EditorTableDBML_apply_stopped (currentDiagram : Diagram.t)
    (content : string) (w : World EditorTableDBML.State) :
  proceeds content (session w) = false ->
  EditorTableDBML.applyDBMLChanges currentDiagram content w = (Normal tt, w).
Proof.
  unfold proceeds, EditorTableDBML.applyDBMLChanges.
  unfold mbind at 1, M_bind at 1, getSession.
  destruct (bool_decide (is_Some (EditorTableDBML.dbmlError (session w)))
            || EditorTableDBML.changesInProgressRef (session w)
            || EditorTableDBML.isApplying (session w)); [reflexivity|].
  destruct (String.eqb content
              (EditorTableDBML.originalDbmlContent (session w)));
    [reflexivity|discriminate].
Qed.

(** The run behind the guards: what happened inside [try], and the world
    the run ends in. *)
Lemma applyAfterGuards_run (currentDiagram : Diagram.t)
    (content : string) (w : World EditorTableDBML.State) :
  exists (w0 w1 : World EditorTableDBML.State),
    session w0 = session w
    /\ storeCalls w0 = storeCalls w
    /\ toasts w0 = toasts w
    /\ idsDrawn w0 = idsDrawn w
    /\ clockReads w0
       = (clockReads w
          + if EditorTableDBML.userHasEditedRef (session w) then 1 else 0)%nat
    /\ Change.applyAfterGuards currentDiagram content w
       = (Normal tt, withSession released w1)
    /\ EditorTableDBML.dbmlError (session w1)
       = EditorTableDBML.dbmlError (session w)
    /\ match importDBMLToDiagram content with
       | None => w1 = withToast toastApplyFailed (withSession locked w0)
       | Some importedDiagram =>
           exists res w2,
             reconcileAndApply EditorTableDBML.removalRule currentDiagram
               importedDiagram (withSession locked w0)
             = (res, w2)
             /\ match res with
                | Throw => w1 = withToast toastApplyFailed w2
                | Normal a =>
                    match regeneratedText currentDiagram a with
                    | None => w1 = withToast toastApplyFailed w2
                    | Some text =>
                        (storeCalls w1 = storeCalls w2
                         /\ toasts w1 = toasts w2
                         /\ EditorTableDBML.originalDbmlContent (session w1)
                            = text
                         /\ EditorTableDBML.lastValidContentRef (session w1)
                            = text
                         /\ EditorTableDBML.toastTimeoutRef (session w1)
                            = (if (0 <? EditorTableDBML.changesCount a)%nat
                               then Some toastChangesApplied
                               else EditorTableDBML.toastTimeoutRef
                                      (session w))
                         /\ (EditorTableDBML.editorText (session w1)
                             = EditorTableDBML.editorText (session w)
                             \/ EditorTableDBML.editorText (session w1)
                                = Some text))
                        \/ (exists w3,
                              EditorTableDBML.updateEditorContent text w2
                              = (Throw, w3)
                              /\ w1 = withToast toastApplyFailed w3)
                    end
                end
       end.
Proof.
  unfold Change.applyAfterGuards.
  unfold mbind at 1, M_bind at 1.
  destruct (editedWithin_run 2000 w)
    as (wasUserEditing & w0 & -> & Hs0 & Hc0 & Ht0 & Hi0 & Hk0 & _).
  exists w0.
  unfold mbind at 1, M_bind at 1, modifySession at 1.
  unfold mbind at 1, M_bind at 1, modifySession at 1.
  change (mkWorld _ _ _ _ _) with (withSession locked w0) at 1.
  assert (Hlocked : EditorTableDBML.dbmlError (session (withSession locked w0))
                    = EditorTableDBML.dbmlError (session w))
    by (simpl; now rewrite Hs0).
  assert (Htimer : EditorTableDBML.toastTimeoutRef
                     (session (withSession locked w0))
                   = EditorTableDBML.toastTimeoutRef (session w))
    by (simpl; now rewrite Hs0).
  assert (Htext : EditorTableDBML.editorText (session (withSession locked w0))
                  = EditorTableDBML.editorText (session w))
    by (unfold EditorTableDBML.editorText; simpl; now rewrite Hs0).
  set (wStart := withSession locked w0) in *. clearbody wStart.
  unfold tryFinally, tryCatch.
  unfold mbind at 1, M_bind at 1, orThrow at 1.
  destruct (importDBMLToDiagram content) as [importedDiagram|].
  2:{ exists (withToast toastApplyFailed wStart).
      split_ands; auto. }
  unfold mbind at 1, M_bind at 1.
  destruct (reconcileAndApply_run EditorTableDBML.removalRule currentDiagram
              importedDiagram wStart)
    as (res & w2 & a0 & tr & rest & Hrun & Hs2 & Ht2 & _ & _ & _ & _ & _ & _
        & Hres).
  rewrite Hrun. destruct res as [a|].
  2:{ exists (withToast toastApplyFailed w2). split_ands; auto.
      - simpl. now rewrite Hs2.
      - exists Throw, w2. auto. }
  unfold mbind at 1, M_bind at 1, regenerateDBML, orThrow.
  fold (regeneratedText currentDiagram a).
  destruct (regeneratedText currentDiagram a) as [text|] eqn:Htext'.
  2:{ exists (withToast toastApplyFailed w2). split_ands; auto.
      - simpl. now rewrite Hs2.
      - exists (Normal a), w2. rewrite Htext'. auto. }
  unfold mbind at 1, M_bind at 1.
  destruct (recordRegenerated_run wasUserEditing text w2)
    as (res3 & w3 & Hrec & Hc3 & Ht3 & Hi3 & He3 & _ & _ & Hp3 & _ & Hcase3).
  rewrite Hrec. destruct res3 as [[]|].
  2:{ exists (withToast toastApplyFailed w3). split_ands; auto.
      - simpl. now rewrite He3, Hs2.
      - exists (Normal a), w2. rewrite Htext'. split; [reflexivity|].
        right. exists w3. split; [|reflexivity].
        destruct Hcase3 as [-> Hthrow].
        unfold EditorTableDBML.recordRegenerated in Hrec.
        unfold mbind at 1, M_bind at 1 in Hrec.
        destruct (EditorTableDBML.updateEditorContent text w2)
          as [[[]|] w3'] eqn:Hupdate; [discriminate|].
        congruence. }
  destruct Hcase3 as (Ho3 & Hl3 & Hx3).
  destruct (0 <? EditorTableDBML.changesCount a)%nat eqn:Hcount.
  - exists (withSession
              (EditorTableDBML.setToastTimeout' (Some toastChangesApplied))
              w3).
    split_ands; auto.
    + simpl. now rewrite He3, Hs2.
    + exists (Normal a), w2. rewrite Htext', Hcount. split; [reflexivity|].
      left. simpl. rewrite Hc3, Ht3. split_ands; auto.
      unfold EditorTableDBML.editorText in *. simpl.
      rewrite Hs2 in Hx3. rewrite <- Htext. exact Hx3.
  - exists w3. split_ands; auto.
    + now rewrite He3, Hs2.
    + exists (Normal a), w2. rewrite Htext', Hcount. split; [reflexivity|].
      left. split_ands; auto.
      * now rewrite Hp3, Hs2.
      * rewrite Hs2 in Hx3. rewrite <- Htext. exact Hx3.
Qed.
Lemma applyDBMLChanges_when_proceeds (currentDiagram : Diagram.t)
    (content : string) (w : World EditorTableDBML.State) :
  proceeds content (session w) = true ->
  EditorTableDBML.applyDBMLChanges currentDiagram content w
  = Change.applyAfterGuards currentDiagram content w.
Proof.
  unfold proceeds, EditorTableDBML.applyDBMLChanges.
  unfold mbind at 1, M_bind at 1, getSession.
  destruct (bool_decide (is_Some (EditorTableDBML.dbmlError (session w)))
            || EditorTableDBML.changesInProgressRef (session w)
            || EditorTableDBML.isApplying (session w)); [discriminate|].
  destruct (String.eqb content
              (EditorTableDBML.originalDbmlContent (session w)));
    [discriminate|reflexivity].
Qed.

(** A run that the guards let through. *)
Lemma EditorTableDBML_apply_proceeds (currentDiagram : Diagram.t)
    (content : string) (w : World EditorTableDBML.State) :
  proceeds content (session w) = true ->
  exists (w0 w1 : World EditorTableDBML.State),
    session w0 = session w
    /\ storeCalls w0 = storeCalls w
    /\ toasts w0 = toasts w
    /\ idsDrawn w0 = idsDrawn w
    /\ clockReads w0
       = (clockReads w
          + if EditorTableDBML.userHasEditedRef (session w) then 1 else 0)%nat
    /\ EditorTableDBML.applyDBMLChanges currentDiagram content w
       = (Normal tt, withSession released w1)
    /\ EditorTableDBML.dbmlError (session w1)
       = EditorTableDBML.dbmlError (session w)
    /\ match importDBMLToDiagram content with
       | None => w1 = withToast toastApplyFailed (withSession locked w0)
       | Some importedDiagram =>
           exists res w2,
             reconcileAndApply EditorTableDBML.removalRule currentDiagram
               importedDiagram (withSession locked w0)
             = (res, w2)
             /\ match res with
                | Throw => w1 = withToast toastApplyFailed w2
                | Normal a =>
                    match regeneratedText currentDiagram a with
                    | None => w1 = withToast toastApplyFailed w2
                    | Some text =>
                        (storeCalls w1 = storeCalls w2
                         /\ toasts w1 = toasts w2
                         /\ EditorTableDBML.originalDbmlContent (session w1)
                            = text
                         /\ EditorTableDBML.lastValidContentRef (session w1)
                            = text
                         /\ EditorTableDBML.toastTimeoutRef (session w1)
                            = (if (0 <? EditorTableDBML.changesCount a)%nat
                               then Some toastChangesApplied
                               else EditorTableDBML.toastTimeoutRef
                                      (session w))
                         /\ (EditorTableDBML.editorText (session w1)
                             = EditorTableDBML.editorText (session w)
                             \/ EditorTableDBML.editorText (session w1)
                                = Some text))
                        \/ (exists w3,
                              EditorTableDBML.updateEditorContent text w2
                              = (Throw, w3)
                              /\ w1 = withToast toastApplyFailed w3)
                    end
                end
       end.
Proof.
  intros Hp. rewrite (applyDBMLChanges_when_proceeds _ _ _ Hp).
  apply applyAfterGuards_run.
Qed.

Lemma proceeds_unlocked (content : string) (s : EditorTableDBML.State) :
  proceeds content s = true ->
  EditorTableDBML.dbmlError s = None
  /\ EditorTableDBML.changesInProgressRef s = false
  /\ EditorTableDBML.isApplying s = false
  /\ content <> EditorTableDBML.originalDbmlContent s.
Proof.
  unfold proceeds. intros Hp. apply andb_true_iff in Hp as [Hguard Hne].
  apply negb_true_iff in Hguard, Hne.
  apply orb_false_iff in Hguard as [Hguard Happlying].
  apply orb_false_iff in Hguard as [Herr Hprogress].
  split_ands; auto.
  - destruct (EditorTableDBML.dbmlError s); [|reflexivity].
    apply bool_decide_eq_false in Herr. destruct Herr. eauto.
  - now apply String.eqb_neq.
Qed.

Lemma released_locked (s : EditorTableDBML.State) :
  EditorTableDBML.changesInProgressRef s = false ->
  EditorTableDBML.isApplying s = false ->
  released (locked s) = s.
Proof. destruct s. simpl. now intros -> ->. Qed.

(** X10. A run of [EditorTableDBML.applyDBMLChanges] never ends in an
    exception, and it leaves [isApplying], [changesInProgressRef] and the
    parse error as it found them: a run that went through has lowered the
    two flags it raised, whatever happened in between, and a run that was
    refused has touched nothing. *)
Theorem EditorTableDBML_apply_leaves_the_flags_as_they_were
    (currentDiagram : Diagram.t) (content : string)
    (w : World EditorTableDBML.State) :
  exists w',
    EditorTableDBML.applyDBMLChanges currentDiagram content w
    = (Normal tt, w')
    /\ EditorTableDBML.isApplying (session w')
       = EditorTableDBML.isApplying (session w)
    /\ EditorTableDBML.changesInProgressRef (session w')
       = EditorTableDBML.changesInProgressRef (session w)
    /\ EditorTableDBML.dbmlError (session w')
       = EditorTableDBML.dbmlError (session w)
    /\ (proceeds content (session w) = false -> w' = w).
Proof.
  destruct (proceeds content (session w)) eqn:Hp.
  - destruct (EditorTableDBML_apply_proceeds currentDiagram content w Hp)
      as (w0 & w1 & _ & _ & _ & _ & _ & Hrun & Herr & _).
    apply proceeds_unlocked in Hp as (_ & Hprogress & Happlying & _).
    exists (withSession released w1). split_ands; auto.
    discriminate.
  - exists w. split_ands; auto.
    now apply EditorTableDBML_apply_stopped.
Qed.

(** X11. When the guards let the run through, the store accepts every
    call, the diagram the run has merged regenerates as [text], and
    [updateEditorContent] can read the lines it asks the widget for (the
    cursor is on a line of the old text, [text] has a line), a run of
    [EditorTableDBML.applyDBMLChanges] has made the store calls of its
    plan, has shown no toast yet (the one for the changes waits, when
    there were changes), and has made [text] the baseline: applying
    [text] afterwards, as the change listener would after the editor was
    updated, does nothing. *)
Theorem EditorTableDBML_apply_sets_the_baseline
    (currentDiagram importedDiagram : Diagram.t) (content text : string)
    (w : World EditorTableDBML.State) :
  proceeds content (session w) = true ->
  importDBMLToDiagram content = Some importedDiagram ->
  (forall c, storeRejects c = false) ->
  regeneratedText currentDiagram
    (planOfEditorTableDBML currentDiagram importedDiagram w) = Some text ->
  cursorOnALine (session w) ->
  Monaco_lines text <> [] ->
  exists w',
    EditorTableDBML.applyDBMLChanges currentDiagram content w
    = (Normal tt, w')
    /\ storeCalls w'
       = storeCalls w
         ++ pipelineCalls
              (planOfEditorTableDBML currentDiagram importedDiagram w)
    /\ toasts w' = toasts w
    /\ EditorTableDBML.toastTimeoutRef (session w')
       = (if (0 <? EditorTableDBML.changesCount
                     (planOfEditorTableDBML currentDiagram importedDiagram w))%nat
          then Some toastChangesApplied
          else EditorTableDBML.toastTimeoutRef (session w))
    /\ EditorTableDBML.originalDbmlContent (session w') = text
    /\ EditorTableDBML.lastValidContentRef (session w') = text
    /\ (EditorTableDBML.editorText (session w')
        = EditorTableDBML.editorText (session w)
        \/ EditorTableDBML.editorText (session w') = Some text)
    /\ EditorTableDBML.applyDBMLChanges currentDiagram text w'
       = (Normal tt, w').
Proof.
  intros Hp Himport Haccepts Htext Hcursor Hlines.
  destruct (EditorTableDBML_apply_proceeds currentDiagram content w Hp)
    as (w0 & w1 & Hs0 & Hc0 & Ht0 & Hi0 & Hk0 & Hrun & _ & Hcase).
  rewrite Himport in Hcase. destruct Hcase as (res & w2 & Hpipe & Hcase).
  destruct (reconcileAndApply_accepted EditorTableDBML.removalRule
              currentDiagram importedDiagram (withSession locked w0) Haccepts)
    as (w2' & Hpipe' & Hs2 & Ht2 & Hc2).
  rewrite Hpipe in Hpipe'. injection Hpipe' as -> <-.
  simpl in Hs2, Ht2, Hc2. rewrite Hi0, Hk0 in *.
  fold (planOfEditorTableDBML currentDiagram importedDiagram w) in *.
  rewrite Htext in Hcase.
  destruct Hcase as [(Hc1 & Ht1 & Ho1 & Hl1 & Hp1 & Hx1)|(w3 & Hthrow & _)].
  2:{ exfalso.
      assert (Hok : fst (EditorTableDBML.updateEditorContent text w2)
                    = Normal tt).
      { apply updateEditorContent_completes; [|exact Hlines].
        apply (cursorOnALine_editorRef (session w)); [|exact Hcursor].
        rewrite Hs2, Hs0. reflexivity. }
      rewrite Hthrow in Hok. discriminate. }
  exists (withSession released w1). split_ands; auto.
  - simpl. now rewrite Hc1, Hc2, <- Hc0.
  - simpl. now rewrite Ht1, Ht2, <- Ht0.
  - apply EditorTableDBML_apply_stopped. unfold proceeds. simpl.
    rewrite Ho1, String.eqb_refl. apply andb_false_r.
Qed.

(** X12. When the importer rejects the text, neither component calls the
    store or changes its state: [TableDBML] and [EditorTableDBML] both
    show the failure toast, the latter at once and with both flags down
    again. *)
Theorem failed_import_changes_nothing (content : string) :
  importDBMLToDiagram content = None ->
  (forall currentDiagram (w : World TableDBML.State),
     TableDBML.dbmlContent (session w) = content ->
     TableDBML.dbmlError (session w) = None ->
     TableDBML.applyDBMLChanges currentDiagram w
     = (Normal tt, withToast toastApplyFailed w))
  /\ (forall currentDiagram (w : World EditorTableDBML.State),
        proceeds content (session w) = true ->
        exists w',
          EditorTableDBML.applyDBMLChanges currentDiagram content w
          = (Normal tt, w')
          /\ session w' = session w
          /\ storeCalls w' = storeCalls w
          /\ toasts w' = toasts w ++ [toastApplyFailed]
          /\ idsDrawn w' = idsDrawn w).
Proof.
  intros Himport. split.
  - intros currentDiagram w Hcontent Herr.
    unfold TableDBML.applyDBMLChanges.
    unfold mbind at 1, M_bind at 1, getSession. rewrite Herr.
    unfold tryCatch, mbind, M_bind, orThrow.
    now rewrite Hcontent, Himport.
  - intros currentDiagram w Hp.
    destruct (EditorTableDBML_apply_proceeds currentDiagram content w Hp)
      as (w0 & w1 & Hs0 & Hc0 & Ht0 & Hi0 & _ & Hrun & _ & Hcase).
    rewrite Himport in Hcase. subst w1.
    apply proceeds_unlocked in Hp as (_ & Hprogress & Happlying & _).
    eexists. split; [exact Hrun|]. simpl.
    rewrite Hc0, Ht0, Hi0, Hs0. split_ands; auto.
    now apply released_locked.
Qed.
End EditorApply.

Lemma EditorTableDBML_apply_sets_the_baseline_witness :
  exists w',
    @EditorTableDBML.applyDBMLChanges Scenario.namingHost Sample.diagram
      "Table Users { id int }" (Sample.world Sample.editorState)
    = (Normal tt, w')
    /\ storeCalls w'
       = [] ++ pipelineCalls
                 (@planOfEditorTableDBML Scenario.namingHost Sample.diagram
                    Sample.edited (Sample.world Sample.editorState))
    /\ toasts w' = []
    /\ EditorTableDBML.toastTimeoutRef (session w')
       = (if (0 <? EditorTableDBML.changesCount
                     (@planOfEditorTableDBML Scenario.namingHost
                        Sample.diagram Sample.edited
                        (Sample.world Sample.editorState)))%nat
          then Some toastChangesApplied
          else None)
    /\ EditorTableDBML.originalDbmlContent (session w')
       = "Tables Users,Purchases"
    /\ EditorTableDBML.lastValidContentRef (session w')
       = "Tables Users,Purchases"
    /\ (EditorTableDBML.editorText (session w')
        = Some "Table Users { ... }"
        \/ EditorTableDBML.editorText (session w')
           = Some "Tables Users,Purchases")
    /\ @EditorTableDBML.applyDBMLChanges Scenario.namingHost Sample.diagram
         "Tables Users,Purchases" w'
       = (Normal tt, w').
Proof.
  apply (@EditorTableDBML_apply_sets_the_baseline
           Scenario.namingHost Sample.diagram Sample.edited
           "Table Users { id int }" "Tables Users,Purchases"
           (Sample.world Sample.editorState)).
  - reflexivity.
  - reflexivity.
  - reflexivity.
  - vm_compute. reflexivity.
  - intros editor text p [= <-] [= <-] [= <-]. vm_compute.
    split; discriminate.
  - discriminate.
Defined.

(** That run on the sample: the editor and [dbmlContent] hold the
    regenerated text, the cursor is back on the first line, and the flag
    that silences the change listener is down again. *)
Example apply_updates_the_editor_sample :
  let w' :=
    snd (@EditorTableDBML.applyDBMLChanges Scenario.namingHost Sample.diagram
           "Table Users { id int }" (Sample.world Sample.editorState)) in
  EditorTableDBML.editorText (session w') = Some "Tables Users,Purchases"
  /\ EditorTableDBML.dbmlContent (session w') = "Tables Users,Purchases"
  /\ (Editor.position <$> EditorTableDBML.editorRef (session w'))
     = Some (Some (Position.make 1 1))
  /\ EditorTableDBML.skipContentChangeRef (session w') = false.
Proof. vm_compute. split_ands; reflexivity. Qed.

Lemma failed_import_changes_nothing_witness :
  (forall currentDiagram (w : World TableDBML.State),
     TableDBML.dbmlContent (session w) = "Table Users {" ->
     TableDBML.dbmlError (session w) = None ->
     @TableDBML.applyDBMLChanges Scenario.rejectingHost currentDiagram w
     = (Normal tt, withToast toastApplyFailed w))
  /\ (forall currentDiagram (w : World EditorTableDBML.State),
        proceeds "Table Users {" (session w) = true ->
        exists w',
          @EditorTableDBML.applyDBMLChanges Scenario.rejectingHost
            currentDiagram "Table Users {" w
          = (Normal tt, w')
          /\ session w' = session w
          /\ storeCalls w' = storeCalls w
          /\ toasts w' = toasts w ++ [toastApplyFailed]
          /\ idsDrawn w' = idsDrawn w).
Proof.
  apply (@failed_import_changes_nothing Scenario.rejectingHost
           "Table Users {").
  reflexivity.
Defined.

(* --------------------------------------------------------------------- *)
(** ** Validation *)
(* --------------------------------------------------------------------- *)

(** X13. In [TableDBML], a text that the parser rejects with something
    [parseDBMLError] cannot read leaves no parse error behind: validation
    clears the error, and a run of [applyDBMLChanges] goes on to import
    the text and to run the pipeline on what the importer makes of it. *)
Theorem unreadable_parser_failure_does_not_block_apply {host : Host}
    (currentDiagram importedDiagram : Diagram.t) (text : string)
    (thrown : JSValue) (w : World TableDBML.State) :
  Parser_parse text = Some thrown ->
  parseDBMLError thrown = None ->
  TableDBML.dbmlContent (session w) = text ->
  importDBMLToDiagram text = Some importedDiagram ->
  let validated := snd (TableDBML.validateDBML (Some text) w) in
  TableDBML.dbmlError (session validated) = None
  /\ TableDBML.dbmlContent (session validated) = text
  /\ storeCalls (snd (TableDBML.applyDBMLChanges currentDiagram validated))
     = storeCalls
         (snd (reconcileAndApply TableDBML.removalRule currentDiagram
                 importedDiagram validated)).
Proof.
  intros Hparse Hunreadable Hcontent Himport validated.
  assert (Herr : TableDBML.dbmlError (session validated) = None).
  { unfold validated, TableDBML.validateDBML.
    destruct (negb (truthy text) || negb (truthy (String_trim text)));
      [reflexivity|].
    rewrite Hparse, Hunreadable. reflexivity. }
  assert (Hsame : TableDBML.dbmlContent (session validated) = text).
  { unfold validated, TableDBML.validateDBML.
    destruct (negb (truthy text) || negb (truthy (String_trim text)));
      [exact Hcontent|].
    rewrite Hparse. exact Hcontent. }
  split_ands; auto.
  rewrite TableDBML_applyDBMLChanges_calls, Herr, Hsame, Himport.
  reflexivity.
Qed.

Lemma unreadable_parser_failure_does_not_block_apply_witness :
  let validated :=
    snd (@TableDBML.validateDBML Scenario.crashingParserHost
           (Some "Table Users { ... } // edited")
           (Sample.world Sample.tableDBMLState)) in
  TableDBML.dbmlError (session validated) = None
  /\ TableDBML.dbmlContent (session validated)
     = "Table Users { ... } // edited"
  /\ storeCalls
       (snd (@TableDBML.applyDBMLChanges Scenario.crashingParserHost
               Sample.diagram validated))
     = storeCalls
         (snd (@reconcileAndApply Scenario.crashingParserHost _
                 TableDBML.removalRule Sample.diagram Sample.edited
                 validated)).
Proof.
  apply (@unreadable_parser_failure_does_not_block_apply
           Scenario.crashingParserHost Sample.diagram Sample.edited
           "Table Users { ... } // edited" (JStr "out of memory")
           (Sample.world Sample.tableDBMLState)).
  - reflexivity.
  - reflexivity.
  - reflexivity.
  - reflexivity.
Defined.

(** X14. [EditorTableDBML.validateDBML] never ends in an exception. It
    answers [false] only for a text the parser rejected, the parse error
    then being what [parseDBMLError] reads in the failure, possibly
    nothing; when it answers [true] there is no parse error. And
    [lastValidContentRef] changes only to a text the parser accepted:
    not to a rejected one, and not to an empty or blank one. *)
Theorem EditorTableDBML_validate_records_accepted_text {host : Host}
    (content : option string) (w : World EditorTableDBML.State) :
  exists valid w',
    EditorTableDBML.validateDBML content w = (Normal valid, w')
    /\ storeCalls w' = storeCalls w
    /\ toasts w' = toasts w
    /\ (valid = true -> EditorTableDBML.dbmlError (session w') = None)
    /\ (valid = false ->
        exists text thrown,
          content = Some text /\ Parser_parse text = Some thrown
          /\ EditorTableDBML.dbmlError (session w') = parseDBMLError thrown)
    /\ (EditorTableDBML.lastValidContentRef (session w')
        = EditorTableDBML.lastValidContentRef (session w)
        \/ exists text,
             content = Some text /\ Parser_parse text = None
             /\ truthy (String_trim text) = true
             /\ EditorTableDBML.lastValidContentRef (session w') = text).
Proof.
  unfold EditorTableDBML.validateDBML.
  destruct content as [text|].
  2:{ eexists _, _. split; [reflexivity|]. simpl.
      split_ands; auto. discriminate. }
  destruct (negb (truthy text) || negb (truthy (String_trim text))) eqn:Hblank.
  { eexists _, _. split; [reflexivity|]. simpl.
    split_ands; auto. discriminate. }
  apply orb_false_iff in Hblank as [_ Htrim].
  apply negb_false_iff in Htrim.
  destruct (Parser_parse text) as [thrown|] eqn:Hparse.
  - eexists _, _. split; [reflexivity|]. simpl.
    split_ands; auto; [discriminate|]. intros _. eauto.
  - eexists _, _. split; [reflexivity|]. simpl.
    split_ands; auto; [discriminate|]. right. eauto.
Qed.

(* --------------------------------------------------------------------- *)
(** ** The toast that waits *)
(* --------------------------------------------------------------------- *)

Section Toasts.
Context {host : Host}.

Lemma showToasts_run (requests : list (Toast * bool))
    (w : World EditorTableDBML.State) :
  showToasts requests w
  = (Normal tt,
     withSession
       (EditorTableDBML.setToastTimeout'
          (waitingAfter requests
             (EditorTableDBML.toastTimeoutRef (session w))))
       (mkWorld (session w) (storeCalls w)
                (toasts w ++ shownAtOnce requests)
                (idsDrawn w) (clockReads w))).
Proof.
  revert w. induction requests as [|[t destructive] requests IH]; intros w.
  - unfold shownAtOnce, withSession. simpl. rewrite app_nil_r.
    destruct w as [s c ts i k]. now destruct s.
  - simpl. unfold mbind at 1, M_bind at 1.
    unfold EditorTableDBML.showToast, shownAtOnce, waitingAfter.
    destruct destructive; simpl.
    + rewrite IH. unfold withSession, shownAtOnce, waitingAfter. simpl.
      now rewrite <- app_assoc.
    + rewrite IH. reflexivity.
Qed.

(** X15. Toasts requested one after the other from [showToast], and then
    the timer: the errors are shown at once, in their order; of the
    others only one is shown, when the timer fires, and it is the last
    requested, whatever was waiting before; after that nothing waits. *)
Theorem only_the_last_waiting_toast_is_shown
    (requests : list (Toast * bool)) (w : World EditorTableDBML.State) :
  exists w1 w2,
    showToasts requests w = (Normal tt, w1)
    /\ toastTimeoutFires w1 = (Normal tt, w2)
    /\ toasts w1 = toasts w ++ shownAtOnce requests
    /\ toasts w2
       = toasts w1
         ++ match waitingAfter requests
                    (EditorTableDBML.toastTimeoutRef (session w)) with
            | Some t => [t]
            | None => []
            end
    /\ EditorTableDBML.toastTimeoutRef (session w2) = None
    /\ storeCalls w2 = storeCalls w
    /\ (forall t before after,
          requests = before ++ (t, false) :: after ->
          Forall (fun request => snd request = true) after ->
          waitingAfter requests
            (EditorTableDBML.toastTimeoutRef (session w)) = Some t).
Proof.
  rewrite showToasts_run.
  unfold toastTimeoutFires, mbind, M_bind, getSession, withSession. simpl.
  destruct (waitingAfter requests
              (EditorTableDBML.toastTimeoutRef (session w))) as [t|] eqn:Hwait.
  - eexists _, _. split; [reflexivity|]. simpl.
    split; [reflexivity|]. simpl. split_ands; auto.
    intros t' before after -> Hafter.
    unfold waitingAfter in Hwait. rewrite fold_left_app in Hwait.
    simpl in Hwait. rewrite <- Hwait. clear Hwait.
    induction Hafter as [|[t'' d] after Hd _ IH]; simpl; [reflexivity|].
    simpl in Hd. subst d. exact IH.
  - eexists _, _. split; [reflexivity|]. simpl.
    split; [reflexivity|]. simpl. rewrite app_nil_r. split_ands; auto.
    intros t' before after -> Hafter. exfalso.
    unfold waitingAfter in Hwait. rewrite fold_left_app in Hwait.
    simpl in Hwait. revert Hwait.
    induction Hafter as [|[t'' d] after Hd _ IH]; simpl; [discriminate|].
    simpl in Hd. subst d. exact IH.
Qed.
End Toasts.

(* --------------------------------------------------------------------- *)
(** ** [TableDBML]: the draft kept in [localStorage] *)
(* --------------------------------------------------------------------- *)

(** X20. When the page opens on a saved draft, the effects of the first
    render, run in the order of the source on the state of that render,
    announce the draft as recovered and mark the editor dirty, but the
    effect that regenerates the content of a clean editor still sees the
    editor clean: it replaces the draft by the generated text and deletes
    the saved draft. After the next render the text saved for the
    diagram is the generated one. *)
Theorem saved_draft_is_replaced_when_the_page_opens
    (key generated draft : string) (storage : gmap string string) :
  storage !! key = Some draft ->
  draft <> "" ->
  let first := Draft.afterFirstRender key generated (Draft.opened storage) in
  let second := Draft.afterRender key generated first in
  Draft.recovered first = 1%nat
  /\ Draft.state first = TableDBML.mkState generated None true
  /\ Draft.localStorage first !! key = None
  /\ Draft.recovered second = 1%nat
  /\ Draft.state second = TableDBML.mkState generated None true
  /\ Draft.localStorage second !! key
     = (if truthy generated then Some generated else None).
Proof.
  intros Hsaved Hdraft first second.
  assert (Hfirst : first
                   = Draft.mkPage (TableDBML.mkState generated None true)
                       (delete key (delete key storage)) 1).
  { unfold first, Draft.afterFirstRender, Draft.loadDraft, Draft.opened.
    cbn [Draft.localStorage Draft.state]. rewrite Hsaved.
    rewrite (truthy_nonempty _ Hdraft). reflexivity. }
  unfold second, Draft.afterRender. rewrite Hfirst.
  unfold Draft.cleanUp, Draft.autoSave, Draft.regenerateWhenClean,
    Draft.setItem.
  cbn. split_ands; auto.
  - rewrite delete_delete_eq. apply lookup_delete_eq.
  - now destruct (truthy generated).
  - now destruct (truthy generated).
  - destruct (truthy generated); cbn.
    + apply lookup_insert_eq.
    + rewrite delete_delete_eq. apply lookup_delete_eq.
Qed.

Lemma saved_draft_is_replaced_when_the_page_opens_witness :
  let storage : gmap string string :=
    <["chartdb_dbml_edit_d1" := "Table Users { id int }"]> ∅ in
  let first :=
    Draft.afterFirstRender "chartdb_dbml_edit_d1" "Table Users { ... }"
      (Draft.opened storage) in
  let second :=
    Draft.afterRender "chartdb_dbml_edit_d1" "Table Users { ... }" first in
  Draft.recovered first = 1%nat
  /\ Draft.state first = TableDBML.mkState "Table Users { ... }" None true
  /\ Draft.localStorage first !! "chartdb_dbml_edit_d1" = None
  /\ Draft.recovered second = 1%nat
  /\ Draft.state second = TableDBML.mkState "Table Users { ... }" None true
  /\ Draft.localStorage second !! "chartdb_dbml_edit_d1"
     = (if truthy "Table Users { ... }"
        then Some "Table Users { ... }" else None).
Proof.
  apply (saved_draft_is_replaced_when_the_page_opens
           "chartdb_dbml_edit_d1" "Table Users { ... }"
           "Table Users { id int }").
  - apply lookup_insert_eq.
  - discriminate.
Defined.

Lemma dbmlStorageKey_injective (d d' : Diagram.t) :
  Draft.dbmlStorageKey d = Draft.dbmlStorageKey d' ->
  Diagram.id d = Diagram.id d'.
Proof.
  unfold Draft.dbmlStorageKey. simpl. intros Heq.
  now repeat injection Heq as Heq.
Qed.

(** X21. After a render, the effects leave the slot of the diagram in
    step with the dirty flag: while the editor is dirty its content is
    what is saved, unless it is empty, and the state is left alone; when
    the editor is clean nothing is saved and the editor shows the
    generated text. No other slot of the storage is touched, and two
    diagrams never share a slot. *)
Theorem draft_slot_follows_the_dirty_flag (key generated : string)
    (p : Draft.Page) :
  let p' := Draft.afterRender key generated p in
  (TableDBML.isDirty (Draft.state p) = true ->
     Draft.state p' = Draft.state p
     /\ Draft.localStorage p' !! key
        = (if truthy (TableDBML.dbmlContent (Draft.state p))
           then Some (TableDBML.dbmlContent (Draft.state p))
           else Draft.localStorage p !! key))
  /\ (TableDBML.isDirty (Draft.state p) = false ->
        Draft.state p'
        = TableDBML.mkState generated
            (TableDBML.dbmlError (Draft.state p)) false
        /\ Draft.localStorage p' !! key = None)
  /\ (forall other, other <> key ->
        Draft.localStorage p' !! other = Draft.localStorage p !! other)
  /\ Draft.recovered p' = Draft.recovered p
  /\ (forall d d', Diagram.id d <> Diagram.id d' ->
        Draft.dbmlStorageKey d <> Draft.dbmlStorageKey d').
Proof.
  destruct p as [[content err dirty] storage n].
  unfold Draft.afterRender, Draft.cleanUp, Draft.autoSave,
    Draft.regenerateWhenClean, Draft.setItem, Draft.removeItem.
  cbn. split_ands.
  - intros ->. cbn. split; [now destruct (truthy content)|].
    destruct (truthy content); cbn; [apply lookup_insert_eq|reflexivity].
  - intros ->. cbn. split; [reflexivity|].
    apply lookup_delete_eq.
  - intros other Hother. destruct dirty; cbn.
    + destruct (truthy content); cbn; [|reflexivity].
      now apply lookup_insert_ne.
    + rewrite !lookup_delete_ne by auto. reflexivity.
  - destruct dirty; cbn; [now destruct (truthy content)|reflexivity].
  - intros d d' Hid Hkey. apply Hid. now apply dbmlStorageKey_injective.
Qed.

(** X22. [handleDiscardChanges] leaves the editor clean on the generated
    text, without a parse error and without a saved draft; the effects
    of the next render change nothing more, and a page opened afterwards
    finds no draft to announce. *)
Theorem discarded_draft_is_not_recovered (key generated : string)
    (p : Draft.Page) :
  let discarded := Draft.handleDiscardChanges key generated p in
  Draft.state discarded = TableDBML.mkState generated None false
  /\ Draft.localStorage discarded !! key = None
  /\ Draft.afterRender key generated discarded = discarded
  /\ forall generated',
       let reopened :=
         Draft.afterFirstRender key generated'
           (Draft.opened (Draft.localStorage discarded)) in
       Draft.recovered reopened = 0%nat
       /\ Draft.state reopened = TableDBML.mkState generated' None false
       /\ Draft.localStorage reopened !! key = None.
Proof.
  destruct p as [[content err dirty] storage n].
  unfold Draft.handleDiscardChanges, Draft.afterRender. cbn.
  split_ands; auto.
  - apply lookup_delete_eq.
  - unfold Draft.cleanUp, Draft.autoSave, Draft.regenerateWhenClean,
      Draft.removeItem. cbn. now rewrite !delete_delete_eq.
  - intros generated'.
    unfold Draft.afterFirstRender, Draft.loadDraft, Draft.opened.
    cbn [Draft.localStorage Draft.state]. rewrite lookup_delete_eq.
    unfold Draft.cleanUp, Draft.autoSave, Draft.regenerateWhenClean,
      Draft.removeItem. cbn. split_ands; auto.
    apply lookup_delete_eq.
Qed.

(* --------------------------------------------------------------------- *)
(** ** The text generated for the tables shown, and what applying it does *)
(* --------------------------------------------------------------------- *)

Lemma findTableById_is_Some (i : string) (tables : list DBTable.t) :
  is_Some (findTableById i tables)
  <-> exists t, In t tables /\ DBTable.id t = i.
Proof.
  split.
  - intros [t Ht]. apply findTableById_Some in Ht. now exists t.
  - intros (t & Hin & Hid).
    destruct (findTableById i tables) as [t'|] eqn:Hfind; [eauto|].
    rewrite findTableById_None in Hfind. now destruct (Hfind t Hin).
Qed.

(** X23. The diagram handed to the exporter by [generateDBML] has the
    tables it was given, in their order and under their ids, with the
    ids of their fields; and of the relationships of the diagram exactly
    those whose two tables are among them. *)
Theorem exported_relationships_connect_exported_tables {host : Host}
    (currentDiagram : Diagram.t) (filteredTables : list DBTable.t) :
  let exported :=
    filteredDiagramWithoutSpaces currentDiagram filteredTables in
  map DBTable.id (Diagram.tables exported) = map DBTable.id filteredTables
  /\ map (fun t => map DBField.id (DBTable.fields t))
         (Diagram.tables exported)
     = map (fun t => map DBField.id (DBTable.fields t)) filteredTables
  /\ (forall r,
        In r (Diagram.relationships exported)
        <-> In r (Diagram.relationships currentDiagram)
            /\ (exists t, In t filteredTables
                          /\ DBTable.id t = DBRelationship.sourceTableId r)
            /\ (exists t, In t filteredTables
                          /\ DBTable.id t = DBRelationship.targetTableId r))
  /\ (forall r,
        In r (Diagram.relationships exported) ->
        (exists t, In t (Diagram.tables exported)
                   /\ DBTable.id t = DBRelationship.sourceTableId r)
        /\ (exists t, In t (Diagram.tables exported)
                      /\ DBTable.id t = DBRelationship.targetTableId r)).
Proof.
  unfold filteredDiagramWithoutSpaces. simpl.
  assert (Hrel : forall r,
            In r (List.filter
                    (fun rel =>
                       bool_decide
                         (is_Some (findTableById
                                     (DBRelationship.sourceTableId rel)
                                     filteredTables))
                       && bool_decide
                            (is_Some (findTableById
                                        (DBRelationship.targetTableId rel)
                                        filteredTables)))
                    (Diagram.relationships currentDiagram))
            <-> In r (Diagram.relationships currentDiagram)
                /\ (exists t, In t filteredTables
                              /\ DBTable.id t = DBRelationship.sourceTableId r)
                /\ (exists t, In t filteredTables
                              /\ DBTable.id t
                                 = DBRelationship.targetTableId r)).
  { intros r. rewrite filter_In, andb_true_iff, !bool_decide_eq_true.
    now rewrite !findTableById_is_Some. }
  split_ands.
  - rewrite map_map. reflexivity.
  - rewrite map_map. apply map_ext. intros t. simpl.
    rewrite map_map. reflexivity.
  - exact Hrel.
  - intros r Hr. apply Hrel in Hr as (_ & (ts & Hts & Hsid) & (tt' & Htt & Htid)).
    split.
    + exists (tableWithoutSpaces ts). split; [now apply in_map|exact Hsid].
    + exists (tableWithoutSpaces tt'). split; [now apply in_map|exact Htid].
Qed.

Section Hidden.
Context {host : Host} {lib : Lib} {S : Type}.

(** X24. Applying the text generated for the tables that the filter of
    the side panel shows removes the tables it hides. When keys identify
    the tables of the diagram, no name has whitespace in it, and the
    imported schema has the tables of the exported diagram, by key, then
    every table of the diagram that is not among the tables shown is in
    [tablesToRemove], and the first store call of the pipeline is the
    [removeTables] that takes it out. *)
Theorem table_hidden_by_the_filter_is_removed
    (rule : Diagram.t -> Diagram.t -> TableChanges -> DBRelationship.t -> bool)
    (currentDiagram importedDiagram : Diagram.t) (filterText : string)
    (filteredSchemas : option (list string)) (hidden : DBTable.t)
    (w : World S) :
  let shown :=
    TablesSection.filteredTables (Diagram.tables currentDiagram)
                                 filterText filteredSchemas in
  let ch := reconcileTables (Diagram.tables currentDiagram)
                            (Diagram.tables importedDiagram) in
  uniqueKeys (Diagram.tables currentDiagram) ->
  namesWithoutSpaces currentDiagram ->
  map tableKey (Diagram.tables importedDiagram)
  = map tableKey
      (Diagram.tables (filteredDiagramWithoutSpaces currentDiagram shown)) ->
  In hidden (Diagram.tables currentDiagram) ->
  ~ In hidden shown ->
  In hidden (tablesToRemove ch)
  /\ exists rest,
       storeCalls (snd (reconcileAndApply rule currentDiagram
                          importedDiagram w))
       = storeCalls w
         ++ removeTables (map DBTable.id (tablesToRemove ch)) :: rest.
Proof.
  intros shown ch Hcur Hnames Hkeys Hin Hhidden.
  assert (Hsub : forall t, In t shown -> In t (Diagram.tables currentDiagram)).
  { intros t Ht. unfold shown, TablesSection.filteredTables in Ht.
    apply filter_In in Ht as [Ht _]. now apply filter_In in Ht as [Ht _]. }
  assert (Hkeys' : map tableKey (Diagram.tables importedDiagram)
                   = map tableKey shown).
  { rewrite Hkeys. simpl. rewrite map_map. apply map_ext_in.
    intros t Ht. now rewrite (Hnames t (Hsub t Ht)). }
  assert (Himp : uniqueKeys (Diagram.tables importedDiagram)).
  { unfold uniqueKeys. rewrite Hkeys'.
    unfold shown, TablesSection.filteredTables.
    now do 2 apply NoDup_map_filter. }
  assert (Hremoved : In hidden (tablesToRemove ch)).
  { apply (removed_iff _ _ Hcur Himp). split; [exact Hin|].
    intros t Ht Hk.
    assert (Hkin : In (tableKey hidden) (map tableKey shown)).
    { rewrite <- Hkeys', <- Hk. now apply in_map. }
    apply in_map_iff in Hkin as (s & Hs & Hsin).
    assert (s = hidden) as ->.
    { apply (NoDup_map_eq tableKey (Diagram.tables currentDiagram));
        auto. }
    now apply Hhidden. }
  split; [exact Hremoved|].
  destruct (reconcileAndApply_run rule currentDiagram importedDiagram w)
    as (res & w' & a & tr & rest & Hrun & _ & _ & Hcalls & Hsplit & Hch
        & _ & _ & _ & Hres).
  rewrite Hrun. cbn [snd]. rewrite Hcalls.
  unfold pipelineCalls in Hsplit. rewrite Hch in Hsplit. fold ch in Hsplit.
  destruct (tablesToRemove ch) as [|c removed] eqn:Hrem; [destruct Hremoved|].
  simpl in Hsplit.
  destruct tr as [|c0 tr].
  - exfalso. destruct res as [a'|].
    + destruct Hres as (_ & -> & _). discriminate.
    + destruct Hres as (c' & [] & _).
  - injection Hsplit as -> _. now exists tr.
Qed.
End Hidden.

(* --------------------------------------------------------------------- *)
(** ** [EditorTableDBML]: which changes of the text are applied *)
(* --------------------------------------------------------------------- *)

Section Changes.
Context {host : Host}.

(** The run behind the guards is the one of [applyDBMLChanges]: with the
    state of the render for the state of the moment, the callback of a
    render is [applyDBMLChanges] itself. *)
Lemma applyDBMLChanges_guarded (currentDiagram : Diagram.t)
    (content : string) (w : World EditorTableDBML.State) :
  Change.applyDBMLChangesOf (session w) currentDiagram content w
  = EditorTableDBML.applyDBMLChanges currentDiagram content w.
Proof. reflexivity. Qed.

Lemma applyDBMLChangesOf_agree (rendered rendered' : EditorTableDBML.State)
    (currentDiagram : Diagram.t) (content : string) :
  EditorTableDBML.dbmlError rendered = EditorTableDBML.dbmlError rendered' ->
  EditorTableDBML.isApplying rendered = EditorTableDBML.isApplying rendered' ->
  EditorTableDBML.originalDbmlContent rendered
  = EditorTableDBML.originalDbmlContent rendered' ->
  Change.applyDBMLChangesOf rendered currentDiagram content
  = Change.applyDBMLChangesOf rendered' currentDiagram content.
Proof.
  intros Herr Happlying Hbaseline. unfold Change.applyDBMLChangesOf.
  now rewrite Herr, Happlying, Hbaseline.
Qed.

Lemma validateDBML_run (text : string) (w : World EditorTableDBML.State) :
  exists valid w',
    EditorTableDBML.validateDBML (Some text) w = (Normal valid, w')
    /\ storeCalls w' = storeCalls w
    /\ toasts w' = toasts w
    /\ idsDrawn w' = idsDrawn w
    /\ clockReads w' = clockReads w
    /\ (session w'
        = EditorTableDBML.setDbmlError' None (session w)
        \/ session w'
           = EditorTableDBML.setLastValidContent' text
               (EditorTableDBML.setDbmlError' None (session w))
        \/ exists thrown,
             valid = false /\ Parser_parse text = Some thrown
             /\ session w'
                = EditorTableDBML.setDbmlError' (parseDBMLError thrown)
                    (session w))
    /\ (valid = true ->
        passesValidation text
        /\ EditorTableDBML.dbmlError (session w') = None
        /\ (truthy text = true -> truthy (String_trim text) = true ->
            EditorTableDBML.lastValidContentRef (session w') = text)).
Proof.
  unfold EditorTableDBML.validateDBML, passesValidation.
  destruct (truthy text) eqn:Htext; simpl.
  2:{ eexists _, _. split; [reflexivity|]. simpl. split_ands; auto.
      intros _. split_ands; auto. discriminate. }
  destruct (truthy (String_trim text)) eqn:Htrim; simpl.
  2:{ eexists _, _. split; [reflexivity|]. simpl. split_ands; auto.
      intros _. split_ands; auto. discriminate. }
  destruct (Parser_parse text) as [thrown|] eqn:Hparse.
  - eexists _, _. split; [reflexivity|]. simpl. split_ands; auto.
    + right. right. eauto.
    + discriminate.
  - eexists _, _. split; [reflexivity|]. simpl. split_ands; auto.
Qed.

(** X25. A change of the text of the editor reaches the store only when
    everything is in its favour: the change is not a programmatic one,
    the text differs from the content and from the baseline of the
    render, it is empty, blank or accepted by the parser, the render had
    no parse error and no run going on, no run is in progress, and the
    importer reads the text. *)
Theorem only_accepted_changes_reach_the_store
    (rendered : EditorTableDBML.State) (currentDiagram : Diagram.t)
    (value : option string) (w : World EditorTableDBML.State) :
  storeCalls (snd (Change.handleDBMLChange rendered currentDiagram value w))
  <> storeCalls w ->
  exists text importedDiagram,
    value = Some text
    /\ EditorTableDBML.skipContentChangeRef (session w) = false
    /\ text <> EditorTableDBML.dbmlContent rendered
    /\ text <> EditorTableDBML.originalDbmlContent rendered
    /\ passesValidation text
    /\ EditorTableDBML.dbmlError rendered = None
    /\ EditorTableDBML.isApplying rendered = false
    /\ EditorTableDBML.changesInProgressRef (session w) = false
    /\ importDBMLToDiagram text = Some importedDiagram.
Proof.
  unfold Change.handleDBMLChange.
  destruct value as [text|]; [|now intros []].
  unfold mbind at 1, M_bind at 1, getSession.
  destruct (EditorTableDBML.skipContentChangeRef (session w)) eqn:Hskip;
    [now intros []|].
  destruct (String.eqb_spec text (EditorTableDBML.dbmlContent rendered))
    as [_|Hcontent]; [now intros []|].
  unfold mbind at 1, M_bind at 1, now at 1.
  unfold mbind at 1, M_bind at 1, modifySession at 1.
  unfold mbind at 1, M_bind at 1, modifySession at 1.
  unfold mbind at 1, M_bind at 1, modifySession at 1.
  cbn [session storeCalls toasts idsDrawn clockReads].
  match goal with
  | |- context [mkWorld ?s ?c ?t ?i ?k] => set (wEdited := mkWorld s c t i k)
  end.
  assert (Hcalls : storeCalls wEdited = storeCalls w) by reflexivity.
  assert (Hprogress : EditorTableDBML.changesInProgressRef (session wEdited)
                      = EditorTableDBML.changesInProgressRef (session w))
    by reflexivity.
  clearbody wEdited.
  unfold mbind at 1, M_bind at 1.
  destruct (validateDBML_run text wEdited)
    as (valid & w2 & -> & Hc2 & _ & _ & _ & Hs2 & Hvalid).
  assert (Hprogress2 : EditorTableDBML.changesInProgressRef (session w2)
                       = EditorTableDBML.changesInProgressRef (session w)).
  { rewrite <- Hprogress.
    destruct Hs2 as [-> |[-> |(thrown & _ & _ & ->)]]; reflexivity. }
  destruct valid; [|simpl; intros Hne; destruct Hne; congruence].
  destruct (Hvalid eq_refl) as (Hpasses & _).
  destruct (String.eqb_spec text (EditorTableDBML.originalDbmlContent rendered))
    as [_|Hbaseline]; [simpl; intros Hne; destruct Hne; congruence|].
  cbn [andb negb]. unfold Change.applyDBMLChangesOf.
  unfold mbind at 1, M_bind at 1, getSession.
  destruct (EditorTableDBML.dbmlError rendered) as [err|] eqn:Herr;
    [simpl; intros Hne; destruct Hne; congruence|].
  rewrite Hprogress2.
  destruct (EditorTableDBML.changesInProgressRef (session w)) eqn:Hcip;
    [simpl; intros Hne; destruct Hne; congruence|].
  destruct (EditorTableDBML.isApplying rendered) eqn:Happlying;
    [simpl; intros Hne; destruct Hne; congruence|].
  replace (bool_decide (is_Some (@None DBMLError))) with false
    by reflexivity.
  cbn [orb].
  destruct (String.eqb text (EditorTableDBML.originalDbmlContent rendered));
    [simpl; intros Hne; destruct Hne; congruence|].
  destruct (applyAfterGuards_run currentDiagram text w2)
    as (w3 & w4 & _ & Hc3 & _ & _ & _ & -> & _ & Hcase).
  destruct (importDBMLToDiagram text) as [importedDiagram|] eqn:Himport.
  - intros _. exists text, importedDiagram. split_ands; auto.
  - subst w4. simpl. intros Hne. destruct Hne. congruence.
Qed.

(** X26. The edit that repairs the text is not applied. In a render that
    had a parse error, a change to a text that the parser accepts clears
    the error and records the text as the last valid content, but the
    [applyDBMLChanges] it calls is the one of the render, which still
    sees the error: the store is not called and no toast is shown. *)
Theorem edit_that_repairs_the_text_is_not_applied
    (rendered : EditorTableDBML.State) (currentDiagram : Diagram.t)
    (text : string) (err : DBMLError) (w : World EditorTableDBML.State) :
  EditorTableDBML.dbmlError rendered = Some err ->
  EditorTableDBML.skipContentChangeRef (session w) = false ->
  text <> EditorTableDBML.dbmlContent rendered ->
  truthy text = true ->
  truthy (String_trim text) = true ->
  Parser_parse text = None ->
  exists w',
    Change.handleDBMLChange rendered currentDiagram (Some text) w
    = (Normal tt, w')
    /\ EditorTableDBML.dbmlError (session w') = None
    /\ EditorTableDBML.dbmlContent (session w') = text
    /\ EditorTableDBML.lastValidContentRef (session w') = text
    /\ EditorTableDBML.userHasEditedRef (session w') = true
    /\ EditorTableDBML.originalDbmlContent (session w')
       = EditorTableDBML.originalDbmlContent (session w)
    /\ storeCalls w' = storeCalls w
    /\ toasts w' = toasts w.
Proof.
  intros Herr Hskip Hcontent Htext Htrim Hparse.
  unfold Change.handleDBMLChange.
  unfold mbind at 1, M_bind at 1, getSession. rewrite Hskip.
  apply String.eqb_neq in Hcontent. rewrite Hcontent.
  unfold mbind, M_bind, now, modifySession, EditorTableDBML.validateDBML.
  cbn [session storeCalls toasts idsDrawn clockReads].
  rewrite Htext, Htrim, Hparse. cbn [negb orb].
  unfold mbind, M_bind, modifySession, mret, M_ret.
  cbn [session storeCalls toasts idsDrawn clockReads].
  unfold Change.applyDBMLChangesOf, mbind, M_bind, getSession.
  rewrite Herr.
  replace (bool_decide (is_Some (Some err))) with true by reflexivity.
  cbn [orb].
  destruct (negb (String.eqb text
                    (EditorTableDBML.originalDbmlContent rendered)));
    cbn [andb]; (eexists; split; [reflexivity|]; simpl; split_ands; auto).
Qed.

(** The handler of a render that is up to date, that has no parse
    error and no run going on, hands a text that differs from content and
    baseline and that the parser accepts to [applyDBMLChanges]: what the
    change does is what [applyDBMLChanges] does once the edit has been
    recorded in the state, the clock read once. *)
Lemma accepted_change_is_applied (currentDiagram : Diagram.t)
    (text : string) (w : World EditorTableDBML.State) :
  EditorTableDBML.skipContentChangeRef (session w) = false ->
  EditorTableDBML.dbmlError (session w) = None ->
  text <> EditorTableDBML.dbmlContent (session w) ->
  text <> EditorTableDBML.originalDbmlContent (session w) ->
  truthy text = true ->
  truthy (String_trim text) = true ->
  Parser_parse text = None ->
  Change.handleDBMLChange (session w) currentDiagram (Some text) w
  = EditorTableDBML.applyDBMLChanges currentDiagram text
      (mkWorld
         (EditorTableDBML.setLastValidContent' text
            (EditorTableDBML.setDbmlError' None
               (EditorTableDBML.setDbmlContent' text
                  (EditorTableDBML.setUserHasEdited' true
                     (EditorTableDBML.setLastUpdateTime'
                        (Date_now (clockReads w)) (session w))))))
         (storeCalls w) (toasts w) (idsDrawn w)
         (Datatypes.S (clockReads w))).
Proof.
  intros Hskip Herr Hcontent Hbaseline Htext Htrim Hparse.
  unfold Change.handleDBMLChange.
  unfold mbind at 1, M_bind at 1, getSession. rewrite Hskip.
  apply String.eqb_neq in Hcontent, Hbaseline. rewrite Hcontent.
  unfold mbind, M_bind, now, modifySession, EditorTableDBML.validateDBML.
  cbn [session storeCalls toasts idsDrawn clockReads].
  rewrite Htext, Htrim, Hparse. cbn [negb orb].
  unfold mbind, M_bind, modifySession, mret, M_ret.
  cbn [session storeCalls toasts idsDrawn clockReads].
  rewrite Hbaseline. cbn [negb andb].
  rewrite <- applyDBMLChanges_guarded. cbn [session].
  apply (f_equal (fun m => m _)).
  apply applyDBMLChangesOf_agree; [|reflexivity|reflexivity].
  now rewrite Herr.
Qed.
End Changes.

Lemma table_hidden_by_the_filter_is_removed_witness :
  In Sample.orders
     (tablesToRemove
        (reconcileTables (Diagram.tables Sample.diagram)
                         (Diagram.tables Scenario.onlyUsers)))
  /\ exists rest,
       storeCalls
         (snd (@reconcileAndApply Sample.host unit TableDBML.removalRule
                 Sample.diagram Scenario.onlyUsers (Sample.world tt)))
       = storeCalls (Sample.world tt)
         ++ removeTables
              (map DBTable.id
                 (tablesToRemove
                    (reconcileTables (Diagram.tables Sample.diagram)
                                     (Diagram.tables Scenario.onlyUsers))))
            :: rest.
Proof.
  apply (@table_hidden_by_the_filter_is_removed
           Sample.host Scenario.lib unit TableDBML.removalRule
           Sample.diagram Scenario.onlyUsers "users" None Sample.orders
           (Sample.world tt)).
  - unfold uniqueKeys. vm_compute. distinct_strings.
  - intros t [<-|[<-|[]]]; reflexivity.
  - reflexivity.
  - right. left. reflexivity.
  - vm_compute. intros [Heq|[]]. discriminate Heq.
Defined.

Lemma only_accepted_changes_reach_the_store_witness :
  exists text importedDiagram,
    Some "Table Users { id int }" = Some text
    /\ EditorTableDBML.skipContentChangeRef
         (session (Sample.world Sample.editorState)) = false
    /\ text <> EditorTableDBML.dbmlContent Sample.editorState
    /\ text <> EditorTableDBML.originalDbmlContent Sample.editorState
    /\ @passesValidation Sample.host text
    /\ EditorTableDBML.dbmlError Sample.editorState = None
    /\ EditorTableDBML.isApplying Sample.editorState = false
    /\ EditorTableDBML.changesInProgressRef
         (session (Sample.world Sample.editorState)) = false
    /\ @importDBMLToDiagram Sample.host text = Some importedDiagram.
Proof.
  apply (@only_accepted_changes_reach_the_store Sample.host
           Sample.editorState Sample.diagram
           (Some "Table Users { id int }")
           (Sample.world Sample.editorState)).
  vm_compute. discriminate.
Defined.

Lemma edit_that_repairs_the_text_is_not_applied_witness :
  exists w',
    @Change.handleDBMLChange Sample.host Scenario.editorWithError
      Sample.diagram (Some "Table Users { id int }")
      (Sample.world Scenario.editorWithError)
    = (Normal tt, w')
    /\ EditorTableDBML.dbmlError (session w') = None
    /\ EditorTableDBML.dbmlContent (session w') = "Table Users { id int }"
    /\ EditorTableDBML.lastValidContentRef (session w')
       = "Table Users { id int }"
    /\ EditorTableDBML.userHasEditedRef (session w') = true
    /\ EditorTableDBML.originalDbmlContent (session w')
       = EditorTableDBML.originalDbmlContent
           (session (Sample.world Scenario.editorWithError))
    /\ storeCalls w' = storeCalls (Sample.world Scenario.editorWithError)
    /\ toasts w' = toasts (Sample.world Scenario.editorWithError).
Proof.
  apply (@edit_that_repairs_the_text_is_not_applied Sample.host
           Scenario.editorWithError Sample.diagram
           "Table Users { id int }" Sample.parseError
           (Sample.world Scenario.editorWithError)).
  - reflexivity.
  - reflexivity.
  - discriminate.
  - reflexivity.
  - reflexivity.
  - reflexivity.
Defined.

(* --------------------------------------------------------------------- *)
(** ** The diagram after a run *)
(* --------------------------------------------------------------------- *)

Lemma existingRelationship_None (currentRelationships : list DBRelationship.t)
    (e : Endpoints) :
  (forall r, In r currentRelationships ->
     ~ connectsEndpoints r
         (currentSourceTableId e) (DBField.id (currentSourceField e))
         (currentTargetTableId e) (DBField.id (currentTargetField e))) ->
  existingRelationship currentRelationships e = None.
Proof.
  intros Hnone. unfold existingRelationship.
  induction currentRelationships as [|r rs IH]; simpl; [reflexivity|].
  destruct (connects _ _ _ _ r) eqn:Hconn.
  - apply connects_true in Hconn. now destruct (Hnone r (or_introl eq_refl)).
  - apply IH. intros r' Hr'. apply Hnone. now right.
Qed.

Lemma tableNameToCurrentId_unique (tables : list DBTable.t) (t : DBTable.t) :
  List.NoDup (map DBTable.name tables) -> In t tables ->
  tableNameToCurrentId tables !! DBTable.name t = Some (DBTable.id t).
Proof.
  intros Hnd Hin. apply in_split in Hin as (before & after & ->).
  apply tableNameToCurrentId_last. intros a Ha Heq.
  rewrite map_app in Hnd. simpl in Hnd.
  apply NoDup_remove_2 in Hnd. apply Hnd.
  apply in_or_app. right. rewrite <- Heq. now apply in_map.
Qed.

(** X27. A reference of the imported schema between two fields it has
    becomes a relationship of the diagram when names and ids identify the
    tables of the merged list, each end has, under a non-empty id, the
    table of the imported table's name with a field of the imported
    field's name, and no relationship of the diagram connects these two
    fields yet: the relationship created connects the first fields of
    these names, by the ids the diagram knows them by, with the
    cardinalities of the reference. *)
Theorem new_reference_becomes_a_relationship
    (currentRelationships : list DBRelationship.t)
    (importedTables updated : list DBTable.t) (rel : DBRelationship.t)
    (ist itt cst ctt : DBTable.t) (isf itf csf ctf : DBField.t) :
  findTableById (DBRelationship.sourceTableId rel) importedTables = Some ist ->
  findTableById (DBRelationship.targetTableId rel) importedTables = Some itt ->
  findFieldById (DBRelationship.sourceFieldId rel) (DBTable.fields ist)
  = Some isf ->
  findFieldById (DBRelationship.targetFieldId rel) (DBTable.fields itt)
  = Some itf ->
  List.NoDup (map DBTable.name updated) ->
  List.NoDup (map DBTable.id updated) ->
  In cst updated -> DBTable.name cst = DBTable.name ist ->
  DBTable.id cst <> "" ->
  In ctt updated -> DBTable.name ctt = DBTable.name itt ->
  DBTable.id ctt <> "" ->
  firstNamed (DBField.name isf) (DBTable.fields cst) csf ->
  firstNamed (DBField.name itf) (DBTable.fields ctt) ctf ->
  (forall r, In r currentRelationships ->
     ~ connectsEndpoints r (DBTable.id cst) (DBField.id csf)
                           (DBTable.id ctt) (DBField.id ctf)) ->
  exists e,
    endpointsToAdd currentRelationships importedTables updated rel = Some e
    /\ forall newId t,
         let created := mappedRelationship rel e newId t in
         DBRelationship.id created = newId
         /\ DBRelationship.sourceTableId created = DBTable.id cst
         /\ DBRelationship.sourceFieldId created = DBField.id csf
         /\ DBRelationship.targetTableId created = DBTable.id ctt
         /\ DBRelationship.targetFieldId created = DBField.id ctf
         /\ DBRelationship.sourceCardinality created
            = DBRelationship.sourceCardinality rel
         /\ DBRelationship.targetCardinality created
            = DBRelationship.targetCardinality rel.
Proof.
  intros Hist Hitt Hisf Hitf Hnames Hids Hcst Hsn Hsid Hctt Htn Htid
    Hcsf Hctf Hnew.
  assert (Hs : currentIdOf (tableNameToCurrentId updated) (DBTable.name ist)
               = Some (DBTable.id cst)).
  { apply currentIdOf_Some. split; [|now apply truthy_nonempty].
    rewrite <- Hsn. now apply tableNameToCurrentId_unique. }
  assert (Ht : currentIdOf (tableNameToCurrentId updated) (DBTable.name itt)
               = Some (DBTable.id ctt)).
  { apply currentIdOf_Some. split; [|now apply truthy_nonempty].
    rewrite <- Htn. now apply tableNameToCurrentId_unique. }
  pose proof (findTableById_unique updated cst Hids Hcst) as Hfs.
  pose proof (findTableById_unique updated ctt Hids Hctt) as Hft.
  apply findFieldByName_firstNamed in Hcsf, Hctf.
  set (e := {| importedSourceTable := ist; importedTargetTable := itt;
               importedSourceField := isf; importedTargetField := itf;
               currentSourceTableId := DBTable.id cst;
               currentTargetTableId := DBTable.id ctt;
               currentSourceTable := cst; currentTargetTable := ctt;
               currentSourceField := csf; currentTargetField := ctf |}).
  assert (Hres : resolveEndpoints importedTables updated rel = Some e).
  { unfold resolveEndpoints. rewrite Hist, Hitt. simpl.
    rewrite Hisf, Hitf. simpl. rewrite Hs, Ht. simpl.
    rewrite Hfs, Hft. simpl. rewrite Hcsf, Hctf. reflexivity. }
  exists e. split.
  - unfold endpointsToAdd. rewrite Hres. simpl.
    rewrite (existingRelationship_None currentRelationships e Hnew).
    reflexivity.
  - intros newId t. simpl. split_ands; reflexivity.
Qed.

Lemma new_reference_becomes_a_relationship_witness :
  exists e,
    endpointsToAdd
      (Diagram.relationships Sample.diagram)
      (Diagram.tables Sample.edited)
      (updatedDiagramTables
         (Diagram.tables Sample.diagram)
         (reconcileTables (Diagram.tables Sample.diagram)
                          (Diagram.tables Sample.edited)))
      Sample.importedRef
    = Some e
    /\ forall newId t,
         let created := mappedRelationship Sample.importedRef e newId t in
         DBRelationship.id created = newId
         /\ DBRelationship.sourceTableId created
            = DBTable.id Sample.importedPurchases
         /\ DBRelationship.sourceFieldId created
            = DBField.id (Sample.field "i-7" "user_id")
         /\ DBRelationship.targetTableId created
            = DBTable.id
                (tableWithPreservedIds Sample.users Sample.importedUsers)
         /\ DBRelationship.targetFieldId created
            = DBField.id (Sample.field "f-users-id" "id")
         /\ DBRelationship.sourceCardinality created
            = DBRelationship.sourceCardinality Sample.importedRef
         /\ DBRelationship.targetCardinality created
            = DBRelationship.targetCardinality Sample.importedRef.
Proof.
  apply (new_reference_becomes_a_relationship
           (Diagram.relationships Sample.diagram)
           (Diagram.tables Sample.edited) _ Sample.importedRef
           Sample.importedPurchases Sample.importedUsers
           Sample.importedPurchases
           (tableWithPreservedIds Sample.users Sample.importedUsers)
           (Sample.field "i-7" "user_id") (Sample.field "i-2" "id")
           (Sample.field "i-7" "user_id") (Sample.field "f-users-id" "id")).
  - reflexivity.
  - reflexivity.
  - reflexivity.
  - reflexivity.
  - vm_compute. distinct_strings.
  - vm_compute. distinct_strings.
  - vm_compute. right. left. reflexivity.
  - reflexivity.
  - discriminate.
  - vm_compute. left. reflexivity.
  - reflexivity.
  - discriminate.
  - exists [Sample.field "i-6" "id"], []. split_ands; [reflexivity|reflexivity|].
    intros f [<-|[]]. discriminate.
  - exists [], [Sample.field "f-users-name" "name"; Sample.field "i-4" "email"].
    split_ands; [reflexivity|reflexivity|]. intros f [].
  - intros r [<-|[]] Hconn. destruct Hconn as [(H1 & _)|(H1 & _)];
      discriminate H1.
Defined.

Lemma EditorTableDBML_removalRule_false
    (currentDiagram importedDiagram : Diagram.t) (ch : TableChanges)
    (rel : DBRelationship.t) :
  EditorTableDBML.removalRule currentDiagram importedDiagram ch rel = false ->
  TableDBML.removalRule currentDiagram importedDiagram ch rel = false.
Proof.
  unfold EditorTableDBML.removalRule, TableDBML.removalRule.
  destruct (isConnectedToRemovedTable (tablesToRemove ch) rel); [auto|].
  now destruct (absentFromImport _ _ rel).
Qed.

(** A relationship that [TableDBML] keeps refers, with the ids it has,
    to fields of tables of the merged list. *)
Lemma kept_relationship_refers_into_merged
    (currentDiagram importedDiagram : Diagram.t) (rel : DBRelationship.t) :
  wellFormedDiagram currentDiagram ->
  uniqueKeys (Diagram.tables importedDiagram) ->
  In rel (Diagram.relationships currentDiagram) ->
  TableDBML.removalRule currentDiagram importedDiagram
    (reconcileTables (Diagram.tables currentDiagram)
                     (Diagram.tables importedDiagram)) rel
  = false ->
  refersInto
    (updatedDiagramTables
       (Diagram.tables currentDiagram)
       (reconcileTables (Diagram.tables currentDiagram)
                        (Diagram.tables importedDiagram)))
    rel.
Proof.
  intros (Hids & Hcur & _ & Hfields & Hrels) Himp Hin Hkept.
  destruct (Hrels rel Hin) as (a & b & c & d & Hnames & Hb & Hd).
  apply endpointNames_Some in Hnames
    as (srcT & tgtT & srcF & tgtF & Hst & Htt & Hsf & Htf & Hn).
  injection Hn as -> -> -> ->.
  destruct (proj1 (TableDBML_removalRule_false
                     currentDiagram importedDiagram rel
                     srcT tgtT srcF tgtF Hcur Himp Hids Hst Htt Hsf Htf Hb Hd)
                  Hkept) as [Hsource Htarget].
  apply findTableById_Some in Hst as [Hsin Hsid].
  apply findTableById_Some in Htt as [Htin Htid].
  apply findFieldById_Some in Hsf as [Hsfin Hsfid].
  apply findFieldById_Some in Htf as [Htfin Htfid].
  assert (Hend : forall table field,
            In table (Diagram.tables currentDiagram) ->
            In field (DBTable.fields table) ->
            endpointSurvives (Diagram.tables importedDiagram) table field ->
            endpointIn
              (updatedDiagramTables
                 (Diagram.tables currentDiagram)
                 (reconcileTables (Diagram.tables currentDiagram)
                                  (Diagram.tables importedDiagram)))
              (DBTable.id table) (DBField.id field)).
  { intros table field Htable Hfield (t & f & Ht & Hk & Hf & Hname).
    exists (tableWithPreservedIds table t), (preserveFieldId table f).
    split_ands.
    - apply (merged_iff _ _ Hcur Himp Hids). left. exists table, t. auto.
    - reflexivity.
    - simpl. now apply in_map.
    - unfold preserveFieldId. rewrite Hname.
      rewrite (findFieldByName_unique _ field (Hfields table Htable) Hfield).
      reflexivity. }
  split.
  - rewrite <- Hsid, <- Hsfid. now apply Hend.
  - rewrite <- Htid, <- Htfid. now apply Hend.
Qed.

(** X28. After a completed run of the pipeline of either component on a
    well-formed diagram and an imported schema whose keys are distinct,
    the merged diagram, which is handed to the exporter, has no dangling
    relationship: every relationship that was kept and every relationship
    that was created connects, by id, a field of a table of the merged
    list to a field of a table of the merged list. *)
Theorem merged_diagram_has_no_dangling_relationship {host : Host}
    {S : Type}
    (rule : Diagram.t -> Diagram.t -> TableChanges -> DBRelationship.t -> bool)
    (currentDiagram importedDiagram : Diagram.t) (w w' : World S)
    (a : Applied) :
  wellFormedDiagram currentDiagram ->
  uniqueKeys (Diagram.tables importedDiagram) ->
  rule = TableDBML.removalRule \/ rule = EditorTableDBML.removalRule ->
  reconcileAndApply rule currentDiagram importedDiagram w = (Normal a, w') ->
  forall r,
    In r (Diagram.relationships (mergedDiagram currentDiagram a)) ->
    refersInto (Diagram.tables (mergedDiagram currentDiagram a)) r.
Proof.
  intros Hwf Himp Hrule Hrun r Hr.
  destruct (reconcileAndApply_run rule currentDiagram importedDiagram w)
    as (res & w0 & a0 & tr & rest & Hrun0 & _ & _ & _ & _ & Hch & Hrem & Hupd
        & (w1 & w2 & Hmap) & Hres).
  rewrite Hrun in Hrun0. injection Hrun0 as <- <-.
  destruct Hres as (<- & _ & _).
  unfold mergedDiagram in *. simpl in *.
  apply in_app_or in Hr as [Hkept|Hadded].
  - apply filter_In in Hkept as [Hin Hkept].
    rewrite Hupd, Hch.
    apply kept_relationship_refers_into_merged; auto.
    assert (Hfalse : rule currentDiagram importedDiagram (changes a) r
                     = false).
    { destruct (rule currentDiagram importedDiagram (changes a) r) eqn:Hr;
        [|reflexivity].
      exfalso. apply negb_true_iff in Hkept.
      assert (Htrue : existsb
                        (fun q => String.eqb (DBRelationship.id q)
                                             (DBRelationship.id r))
                        (relationshipsToRemove a) = true).
      { apply existsb_exists. exists r. split; [|apply String.eqb_refl].
        rewrite Hrem. apply filter_In. auto. }
      congruence. }
    rewrite Hch in Hfalse.
    destruct Hrule as [-> | ->]; [exact Hfalse|].
    now apply EditorTableDBML_removalRule_false.
  - destruct (mapRelationships_draws
                (Diagram.relationships currentDiagram)
                (Diagram.tables importedDiagram)
                (updatedTables a) (Diagram.relationships importedDiagram) w1)
      as (out & w3 & Hrun3 & _ & _ & _ & _ & _ & _ & _ & _ & Hall).
    rewrite Hmap in Hrun3. injection Hrun3 as Hout _.
    rewrite Hout in Hadded. rewrite List.Forall_forall in Hall.
    now apply Hall.
Qed.

Lemma merged_diagram_has_no_dangling_relationship_witness :
  Forall
    (refersInto
       (Diagram.tables (mergedDiagram Sample.diagram Scenario.roundTripPlan)))
    (Diagram.relationships
       (mergedDiagram Sample.diagram Scenario.roundTripPlan)).
Proof.
  apply List.Forall_forall.
  apply (@merged_diagram_has_no_dangling_relationship
           Sample.roundTripHost unit TableDBML.removalRule
           Sample.diagram Sample.reimported
           (Sample.world tt) (snd Scenario.roundTripRun)
           Scenario.roundTripPlan).
  - exact sample_wellFormed.
  - unfold uniqueKeys. vm_compute. distinct_strings.
  - now left.
  - vm_compute. reflexivity.
Defined.

(* --------------------------------------------------------------------- *)
(** ** Which relationships [EditorTableDBML] keeps *)
(* --------------------------------------------------------------------- *)

Lemma absentFromImport_false (currentTables : list DBTable.t)
    (importedDiagram : Diagram.t) (rel : DBRelationship.t)
    (names : string * string * string * string) :
  endpointNames currentTables rel = Some names ->
  absentFromImport currentTables (importedRelationshipMap importedDiagram) rel
  = false
  <-> exists q importedNames,
        In q (Diagram.relationships importedDiagram)
        /\ endpointNames (Diagram.tables importedDiagram) q
           = Some importedNames
        /\ matchedByNames importedNames names.
Proof.
  intros Hnames. unfold absentFromImport. rewrite Hnames.
  destruct names as [[[a b] c] d].
  rewrite andb_false_iff, !negb_false_iff, !importedRelationshipMap_has.
  unfold matchedByNames. split.
  - intros [(q & a' & b' & c' & d' & Hq & Hm & Hk)
           |(q & a' & b' & c' & d' & Hq & Hm & Hk)];
      exists q, (a', b', c', d'); (split; [exact Hq|split; [exact Hm|]]);
      destruct Hk as [Hk|Hk]; rewrite Hk; auto.
  - intros (q & [[[a' b'] c'] d'] & Hq & Hm & [Hk|[Hk|[Hk|Hk]]]).
    + left. exists q, a', b', c', d'. auto.
    + left. exists q, a', b', c', d'. auto.
    + right. exists q, a', b', c', d'. auto.
    + right. exists q, a', b', c', d'. auto.
Qed.

(** X29. For a relationship between two named fields of current tables,
    when keys and ids identify the tables: [EditorTableDBML] keeps the
    relationship exactly when the imported schema still has both
    endpoints and names a relationship between them, that is, one whose
    key, read in either direction, is the key of the relationship, read
    in either direction. *)
Theorem EditorTableDBML_keeps_what_the_text_still_names
    (currentDiagram importedDiagram : Diagram.t) (rel : DBRelationship.t)
    (sourceTable targetTable : DBTable.t) (sourceField targetField : DBField.t) :
  uniqueKeys (Diagram.tables currentDiagram) ->
  uniqueKeys (Diagram.tables importedDiagram) ->
  List.NoDup (map DBTable.id (Diagram.tables currentDiagram)) ->
  findTableById (DBRelationship.sourceTableId rel)
                (Diagram.tables currentDiagram) = Some sourceTable ->
  findTableById (DBRelationship.targetTableId rel)
                (Diagram.tables currentDiagram) = Some targetTable ->
  findFieldById (DBRelationship.sourceFieldId rel)
                (DBTable.fields sourceTable) = Some sourceField ->
  findFieldById (DBRelationship.targetFieldId rel)
                (DBTable.fields targetTable) = Some targetField ->
  DBField.name sourceField <> "" ->
  DBField.name targetField <> "" ->
  EditorTableDBML.removalRule currentDiagram importedDiagram
    (reconcileTables (Diagram.tables currentDiagram)
                     (Diagram.tables importedDiagram)) rel
  = false
  <-> endpointSurvives (Diagram.tables importedDiagram)
                       sourceTable sourceField
      /\ endpointSurvives (Diagram.tables importedDiagram)
                          targetTable targetField
      /\ exists q importedNames,
           In q (Diagram.relationships importedDiagram)
           /\ endpointNames (Diagram.tables importedDiagram) q
              = Some importedNames
           /\ matchedByNames importedNames
                (DBTable.name sourceTable, DBField.name sourceField,
                 DBTable.name targetTable, DBField.name targetField).
Proof.
  intros Hcur Himp Hids Hst Htt Hsf Htf Hsn Htn.
  pose proof (TableDBML_removalRule_false currentDiagram importedDiagram rel
                sourceTable targetTable sourceField targetField
                Hcur Himp Hids Hst Htt Hsf Htf Hsn Htn) as Hexplicit.
  assert (Hnames : endpointNames (Diagram.tables currentDiagram) rel
                   = Some (DBTable.name sourceTable, DBField.name sourceField,
                           DBTable.name targetTable, DBField.name targetField)).
  { unfold endpointNames. rewrite Hst, Htt. simpl. now rewrite Hsf, Htf. }
  pose proof (absentFromImport_false (Diagram.tables currentDiagram)
                importedDiagram rel _ Hnames) as Habsent.
  assert (Hassoc : forall A B C : Prop, (A /\ B) /\ C <-> A /\ B /\ C)
    by tauto.
  rewrite <- Habsent, <- Hassoc, <- Hexplicit.
  unfold EditorTableDBML.removalRule, TableDBML.removalRule.
  destruct (isConnectedToRemovedTable _ rel); [intuition discriminate|].
  destruct (absentFromImport _ _ rel); intuition discriminate.
Qed.

Lemma EditorTableDBML_keeps_what_the_text_still_names_witness :
  EditorTableDBML.removalRule Sample.diagram Sample.reimported
    (reconcileTables (Diagram.tables Sample.diagram)
                     (Diagram.tables Sample.reimported))
    Sample.ordersUser
  = false
  <-> endpointSurvives (Diagram.tables Sample.reimported)
        Sample.orders (Sample.field "f-orders-user" "user_id")
      /\ endpointSurvives (Diagram.tables Sample.reimported)
           Sample.users (Sample.field "f-users-id" "id")
      /\ exists q importedNames,
           In q (Diagram.relationships Sample.reimported)
           /\ endpointNames (Diagram.tables Sample.reimported) q
              = Some importedNames
           /\ matchedByNames importedNames
                (DBTable.name Sample.orders,
                 DBField.name (Sample.field "f-orders-user" "user_id"),
                 DBTable.name Sample.users,
                 DBField.name (Sample.field "f-users-id" "id")).
Proof.
  apply (EditorTableDBML_keeps_what_the_text_still_names
           Sample.diagram Sample.reimported Sample.ordersUser
           Sample.orders Sample.users
           (Sample.field "f-orders-user" "user_id")
           (Sample.field "f-users-id" "id")).
  - unfold uniqueKeys. vm_compute. distinct_strings.
  - unfold uniqueKeys. vm_compute. distinct_strings.
  - vm_compute. distinct_strings.
  - reflexivity.
  - reflexivity.
  - reflexivity.
  - reflexivity.
  - discriminate.
  - discriminate.
Defined.
